(* ===== verification/_CoqProject ===== *)
-Q . S2P
Prelude.v
JsValue.v
Dates.v
Async.v
ViewState.v
Url.v
Styles.v
Samples.v
Render.v
Controller.v
Machine.v
Effects.v
Screen.v
Links.v
Typed.v
Drain.v
Independence.v
Budget.v
Secret.v
Spec.v
Schema.v
Keys.v
Catalogue.v
Scenarios.v
Focus.v
Correct.v
Served.v
