(* ===== verification/Prelude.v ===== *)
(** * Verification of the movie browser (src/App.js)

    The program is one React Native component, [App], that searches a movie
    catalogue over HTTP, lists popular titles and shows the details of a
    selected title in a modal.  All of it is in src/App.js:

    - eight [useState] cells (lines 6-13);
    - three [async] request handlers [searchMovies], [fetchPopularMovies],
      [fetchMovieDetails] and the handler [openMovieModal] (lines 18-78);
    - three render functions and the JSX tree that [App] returns (lines
      80-195);
    - the style sheet (lines 198-332).

    The parts interact through the state cells only: a gesture on an
    element of the tree calls a handler; a handler writes cells, at once
    and again after each [await]; every write renders the tree anew from
    the cells.

    ** Files, in dependency order

    - [Prelude] (this file): the error monad [result], the search
      [find_first] and the map [map_result] with a function that may fail
      (the shapes of [Array.prototype.find] and [map] with a callback that
      can throw), facts on lists and strings, the tactics and the hint
      database [movie] that the other files use.
    - [JsValue]: the values that the handlers receive from
      [response.json()] and store in the state, [value], with the
      JavaScript operations that the source applies to them: property
      access [get] (throws on [null] and [undefined]), optional chaining
      [opt_get], [truthy] (ToBoolean), [or_default] ([||]),
      [strict_eq_string] and [strict_eq_number] ([===]), [ToString]
      (template literals, with the TypeError of a value that has no
      text), [to_string_method] ([.toString()]),
      [array_find] and [array_map].  Numbers and dates are interfaces:
      the class [JsNumber] states what the source needs of numbers and [Z]
      implements it; the class [JsDate] is [new Date(v).getFullYear()].
    - [Dates]: [new Date(v).getFullYear()] (line 90) for the dates of
      the catalogue, on a device at a constant offset from UTC, with the
      functions of ECMAScript that the expression goes through;
      [zone_dates tz] is the instance of [JsDate] for the offset [tz].
    - [Async]: [prog], the programs that an [async] function denotes: a
      tree of state updates, console writes and [await]s, with [try_catch]
      and [finally]; [run] executes a program up to its next [await],
      [run_alone] to its end with every request answered at once.
      Programs are compared by [prog_equiv], equality up to the
      extensional equality of continuations, with its [Proper] instances.
    - [ViewState]: the record of the eight state cells, its initial value
      and the setters.
    - [Url]: the template literals that build the addresses, each a
      [result] when a value of the catalogue is inserted, and a
      reference reader of query strings.
    - [Styles]: the style sheet as data, and the lookup [styles.n].
    - [Samples]: concrete answers of the catalogue, on which the theorems
      are applied, on a device in the zone UTC.
    - [Render]: the element tree as a function of the state: [render],
      with [renderMovieItem], [keyExtractor], [renderTrailerSection] and
      [renderDownloadOptions]; the handlers on screen [handlers] and the
      styles named [style_refs] are computed from the tree.
    - [Controller]: the four handlers as programs over [ViewState],
      statement by statement; [list_handler] and [details_handler], what a
      request does as a function of its answer; the continuations of each
      handler after each [await].
    - [Machine]: the event loop.  A [World] is the view state, the
      console, the table of suspended handlers and the rejections that
      nothing caught; [step] is the transition relation (a gesture starts
      a handler, a settlement resumes one), [exec] its executable form,
      [reachable] the worlds the application can be in, [inv] the
      invariant.
    - [Effects]: the transitions of [Machine] in closed form: an event
      is resolved into an [act] (a gesture, or the handler that a
      settlement resumes, with its kind), [guard] is what has to be on
      screen and [perform] the cells written and the entry of the table
      of handlers after it.
    - [Screen]: the application as its screen drives it: [app_step] takes
      the gestures from the rendered tree; it refines [Machine.step], and
      coincides with it where the tree can be rendered.  The details of a
      movie are followed from the answer to the elements of the modal.
    - [Links]: the two links of the modal (lines 108 and 124).  A
      [Device] is a world with what [Linking.openURL] received beside
      it; [device_step] adds the press on a link to [app_step].
    - [Typed]: the shape of the answers that the render functions
      need, and the machine on such answers, [typed_step].
    - [Drain]: [work], the number of promises that the suspended
      handlers still await.
    - [Independence]: the [footprint] of an act (the cells, the counter
      of identifiers and the pending handler that its segment reads or
      writes) and the events that are [independent].
    - [Budget]: the presses that start a request and the settlements of
      a run, counted, and what they bound.
    - [Secret]: the three endpoints that carry the key (lines 23, 41
      and 58), and [key_sim], the relation of two runs with two keys.
    - [Spec]: the controller as the specification describes it (its
      sections 3 and 4.1), written from the specification: the typed
      state [SpecState], the operations [spec_exec] with the requests in
      flight; [abstract] reads a state of the code as a state of the
      specification, [refines] relates the worlds.
    - [Schema]: the records and the bodies that the specification
      documents for the catalogue (its sections 3 and 6), as predicates
      on JSON values, and the machine on such answers, [schema_step],
      on which [Typed], [Screen] and [Spec] are composed.
    - [Keys]: the keys that [keyExtractor] (line 158) and
      [key={service.provider_id}] (line 122) give the siblings, as the
      texts that React compares.
    - [Catalogue]: the remote catalogue, written from section 6 of the
      specification: [route] reads the address of a request back into an
      endpoint, [serve] answers it from a record [Catalogue] of what the
      service holds, [catalogue_ok] are the promises that the
      specification makes of it, and [shelf] is the catalogue of a table
      of movies.
    - [Scenarios]: complete runs, the scenarios of the specification
      among them, evaluated.
    - [Focus]: the visible modal covers the screen (lines 163-168):
      [focused_step] is [app_step] restricted to the touches that the
      cover lets through.
    - [Correct]: the device on the documented catalogue, and the
      properties of the components together.
    - [Served]: the device and a catalogue together, as a closed system:
      the answer to a request in flight is what [Catalogue.serve] answers
      at its address ([served_exec]), or the request is lost.

    ** Correspondence with the code

    A state cell [const [x, setX] = useState(v)] is a field [x] of
    [ViewState.ViewState] and a function [setX]; [initial] holds the
    arguments of [useState].  An [async] function is a [prog]: a call of a
    setter is [Upd], [await e] is [AwaitFetch] or [AwaitJson],
    [try/catch/finally] are [try_catch] and [finally], [return] is [Ret],
    a thrown exception is [Throw].  A handler reads [query] from the
    closure of the render that created it: the program takes it as an
    argument, and the machines pass the value of the cell at the time of
    the press.  Between two [await]s JavaScript runs a handler without
    interruption, so one transition is one such segment, and the
    interleavings of the handlers are the orders of the settlements.

    A JSX element is a constructor of [Render.element] with the
    properties that the source passes; [style={styles.n}] is the name
    [n]; a function passed as a property is a [Render.handler].  A
    render function that reads a property of [null] or [undefined], or
    calls [map] on a value that has none, throws: [render] returns a
    [result].

    The key [API_KEY] (line 16) is a section variable: no theorem depends
    on its value, and [Secret] shows that nothing but the addresses of
    the requests does.  Line 16 itself does not parse: it reads
    [const API_KEY ';], a declaration without a value followed by a text
    that is not closed.

    ** What the theorems show

    - [JsValue], [Prelude]: the behaviour of each operation on every kind
      of value: which accesses throw, which values are falsy, that [find]
      stops at the first match and [map] at the first exception.
    - [Dates]: the year of a date is the year written, except on the
      first of January on a device west of Greenwich, where it is the
      year before ([getFullYear_date]); [Render.renderMovieItem_year]
      is what the list shows then.
    - [Async]: the monad laws up to [prog_equiv], that [run] and
      [run_alone] respect it, that [finally] is a [try_catch] that runs
      the finaliser on both paths, and [never_throws], a static guarantee
      that a program completes normally however its requests are answered.
    - [Controller]: each handler refines its functional description
      ([searchMovies_alone], [fetchPopularMovies_alone]); the state after
      each outcome of a request (rejection, body that is not JSON, JSON
      without the expected field, JSON with it); which cells a handler
      never writes; the trailer is the first video of type "Trailer"; the
      provider list defaults to the empty array.
    - [Url]: the catalogue reads back the text of a search when the text
      holds no [&] and no [#], and receives other parameters when it does.
    - [Render]: the handlers on screen in every state that renders
      ([render_handlers]); every style named is defined; the links can
      always be computed; a state whose lists have the expected shape
      renders, and one bad item takes the screen down.
    - [Machine]: [exec] computes [step]; the invariant holds of every
      reachable world (by induction on [reachable]): [loading] only while
      a list request is pending, a visible modal has a movie, no promise
      is rejected without a handler, the error is one of two messages;
      the races: the last answer to settle wins, a detail answer is
      written whatever the modal shows; every pending handler can be
      resumed and ends after at most two settlements.
    - [Effects]: [Machine.step] and the closed form [effect] are the
      same relation on the worlds of the invariant ([step_effect]); the
      files that reason by cases on the event use the closed form.
    - [Independence]: two events whose footprints do not meet can be
      taken in either order and lead to the same world
      ([independent_commute]), anywhere in a run ([independent_runs]):
      a race needs two segments that touch a common place, as the ends
      of two list requests do on [movies], [loading] and [error].
    - [Screen]: [app_step] refines [step] and conversely where the screen
      renders, so the invariants hold of the application; the states in
      which the render throws are reachable; what the modal shows for a
      detail answer.
    - [Links]: no press on a link throws ([links_never_throw]); a
      press opens the video of [trailerUrl] or the page of the selected
      movie and changes no cell ([link_opens]); the link can be that of
      the movie opened before ([stale_trailer_link]); a rejection of
      [Linking.openURL] is handled by nothing.
    - [Typed]: on answers of the expected shape the state keeps the
      shape that the render functions expect, so no render throws
      ([typed_renders]) and the machine and the application coincide;
      [movies] and [downloadLinks] are written by the bodies of the
      answers only.
    - [Drain]: every settlement decreases [work], so the settlements
      after the last gesture are bounded, and a world with nothing
      pending and the spinner off can always be reached ([drains]).
    - [Budget]: along every run the identifiers are bounded by the
      presses that start a request, the pending handlers by the
      identifiers, the settlements by twice the identifiers and the
      console by the settlements ([initial_run_budget], [run_budget]).
    - [Secret]: every request in flight goes to an endpoint of the
      catalogue ([requests_to_catalogue]); two runs on the same
      gestures and answers with two keys have the same states, screens
      and consoles ([key_not_observable]): the key reaches the
      catalogue and nothing else.
    - [Spec]: the code simulates the specified controller
      ([spec_simulation], [spec_refinement]) on the answers that the
      specification covers, when [openDetail] is read as keeping the
      trailer and the providers of the movie opened before; the
      specification says that it clears them, and
      [openDetail_keeps_details] and [stale_details_shown] show the
      difference.
    - [Schema]: an answer of the documented schema has the shape that
      the render functions need and is an answer of the specified
      controller; so on such answers the state is typed as section 3
      types it ([schema_state_typed]), every screen renders, the machine
      and the application coincide and refine the specified controller
      ([schema_end_to_end]), and a detail answer that is read writes
      nothing to the console ([schema_details_silent]).
    - [Keys]: the keys of the cells and of the buttons are the texts
      of the identifiers, and are distinct in every world when the
      catalogue sends each identifier once ([keys_distinct]); nothing in
      the source makes them so ([repeated_movie_same_key],
      [number_and_text_same_key]).
    - [Focus]: the device with the cover has fewer runs than the
      machine, so the invariants hold of it; the runs of the scenarios
      and of the counterexamples are runs of the device
      ([runs_focused], [links_focused]); no request starts while the
      modal is visible ([modal_starts_nothing]).
    - [Catalogue]: the catalogue reads back the endpoint and the key
      that the application wrote ([route_endpoint_url]), and of a search
      the text up to its first [&] or [#] ([query_read_prefix]); a table
      with unique identifiers is a catalogue that keeps the promises of
      the specification ([table_catalogue]); the answers of such a
      catalogue have the documented schema.
    - [Correct]: on the documented catalogue every state of the device
      has the properties that the files above prove one by one
      ([documented_correct]); the header of the file lists what stays
      wrong there.
    - [Served]: with a key that the catalogue accepts, every state of
      the closed system is correct ([served_correct]): the hypothesis of
      [Correct] on the answers is discharged by the catalogue.  A search
      that is answered and read shows the movies that the catalogue
      finds ([search_served]); a press on a movie shows the trailer and
      the providers of that very movie ([open_served]), unless the
      answer of a movie opened before arrives after it
      ([late_details_served]).  With a key that
      the catalogue refuses the list stays empty and, unless a request is
      lost, no error is shown ([refused_key_silent]).

    ** Bounds

    The handlers have no loop: [prog] is an inductive type and [run] is
    structurally recursive, so no fuel is needed.  [find] and [map] are
    structural recursions on the list.  The only search is that of
    [Dates.YearFromDay] for the year of a day: it starts at most 20
    years early for every year from -1 to 9999, which are the years of
    the dates that four digits can write, and has a fuel of 20
    ([Dates.YearFromDay_spec]).  A handler awaits at most two
    promises ([Machine.settlement_progress]), so [Drain.work] is at most
    twice the number of pending handlers, and a run from the start has
    at most two settlements per request that was started
    ([Budget.initial_run_budget]).  The source bounds neither the
    requests in flight nor the presses; the bounds are in the events of
    the run.  The source sets no timeout:
    that a promise settles is the platform's business, and the theorems
    of [Drain] are about what the code does when it does.  Strings are
    Rocq strings: a JavaScript string is modelled by its sequence of code
    units, which the source only concatenates and compares.  Numbers are kept abstract
    ([JsNumber]); the instance used in the examples is [Z], which has no
    [NaN] and no fractions: the source computes with no number, it prints
    them and compares a length with 0.  [Keys] assumes that the texts
    of two numbers differ when the numbers do, which it proves of [Z].

    ** Not modelled

    React's reconciliation and scheduling of renders (the model renders
    from the current cells), the layout, the part of the list that is on
    screen, the HTTP stack under [fetch], the JSON parser under
    [response.json()] (a response has a parsed body or none) and the
    [WebView] are the platform's.  The catalogue is not part of the
    sources: [Catalogue] is written from the specification, with the
    three endpoints, the refusal of a key and the answer to an unknown
    address or identifier; paging, rate limits and the fields that the
    application never reads are left out, and the search of [shelf]
    (the titles that hold the text, letter case included) stands for
    whatever search the service runs: the theorems of [Served] hold of
    every catalogue that satisfies [catalogue_ok].  Of [Linking.openURL] the model keeps
    the address it receives and whether its promise is rejected, not
    what the platform opens; of the modal, that it covers the screen
    while it is visible ([Focus]), which [Machine] and [Screen] leave
    out on purpose: they allow every handler of the tree.  [Render] takes the calendar behind [getFullYear] as
    a parameter; [Dates] gives it for the date-only texts, at a constant
    offset from UTC, and computes no year for a text of another form,
    which ECMAScript leaves to the platform.  A list whose data is no
    array has no cell in the model.  What React makes of a child that
    is no text (an object among the children of a [Text] is an error
    of the platform) is not modelled either: [render] is the evaluation
    of the source's own expressions. *)

From stdpp Require Export base tactics option list strings.
From Stdlib Require Export ZArith Lia.

Declare Scope movie_scope.
Delimit Scope movie_scope with movie.
Open Scope movie_scope.

Create HintDb movie discriminated.
Create Rewrite HintDb movie.

(** ** Results of fallible evaluation *)

Inductive result (E A : Type) : Type :=
| Ok (a : A)
| Err (e : E).
Arguments Ok {E A} a.
Arguments Err {E A} e.

#[export] Instance result_ret {E} : MRet (result E) := fun A a => Ok a.
#[export] Instance result_bind {E} : MBind (result E) := fun A B f r =>
  match r with
  | Ok a => f a
  | Err e => Err e
  end.
#[export] Instance result_fmap {E} : FMap (result E) := fun A B f r =>
  match r with
  | Ok a => Ok (f a)
  | Err e => Err e
  end.

#[export] Instance result_eq_dec {E A} `{EqDecision E, EqDecision A} :
  EqDecision (result E A).
Proof. solve_decision. Defined.

Definition is_Ok {E A} (r : result E A) : bool :=
  match r with
  | Ok _ => true
  | Err _ => false
  end.

Definition result_to_option {E A} (r : result E A) : option A :=
  match r with
  | Ok a => Some a
  | Err _ => None
  end.

(** ** First element satisfying a predicate that may fail

    The predicate is applied to the elements from the left; the search
    stops at the first element on which it answers [true] or fails. *)

Fixpoint find_first {E A} (p : A -> result E bool) (l : list A)
  : result E (option A) :=
  match l with
  | [] => Ok None
  | x :: l' =>
      match p x with
      | Err e => Err e
      | Ok true => Ok (Some x)
      | Ok false => find_first p l'
      end
  end.

(** ** Mapping a function that may fail over a list

    The function is applied to the elements from the left (the order of
    [Array.prototype.map]); the first failure is the result. *)

Fixpoint map_result {E A B} (f : A -> result E B) (l : list A)
  : result E (list B) :=
  match l with
  | [] => Ok []
  | x :: l' =>
      match f x with
      | Err e => Err e
      | Ok y =>
          match map_result f l' with
          | Err e => Err e
          | Ok ys => Ok (y :: ys)
          end
      end
  end.

(** ** Tactics *)

(** [case_result] splits on the first [result]-valued scrutinee of the
    goal, keeping the equation. *)
Ltac case_result :=
  match goal with
  | |- context [match ?r with Ok _ => _ | Err _ => _ end] =>
      let E := fresh "Hres" in destruct r eqn:E
  | |- context [mbind _ ?r] =>
      let E := fresh "Hres" in destruct r eqn:E; simpl
  end.

(** [simplify_result] uses the equations between [Ok] and [Err] of the
    context. *)
Ltac simplify_result :=
  repeat match goal with
  | H : Ok _ = Ok _ |- _ => inv H
  | H : Err _ = Err _ |- _ => inv H
  | H : Ok _ = Err _ |- _ => discriminate H
  | H : Err _ = Ok _ |- _ => discriminate H
  | H : Some _ = Some _ |- _ => inv H
  | H : Some _ = None |- _ => discriminate H
  | H : None = Some _ |- _ => discriminate H
  end.

(** ** Lemmas on [result] *)

Section result_lemmas.
Context {E A B : Type}.
Implicit Types (r : result E A) (f : A -> result E B).

Lemma bind_Ok_inv r f b :
  r ≫= f = Ok b <-> exists a, r = Ok a /\ f a = Ok b.
Proof.
  destruct r as [a|e]; simpl; split.
  - eauto.
  - intros (a' & Ha & Hf). by simplify_result.
  - done.
  - intros (a' & Ha & _). discriminate.
Qed.

Lemma bind_Err_inv r f e :
  r ≫= f = Err e <-> r = Err e \/ exists a, r = Ok a /\ f a = Err e.
Proof.
  destruct r as [a|e']; simpl; split.
  - eauto.
  - intros [?|(a' & Ha & Hf)]; [done|]. by simplify_result.
  - intros; simplify_result. by left.
  - intros [?|(a' & Ha & _)]; by simplify_result.
Qed.

Lemma is_Ok_true r : is_Ok r = true <-> exists a, r = Ok a.
Proof. destruct r; simpl; split; try done; eauto. by intros [? ?]. Qed.

Lemma result_to_option_Some r a : result_to_option r = Some a <-> r = Ok a.
Proof. destruct r; simpl; split; intros; by simplify_result. Qed.

End result_lemmas.

(** ** Lemmas on [find_first] *)

Section find_first_lemmas.
Context {E A : Type} (p : A -> result E bool).
Implicit Types (l : list A) (x : A).

Lemma find_first_app_false l1 l2 :
  Forall (fun y => p y = Ok false) l1 ->
  find_first p (l1 ++ l2) = find_first p l2.
Proof. induction 1 as [|y l1 Hy _ IH]; simpl; [done|]. by rewrite Hy. Qed.

Lemma find_first_Some l x :
  find_first p l = Ok (Some x) <->
  exists l1 l2, l = l1 ++ x :: l2 /\ p x = Ok true /\
                Forall (fun y => p y = Ok false) l1.
Proof.
  split.
  - induction l as [|y l IH]; simpl; [done|].
    destruct (p y) as [[]|] eqn:Hy; intros Hf; simplify_result.
    + by exists [], l.
    + destruct (IH Hf) as (l1 & l2 & -> & ? & ?).
      exists (y :: l1), l2. by repeat constructor.
  - intros (l1 & l2 & -> & Hx & Hl1).
    rewrite find_first_app_false by done. simpl. by rewrite Hx.
Qed.

Lemma find_first_None l :
  find_first p l = Ok None <-> Forall (fun y => p y = Ok false) l.
Proof.
  induction l as [|y l IH]; simpl.
  - split; [constructor|done].
  - rewrite Forall_cons.
    destruct (p y) as [[]|] eqn:Hy; [| rewrite IH |]; intuition congruence.
Qed.

Lemma find_first_Err l e :
  find_first p l = Err e <->
  exists l1 y l2, l = l1 ++ y :: l2 /\ p y = Err e /\
                  Forall (fun z => p z = Ok false) l1.
Proof.
  split.
  - induction l as [|y l IH]; simpl; [done|].
    destruct (p y) as [[]|] eqn:Hy; intros Hf; simplify_result.
    + destruct (IH Hf) as (l1 & z & l2 & -> & ? & ?).
      exists (y :: l1), z, l2. by repeat constructor.
    + by exists [], y, l.
  - intros (l1 & y & l2 & -> & Hy & Hl1).
    rewrite find_first_app_false by done. simpl. by rewrite Hy.
Qed.

Lemma find_first_elem_of l x : find_first p l = Ok (Some x) -> x ∈ l.
Proof.
  rewrite find_first_Some. intros (l1 & l2 & -> & _).
  apply elem_of_app. right. by left.
Qed.

End find_first_lemmas.

Section map_result_lemmas.
Context {E A B : Type}.
Implicit Types (f : A -> result E B) (l : list A) (x : A) (ys : list B).

Lemma map_result_Ok f l ys :
  map_result f l = Ok ys <-> Forall2 (fun x y => f x = Ok y) l ys.
Proof.
  revert ys. induction l as [|x l IH]; intros ys; simpl.
  - split; [intros [= <-]; constructor|by intros ->%Forall2_nil_inv_l].
  - destruct (f x) as [y|e] eqn:Hx.
    + destruct (map_result f l) as [ys'|e] eqn:Hl.
      * split; [intros [= <-]; constructor; [done|by apply IH]|].
        intros (y' & ys'' & Hy & Hys & ->)%Forall2_cons_inv_l.
        apply IH in Hys. congruence.
      * split; [done|].
        intros (y' & ys'' & _ & Hys & _)%Forall2_cons_inv_l.
        by apply IH in Hys.
    + split; [done|].
      intros (y' & ys'' & Hy & _)%Forall2_cons_inv_l. congruence.
Qed.

Lemma map_result_length f l ys :
  map_result f l = Ok ys -> length ys = length l.
Proof. intros Hl%map_result_Ok. symmetry. by eapply Forall2_length. Qed.

(** The result is an error exactly when [f] fails on an element; the
    error is that of the first such element. *)
Lemma map_result_Err f l e :
  map_result f l = Err e <->
  exists l1 x l2, l = l1 ++ x :: l2 /\
    Forall (fun y => is_Ok (f y) = true) l1 /\ f x = Err e.
Proof.
  split.
  - induction l as [|x l IH]; simpl; [done|].
    destruct (f x) as [y|e'] eqn:Hx; [|intros [= ->]; by exists [], x, l].
    destruct (map_result f l) as [ys|e'] eqn:Hl; [done|]. intros [= ->].
    destruct (IH eq_refl) as (l1 & x2 & l2 & -> & ? & ?).
    exists (x :: l1), x2, l2. split_and!; [done| |done].
    constructor; [by rewrite Hx|done].
  - intros (l1 & x & l2 & -> & Hl1 & Hx).
    induction Hl1 as [|z l1 Hz _ IH]; simpl; [by rewrite Hx|].
    destruct (f z); [|done]. by rewrite IH.
Qed.

Lemma map_result_total f l :
  Forall (fun x => is_Ok (f x) = true) l -> is_Ok (map_result f l) = true.
Proof.
  intros Hl. destruct (map_result f l) as [ys|e] eqn:Hm; [done|].
  apply map_result_Err in Hm as (l1 & x & l2 & -> & _ & Hx).
  apply Forall_app in Hl as [_ [Hx' _]%Forall_cons]. by rewrite Hx in Hx'.
Qed.

(** What holds of every image of [f] holds of the elements of the
    result. *)
Lemma map_result_Forall f l ys (P : B -> Prop) :
  (forall x y, x ∈ l -> f x = Ok y -> P y) ->
  map_result f l = Ok ys -> Forall P ys.
Proof.
  intros HP Hl%map_result_Ok. induction Hl as [|x y l ys Hy _ IH]; [done|].
  constructor; [apply (HP x); [left|done]|].
  apply IH. intros x' y' Hx'. apply HP. by right.
Qed.

(** Where [f] succeeds with the value of a total function [g], the
    result is the image of the list under [g]. *)
Lemma map_result_fmap f (g : A -> B) l :
  Forall (fun x => f x = Ok (g x)) l -> map_result f l = Ok (g <$> l).
Proof.
  induction 1 as [|x l Hx _ IH]; simpl; [done|]. by rewrite Hx, IH.
Qed.

(** Conversely, when every success of [f] is the value of [g]. *)
Lemma map_result_Ok_fmap f (g : A -> B) l ys :
  (forall x y, x ∈ l -> f x = Ok y -> y = g x) ->
  map_result f l = Ok ys -> ys = g <$> l.
Proof.
  intros Hg Hl%map_result_Ok. induction Hl as [|x y l ys Hy _ IH]; [done|].
  rewrite fmap_cons. f_equal; [apply Hg; [left|done]|].
  apply IH. intros x' y' Hx'. apply Hg. by right.
Qed.

Lemma map_result_is_Ok f l :
  is_Ok (map_result f l) = forallb (fun x => is_Ok (f x)) l.
Proof.
  induction l as [|x l IH]; simpl; [done|].
  destruct (f x); simpl; [|done]. rewrite <-IH.
  by destruct (map_result f l).
Qed.

End map_result_lemmas.

(** ** Lists *)

Lemma forallb_Forall {A} (f : A -> bool) (l : list A) :
  forallb f l = true <-> Forall (fun x => f x = true) l.
Proof.
  induction l as [|x l IH]; simpl; [by split|].
  by rewrite andb_true_iff, Forall_cons, IH.
Qed.

(** The concatenation of singletons. *)
Lemma flat_map_singleton {A B C} (f : B -> list C) (g : A -> B) (h : A -> C)
    (l : list A) :
  (forall x, f (g x) = [h x]) -> flat_map f (g <$> l) = h <$> l.
Proof.
  intros Hf. induction l as [|x l IH]; [done|].
  rewrite !fmap_cons. cbn [flat_map]. by rewrite Hf, IH.
Qed.

(** The concatenation of lists that do not depend on the element. *)
Lemma flat_map_Forall {A B} (f : A -> list B) (P : B -> Prop) (l : list A) :
  Forall (fun x => Forall P (f x)) l -> Forall P (flat_map f l).
Proof.
  induction 1 as [|x l Hx _ IH]; simpl; [done|]. by apply Forall_app.
Qed.

(** ** Filtered lists *)

Lemma NoDup_fmap_filter {A B} (g : A -> B) (f : A -> bool) (xs : list A) :
  NoDup (g <$> xs) -> NoDup (g <$> List.filter f xs).
Proof.
  induction xs as [|x xs IH]; [done|]. rewrite fmap_cons, NoDup_cons. simpl.
  intros [Hx Hxs]. destruct (f x); [|by apply IH].
  rewrite fmap_cons. apply NoDup_cons. split; [|by apply IH].
  intros (y & Hy & [Hin _]%list_elem_of_In%filter_In)%list_elem_of_fmap.
  apply Hx, list_elem_of_fmap. exists y. by rewrite list_elem_of_In.
Qed.

Lemma forallb_filter {A} (p f : A -> bool) (xs : list A) :
  forallb p xs = true -> forallb p (List.filter f xs) = true.
Proof.
  rewrite !forallb_forall. intros Hp x [Hx _]%filter_In. by apply Hp.
Qed.

(** ** Strings *)

Lemma string_app_cons (c : Ascii.ascii) (s1 s2 : string) :
  String c s1 +:+ s2 = String c (s1 +:+ s2).
Proof. reflexivity. Qed.

Lemma string_app_assoc (s1 s2 s3 : string) :
  (s1 +:+ s2) +:+ s3 = s1 +:+ (s2 +:+ s3).
Proof.
  induction s1 as [|c s1 IH]; [done|]. by rewrite !string_app_cons, IH.
Qed.

Lemma string_app_empty_r (s : string) : s +:+ EmptyString = s.
Proof. induction s as [|c s IH]; [done|]. by rewrite string_app_cons, IH. Qed.

Lemma string_app_length (s1 s2 : string) :
  String.length (s1 +:+ s2) = String.length s1 + String.length s2.
Proof.
  induction s1 as [|c s1 IH]; [done|]. rewrite string_app_cons. simpl.
  by rewrite IH.
Qed.

(** A text is a prefix of what it is extended to. *)
Lemma prefix_app (s1 s2 : string) : String.prefix s1 (s1 +:+ s2) = true.
Proof.
  induction s1 as [|c s1 IH]; [by destruct s2|].
  rewrite string_app_cons. simpl. by destruct (Ascii.ascii_dec c c).
Qed.

#[export] Hint Rewrite string_app_assoc string_app_empty_r : movie.
