(* ===== verification/JsValue.v ===== *)
(** * JsValue: the JavaScript values of the application

    The handlers of src/App.js store in the state whatever
    [response.json()] produced, and the render functions read fields of
    it.  This file holds the type [value] of those values and the
    operations of the language that the source applies to them, each with
    the behaviour ECMAScript gives it:

    - [get v k], the access [v.k]: a TypeError on [null] and [undefined];
    - [opt_get v k], the access [v?.k];
    - [truthy v], the conversion ToBoolean of [if (v)], [!v], [v || d],
      [v ? a : b] and [v && e];
    - [or_default v d], the expression [v || d];
    - [strict_eq_string v s], the test [v === 's'];
    - [ToString v], the conversion of a template literal, with
      [to_string v] the text of a value that has one ([printable]);
    - [array_find p v], the call [v.find(p)].

    Objects are association lists in property order; a parsed JSON object
    has distinct keys ([wf_value]).  [get] covers own properties and
    [length]: the source reads no array index and no inherited property by
    name.  Numbers are a parameter ([JsNumber]). *)

From S2P Require Import Prelude.
From stdpp Require Import pretty.

(** ** Exceptions, by cause *)

Inductive exn : Type :=
| NullAccess      (* TypeError: property of null or undefined *)
| NotCallable     (* TypeError: call of a value that is no function *)
| NotPrimitive    (* TypeError: an object that has no text *)
| NetworkFailure  (* rejection of fetch *)
| BodyNotJson.    (* rejection of response.json() *)

#[export] Instance exn_eq_dec : EqDecision exn.
Proof. solve_decision. Defined.

(** ** Numbers *)

Class JsNumber (num : Type) : Type := {
  num_eq_dec :: EqDecision num;
  (** the number of elements of an array, as a number *)
  num_of_nat : nat -> num;
  (** ToBoolean: false on [0], [-0] and [NaN] *)
  num_truthy : num -> bool;
  (** [===] *)
  num_strict_eq : num -> num -> bool;
  (** Number::toString *)
  num_to_string : num -> string;
  num_truthy_of_nat n : num_truthy (num_of_nat n) = bool_decide (n <> 0);
  num_strict_eq_of_nat a b :
    num_strict_eq (num_of_nat a) (num_of_nat b) = bool_decide (a = b);
}.

(** Integral numbers. *)
#[export] Program Instance Z_JsNumber : JsNumber Z := {|
  num_of_nat := Z.of_nat;
  num_truthy n := bool_decide (n <> 0%Z);
  num_strict_eq a b := bool_decide (a = b);
  num_to_string n := pretty n;
|}.
Next Obligation. intros n. apply bool_decide_ext. lia. Qed.
Next Obligation. intros a b. apply bool_decide_ext. lia. Qed.

(** ** Values *)

#[local] Unset Elimination Schemes.
Inductive value (num : Type) : Type :=
| VUndefined
| VNull
| VBool (b : bool)
| VNum (n : num)
| VStr (s : string)
| VArr (l : list (value num))
| VObj (fields : list (string * value num)).
Arguments VUndefined {num}.
Arguments VNull {num}.
Arguments VBool {num} b.
Arguments VNum {num} n.
Arguments VStr {num} s.
Arguments VArr {num} l.
Arguments VObj {num} fields.
#[local] Set Elimination Schemes.

(** The induction principle with the hypotheses on the elements. *)
Definition value_ind_nested {num} (P : value num -> Prop)
    (Hundef : P VUndefined) (Hnull : P VNull)
    (Hbool : forall b, P (VBool b)) (Hnum : forall n, P (VNum n))
    (Hstr : forall s, P (VStr s))
    (Harr : forall l, Forall P l -> P (VArr l))
    (Hobj : forall fs, Forall (fun kv => P kv.2) fs -> P (VObj fs))
  : forall v, P v :=
  fix go (v : value num) : P v :=
    match v with
    | VUndefined => Hundef
    | VNull => Hnull
    | VBool b => Hbool b
    | VNum n => Hnum n
    | VStr s => Hstr s
    | VArr l =>
        Harr l ((fix all (l : list (value num)) : Forall P l :=
                   match l with
                   | [] => Forall_nil_2 P
                   | x :: l' => Forall_cons_2 P x l' (go x) (all l')
                   end) l)
    | VObj fs =>
        Hobj fs ((fix all (fs : list (string * value num))
                    : Forall (fun kv => P kv.2) fs :=
                    match fs with
                    | [] => Forall_nil_2 _
                    | kv :: fs' => Forall_cons_2 _ kv fs' (go kv.2) (all fs')
                    end) fs)
    end.

(** ** Dates

    [getFullYear v] is [new Date(v).getFullYear()]: the calendar of the
    platform and its time zone are not part of the application. *)
Class JsDate (num : Type) : Type := {
  getFullYear : value num -> value num;
}.

Section values.
Context {num : Type} `{!JsNumber num}.
Implicit Types (v d : value num) (k s : string) (l : list (value num))
  (fs : list (string * value num)).

#[export] Instance value_eq_dec : EqDecision (value num).
Proof.
  refine (fix go (v1 v2 : value num) : Decision (v1 = v2) :=
    match v1, v2 with
    | VUndefined, VUndefined => left _
    | VNull, VNull => left _
    | VBool b1, VBool b2 => cast_if (decide (b1 = b2))
    | VNum n1, VNum n2 => cast_if (decide (n1 = n2))
    | VStr s1, VStr s2 => cast_if (decide (s1 = s2))
    | VArr l1, VArr l2 => cast_if (@list_eq_dec _ go l1 l2)
    | VObj f1, VObj f2 =>
        cast_if (@list_eq_dec _ (@prod_eq_dec _ _ _ go) f1 f2)
    | _, _ => right _
    end); abstract congruence.
Defined.

(** [null] and [undefined]. *)
Definition nullish v : bool :=
  match v with
  | VUndefined | VNull => true
  | _ => false
  end.

(** ToBoolean. *)
Definition truthy v : bool :=
  match v with
  | VUndefined | VNull => false
  | VBool b => b
  | VNum n => num_truthy n
  | VStr s => bool_decide (s <> EmptyString)
  | VArr _ | VObj _ => true
  end.

(** The own property [k] of an object, [undefined] when it has none. *)
Fixpoint lookup_field k fs : value num :=
  match fs with
  | [] => VUndefined
  | (k', v) :: fs' => if decide (k' = k) then v else lookup_field k fs'
  end.

(** [v.k] *)
Definition get v k : result exn (value num) :=
  match v with
  | VUndefined | VNull => Err NullAccess
  | VObj fs => Ok (lookup_field k fs)
  | VArr l =>
      Ok (if decide (k = "length") then VNum (num_of_nat (length l))
          else VUndefined)
  | VStr s =>
      Ok (if decide (k = "length") then VNum (num_of_nat (String.length s))
          else VUndefined)
  | VBool _ | VNum _ => Ok VUndefined
  end.

(** [v?.k] *)
Definition opt_get v k : value num :=
  match get v k with
  | Ok x => x
  | Err _ => VUndefined
  end.

(** [v || d] *)
Definition or_default v d : value num := if truthy v then v else d.

(** [v === 's'] for a string literal ['s']. *)
Definition strict_eq_string v s : bool :=
  match v with
  | VStr s' => bool_decide (s' = s)
  | _ => false
  end.

(** [v === n] for a number [n]. *)
Definition strict_eq_number v (n : num) : bool :=
  match v with
  | VNum n' => num_strict_eq n' n
  | _ => false
  end.

(** The text of a value.  The elements of an array are joined with
    commas, [null] and [undefined] elements as the empty string; an
    object is printed by [Object.prototype.toString]. *)
Fixpoint to_string v : string :=
  match v with
  | VUndefined => "undefined"
  | VNull => "null"
  | VBool true => "true"
  | VBool false => "false"
  | VNum n => num_to_string n
  | VStr s => s
  | VArr l =>
      String.concat ","
        (List.map (fun x => if nullish x then EmptyString else to_string x) l)
  | VObj _ => "[object Object]"
  end.

(** The values that have a text.  An object with a property [toString]
    of its own has none: the property of a parsed value is no function,
    and the [valueOf] that is left answers the object itself.  An array
    is printed through its elements. *)
Fixpoint printable v : bool :=
  match v with
  | VArr l => forallb printable l
  | VObj fs => negb (bool_decide ("toString" ∈ fs.*1))
  | _ => true
  end.

(** ToString, as applied by a template literal: a TypeError on a value
    that has no text. *)
Definition ToString v : result exn string :=
  if printable v then Ok (to_string v) else Err NotPrimitive.

(** [v.find(p)] for a value [v] that is not nullish: the first element
    on which [p] answers true, [undefined] when there is none; a
    TypeError when [v] is no array, and the exception of [p] when it
    throws before an element is found. *)
Definition array_find (p : value num -> result exn bool) v
  : result exn (value num) :=
  match v with
  | VArr l => default VUndefined <$> find_first p l
  | _ => Err NotCallable
  end.

(** [v.map(f)] for a value [v] that is not nullish: the images of the
    elements in order; a TypeError when [v] is no array (it has no
    [map] that can be called), and the exception of [f] when it throws. *)
Definition array_map {B} (f : value num -> result exn B) v
  : result exn (list B) :=
  match v with
  | VArr l => map_result f l
  | _ => Err NotCallable
  end.

(** [v.toString()]: a TypeError on [null] and [undefined], and on an
    object with a property [toString] of its own (a parsed value is never
    a function); the text of the value otherwise, which for an array
    asks for the texts of its elements. *)
Definition to_string_method v : result exn string :=
  match v with
  | VUndefined | VNull => Err NullAccess
  | VObj fs =>
      if decide ("toString" ∈ fs.*1) then Err NotCallable
      else Ok (to_string v)
  | _ => ToString v
  end.

(** Parsed JSON: no [undefined], and distinct keys in every object. *)
Fixpoint wf_value v : bool :=
  match v with
  | VUndefined => false
  | VNull | VBool _ | VNum _ | VStr _ => true
  | VArr l => forallb wf_value l
  | VObj fs =>
      bool_decide (NoDup fs.*1) && forallb (fun kv => wf_value kv.2) fs
  end.

(** ** Properties *)

Lemma get_Err v k e : get v k = Err e <-> nullish v = true /\ e = NullAccess.
Proof.
  destruct v; simpl; split; try (intros [? ->]); try intros [=]; subst;
    auto; discriminate.
Qed.

Lemma get_Ok v k : nullish v = false -> get v k = Ok (opt_get v k).
Proof. unfold opt_get. destruct v; simpl; congruence. Qed.

Lemma opt_get_nullish v k : nullish v = true -> opt_get v k = VUndefined.
Proof. by destruct v. Qed.

Lemma truthy_not_nullish v : truthy v = true -> nullish v = false.
Proof. by destruct v. Qed.

Lemma or_default_truthy v d :
  truthy d = true -> truthy (or_default v d) = true.
Proof. unfold or_default. by destruct (truthy v) eqn:?. Qed.

Lemma or_default_spec v d :
  (truthy v = true /\ or_default v d = v) \/
  (truthy v = false /\ or_default v d = d).
Proof. unfold or_default. destruct (truthy v); auto. Qed.

Lemma strict_eq_string_true v s : strict_eq_string v s = true <-> v = VStr s.
Proof.
  destruct v; simpl; try (split; congruence).
  rewrite bool_decide_eq_true. split; congruence.
Qed.

Lemma lookup_field_elem_of k fs v :
  lookup_field k fs = v -> v <> VUndefined -> (k, v) ∈ fs.
Proof.
  induction fs as [|[k' v'] fs IH]; simpl; [congruence|].
  case_decide; subst; intros; subst; [left|right; auto].
Qed.

Lemma lookup_field_NoDup k fs v :
  NoDup fs.*1 -> (k, v) ∈ fs -> lookup_field k fs = v.
Proof.
  induction fs as [|[k' v'] fs IH]; simpl; [by intros _ ?%elem_of_nil|].
  intros [Hk Hnd]%NoDup_cons [[= -> ->]|Hin]%elem_of_cons.
  - by rewrite decide_True.
  - rewrite decide_False; [auto|]. intros ->. apply Hk.
    apply list_elem_of_fmap. by exists (k, v).
Qed.

Lemma array_find_Ok p v x :
  array_find p v = Ok x ->
  exists l, v = VArr l /\
    ((x ∈ l /\ p x = Ok true) \/
     (x = VUndefined /\ Forall (fun y => p y = Ok false) l)).
Proof.
  destruct v; simpl; try done. intros Hf. eexists; split; [done|].
  destruct (find_first p l) as [[y|]|] eqn:Hff; simpl in Hf; simplify_result.
  - left. split; [by eapply find_first_elem_of|].
    apply find_first_Some in Hff as (? & ? & _ & ? & _). done.
  - right. split; [done|]. by apply find_first_None.
Qed.

Lemma array_find_first p l1 x l2 :
  Forall (fun y => p y = Ok false) l1 -> p x = Ok true ->
  array_find p (VArr (l1 ++ x :: l2)) = Ok x.
Proof.
  intros Hl1 Hx. simpl.
  rewrite (proj2 (find_first_Some p _ x)); [done|]. by exists l1, l2.
Qed.

Lemma array_find_none p l :
  Forall (fun y => p y = Ok false) l -> array_find p (VArr l) = Ok VUndefined.
Proof. intros Hl. simpl. by rewrite (proj2 (find_first_None p l)). Qed.

Lemma array_find_not_array p v :
  (forall l, v <> VArr l) -> array_find p v = Err NotCallable.
Proof. destruct v; simpl; try done. intros H. by destruct (H l). Qed.

Lemma array_map_not_array {B} (f : value num -> result exn B) v :
  (forall l, v <> VArr l) -> array_map f v = Err NotCallable.
Proof. destruct v; simpl; try done. intros H. by destruct (H l). Qed.

Lemma to_string_method_nullish v :
  nullish v = true -> to_string_method v = Err NullAccess.
Proof. by destruct v. Qed.

Lemma ToString_Ok v : printable v = true -> ToString v = Ok (to_string v).
Proof. unfold ToString. by intros ->. Qed.

Lemma ToString_Err v : printable v = false -> ToString v = Err NotPrimitive.
Proof. unfold ToString. by intros ->. Qed.

Lemma ToString_is_Ok v : is_Ok (ToString v) = printable v.
Proof. unfold ToString. by destruct (printable v). Qed.

Lemma to_string_method_Ok v s :
  to_string_method v = Ok s ->
  nullish v = false /\ printable v = true /\ s = to_string v.
Proof.
  destruct v as [| | | | |l|fs]; simpl; try done; try (by intros [= <-]).
  - unfold ToString. destruct (printable (VArr l)) eqn:Hp; [|done].
    by intros [= <-].
  - case_decide as Hin; [done|]. intros [= <-].
    by rewrite bool_decide_eq_false_2.
Qed.

(** A template literal throws on an object that has a property
    [toString], and on an array that holds one. *)
Lemma ToString_own_toString fs :
  "toString" ∈ fs.*1 -> ToString (VObj fs) = Err NotPrimitive.
Proof. intros Hin. apply ToString_Err. simpl. by rewrite bool_decide_true. Qed.

Lemma printable_elem_of l v :
  printable (VArr l) = true -> v ∈ l -> printable v = true.
Proof.
  simpl. intros Hl%forallb_Forall Hv. rewrite Forall_forall in Hl. auto.
Qed.

(** The primitive values have a text. *)
Lemma printable_primitive v :
  (forall l, v <> VArr l) -> (forall fs, v <> VObj fs) -> printable v = true.
Proof.
  destruct v as [| | | | |l|fs]; try done; intros H1 H2;
    [by destruct (H1 l)|by destruct (H2 fs)].
Qed.

(** A value on which [toString()] answers can stand in a template
    literal. *)
Lemma to_string_method_printable v :
  is_Ok (to_string_method v) = true -> printable v = true.
Proof.
  destruct (to_string_method v) as [s|] eqn:Hs; [|done].
  by apply to_string_method_Ok in Hs as (_ & ? & _).
Qed.

End values.

#[export] Hint Rewrite @opt_get_nullish using done : movie.
