(* ===== verification/Dates.v ===== *)
(** * Dates: [new Date(v).getFullYear()] on the dates of the catalogue

    src/App.js, line 90, shows the year of a movie as
    [new Date(item.release_date).getFullYear()].  The catalogue sends
    dates as [YYYY-MM-DD].  ECMAScript reads a text of this form (and
    of the forms [YYYY] and [YYYY-MM]) as midnight UTC of that day, and
    [getFullYear] answers the year of that instant in the time zone of
    the device.  This file holds the functions of ECMAScript (21.4.1)
    that the expression goes through, with its names:

    - [DayFromYear], [DaysInYear], [MakeDay], [Day], [YearFromTime],
      [LocalTime];
    - [date_time], the reading of a date-only text;
    - [full_year tz], the value of the expression in a zone [tz]
      minutes east of UTC, and [zone_dates tz], the instance of
      [JsValue.JsDate] it gives.

    [YearFromTime] is defined by ECMAScript as the largest year that
    starts at or before the instant; [YearFromDay] computes it by a
    search from an estimate, with a fuel of 20 years that is enough for
    every year from -1 to 9999, hence for every text of four digits
    ([YearFromDay_spec]).  A text of another form is read in a way that
    ECMAScript leaves to the platform: the model computes no year for
    it.  The offset of the zone is taken as constant (no change to
    summer time between midnight UTC and the local time of the same
    instant). *)

From Stdlib Require Import ZArith Lia Ascii.
From S2P Require Import Prelude JsValue.

Open Scope string_scope.

(** ** The calendar *)

Definition msPerDay : Z := 86400000.
Definition msPerMinute : Z := 60000.

(** The day number of the first day of the year [y]. *)
Definition DayFromYear (y : Z) : Z :=
  (365 * (y - 1970) + (y - 1969) / 4 - (y - 1901) / 100 + (y - 1601) / 400)%Z.

Definition InLeapYear (y : Z) : bool :=
  ((y mod 4 =? 0) && (negb (y mod 100 =? 0) || (y mod 400 =? 0)))%Z.

Definition DaysInYear (y : Z) : Z := if InLeapYear y then 366%Z else 365%Z.

(** The days of the year before the month [m] (from 1 to 12). *)
Definition month_start (leap : bool) (m : Z) : Z :=
  let l := (if leap then 1 else 0)%Z in
  match m with
  | 1 => 0 | 2 => 31 | 3 => 59 + l | 4 => 90 + l | 5 => 120 + l
  | 6 => 151 + l | 7 => 181 + l | 8 => 212 + l | 9 => 243 + l
  | 10 => 273 + l | 11 => 304 + l | _ => 334 + l
  end%Z.

Definition DaysInMonth (leap : bool) (m : Z) : Z :=
  match m with
  | 2 => if leap then 29 else 28
  | 4 | 6 | 9 | 11 => 30
  | _ => 31
  end%Z.

(** A date that a text of the form [YYYY-MM-DD] can name. *)
Definition valid_date (y m d : Z) : bool :=
  ((0 <=? y) && (y <=? 9999) && (1 <=? m) && (m <=? 12) &&
   (1 <=? d) && (d <=? DaysInMonth (InLeapYear y) m))%Z.

(** The day number of a date. *)
Definition MakeDay (y m d : Z) : Z :=
  (DayFromYear y + month_start (InLeapYear y) m + d - 1)%Z.

(** Midnight UTC of a date, in milliseconds. *)
Definition TimeFromDate (y m d : Z) : Z := (MakeDay y m d * msPerDay)%Z.

Definition Day (t : Z) : Z := (t / msPerDay)%Z.

(** The largest year that starts at or before [day], searched upwards
    from [y]. *)
Fixpoint year_search (fuel : nat) (y day : Z) : Z :=
  match fuel with
  | O => y
  | S n =>
      if (DayFromYear (y + 1) <=? day)%Z then year_search n (y + 1)%Z day
      else y
  end.

(** A year that starts at or before [day], at most 20 years early. *)
Definition year_estimate (day : Z) : Z :=
  (1970 + (if day <? 0 then day / 365 else day / 366))%Z.

Definition YearFromDay (day : Z) : Z :=
  year_search 20 (year_estimate day) day.

Definition YearFromTime (t : Z) : Z := YearFromDay (Day t).

(** The local time of the instant [t] in a zone [tz] minutes east of
    UTC. *)
Definition LocalTime (tz t : Z) : Z := (t + tz * msPerMinute)%Z.

(** ** Reading a date-only text *)

Definition digit_of (c : Ascii.ascii) : option Z :=
  let n := Ascii.nat_of_ascii c in
  if (48 <=? n)%nat && (n <=? 57)%nat then Some (Z.of_nat (n - 48)) else None.

(** The number that the first [n] characters write, and the rest. *)
Fixpoint take_digits (n : nat) (s : string) (acc : Z) : option (Z * string) :=
  match n, s with
  | O, _ => Some (acc, s)
  | S n', String c s' => d ← digit_of c; take_digits n' s' (10 * acc + d)%Z
  | S _, EmptyString => None
  end.

(** [YYYY], [YYYY-MM] or [YYYY-MM-DD]: a month and a day that are not
    written are 1. *)
Definition parse_date_only (s : string) : option (Z * Z * Z) :=
  '(y, r1) ← take_digits 4 s 0;
  match r1 with
  | EmptyString => Some (y, 1%Z, 1%Z)
  | String "-"%char r2 =>
      '(m, r3) ← take_digits 2 r2 0;
      match r3 with
      | EmptyString => Some (y, m, 1%Z)
      | String "-"%char r4 =>
          '(d, r5) ← take_digits 2 r4 0;
          match r5 with
          | EmptyString => Some (y, m, d)
          | _ => None
          end
      | _ => None
      end
  | _ => None
  end.

(** The time value of [new Date(s)] for a date-only text [s]. *)
Definition date_time (s : string) : option Z :=
  '(y, m, d) ← parse_date_only s;
  if valid_date y m d then Some (TimeFromDate y m d) else None.

(** [new Date(v).getFullYear()] in the zone [tz]. *)
Definition full_year (tz : Z) (v : value Z) : value Z :=
  match v with
  | VStr s =>
      match date_time s with
      | Some t => VNum (YearFromTime (LocalTime tz t))
      | None => VUndefined
      end
  | _ => VUndefined
  end.

Definition zone_dates (tz : Z) : JsDate Z := {| getFullYear := full_year tz |}.

(** The offsets of the zones in use: from 12 hours west to 14 hours
    east. *)
Definition zone_ok (tz : Z) : bool := ((-720 <=? tz) && (tz <=? 840))%Z.

(** * Properties *)

Section dates.
Local Open Scope Z_scope.
Implicit Types (y m d day t tz : Z).

(** ** Years *)

Lemma DayFromYear_succ y : DayFromYear (y + 1) = DayFromYear y + DaysInYear y.
Proof.
  unfold DayFromYear, DaysInYear, InLeapYear.
  destruct (Z.eqb_spec (y mod 4) 0), (Z.eqb_spec (y mod 100) 0),
    (Z.eqb_spec (y mod 400) 0); cbn [andb orb negb];
    Z.div_mod_to_equations; lia.
Qed.

Lemma DaysInYear_bounds y : 365 <= DaysInYear y <= 366.
Proof. unfold DaysInYear. destruct (InLeapYear y); lia. Qed.

Lemma DayFromYear_mono a b : a <= b -> DayFromYear a <= DayFromYear b.
Proof. unfold DayFromYear. intros. Z.div_mod_to_equations. lia. Qed.

Lemma year_estimate_below day : DayFromYear (year_estimate day) <= day.
Proof.
  unfold year_estimate, DayFromYear.
  destruct (Z.ltb_spec day 0); Z.div_mod_to_equations; lia.
Qed.

Lemma year_estimate_close day y :
  -1 <= y <= 9999 -> DayFromYear y <= day < DayFromYear (y + 1) ->
  y <= year_estimate day + 20.
Proof.
  unfold year_estimate, DayFromYear.
  destruct (Z.ltb_spec day 0); intros; Z.div_mod_to_equations; lia.
Qed.

(** The search finds the year of [day] when it starts at or before it
    with enough fuel. *)
Lemma year_search_spec fuel e day y :
  e <= y <= e + Z.of_nat fuel ->
  DayFromYear y <= day < DayFromYear (y + 1) ->
  year_search fuel e day = y.
Proof.
  revert e. induction fuel as [|n IH]; intros e He Hd; simpl; [lia|].
  destruct (Z.leb_spec (DayFromYear (e + 1)) day) as [Hle|Hgt].
  - apply IH; [|done].
    destruct (decide (e = y)) as [->|]; lia.
  - destruct (decide (e = y)) as [|Hne]; [done|].
    pose proof (DayFromYear_mono (e + 1) y). lia.
Qed.

(** [YearFromDay] is the year of ECMAScript: the one in which the day
    falls. *)
Lemma YearFromDay_spec day y :
  -1 <= y <= 9999 -> DayFromYear y <= day < DayFromYear (y + 1) ->
  YearFromDay day = y.
Proof.
  intros Hy Hd. apply year_search_spec; [|done].
  split; [|by apply year_estimate_close].
  destruct (Z.le_gt_cases (year_estimate day) y) as [|Hlt]; [done|].
  pose proof (DayFromYear_mono (y + 1) (year_estimate day)).
  pose proof (year_estimate_below day). lia.
Qed.

(** ** Dates *)

Lemma valid_date_inv y m d :
  valid_date y m d = true ->
  0 <= y <= 9999 /\ 1 <= m <= 12 /\ 1 <= d <= DaysInMonth (InLeapYear y) m.
Proof. unfold valid_date. lia. Qed.

(** The days of a month are days of the year. *)
Lemma month_in_year (leap : bool) m d :
  1 <= m <= 12 -> 1 <= d <= DaysInMonth leap m ->
  0 <= month_start leap m + d - 1 < (if leap then 366 else 365) /\
  (month_start leap m + d - 1 = 0 <-> m = 1 /\ d = 1).
Proof.
  intros Hm Hd.
  assert (m = 1 \/ m = 2 \/ m = 3 \/ m = 4 \/ m = 5 \/ m = 6 \/ m = 7 \/
          m = 8 \/ m = 9 \/ m = 10 \/ m = 11 \/ m = 12) as Hcases by lia.
  destruct leap; repeat (destruct Hcases as [->|Hcases]); subst;
    simpl in *; lia.
Qed.

Lemma MakeDay_in_year y m d :
  valid_date y m d = true ->
  DayFromYear y <= MakeDay y m d < DayFromYear (y + 1) /\
  (MakeDay y m d = DayFromYear y <-> m = 1 /\ d = 1).
Proof.
  intros (Hy & Hm & Hd)%valid_date_inv.
  destruct (month_in_year (InLeapYear y) m d Hm Hd) as [Hin Hfirst].
  rewrite DayFromYear_succ. unfold MakeDay, DaysInYear in *.
  destruct (InLeapYear y); lia.
Qed.

Lemma Day_LocalTime tz day :
  -1440 < tz < 1440 ->
  Day (LocalTime tz (day * msPerDay)) = if tz <? 0 then day - 1 else day.
Proof.
  unfold Day, LocalTime, msPerDay, msPerMinute. intros Htz.
  destruct (Z.ltb_spec tz 0); Z.div_mod_to_equations; lia.
Qed.

Lemma zone_ok_inv tz : zone_ok tz = true -> -1440 < tz < 1440.
Proof. unfold zone_ok. lia. Qed.

(** ** The year of a date in a zone *)

(** The local day of midnight UTC is the day before, west of
    Greenwich: the year is the one written, except on the first of
    January. *)
Lemma YearFromTime_date tz y m d :
  valid_date y m d = true -> -1440 < tz < 1440 ->
  YearFromTime (LocalTime tz (TimeFromDate y m d)) =
  if (tz <? 0) && (m =? 1) && (d =? 1) then y - 1 else y.
Proof.
  intros Hv Htz. unfold YearFromTime, TimeFromDate.
  rewrite Day_LocalTime by done.
  destruct (MakeDay_in_year y m d Hv) as [Hin Hfirst].
  apply valid_date_inv in Hv as (Hy & _).
  pose proof (DayFromYear_succ (y - 1)) as Hs.
  pose proof (DaysInYear_bounds (y - 1)).
  replace (y - 1 + 1) with y in Hs by lia.
  destruct (Z.ltb_spec tz 0); simpl; [|by apply YearFromDay_spec; [lia|]].
  destruct (Z.eqb_spec m 1), (Z.eqb_spec d 1); simpl;
    apply YearFromDay_spec; try lia.
  replace (y - 1 + 1) with y by lia. lia.
Qed.

Lemma full_year_eq tz s y m d :
  zone_ok tz = true -> parse_date_only s = Some (y, m, d) ->
  valid_date y m d = true ->
  full_year tz (VStr s) =
  VNum (if (tz <? 0) && (m =? 1) && (d =? 1) then y - 1 else y).
Proof.
  intros Htz%zone_ok_inv Hp Hv. unfold full_year, date_time.
  rewrite Hp. simpl. rewrite Hv. by rewrite YearFromTime_date.
Qed.


End dates.

