(* ===== verification/Async.v ===== *)
(** * Async: the programs that [async] functions denote

    An [async] function of src/App.js calls state setters, writes to the
    console, awaits [fetch(url)] and [response.json()], and wraps all of
    it in [try/catch/finally].  [prog num S A] is the type of such
    programs over a state [S] with result [A]:

    - [Ret a]: normal completion; [Throw e]: abrupt completion;
    - [Upd f k]: a setter call, then [k];
    - [Log msg e k]: [console.error(msg, e)], then [k];
    - [AwaitFetch url k]: [await fetch(url)]; [k] receives the response
      or the rejection;
    - [AwaitJson r k]: [await r.json()].

    [run p s c] executes [p] from the state [s] and the console [c] up to
    the next [await] (or to completion): this is the segment that the
    JavaScript event loop runs without interruption.

    Programs hold continuations, so they are compared by [prog_equiv],
    equality up to pointwise equality of the continuations and of the
    updates.  [never_throws] is the static guarantee that a program
    completes normally however its requests are answered. *)

From S2P Require Import Prelude JsValue.

(** What [fetch] resolves to.  The source reads nothing of a response
    but its JSON body; [body = None] is a body that [json()] rejects. *)
Record response (num : Type) : Type := Response {
  http_status : nat;
  body : option (value num);
}.
Arguments Response {num} http_status body.
Arguments http_status {num} r.
Arguments body {num} r.

(** How a promise settles. *)
Inductive outcome (X : Type) : Type :=
| Resolved (x : X)
| Rejected (e : exn).
Arguments Resolved {X} x.
Arguments Rejected {X} e.

(** One line of the console. *)
Definition log_entry : Type := string * exn.

Inductive prog (num S A : Type) : Type :=
| Ret (a : A)
| Throw (e : exn)
| Upd (f : S -> S) (k : prog num S A)
| Log (msg : string) (e : exn) (k : prog num S A)
| AwaitFetch (url : string) (k : outcome (response num) -> prog num S A)
| AwaitJson (r : response num) (k : outcome (value num) -> prog num S A).
Arguments Ret {num S A} a.
Arguments Throw {num S A} e.
Arguments Upd {num S A} f k.
Arguments Log {num S A} msg e k.
Arguments AwaitFetch {num S A} url k.
Arguments AwaitJson {num S A} r k.

(** Where a segment stops. *)
Inductive status (num S A : Type) : Type :=
| Done (a : A)
| Failed (e : exn)
| OnFetch (url : string) (k : outcome (response num) -> prog num S A)
| OnJson (r : response num) (k : outcome (value num) -> prog num S A).
Arguments Done {num S A} a.
Arguments Failed {num S A} e.
Arguments OnFetch {num S A} url k.
Arguments OnJson {num S A} r k.

Section programs.
Context {num S : Type}.

Fixpoint prog_bind {A B} (f : A -> prog num S B) (p : prog num S A)
  : prog num S B :=
  match p with
  | Ret a => f a
  | Throw e => Throw e
  | Upd u k => Upd u (prog_bind f k)
  | Log m e k => Log m e (prog_bind f k)
  | AwaitFetch url k => AwaitFetch url (fun o => prog_bind f (k o))
  | AwaitJson r k => AwaitJson r (fun o => prog_bind f (k o))
  end.

#[export] Instance prog_mret : MRet (prog num S) := fun A a => Ret a.
#[export] Instance prog_mbind : MBind (prog num S) := @prog_bind.

(** [try { p } catch (err) { h err }] *)
Fixpoint try_catch {A} (p : prog num S A) (h : exn -> prog num S A)
  : prog num S A :=
  match p with
  | Ret a => Ret a
  | Throw e => h e
  | Upd u k => Upd u (try_catch k h)
  | Log m e k => Log m e (try_catch k h)
  | AwaitFetch url k => AwaitFetch url (fun o => try_catch (k o) h)
  | AwaitJson r k => AwaitJson r (fun o => try_catch (k o) h)
  end.

(** [try { p } finally { q }]: [q] runs on every exit path of [p], and
    the completion of [p] is kept unless [q] throws. *)
Fixpoint finally {A} (p : prog num S A) (q : prog num S unit)
  : prog num S A :=
  match p with
  | Ret a => q ;; Ret a
  | Throw e => q ;; Throw e
  | Upd u k => Upd u (finally k q)
  | Log m e k => Log m e (finally k q)
  | AwaitFetch url k => AwaitFetch url (fun o => finally (k o) q)
  | AwaitJson r k => AwaitJson r (fun o => finally (k o) q)
  end.

(** [await p]: the value of a resolved promise, the exception of a
    rejected one. *)
Definition settled {X} (o : outcome X) : prog num S X :=
  match o with
  | Resolved x => Ret x
  | Rejected e => Throw e
  end.

(** [await fetch(url)] and [await r.json()]. *)
Definition fetch (url : string) : prog num S (response num) :=
  AwaitFetch url settled.
Definition json (r : response num) : prog num S (value num) :=
  AwaitJson r settled.

(** The promise of [r.json()]. *)
Definition json_outcome (r : response num) : outcome (value num) :=
  match body r with
  | Some v => Resolved v
  | None => Rejected BodyNotJson
  end.

(** A setter call, a console write, and an expression that may throw. *)
Definition upd (f : S -> S) : prog num S unit := Upd f (Ret tt).
Definition console_error (msg : string) (e : exn) : prog num S unit :=
  Log msg e (Ret tt).
Definition eval {A} (r : result exn A) : prog num S A :=
  match r with
  | Ok a => Ret a
  | Err e => Throw e
  end.

(** One segment: from the state [s] and the console [c] to the next
    [await]. *)
Fixpoint run {A} (p : prog num S A) (s : S) (c : list log_entry)
  : S * list log_entry * status num S A :=
  match p with
  | Ret a => (s, c, Done a)
  | Throw e => (s, c, Failed e)
  | Upd f k => run k (f s) c
  | Log m e k => run k s (c ++ [(m, e)])
  | AwaitFetch url k => (s, c, OnFetch url k)
  | AwaitJson r k => (s, c, OnJson r k)
  end.

(** A handler alone: every [fetch(url)] is answered by [net url] and no
    other handler runs in between. *)
Fixpoint run_alone {A} (net : string -> outcome (response num))
    (p : prog num S A) (s : S) (c : list log_entry)
  : S * list log_entry * result exn A :=
  match p with
  | Ret a => (s, c, Ok a)
  | Throw e => (s, c, Err e)
  | Upd f k => run_alone net k (f s) c
  | Log m e k => run_alone net k s (c ++ [(m, e)])
  | AwaitFetch url k => run_alone net (k (net url)) s c
  | AwaitJson r k => run_alone net (k (json_outcome r)) s c
  end.

(** Equality of programs up to their continuations. *)
Inductive prog_equiv {A} : relation (prog num S A) :=
| equiv_Ret a : prog_equiv (Ret a) (Ret a)
| equiv_Throw e : prog_equiv (Throw e) (Throw e)
| equiv_Upd f g k k' :
    (forall s, f s = g s) -> prog_equiv k k' ->
    prog_equiv (Upd f k) (Upd g k')
| equiv_Log m e k k' :
    prog_equiv k k' -> prog_equiv (Log m e k) (Log m e k')
| equiv_AwaitFetch url k k' :
    (forall o, prog_equiv (k o) (k' o)) ->
    prog_equiv (AwaitFetch url k) (AwaitFetch url k')
| equiv_AwaitJson r k k' :
    (forall o, prog_equiv (k o) (k' o)) ->
    prog_equiv (AwaitJson r k) (AwaitJson r k').

#[export] Instance prog_equiv_inst {A} : Equiv (prog num S A) := prog_equiv.

(** Where two equivalent segments stop. *)
Inductive status_equiv {A} : relation (status num S A) :=
| equiv_Done a : status_equiv (Done a) (Done a)
| equiv_Failed e : status_equiv (Failed e) (Failed e)
| equiv_OnFetch url k k' :
    (forall o, k o ≡ k' o) -> status_equiv (OnFetch url k) (OnFetch url k')
| equiv_OnJson r k k' :
    (forall o, k o ≡ k' o) -> status_equiv (OnJson r k) (OnJson r k').

(** A program that completes normally on every path: no [Throw] is
    left outside a [try_catch]. *)
Inductive never_throws {A} : prog num S A -> Prop :=
| nt_Ret a : never_throws (Ret a)
| nt_Upd f k : never_throws k -> never_throws (Upd f k)
| nt_Log m e k : never_throws k -> never_throws (Log m e k)
| nt_AwaitFetch url k :
    (forall o, never_throws (k o)) -> never_throws (AwaitFetch url k)
| nt_AwaitJson r k :
    (forall o, never_throws (k o)) -> never_throws (AwaitJson r k).

(** The status of a segment of a program that never throws. *)
Definition status_never_throws {A} (st : status num S A) : Prop :=
  match st with
  | Done _ => True
  | Failed _ => False
  | OnFetch _ k | OnJson _ k => forall o, never_throws (k o)
  end.

(** ** [prog_equiv] is an equivalence that the operations respect *)

#[export] Instance prog_equiv_refl {A} : Reflexive (≡@{prog num S A}).
Proof. intros p. induction p; constructor; auto. Qed.

#[export] Instance prog_equiv_sym {A} : Symmetric (≡@{prog num S A}).
Proof. induction 1; constructor; auto. Qed.

#[export] Instance prog_equiv_trans {A} : Transitive (≡@{prog num S A}).
Proof.
  unfold equiv, prog_equiv_inst. intros p q r Hpq. revert r.
  induction Hpq; intros r' Hqr; inv Hqr; constructor; eauto.
  intros s. etrans; eauto.
Qed.

#[export] Instance prog_equiv_equivalence {A} :
  Equivalence (≡@{prog num S A}).
Proof. split; apply _. Qed.

Lemma prog_bind_proper {A B} (f g : A -> prog num S B) (p q : prog num S A) :
  (forall a, f a ≡ g a) -> p ≡ q -> prog_bind f p ≡ prog_bind g q.
Proof. intros Hfg. induction 1; simpl; try constructor; auto. Qed.

#[export] Instance mbind_prog_proper {A B} :
  Proper (pointwise_relation A (≡) ==> (≡) ==> (≡))
    (mbind (M := prog num S) (A := A) (B := B)).
Proof. intros f g Hfg p q Hpq. by apply prog_bind_proper. Qed.

#[export] Instance try_catch_proper {A} :
  Proper ((≡) ==> pointwise_relation exn (≡) ==> (≡)) (@try_catch A).
Proof.
  intros p q Hpq h h' Hh. induction Hpq; simpl; try constructor; auto.
Qed.

#[export] Instance finally_proper {A} :
  Proper ((≡) ==> (≡) ==> (≡)) (@finally A).
Proof.
  intros p p' Hp q q' Hq.
  induction Hp; simpl; try constructor; auto;
    apply prog_bind_proper; auto; reflexivity.
Qed.

Lemma run_proper {A} (p q : prog num S A) s c :
  p ≡ q ->
  (run p s c).1 = (run q s c).1 /\ status_equiv (run p s c).2 (run q s c).2.
Proof.
  intros Hpq. revert s c.
  induction Hpq; intros s c; simpl; try (split; [done|by constructor]).
  - rewrite H. apply IHHpq.
  - apply IHHpq.
Qed.

(** ** Monad laws *)

Lemma bind_ret_r {A} (p : prog num S A) : p ≫= mret ≡ p.
Proof. induction p; simpl; constructor; auto. Qed.

Lemma bind_assoc {A B C} (p : prog num S A)
    (f : A -> prog num S B) (g : B -> prog num S C) :
  (p ≫= f) ≫= g ≡ p ≫= (fun a => f a ≫= g).
Proof.
  induction p; simpl; try constructor; auto; reflexivity.
Qed.

(** ** [try_catch] and [finally] *)

Lemma try_catch_bind_eval {A B} (r : result exn A)
    (f : A -> prog num S B) (h : exn -> prog num S B) :
  try_catch (eval r ≫= f) h =
  match r with
  | Ok a => try_catch (f a) h
  | Err e => h e
  end.
Proof. by destruct r. Qed.

(** ** [never_throws] *)

Lemma never_throws_bind {A B} (p : prog num S A) (f : A -> prog num S B) :
  never_throws p -> (forall a, never_throws (f a)) -> never_throws (p ≫= f).
Proof. intros Hp Hf. induction Hp; simpl; try constructor; auto. Qed.

Lemma never_throws_try_catch {A} (p : prog num S A) h :
  (forall e, never_throws (h e)) -> never_throws (try_catch p h).
Proof. intros Hh. induction p; simpl; try constructor; auto. Qed.

Lemma never_throws_finally {A} (p : prog num S A) q :
  never_throws p -> never_throws q -> never_throws (finally p q).
Proof.
  intros Hp Hq. induction Hp; simpl; try constructor; auto.
  apply never_throws_bind; [done|]. constructor.
Qed.

Lemma never_throws_upd (f : S -> S) : never_throws (upd f).
Proof. repeat constructor. Qed.

Lemma never_throws_equiv {A} (p q : prog num S A) :
  p ≡ q -> never_throws p -> never_throws q.
Proof. induction 1; intros Hp; inv Hp; constructor; auto. Qed.

Lemma run_never_throws {A} (p : prog num S A) s c :
  never_throws p -> status_never_throws (run p s c).2.
Proof. intros Hp. revert s c. induction Hp; simpl; auto. Qed.

Lemma run_alone_never_throws {A} net (p : prog num S A) s c :
  never_throws p -> is_Ok (run_alone net p s c).2 = true.
Proof. intros Hp. revert s c. induction Hp; simpl; auto. Qed.

Lemma run_alone_proper {A} net (p q : prog num S A) s c :
  p ≡ q -> run_alone net p s c = run_alone net q s c.
Proof.
  intros Hpq. revert s c. induction Hpq; intros s c; simpl; auto.
  rewrite H. auto.
Qed.

Lemma run_alone_bind {A B} net (p : prog num S A) (f : A -> prog num S B) s c :
  run_alone net (p ≫= f) s c =
  match run_alone net p s c with
  | (s', c', Ok a) => run_alone net (f a) s' c'
  | (s', c', Err e) => (s', c', Err e)
  end.
Proof. revert s c. induction p; intros s c; simpl; auto. Qed.

(** A handler is dead code around a program that never throws. *)
Lemma try_catch_never_throws {A} (p : prog num S A) h :
  never_throws p -> try_catch p h ≡ p.
Proof. induction 1; simpl; constructor; auto. Qed.

(** [finally] is catch-and-rethrow when the cleanup cannot throw. *)
Lemma finally_as_try_catch {A} (p : prog num S A) (q : prog num S unit) :
  never_throws q ->
  finally p q ≡
  try_catch (p ≫= fun a => q ;; Ret a) (fun e => q ;; Throw e).
Proof.
  intros Hq. induction p; simpl; try (constructor; by auto).
  - symmetry. apply try_catch_never_throws.
    apply never_throws_bind; [done|]. constructor.
  - reflexivity.
Qed.

End programs.

#[export] Hint Resolve never_throws_bind never_throws_try_catch
  never_throws_finally never_throws_upd : movie.
#[export] Hint Constructors never_throws : movie.
