(* ===== verification/ViewState.v ===== *)
(** * ViewState: the state cells of [App]

    src/App.js, lines 6-13: eight [useState] cells.  [ViewState] has one
    field per cell, [initial] holds the arguments of [useState], and each
    setter replaces one field.  The cells that receive data of the
    catalogue ([movies], [selectedMovie], [trailerUrl], [downloadLinks])
    hold a [value]: the source stores what the response holds without
    checking its shape. *)

From S2P Require Import Prelude JsValue.

Record ViewState (num : Type) : Type := mkViewState {
  query : string;
  movies : value num;
  loading : bool;
  error : string;
  selectedMovie : value num;
  modalVisible : bool;
  trailerUrl : value num;
  downloadLinks : value num;
}.
Arguments mkViewState {num}.
Arguments query {num} s : rename.
Arguments movies {num} s : rename.
Arguments loading {num} s : rename.
Arguments error {num} s : rename.
Arguments selectedMovie {num} s : rename.
Arguments modalVisible {num} s : rename.
Arguments trailerUrl {num} s : rename.
Arguments downloadLinks {num} s : rename.

Section view_state.
Context {num : Type}.
Implicit Types (s : ViewState num) (v : value num).

Definition initial : ViewState num := {|
  query := EmptyString;
  movies := VArr [];
  loading := false;
  error := EmptyString;
  selectedMovie := VNull;
  modalVisible := false;
  trailerUrl := VNull;
  downloadLinks := VArr [];
|}.

Definition setQuery (q : string) s : ViewState num :=
  mkViewState q (movies s) (loading s) (error s) (selectedMovie s)
    (modalVisible s) (trailerUrl s) (downloadLinks s).

Definition setMovies v s : ViewState num :=
  mkViewState (query s) v (loading s) (error s) (selectedMovie s)
    (modalVisible s) (trailerUrl s) (downloadLinks s).

Definition setLoading (b : bool) s : ViewState num :=
  mkViewState (query s) (movies s) b (error s) (selectedMovie s)
    (modalVisible s) (trailerUrl s) (downloadLinks s).

Definition setError (e : string) s : ViewState num :=
  mkViewState (query s) (movies s) (loading s) e (selectedMovie s)
    (modalVisible s) (trailerUrl s) (downloadLinks s).

Definition setSelectedMovie v s : ViewState num :=
  mkViewState (query s) (movies s) (loading s) (error s) v
    (modalVisible s) (trailerUrl s) (downloadLinks s).

Definition setModalVisible (b : bool) s : ViewState num :=
  mkViewState (query s) (movies s) (loading s) (error s) (selectedMovie s)
    b (trailerUrl s) (downloadLinks s).

Definition setTrailerUrl v s : ViewState num :=
  mkViewState (query s) (movies s) (loading s) (error s) (selectedMovie s)
    (modalVisible s) v (downloadLinks s).

Definition setDownloadLinks v s : ViewState num :=
  mkViewState (query s) (movies s) (loading s) (error s) (selectedMovie s)
    (modalVisible s) (trailerUrl s) v.

(** The cells that the list requests write, and those that the detail
    request writes: two views of the state that do not overlap. *)
Definition list_cells s : value num * bool * string :=
  (movies s, loading s, error s).
Definition detail_cells s : value num * value num :=
  (trailerUrl s, downloadLinks s).
Definition modal_cells s : value num * bool :=
  (selectedMovie s, modalVisible s).

End view_state.

#[export] Instance ViewState_eq_dec {num} `{!JsNumber num} :
  EqDecision (ViewState num).
Proof. solve_decision. Defined.

(** A state is determined by its cells. *)
Lemma ViewState_eta {num} (s : ViewState num) :
  s = mkViewState (query s) (movies s) (loading s) (error s)
        (selectedMovie s) (modalVisible s) (trailerUrl s) (downloadLinks s).
Proof. by destruct s. Qed.

Lemma ViewState_ext {num} (s1 s2 : ViewState num) :
  query s1 = query s2 -> list_cells s1 = list_cells s2 ->
  modal_cells s1 = modal_cells s2 -> detail_cells s1 = detail_cells s2 ->
  s1 = s2.
Proof.
  destruct s1, s2; unfold list_cells, modal_cells, detail_cells; simpl.
  congruence.
Qed.
