(* ===== verification/Url.v ===== *)
(** * Url: the addresses built by template literals

    Every address of src/App.js is a template literal: constant text
    around interpolated expressions, each converted by ToString and
    inserted as it is.  The source encodes nothing
    ([encodeURIComponent] is never called), so whatever the user typed
    becomes part of the address.  An address with a value of the
    catalogue in it is a [result]: ToString throws on a value that has
    no text.  The functions named [..._of] are the literals as functions
    of the texts inserted.

    [query_param] is the reference reading of a query string (the part
    after [?], split at [&], each part split at the first [=]): what a
    server makes of the address, before any decoding.
    [search_url_roundtrip] states when the server reads back the text
    the user typed, and [search_url_injection] exhibits a text for which
    it does not. *)

From Stdlib Require Import Ascii.
From S2P Require Import Prelude JsValue.

Open Scope string_scope.
Open Scope list_scope.

(** ** Reading a query string (reference definition) *)

(** [split_at c s]: the text before the first [c] and the text after
    it, [None] when [c] does not occur. *)
Fixpoint split_at (c : Ascii.ascii) (s : string) : option (string * string) :=
  match s with
  | EmptyString => None
  | String a s' =>
      if decide (a = c) then Some (EmptyString, s')
      else '(l, r) ← split_at c s'; Some (String a l, r)
  end.

(** [split_all c s]: the parts of [s] between the occurrences of [c]. *)
Fixpoint split_all (c : Ascii.ascii) (s : string) : list string :=
  match s with
  | EmptyString => [EmptyString]
  | String a s' =>
      if decide (a = c) then EmptyString :: split_all c s'
      else match split_all c s' with
           | [] => [String a EmptyString]
           | p :: ps => String a p :: ps
           end
  end.

(** [has_char c s]: [c] occurs in [s]. *)
Fixpoint has_char (c : Ascii.ascii) (s : string) : bool :=
  match s with
  | EmptyString => false
  | String a s' => bool_decide (a = c) || has_char c s'
  end.

(** One [name=value] part. *)
Definition parse_param (p : string) : string * string :=
  match split_at "="%char p with
  | Some (n, v) => (n, v)
  | None => (p, EmptyString)
  end.

(** The text before the first [c], all of it when [c] does not occur. *)
Definition before_char (c : Ascii.ascii) (s : string) : string :=
  match split_at c s with
  | Some (l, _) => l
  | None => s
  end.

(** The parameters of an address, in order: the fragment (from [#]) is
    not part of the query. *)
Definition query_params (url : string) : list (string * string) :=
  match split_at "?"%char (before_char "#"%char url) with
  | Some (_, q) => parse_param <$> split_all "&"%char q
  | None => []
  end.

(** The first parameter named [n]. *)
Definition query_param (n : string) (url : string) : option string :=
  p ← list_find (fun p => p.1 = n) (query_params url); Some p.2.2.

(** A text that can stand in a query string as it is. *)
Definition plain (s : string) : bool :=
  negb (has_char "&"%char s) && negb (has_char "#"%char s).

(** A key that can stand in a query string as it is. *)
Definition plain_key (s : string) : bool :=
  plain s && negb (has_char "="%char s) && negb (has_char "?"%char s).

Section urls.
Context {num : Type} `{!JsNumber num}.
Variable API_KEY : string.
Implicit Types (query : string) (v : value num).

(** Line 23. *)
Definition search_url query : string :=
  "https://api.themoviedb.org/3/search/movie?api_key=" +:+ API_KEY +:+
  "&query=" +:+ query.

(** Line 41. *)
Definition popular_url : string :=
  "https://api.themoviedb.org/3/movie/popular?api_key=" +:+ API_KEY.

(** Line 58. *)
Definition details_url_of (id : string) : string :=
  "https://api.themoviedb.org/3/movie/" +:+ id +:+
  "?api_key=" +:+ API_KEY +:+ "&append_to_response=videos,watch/providers".

Definition details_url (movieId : value num) : result exn string :=
  id ← ToString movieId; Ok (details_url_of id).

End urls.

Section asset_urls.
Context {num : Type} `{!JsNumber num}.
Implicit Types (v : value num).

(** Lines 83 and 173. *)
Definition poster_url_of (path : string) : string :=
  "https://image.tmdb.org/t/p/w500" +:+ path.

Definition poster_url (poster_path : value num) : result exn string :=
  path ← ToString poster_path; Ok (poster_url_of path).

(** Line 127. *)
Definition logo_url_of (path : string) : string :=
  "https://image.tmdb.org/t/p/w200" +:+ path.

Definition logo_url (logo_path : value num) : result exn string :=
  path ← ToString logo_path; Ok (logo_url_of path).

(** Line 104. *)
Definition embed_url_of (key : string) : string :=
  "https://www.youtube.com/embed/" +:+ key.

Definition embed_url (trailerUrl : value num) : result exn string :=
  key ← ToString trailerUrl; Ok (embed_url_of key).

(** Line 108. *)
Definition watch_url_of (key : string) : string :=
  "https://www.youtube.com/watch?v=" +:+ key.

Definition watch_url (trailerUrl : value num) : result exn string :=
  key ← ToString trailerUrl; Ok (watch_url_of key).

(** Line 124. *)
Definition provider_page_url_of (id : string) : string :=
  "https://www.themoviedb.org/movie/" +:+ id +:+ "/watch".

Definition provider_page_url (movie : value num) : result exn string :=
  id ← get movie "id";
  text ← ToString id;
  Ok (provider_page_url_of text).

End asset_urls.

(** * Properties of the reference reading *)

Lemma has_char_app c s1 s2 :
  has_char c (s1 +:+ s2) = has_char c s1 || has_char c s2.
Proof.
  induction s1 as [|a s1 IH]; [done|].
  rewrite ?string_app_cons. simpl. by rewrite IH, orb_assoc.
Qed.

Lemma split_at_app c s1 s2 :
  has_char c s1 = false -> split_at c (s1 +:+ String c s2) = Some (s1, s2).
Proof.
  induction s1 as [|a s1 IH]; simpl.
  - intros _. by rewrite decide_True.
  - intros [Ha Hs]%orb_false_elim.
    apply bool_decide_eq_false in Ha. rewrite decide_False by done.
    by rewrite IH.
Qed.

Lemma split_at_None c s : has_char c s = false -> split_at c s = None.
Proof.
  induction s as [|a s IH]; simpl; [done|].
  intros [Ha Hs]%orb_false_elim. apply bool_decide_eq_false in Ha.
  rewrite decide_False by done. by rewrite IH.
Qed.

Lemma split_all_none c s : has_char c s = false -> split_all c s = [s].
Proof.
  induction s as [|a s IH]; simpl; [done|].
  intros [Ha Hs]%orb_false_elim. apply bool_decide_eq_false in Ha.
  rewrite decide_False by done. by rewrite IH.
Qed.

Lemma split_all_app c s1 s2 :
  has_char c s1 = false ->
  split_all c (s1 +:+ String c s2) = s1 :: split_all c s2.
Proof.
  induction s1 as [|a s1 IH]; simpl.
  - intros _. by rewrite decide_True.
  - intros [Ha Hs]%orb_false_elim.
    apply bool_decide_eq_false in Ha. rewrite decide_False by done.
    by rewrite IH.
Qed.

Lemma before_char_none c s : has_char c s = false -> before_char c s = s.
Proof. intros H. unfold before_char. by rewrite split_at_None. Qed.

Lemma parse_param_app n v :
  has_char "=" n = false -> parse_param (n +:+ String "=" v) = (n, v).
Proof. intros H. unfold parse_param. by rewrite split_at_app. Qed.

(** The text before a separator, through a concatenation. *)
Lemma before_char_app c s1 s2 :
  has_char c s1 = false ->
  before_char c (s1 +:+ s2) = s1 +:+ before_char c s2.
Proof.
  intros Hs1. unfold before_char.
  induction s1 as [|a s1 IH]; [done|].
  rewrite !string_app_cons. simpl in *.
  apply orb_false_elim in Hs1 as [Ha Hs1]. apply bool_decide_eq_false in Ha.
  rewrite decide_False by done. specialize (IH Hs1).
  destruct (split_at c (s1 +:+ s2)) as [[l r]|], (split_at c s2) as [[l' r']|];
    simpl in *; by rewrite ?IH, ?string_app_cons.
Qed.

Lemma before_char_cons c a s :
  a <> c -> before_char c (String a s) = String a (before_char c s).
Proof.
  intros Ha. unfold before_char. simpl. rewrite decide_False by done.
  by destruct (split_at c s) as [[l r]|].
Qed.

Lemma before_char_stop c s1 s2 :
  has_char c s1 = false -> before_char c (s1 +:+ String c s2) = s1.
Proof. intros Hs1. unfold before_char. by rewrite split_at_app. Qed.

Lemma has_char_before c c' s :
  has_char c s = false -> has_char c (before_char c' s) = false.
Proof.
  unfold before_char. induction s as [|a s IH]; [done|]. simpl.
  intros [Ha Hs]%orb_false_elim. destruct (decide (a = c')); [done|].
  specialize (IH Hs). destruct (split_at c' s) as [[l r]|]; simpl in *.
  - by rewrite Ha, IH.
  - by rewrite Ha, Hs.
Qed.

Lemma has_char_before_self c s : has_char c (before_char c s) = false.
Proof.
  unfold before_char. induction s as [|a s IH]; [done|]. simpl.
  destruct (decide (a = c)) as [|Ha]; [done|].
  destruct (split_at c s) as [[l r]|] eqn:Hs; simpl in *.
  - by rewrite bool_decide_false.
  - by rewrite bool_decide_false, IH.
Qed.

(** The first part of a split is the text before the separator. *)
Lemma split_all_before c s :
  exists ps, split_all c s = before_char c s :: ps.
Proof.
  unfold before_char. induction s as [|a s [ps IH]]; simpl; [by eexists|].
  destruct (decide (a = c)); [by eexists|]. rewrite IH.
  destruct (split_at c s) as [[l r]|]; simpl; by eexists.
Qed.

(** [solve_has_char] decides the absence of a character in a text built
    from constants and texts known to be free of it. *)
Ltac solve_has_char :=
  repeat (rewrite ?has_char_app; simpl);
  repeat match goal with H : has_char _ _ = false |- _ => rewrite H end;
  done.

Section url_props.
Context {num : Type} `{!JsNumber num}.
Variable API_KEY : string.
Implicit Types (v : value num).

(** The address of a value that has a text. *)
Lemma details_url_Ok v :
  printable v = true ->
  details_url API_KEY v = Ok (details_url_of API_KEY (to_string v)).
Proof. intros Hp. unfold details_url. by rewrite ToString_Ok. Qed.

Lemma poster_url_Ok v :
  printable v = true -> poster_url v = Ok (poster_url_of (to_string v)).
Proof. intros Hp. unfold poster_url. by rewrite ToString_Ok. Qed.

Lemma logo_url_Ok v :
  printable v = true -> logo_url v = Ok (logo_url_of (to_string v)).
Proof. intros Hp. unfold logo_url. by rewrite ToString_Ok. Qed.

Lemma embed_url_Ok v :
  printable v = true -> embed_url v = Ok (embed_url_of (to_string v)).
Proof. intros Hp. unfold embed_url. by rewrite ToString_Ok. Qed.

Lemma watch_url_Ok v :
  printable v = true -> watch_url v = Ok (watch_url_of (to_string v)).
Proof. intros Hp. unfold watch_url. by rewrite ToString_Ok. Qed.

Lemma poster_url_is_Ok v : is_Ok (poster_url v) = printable v.
Proof. unfold poster_url, ToString. by destruct (printable v). Qed.

Lemma logo_url_is_Ok v : is_Ok (logo_url v) = printable v.
Proof. unfold logo_url, ToString. by destruct (printable v). Qed.

Lemma embed_url_is_Ok v : is_Ok (embed_url v) = printable v.
Proof. unfold embed_url, ToString. by destruct (printable v). Qed.

Lemma watch_url_is_Ok v : is_Ok (watch_url v) = printable v.
Proof. unfold watch_url, ToString. by destruct (printable v). Qed.

Lemma search_url_parts q :
  search_url API_KEY q =
  "https://api.themoviedb.org/3/search/movie" +:+
  String "?" (("api_key" +:+ String "=" API_KEY) +:+
              String "&" ("query" +:+ String "=" q)).
Proof. reflexivity. Qed.

Lemma plain_key_inv k :
  plain_key k = true ->
  has_char "&" k = false /\ has_char "#" k = false /\
  has_char "=" k = false /\ has_char "?" k = false.
Proof.
  unfold plain_key, plain.
  intros [[[?%negb_true_iff ?%negb_true_iff]%andb_prop ?%negb_true_iff]%andb_prop
    ?%negb_true_iff]%andb_prop. done.
Qed.

Lemma search_url_params q :
  plain_key API_KEY = true -> has_char "#" q = false ->
  query_params (search_url API_KEY q) =
  ("api_key", API_KEY) :: (parse_param <$> split_all "&" ("query" +:+ String "=" q)).
Proof.
  intros (Hk1 & Hk2 & Hk3 & Hk4)%plain_key_inv Hq.
  unfold query_params. rewrite before_char_none.
  - rewrite search_url_parts, split_at_app by done.
    rewrite split_all_app by solve_has_char.
    rewrite fmap_cons. by rewrite parse_param_app.
  - rewrite search_url_parts. solve_has_char.
Qed.

(** C9. The server reads back the text that was typed when that text
    holds neither [&] nor [#] (and the key is well formed). *)
Theorem search_url_roundtrip q :
  plain_key API_KEY = true -> plain q = true ->
  query_param "query" (search_url API_KEY q) = Some q.
Proof.
  intros Hk [Hq1%negb_true_iff Hq2%negb_true_iff]%andb_prop.
  unfold query_param. rewrite search_url_params by done.
  rewrite split_all_none by solve_has_char.
  rewrite list_fmap_singleton, parse_param_app by done. reflexivity.
Qed.

(** The text is not encoded: typed as ["a&page=2"], it reaches the
    server as the query "a" and a parameter [page] that the application
    never meant to send. *)
Theorem search_url_injection :
  plain_key API_KEY = true ->
  query_params (search_url API_KEY "a&page=2") =
  [("api_key", API_KEY); ("query", "a"); ("page", "2")].
Proof. intros Hk. by rewrite search_url_params. Qed.
End url_props.

Lemma search_url_roundtrip_witness :
  query_param "query" (search_url "k" "bat man") = Some "bat man".
Proof. apply (search_url_roundtrip "k" "bat man"); reflexivity. Defined.

Lemma search_url_injection_witness :
  query_params (search_url "k" "a&page=2") =
  [("api_key", "k"); ("query", "a"); ("page", "2")].
Proof. apply (search_url_injection "k"). reflexivity. Defined.
