(* ===== verification/Styles.v ===== *)
(** * Styles: the style sheet of the screen

    src/App.js, lines 198-332: the object passed to [StyleSheet.create].
    It is constant data: [styles] lists its entries in the order of the
    source, each with its properties in order.  A property is a number
    (a rational: [shadowOpacity] is 0.1), a string, or an object
    ([shadowOffset]).

    [style_of n] is the access [styles.n]: the entry named [n], and
    [None] (the [undefined] of JavaScript) when there is none.  A style
    that is not defined is no error in the source, the element is just
    not styled: that every style the screen names is defined is a theorem
    of [Render]. *)

From Stdlib Require Import QArith.
From S2P Require Import Prelude.

Open Scope string_scope.
Open Scope list_scope.

#[local] Unset Elimination Schemes.
Inductive style_value : Type :=
| SNum (q : Q)
| SStr (s : string)
| SObj (fields : list (string * style_value)).
#[local] Set Elimination Schemes.
Arguments SNum q%_Q.

(** The properties of one entry. *)
Definition style : Type := list (string * style_value).

(** Lines 198-332. *)
Definition styles : list (string * style) := [
  ("container",
   [("flex", SNum 1); ("padding", SNum 20);
    ("backgroundColor", SStr "#f8f9fa")]);
  ("input",
   [("height", SNum 50); ("borderColor", SStr "#ced4da");
    ("borderWidth", SNum 1); ("borderRadius", SNum 8);
    ("padding", SNum 10); ("marginBottom", SNum 15);
    ("backgroundColor", SStr "white")]);
  ("buttonContainer",
   [("flexDirection", SStr "row"); ("justifyContent", SStr "space-between");
    ("marginBottom", SNum 20); ("gap", SNum 10)]);
  ("movieItem",
   [("flexDirection", SStr "row"); ("backgroundColor", SStr "white");
    ("borderRadius", SNum 8); ("marginBottom", SNum 10);
    ("padding", SNum 10); ("shadowColor", SStr "#000");
    ("shadowOffset", SObj [("width", SNum 0); ("height", SNum 2)]);
    ("shadowOpacity", SNum 0.1); ("shadowRadius", SNum 4);
    ("elevation", SNum 2)]);
  ("poster",
   [("width", SNum 100); ("height", SNum 150); ("borderRadius", SNum 8)]);
  ("movieInfo",
   [("flex", SNum 1); ("marginLeft", SNum 15);
    ("justifyContent", SStr "center")]);
  ("title",
   [("fontSize", SNum 16); ("fontWeight", SStr "bold");
    ("marginBottom", SNum 5)]);
  ("year", [("fontSize", SNum 14); ("color", SStr "#6c757d")]);
  ("error",
   [("color", SStr "#dc3545"); ("textAlign", SStr "center");
    ("marginTop", SNum 20)]);
  ("empty",
   [("textAlign", SStr "center"); ("marginTop", SNum 20);
    ("color", SStr "#6c757d")]);
  ("modalContainer",
   [("flex", SNum 1); ("padding", SNum 20);
    ("backgroundColor", SStr "white")]);
  ("modalPoster",
   [("width", SStr "100%"); ("height", SNum 300);
    ("resizeMode", SStr "contain")]);
  ("modalTitle",
   [("fontSize", SNum 24); ("fontWeight", SStr "bold");
    ("marginVertical", SNum 15)]);
  ("modalOverview",
   [("fontSize", SNum 16); ("lineHeight", SNum 24);
    ("marginBottom", SNum 15)]);
  ("modalRating",
   [("fontSize", SNum 16); ("fontWeight", SStr "bold");
    ("marginBottom", SNum 10)]);
  ("modalDate",
   [("fontSize", SNum 14); ("color", SStr "#6c757d");
    ("marginBottom", SNum 20)]);
  ("trailerContainer", [("marginVertical", SNum 15); ("height", SNum 200)]);
  ("trailerVideo", [("flex", SNum 1)]);
  ("downloadSection", [("marginTop", SNum 10)]);
  ("serviceButton",
   [("flexDirection", SStr "row"); ("alignItems", SStr "center");
    ("padding", SNum 10); ("backgroundColor", SStr "#f0f0f0");
    ("borderRadius", SNum 8); ("marginVertical", SNum 5)]);
  ("serviceLogo",
   [("width", SNum 30); ("height", SNum 30); ("marginRight", SNum 10)]);
  ("serviceName", [("fontSize", SNum 16)]);
  ("disclaimer",
   [("color", SStr "#666"); ("fontSize", SNum 12);
    ("textAlign", SStr "center"); ("marginVertical", SNum 10)]);
  ("noTrailer",
   [("textAlign", SStr "center"); ("color", SStr "#666");
    ("marginVertical", SNum 10)]);
  ("sectionTitle",
   [("fontSize", SNum 18); ("fontWeight", SStr "bold");
    ("marginBottom", SNum 10)])
].

(** [sheet.n]: an object literal with a name written twice keeps the
    last value, so the lookup prefers the later entries. *)
Fixpoint sheet_lookup {A} (sheet : list (string * A)) (n : string)
  : option A :=
  match sheet with
  | [] => None
  | (m, x) :: sheet' =>
      match sheet_lookup sheet' n with
      | Some y => Some y
      | None => if decide (m = n) then Some x else None
      end
  end.

(** [styles.n]. *)
Definition style_of (n : string) : option style := sheet_lookup styles n.

(** The names of the entries. *)
Definition style_names : list string := styles.*1.

(** The styles [styles.n] that are not [undefined]. *)
Definition defined (n : string) : Prop := is_Some (style_of n).

#[export] Instance defined_dec n : Decision (defined n).
Proof. unfold defined. apply _. Defined.

(** A property of an entry, [styles.n.p]. *)
Definition style_prop (n p : string) : option style_value :=
  style_of n ≫= fun st => sheet_lookup st p.

(** * Properties *)

Lemma sheet_lookup_is_Some {A} (sheet : list (string * A)) n :
  is_Some (sheet_lookup sheet n) <-> n ∈ sheet.*1.
Proof.
  induction sheet as [|[m x] sheet IH]; simpl.
  - rewrite elem_of_nil. split; [by intros [? ?]|done].
  - rewrite elem_of_cons, <-IH.
    destruct (sheet_lookup sheet n); [by split; eauto|].
    destruct (decide (m = n)) as [->|Hne]; [by split; eauto|].
    split; [by intros [? [=]]|]. by intros [->|[? [=]]].
Qed.

Lemma sheet_lookup_None {A} (sheet : list (string * A)) n :
  sheet_lookup sheet n = None <-> n ∉ sheet.*1.
Proof. by rewrite <-sheet_lookup_is_Some, eq_None_not_Some. Qed.

(** A name that occurs once is looked up to its value. *)
Lemma sheet_lookup_NoDup {A} (sheet : list (string * A)) n x :
  NoDup sheet.*1 -> (n, x) ∈ sheet -> sheet_lookup sheet n = Some x.
Proof.
  induction sheet as [|[m y] sheet IH]; simpl.
  - by intros _ ?%elem_of_nil.
  - intros [Hm Hnd]%NoDup_cons [[= -> ->]|Hin]%elem_of_cons.
    + rewrite (proj2 (sheet_lookup_None sheet m)) by done.
      by rewrite decide_True.
    + by rewrite (IH Hnd Hin).
Qed.

(** No entry of the style sheet is written twice, and no property is
    written twice in an entry: nothing is silently overridden. *)
Lemma styles_NoDup :
  NoDup style_names /\ Forall (fun e => NoDup (e.2).*1) styles.
Proof. split; compute_done. Qed.

(** The entries are the twenty-five of the source. *)
Lemma styles_length : length styles = 25.
Proof. reflexivity. Qed.

(** [styles.n] is defined exactly for the names of the sheet. *)
Lemma style_of_is_Some n : is_Some (style_of n) <-> n ∈ style_names.
Proof. apply sheet_lookup_is_Some. Qed.
