(* ===== verification/Samples.v ===== *)
(** * Samples: answers of the catalogue used in the examples

    Concrete values, with integral numbers, on which the theorems of the
    other files are applied: two movies as the catalogue lists them, the
    bodies of a list answer and of a detail answer, the body that comes
    with an HTTP error status, and the ways a request can fail. *)

From S2P Require Import Prelude JsValue Dates Async ViewState.

Open Scope string_scope.
Open Scope list_scope.

Definition movie_of (id : Z) (title date : string) : value Z :=
  VObj [("id", VNum id); ("title", VStr title);
        ("poster_path", VNull); ("release_date", VStr date);
        ("vote_average", VNum 7%Z); ("overview", VStr "An overview.")].

Definition batman : value Z := movie_of 1 "Batman" "1989-06-23".
Definition joker : value Z := movie_of 5 "Joker" "2019-10-02".

(** A movie released on the first of January. *)
Definition new_year : value Z := movie_of 9 "New Year" "2019-01-01".

(** A movie as the catalogue lists it when it knows neither the poster
    nor the date. *)
Definition untitled : value Z :=
  VObj [("id", VNum 3%Z); ("title", VStr "Untitled");
        ("poster_path", VNull); ("release_date", VStr EmptyString)].

(** [{ page: 1, results: [...] }] *)
Definition list_body (l : list (value Z)) : value Z :=
  VObj [("page", VNum 1%Z); ("results", VArr l)].

(** The body that the catalogue sends with the status 401. *)
Definition unauthorized_body : value Z :=
  VObj [("status_code", VNum 7%Z);
        ("status_message", VStr "Invalid API key: You must be granted a valid key.");
        ("success", VBool false)].

Definition video (type key : string) : value Z :=
  VObj [("type", VStr type); ("key", VStr key)].

Definition provider (id : Z) (name : string) : value Z :=
  VObj [("provider_id", VNum id); ("provider_name", VStr name);
        ("logo_path", VStr "/logo.jpg")].

(** [{ id, videos: { results }, "watch/providers": { results: regions } }] *)
Definition details_body (id : Z) (videos : list (value Z))
    (regions : list (string * value Z)) : value Z :=
  VObj [("id", VNum id);
        ("videos", VObj [("results", VArr videos)]);
        ("watch/providers", VObj [("results", VObj regions)])].

Definition us_region (flatrate : list (value Z)) : string * value Z :=
  ("US", VObj [("link", VStr "https://www.themoviedb.org/movie/1/watch");
               ("flatrate", VArr flatrate)]).

(** A teaser, then the trailer, as in the scenario of the
    specification; and a body with a teaser only. *)
Definition batman_details : value Z :=
  details_body 1 [video "Teaser" "x"; video "Trailer" "y"]
    [us_region [provider 8 "Netflix"]].

Definition joker_details : value Z :=
  details_body 5 [video "Teaser" "t"] [("FR", VObj [])].

(** The platform of the examples: a device in the time zone UTC. *)
#[export] Instance utc_dates : JsDate Z := zone_dates 0.

(** A detail answer whose [flatrate] is a text, not an array. *)
Definition text_providers : value Z :=
  details_body 1 [video "Trailer" "y"]
    [("US", VObj [("flatrate", VStr "Netflix")])].

(** Answers of [fetch]. *)
Definition answer_ok (data : value Z) : outcome (response Z) :=
  Resolved (Response 200 (Some data)).
Definition answer_unauthorized : outcome (response Z) :=
  Resolved (Response 401 (Some unauthorized_body)).
Definition answer_not_json : outcome (response Z) :=
  Resolved (Response 502 None).
Definition answer_offline : outcome (response Z) :=
  Rejected NetworkFailure.

(** A state: the popular list is shown and Batman is open, with its
    trailer and its provider. *)
Definition batman_open : ViewState Z :=
  mkViewState "bat" (VArr [batman; joker]) false EmptyString batman true
    (VStr "y") (VArr [provider 8 "Netflix"]).
