(* ===== verification/Render.v ===== *)
(** * Render: the elements that [App] returns

    src/App.js, lines 80-195.  A call of [App] evaluates the JSX of lines
    137-195 to a tree of elements, calling [renderTrailerSection] and
    [renderDownloadOptions] on the way; the list calls [renderMovieItem]
    and [keyExtractor] on every item of its data.  The whole tree is
    evaluated at every render, the children of the modal included, also
    when the modal is hidden.

    - [element] is the tree: one constructor per component that the source
      uses (lines 2-3), with the properties that the source passes.  A
      [style={styles.n}] is kept as the name [n]; a text or a value in
      braces among the children is a [Child].
    - [handler] is a function passed as [onPress], [onChangeText] or
      [onRequestClose]: which closure of the source it is, with the
      values it captured.
    - [render s] is the tree for the state [s], or the exception that the
      evaluation throws: an access to a property of [null] or
      [undefined], a call of [map] on a value that has none, or a
      template literal around a value that has no text.  An exception
      in a render tears the screen down (the source has no error
      boundary).

    What the platform makes of the tree (layout, text of a child that is
    no string, the window of the list that is on screen) is not modelled.
    The cells of the list are those of the items of an array; for a data
    that is no array the model lists none.  [getFullYear] is the
    platform's [new Date(v).getFullYear()], a parameter ([JsDate]) that
    [Dates.zone_dates] instantiates for a device at a given offset from
    UTC. *)

From S2P Require Import Prelude JsValue Dates ViewState Url Styles Samples.

Open Scope string_scope.
Open Scope list_scope.

(** The closures that the source attaches to the elements. *)
Inductive handler (num : Type) : Type :=
| OnChangeText                          (* line 143: setQuery *)
| OnSearchMovies                        (* line 146: searchMovies *)
| OnFetchPopularMovies                  (* line 147: fetchPopularMovies *)
| OnOpenMovieModal (item : value num)   (* line 81 *)
| OnRequestClose                        (* line 167 *)
| OnClose                               (* line 189 *)
| OnOpenURL (url : result exn string).  (* lines 108 and 124: the address
                                           is computed when pressed *)
Arguments OnChangeText {num}.
Arguments OnSearchMovies {num}.
Arguments OnFetchPopularMovies {num}.
Arguments OnOpenMovieModal {num} item.
Arguments OnRequestClose {num}.
Arguments OnClose {num}.
Arguments OnOpenURL {num} url.

#[export] Instance handler_eq_dec {num} `{!JsNumber num} :
  EqDecision (handler num).
Proof. solve_decision. Defined.

#[local] Unset Elimination Schemes.
Inductive element (num : Type) : Type :=
| View (style : string) (children : list (element num))
| TextInput (style placeholder value : string) (onChangeText : handler num)
| Button (title : string) (onPress : handler num)
| ActivityIndicator (size color : string)
| Text (style : string) (children : list (element num))
| FlatList (data : value num) (cells : list (element num))
    (ListEmptyComponent : element num)
| Image (style uri : string) (defaultSource : option string)
| TouchableOpacity (style : string) (onPress : handler num)
    (children : list (element num))
| WebView (style : string) (javaScriptEnabled : bool) (uri : string)
| Modal (animationType : string) (transparent visible : bool)
    (onRequestClose : handler num) (children : list (element num))
| Fragment (children : list (element num))
| Keyed (key : value num) (child : element num)
| Child (v : value num).
#[local] Set Elimination Schemes.
Arguments View {num} style children.
Arguments TextInput {num} style placeholder value onChangeText.
Arguments Button {num} title onPress.
Arguments ActivityIndicator {num} size color.
Arguments Text {num} style children.
Arguments FlatList {num} data cells ListEmptyComponent.
Arguments Image {num} style uri defaultSource.
Arguments TouchableOpacity {num} style onPress children.
Arguments WebView {num} style javaScriptEnabled uri.
Arguments Modal {num} animationType transparent visible onRequestClose children.
Arguments Fragment {num} children.
Arguments Keyed {num} key child.
Arguments Child {num} v.

Section render.
Context {num : Type} `{!JsNumber num} `{!JsDate num}.
Implicit Types (s : ViewState num) (item service v : value num)
  (e : element num) (h : handler num).

(** A text among the children. *)
Definition text (t : string) : element num := Child (VStr t).

(** Lines 80-94. *)
Definition renderMovieItem item : result exn (element num) :=
  poster_path ← get item "poster_path";
  uri ← poster_url poster_path;
  title ← get item "title";
  release_date ← get item "release_date";
  Ok (TouchableOpacity "movieItem" (OnOpenMovieModal item)
        [Image "poster" uri (Some "./assets/icon.png");
         View "movieInfo"
           [Text "title" [Child title];
            Text "year"
              [Child (if truthy release_date then getFullYear release_date
                      else VStr "Unknown year")]]]).

(** Line 158, [(item) => item.id.toString()]. *)
Definition keyExtractor item : result exn string :=
  id ← get item "id";
  to_string_method id.

(** Lines 96-112. *)
Definition renderTrailerSection s : result exn (element num) :=
  if negb (truthy (trailerUrl s))
  then Ok (Text "noTrailer" [text "No trailer available"])
  else
    uri ← embed_url (trailerUrl s);
    Ok (View "trailerContainer"
          [WebView "trailerVideo" true uri;
           Button "Watch Full Trailer on YouTube"
             (OnOpenURL (watch_url (trailerUrl s)))]).

(** Lines 121-131, the callback of [downloadLinks.map]. *)
Definition service_button s service : result exn (element num) :=
  provider_id ← get service "provider_id";
  logo_path ← get service "logo_path";
  uri ← logo_url logo_path;
  provider_name ← get service "provider_name";
  Ok (Keyed provider_id
        (TouchableOpacity "serviceButton"
           (OnOpenURL (provider_page_url (selectedMovie s)))
           [Image "serviceLogo" uri None;
            Text "serviceName" [Child provider_name]])).

(** Lines 114-135. *)
Definition renderDownloadOptions s : result exn (element num) :=
  len ← get (downloadLinks s) "length";
  if strict_eq_number len (num_of_nat 0) then Ok (Child VNull) else
  buttons ← array_map (service_button s) (downloadLinks s);
  Ok (View "downloadSection"
        [Text "sectionTitle" [text "Available On:"]; Fragment buttons]).

(** Lines 155-160: the cell of an item, with its key. *)
Definition list_cell item : result exn (element num) :=
  key ← keyExtractor item;
  cell ← renderMovieItem item;
  Ok (Keyed (VStr key) cell).

(** The cells of the list for the data [v]. *)
Definition list_cells_of v : result exn (list (element num)) :=
  match v with
  | VArr l => map_result list_cell l
  | _ => Ok []
  end.

(** Lines 150-161. *)
Definition list_region s : result exn (element num) :=
  if loading s then Ok (ActivityIndicator "large" "#0000ff")
  else if truthy (VStr (error s) : value num)
  then Ok (Text "error" [Child (VStr (error s))])
  else
    cells ← list_cells_of (movies s);
    Ok (FlatList (movies s) cells (Text "empty" [text "No movies found"])).

(** Lines 170-191, [selectedMovie && (<>...</>)]. *)
Definition modal_body s : result exn (element num) :=
  if negb (truthy (selectedMovie s)) then Ok (Child (selectedMovie s)) else
  poster_path ← get (selectedMovie s) "poster_path";
  uri ← poster_url poster_path;
  title ← get (selectedMovie s) "title";
  trailer ← renderTrailerSection s;
  downloads ← renderDownloadOptions s;
  overview ← get (selectedMovie s) "overview";
  vote_average ← get (selectedMovie s) "vote_average";
  release_date ← get (selectedMovie s) "release_date";
  Ok (Fragment
        [Image "modalPoster" uri None;
         Text "modalTitle" [Child title];
         trailer;
         downloads;
         Text "modalOverview" [Child overview];
         Text "modalRating" [text "Rating: "; Child vote_average; text "/10"];
         Text "modalDate" [text "Release Date: "; Child release_date];
         Text "disclaimer"
           [text "This app does not support piracy. Please use official streaming services."];
         Button "Close" OnClose]).

(** Lines 137-195.  The content of the modal is evaluated with the JSX
    that [App] returns; the list calls [renderItem] and [keyExtractor]
    when it renders in turn: an exception of the modal comes first. *)
Definition render s : result exn (element num) :=
  body ← modal_body s;
  list ← list_region s;
  Ok (View "container"
        [TextInput "input" "Search for movies..." (query s) OnChangeText;
         View "buttonContainer"
           [Button "Search Movies" OnSearchMovies;
            Button "Popular Movies" OnFetchPopularMovies];
         list;
         Modal "slide" false (modalVisible s) OnRequestClose
           [View "modalContainer" [body]]]).

(** ** What is in a tree *)

(** The handlers that a gesture can reach: those of the elements on
    screen.  A hidden modal shows nothing; a list without cells shows
    its [ListEmptyComponent]. *)
Fixpoint handlers e : list (handler num) :=
  match e with
  | View _ cs | Text _ cs | Fragment cs => flat_map handlers cs
  | TextInput _ _ _ h | Button _ h => [h]
  | TouchableOpacity _ h cs => h :: flat_map handlers cs
  | FlatList _ cells empty =>
      match cells with
      | [] => handlers empty
      | _ => flat_map handlers cells
      end
  | Modal _ _ visible h cs =>
      if visible then h :: flat_map handlers cs else []
  | Keyed _ c => handlers c
  | ActivityIndicator _ _ | Image _ _ _ | WebView _ _ _ | Child _ => []
  end.

(** Every handler of the tree, on screen or not. *)
Fixpoint all_handlers e : list (handler num) :=
  match e with
  | View _ cs | Text _ cs | Fragment cs => flat_map all_handlers cs
  | TextInput _ _ _ h | Button _ h => [h]
  | TouchableOpacity _ h cs => h :: flat_map all_handlers cs
  | FlatList _ cells empty =>
      flat_map all_handlers cells ++ all_handlers empty
  | Modal _ _ _ h cs => h :: flat_map all_handlers cs
  | Keyed _ c => all_handlers c
  | ActivityIndicator _ _ | Image _ _ _ | WebView _ _ _ | Child _ => []
  end.

(** The names [n] of the styles [styles.n] that the tree refers to. *)
Fixpoint style_refs e : list string :=
  match e with
  | View st cs | Text st cs | TouchableOpacity st _ cs =>
      st :: flat_map style_refs cs
  | Fragment cs | Modal _ _ _ _ cs => flat_map style_refs cs
  | TextInput st _ _ _ | Image st _ _ | WebView st _ _ => [st]
  | FlatList _ cells empty => flat_map style_refs cells ++ style_refs empty
  | Keyed _ c => style_refs c
  | Button _ _ | ActivityIndicator _ _ | Child _ => []
  end.

(** The keys of a list of siblings. *)
Definition sibling_keys (cs : list (element num)) : list (value num) :=
  omap (fun c => match c with Keyed k _ => Some k | _ => None end) cs.

(** The element of an item that is not nullish and whose poster has an
    address, and its cell in the list. *)
Definition movie_item item : element num :=
  TouchableOpacity "movieItem" (OnOpenMovieModal item)
    [Image "poster" (poster_url_of (to_string (opt_get item "poster_path")))
       (Some "./assets/icon.png");
     View "movieInfo"
       [Text "title" [Child (opt_get item "title")];
        Text "year"
          [Child (if truthy (opt_get item "release_date")
                  then getFullYear (opt_get item "release_date")
                  else VStr "Unknown year")]]].

Definition movie_cell item : element num :=
  Keyed (VStr (to_string (opt_get item "id"))) (movie_item item).

(** The button of a provider that is not nullish and whose logo has an
    address. *)
Definition provider_button s service : element num :=
  Keyed (opt_get service "provider_id")
    (TouchableOpacity "serviceButton"
       (OnOpenURL (provider_page_url (selectedMovie s)))
       [Image "serviceLogo"
          (logo_url_of (to_string (opt_get service "logo_path"))) None;
        Text "serviceName" [Child (opt_get service "provider_name")]]).

(** The section of the trailer for a [trailerUrl] that has a text. *)
Definition trailer_section s : element num :=
  if negb (truthy (trailerUrl s))
  then Text "noTrailer" [text "No trailer available"]
  else
    View "trailerContainer"
      [WebView "trailerVideo" true (embed_url_of (to_string (trailerUrl s)));
       Button "Watch Full Trailer on YouTube"
         (OnOpenURL (watch_url (trailerUrl s)))].

(** The content of the modal for a selected movie, around the address
    of its poster and the elements of the trailer and of the provider
    list. *)
Definition modal_content s (uri : string) (trailer downloads : element num)
  : element num :=
  Fragment
    [Image "modalPoster" uri None;
     Text "modalTitle" [Child (opt_get (selectedMovie s) "title")];
     trailer;
     downloads;
     Text "modalOverview" [Child (opt_get (selectedMovie s) "overview")];
     Text "modalRating"
       [text "Rating: "; Child (opt_get (selectedMovie s) "vote_average");
        text "/10"];
     Text "modalDate"
       [text "Release Date: ";
        Child (opt_get (selectedMovie s) "release_date")];
     Text "disclaimer"
       [text "This app does not support piracy. Please use official streaming services."];
     Button "Close" OnClose].

(** The screen around the element of the list and the content of the
    modal. *)
Definition screen s (list body : element num) : element num :=
  View "container"
    [TextInput "input" "Search for movies..." (query s) OnChangeText;
     View "buttonContainer"
       [Button "Search Movies" OnSearchMovies;
        Button "Popular Movies" OnFetchPopularMovies];
     list;
     Modal "slide" false (modalVisible s) OnRequestClose
       [View "modalContainer" [body]]].

(** The handlers on screen, by region. *)
Definition movie_handlers s : list (handler num) :=
  if loading s then []
  else if truthy (VStr (error s) : value num) then []
  else match movies s with
       | VArr l => OnOpenMovieModal <$> l
       | _ => []
       end.

Definition trailer_handlers s : list (handler num) :=
  if truthy (trailerUrl s) then [OnOpenURL (watch_url (trailerUrl s))]
  else [].

Definition provider_handlers s : list (handler num) :=
  match downloadLinks s with
  | VArr l =>
      (fun _ => OnOpenURL (provider_page_url (selectedMovie s))) <$> l
  | _ => []
  end.

Definition body_handlers s : list (handler num) :=
  if truthy (selectedMovie s)
  then trailer_handlers s ++ provider_handlers s ++ [OnClose]
  else [].

Definition modal_handlers s : list (handler num) :=
  if modalVisible s then OnRequestClose :: body_handlers s else [].

Definition screen_handlers s : list (handler num) :=
  [OnChangeText; OnSearchMovies; OnFetchPopularMovies] ++
  movie_handlers s ++ modal_handlers s.

(** A state whose cells have the shape that the render functions
    expect: [movies] is an array of objects with an [id] on which
    [toString()] answers and a poster path that has a text,
    [downloadLinks] is an array of objects with a logo path that has a
    text, and so have [trailerUrl] and the poster path of the selected
    movie. *)
Definition item_ok item : bool :=
  negb (nullish item) && is_Ok (to_string_method (opt_get item "id")) &&
  printable (opt_get item "poster_path").

Definition items_ok v : bool :=
  match v with
  | VArr l => forallb item_ok l
  | _ => false
  end.

Definition provider_ok service : bool :=
  negb (nullish service) && printable (opt_get service "logo_path").

Definition providers_ok v : bool :=
  match v with
  | VArr l => forallb provider_ok l
  | _ => false
  end.

Definition selected_ok v : bool :=
  negb (truthy v) || printable (opt_get v "poster_path").

Definition shaped s : bool :=
  items_ok (movies s) && providers_ok (downloadLinks s) &&
  printable (trailerUrl s) && selected_ok (selectedMovie s).

End render.

(** * Properties *)

Section render_props.
Context {num : Type} `{!JsNumber num} `{!JsDate num}.
Implicit Types (s : ViewState num) (item service v : value num)
  (e : element num) (h : handler num) (l : list (value num)).

(** ** The items of the list *)

Lemma renderMovieItem_Ok item :
  nullish item = false -> printable (opt_get item "poster_path") = true ->
  renderMovieItem item = Ok (movie_item item).
Proof.
  intros Hn Hp. unfold renderMovieItem.
  by rewrite !(get_Ok _ _ Hn); cbn [mbind result_bind]; rewrite poster_url_Ok.
Qed.

Lemma renderMovieItem_is_Ok item :
  is_Ok (renderMovieItem item) =
  negb (nullish item) && printable (opt_get item "poster_path").
Proof.
  unfold renderMovieItem. destruct (nullish item) eqn:Hn; [by destruct item|].
  rewrite !(get_Ok _ _ Hn). cbn [mbind result_bind negb andb].
  rewrite <-poster_url_is_Ok. by destruct (poster_url _).
Qed.

Lemma renderMovieItem_Err item :
  nullish item = true -> renderMovieItem item = Err NullAccess.
Proof. by destruct item. Qed.

Lemma keyExtractor_is_Ok item :
  is_Ok (keyExtractor item) =
  negb (nullish item) && is_Ok (to_string_method (opt_get item "id")).
Proof.
  unfold keyExtractor. destruct (nullish item) eqn:Hn.
  - by destruct item.
  - by rewrite (get_Ok _ _ Hn).
Qed.

Lemma item_ok_inv item :
  item_ok item = true ->
  nullish item = false /\
  is_Ok (to_string_method (opt_get item "id")) = true /\
  printable (opt_get item "poster_path") = true.
Proof. by intros [[?%negb_true_iff ?]%andb_prop ?]%andb_prop. Qed.

Lemma item_ok_not_nullish item : item_ok item = true -> nullish item = false.
Proof. by intros (? & _)%item_ok_inv. Qed.

(** The cell of an item that can be rendered: its key is the text of
    the [id]. *)
Lemma list_cell_Ok item :
  item_ok item = true -> list_cell item = Ok (movie_cell item).
Proof.
  intros (Hn & Hid & Hp)%item_ok_inv.
  unfold list_cell, keyExtractor.
  rewrite renderMovieItem_Ok, (get_Ok _ _ Hn) by done. simpl.
  destruct (to_string_method _) as [k|] eqn:Hk; [|done].
  by apply to_string_method_Ok in Hk as (_ & _ & ->).
Qed.

Lemma list_cell_is_Ok item : is_Ok (list_cell item) = item_ok item.
Proof.
  transitivity (is_Ok (keyExtractor item) && is_Ok (renderMovieItem item)).
  { unfold list_cell. destruct (keyExtractor item); [|done].
    by destruct (renderMovieItem item). }
  rewrite keyExtractor_is_Ok, renderMovieItem_is_Ok. unfold item_ok.
  by destruct (nullish item), (is_Ok _), (printable _).
Qed.

Lemma list_cells_of_Ok l :
  forallb item_ok l = true ->
  list_cells_of (VArr l) = Ok (movie_cell <$> l).
Proof.
  intros Hl%forallb_Forall. apply map_result_fmap.
  eapply Forall_impl; [done|]. apply list_cell_Ok.
Qed.

Lemma list_cells_of_is_Ok l :
  is_Ok (list_cells_of (VArr l)) = forallb item_ok l.
Proof.
  simpl. rewrite map_result_is_Ok. induction l as [|x l IH]; simpl; [done|].
  by rewrite IH, list_cell_is_Ok.
Qed.

(** The cells of a list that is rendered are the cells of its items,
    in order. *)
Lemma list_cells_of_inv l cells :
  list_cells_of (VArr l) = Ok cells ->
  forallb item_ok l = true /\ cells = movie_cell <$> l.
Proof.
  intros Hc. assert (forallb item_ok l = true) as Hl.
  { by rewrite <-list_cells_of_is_Ok, Hc. }
  split; [done|]. rewrite list_cells_of_Ok in Hc by done. congruence.
Qed.

(** ** The trailer *)

Lemma falsy_printable v : truthy v = false -> printable v = true.
Proof. by destruct v. Qed.

Lemma renderTrailerSection_Ok s :
  printable (trailerUrl s) = true ->
  renderTrailerSection s = Ok (trailer_section s).
Proof.
  intros Hp. unfold renderTrailerSection, trailer_section.
  destruct (truthy (trailerUrl s)); [|done]. simpl.
  by rewrite embed_url_Ok.
Qed.

Lemma renderTrailerSection_is_Ok s :
  is_Ok (renderTrailerSection s) = printable (trailerUrl s).
Proof.
  unfold renderTrailerSection.
  destruct (truthy (trailerUrl s)) eqn:Ht; simpl.
  - rewrite <-embed_url_is_Ok. by destruct (embed_url _).
  - by rewrite falsy_printable.
Qed.

Lemma renderTrailerSection_inv s e :
  renderTrailerSection s = Ok e ->
  printable (trailerUrl s) = true /\ e = trailer_section s.
Proof.
  intros He. assert (printable (trailerUrl s) = true) as Hp.
  { by rewrite <-renderTrailerSection_is_Ok, He. }
  split; [done|]. rewrite renderTrailerSection_Ok in He by done. congruence.
Qed.

Lemma trailer_section_handlers s :
  handlers (trailer_section s) = trailer_handlers s /\
  all_handlers (trailer_section s) = trailer_handlers s /\
  Forall defined (style_refs (trailer_section s)).
Proof.
  unfold trailer_section, trailer_handlers.
  destruct (truthy (trailerUrl s)); split_and!; try done; compute_done.
Qed.

(** ** The providers *)

Lemma provider_ok_inv service :
  provider_ok service = true ->
  nullish service = false /\ printable (opt_get service "logo_path") = true.
Proof. by intros [?%negb_true_iff ?]%andb_prop. Qed.

Lemma service_button_Ok s service :
  provider_ok service = true ->
  service_button s service = Ok (provider_button s service).
Proof.
  intros (Hn & Hp)%provider_ok_inv. unfold service_button.
  by rewrite !(get_Ok _ _ Hn); cbn [mbind result_bind]; rewrite logo_url_Ok.
Qed.

Lemma service_button_is_Ok s service :
  is_Ok (service_button s service) = provider_ok service.
Proof.
  unfold service_button, provider_ok.
  destruct (nullish service) eqn:Hn; [by destruct service|].
  rewrite !(get_Ok _ _ Hn). cbn [mbind result_bind negb andb].
  rewrite <-logo_url_is_Ok. by destruct (logo_url _).
Qed.

Lemma service_button_Err s service :
  nullish service = true -> service_button s service = Err NullAccess.
Proof. by destruct service. Qed.

Lemma service_button_inv s service b :
  service_button s service = Ok b -> b = provider_button s service.
Proof.
  intros Hb. assert (provider_ok service = true) as Hok.
  { by rewrite <-(service_button_is_Ok s), Hb. }
  rewrite service_button_Ok in Hb by done. congruence.
Qed.

(** The length of an array is zero exactly when it is empty. *)
Lemma length_strict_eq_0 l :
  strict_eq_number (VNum (num_of_nat (length l))) (num_of_nat 0) =
  bool_decide (l = []).
Proof.
  simpl. rewrite num_strict_eq_of_nat. apply bool_decide_ext.
  by rewrite length_zero_iff_nil.
Qed.

(** The section of the providers, for an array of providers that can
    be rendered: nothing when the array is empty, one button per
    provider in the order of the array otherwise. *)
Lemma renderDownloadOptions_array s l :
  downloadLinks s = VArr l ->
  forallb provider_ok l = true ->
  renderDownloadOptions s =
  Ok (match l with
      | [] => Child VNull
      | _ =>
          View "downloadSection"
            [Text "sectionTitle" [text "Available On:"];
             Fragment (provider_button s <$> l)]
      end).
Proof.
  intros Hd Hl%forallb_Forall. unfold renderDownloadOptions. rewrite Hd.
  cbn [get mbind result_bind decide]. rewrite decide_True by done.
  rewrite length_strict_eq_0. destruct l as [|d l]; [done|].
  rewrite bool_decide_false by done. cbn [array_map].
  rewrite (map_result_fmap _ (provider_button s)); [done|].
  eapply Forall_impl; [done|]. intros x Hx. by apply service_button_Ok.
Qed.

(** What the section is when it is rendered: its handlers are those of
    the providers, and its styles are defined. *)
Lemma renderDownloadOptions_Ok s d :
  renderDownloadOptions s = Ok d ->
  handlers d = provider_handlers s /\
  all_handlers d = provider_handlers s /\
  Forall defined (style_refs d).
Proof.
  unfold renderDownloadOptions, provider_handlers.
  destruct (get (downloadLinks s) "length") as [len|] eqn:Hlen; [|done].
  cbn [mbind result_bind].
  destruct (strict_eq_number len (num_of_nat 0)) eqn:Hz.
  - intros [= <-]. split_and!; [| |done];
      (destruct (downloadLinks s) as [| | | | |l|]; try done;
       injection Hlen as <-; rewrite ?decide_True in Hz by done;
       rewrite length_strict_eq_0 in Hz;
       by apply bool_decide_eq_true in Hz as ->).
  - destruct (downloadLinks s) as [| | | | |l|]; try done.
    cbn [array_map].
    destruct (map_result _ l) as [buttons|] eqn:Hm; [|done].
    intros [= <-].
    apply (map_result_Ok_fmap _ (provider_button s)) in Hm as ->;
      [|intros x y _; apply service_button_inv].
    cbn [handlers all_handlers style_refs flat_map app text].
    rewrite !app_nil_r.
    rewrite !(flat_map_singleton _ _
      (fun _ => OnOpenURL (provider_page_url (selectedMovie s)))) by done.
    split_and!; [done..|].
    do 2 (constructor; [compute_done|]).
    apply flat_map_Forall, Forall_fmap, Forall_forall. intros x _.
    compute_done.
Qed.

(** ** The list *)

Lemma movie_cells_handlers v l (empty : element num) :
  handlers empty = [] ->
  handlers (FlatList v (movie_cell <$> l) empty) = OnOpenMovieModal <$> l.
Proof.
  intros He. destruct l as [|x l]; [done|]. rewrite fmap_cons.
  cbn [handlers]. rewrite <-fmap_cons. by apply flat_map_singleton.
Qed.

Lemma movie_cells_styles l :
  Forall defined (flat_map style_refs (movie_cell (num := num) <$> l)).
Proof.
  apply flat_map_Forall, Forall_fmap, Forall_forall. intros x _.
  compute_done.
Qed.

(** What the region of the list is when it is rendered. *)
Lemma list_region_Ok s e :
  list_region s = Ok e ->
  handlers e = movie_handlers s /\
  all_handlers e = movie_handlers s /\
  Forall defined (style_refs e).
Proof.
  unfold list_region, movie_handlers.
  destruct (loading s); [by intros [= <-]|].
  destruct (truthy (VStr (error s)));
    [intros [= <-]; split_and!; [done..|compute_done]|].
  destruct (list_cells_of (movies s)) as [cells|] eqn:Hc; [|done].
  cbn [mbind result_bind]. intros [= <-].
  destruct (movies s) as [| | | | |l|];
    try (injection Hc as <-; split_and!; [done..|compute_done]).
  apply list_cells_of_inv in Hc as [Hl ->].
  split_and!; [by apply movie_cells_handlers| |].
  - cbn [all_handlers flat_map text app]. rewrite app_nil_r.
    by apply flat_map_singleton.
  - cbn [style_refs]. apply Forall_app. split; [apply movie_cells_styles|].
    compute_done.
Qed.

(** The region of the list is rendered unless an item of the list that
    is shown cannot be. *)
Lemma list_region_is_Ok s :
  is_Ok (list_region s) =
  loading s || truthy (VStr (error s) : value num) ||
  match movies s with
  | VArr l => forallb item_ok l
  | _ => true
  end.
Proof.
  unfold list_region. destruct (loading s); [done|].
  destruct (truthy (VStr (error s))); [done|]. cbn [orb].
  destruct (movies s) as [| | | | |l|]; try done.
  rewrite <-list_cells_of_is_Ok. by destruct (list_cells_of (VArr l)).
Qed.

(** ** The modal *)

Lemma modal_body_eq s :
  modal_body s =
  if truthy (selectedMovie s)
  then
    uri ← poster_url (opt_get (selectedMovie s) "poster_path");
    trailer ← renderTrailerSection s;
    downloads ← renderDownloadOptions s;
    Ok (modal_content s uri trailer downloads)
  else Ok (Child (selectedMovie s)).
Proof.
  unfold modal_body. destruct (truthy (selectedMovie s)) eqn:Ht; [|done].
  apply truthy_not_nullish in Ht. cbn [negb].
  rewrite !(get_Ok _ _ Ht). cbn [mbind result_bind].
  destruct (poster_url _); [|done].
  destruct (renderTrailerSection s); [|done].
  by destruct (renderDownloadOptions s).
Qed.

Lemma modal_body_Ok s body :
  modal_body s = Ok body ->
  handlers body = body_handlers s /\
  all_handlers body = body_handlers s /\
  Forall defined (style_refs body).
Proof.
  rewrite modal_body_eq. unfold body_handlers.
  destruct (truthy (selectedMovie s)); [|by intros [= <-]].
  destruct (poster_url _) as [uri|]; [|done].
  destruct (renderTrailerSection s) as [tr|] eqn:Htr; [|done].
  destruct (renderDownloadOptions s) as [d|] eqn:Hd; [|done].
  intros [= <-]. apply renderDownloadOptions_Ok in Hd as (Hh & Ha & Hs).
  apply renderTrailerSection_inv in Htr as [_ ->].
  destruct (trailer_section_handlers s) as (Ht & Hta & Hts).
  unfold modal_content.
  cbn [handlers all_handlers style_refs flat_map text app].
  rewrite Hh, Ha, Ht, Hta. split_and!; [done..|].
  do 2 (constructor; [compute_done|]).
  apply Forall_app. split; [done|].
  apply Forall_app. split; [done|]. compute_done.
Qed.

Lemma modal_body_is_Ok s :
  is_Ok (modal_body s) =
  negb (truthy (selectedMovie s)) ||
  printable (opt_get (selectedMovie s) "poster_path") &&
  printable (trailerUrl s) && is_Ok (renderDownloadOptions s).
Proof.
  rewrite modal_body_eq. destruct (truthy (selectedMovie s)); [|done].
  rewrite <-poster_url_is_Ok, <-renderTrailerSection_is_Ok.
  destruct (poster_url _); [|done].
  destruct (renderTrailerSection s); [|done].
  by destruct (renderDownloadOptions s).
Qed.

(** ** The screen *)

Lemma render_eq s :
  render s =
  body ← modal_body s; list ← list_region s; Ok (screen s list body).
Proof. reflexivity. Qed.

Lemma render_inv s tree :
  render s = Ok tree ->
  exists list body, list_region s = Ok list /\ modal_body s = Ok body /\
    tree = screen s list body.
Proof.
  rewrite render_eq. destruct (modal_body s) as [body|]; [|done].
  destruct (list_region s) as [list|]; [|done]. intros [= <-]. eauto.
Qed.

Lemma render_is_Ok s :
  is_Ok (render s) = is_Ok (list_region s) && is_Ok (modal_body s).
Proof.
  rewrite render_eq. destruct (modal_body s); [|by rewrite andb_false_r].
  by destruct (list_region s).
Qed.

Lemma screen_handlers_eq s list body :
  list_region s = Ok list -> modal_body s = Ok body ->
  handlers (screen s list body) = screen_handlers s.
Proof.
  intros (Hl & _)%list_region_Ok (Hb & _)%modal_body_Ok.
  unfold screen, screen_handlers, modal_handlers.
  cbn [handlers flat_map app]. rewrite Hl, Hb, !app_nil_r.
  by destruct (modalVisible s).
Qed.

(** ** Theorems *)

(** C7. The handlers that a gesture can reach on the rendered screen
    are, in order: the text input and the two buttons; one handler per
    item of [movies] when the list is shown; and, when the modal is
    visible, its close request and, for a selected movie, the link of
    the trailer, one link per provider and the Close button. *)
Theorem render_handlers s tree :
  render s = Ok tree -> handlers tree = screen_handlers s.
Proof.
  intros (list & body & Hl & Hb & ->)%render_inv.
  by apply screen_handlers_eq.
Qed.

(** C17. Every style [styles.n] that the rendered screen refers to, in
    whatever state, is an entry of the style sheet. *)
Theorem render_styles_defined s tree :
  render s = Ok tree -> Forall defined (style_refs tree).
Proof.
  intros (list & body & Hl & Hb & ->)%render_inv.
  apply list_region_Ok in Hl as (_ & _ & Hl).
  apply modal_body_Ok in Hb as (_ & _ & Hb).
  unfold screen. cbn [style_refs flat_map app]. rewrite !app_nil_r.
  do 3 (constructor; [compute_done|]).
  apply Forall_app. split; [done|]. by constructor; [compute_done|].
Qed.

(** The addresses of the links of the rendered screen can be computed
    when the [id] of the selected movie has a text: the link of the
    trailer is rendered beside the video, whose address has the same
    hole; a link to the page of a provider reads [selectedMovie.id]
    when it is pressed, and is rendered only under a selected movie. *)
Theorem render_links_ok s tree url :
  render s = Ok tree -> printable (opt_get (selectedMovie s) "id") = true ->
  OnOpenURL url ∈ all_handlers tree ->
  is_Ok url = true.
Proof.
  intros (list & body & Hl & Hb & ->)%render_inv Hid.
  pose proof Hb as Hb'. rewrite modal_body_eq in Hb'.
  apply list_region_Ok in Hl as (_ & Hl & _).
  apply modal_body_Ok in Hb as (_ & Hb & _).
  unfold screen. cbn [all_handlers flat_map app].
  rewrite Hl, Hb, !app_nil_r. unfold movie_handlers, body_handlers.
  rewrite !elem_of_cons, elem_of_app, elem_of_cons.
  intros [[=]|[[=]|[[=]|[Hm|[[=]|Hu]]]]].
  - clear Hb'. repeat case_match; try by apply elem_of_nil in Hm.
    by apply list_elem_of_fmap in Hm as (? & [=] & _).
  - destruct (truthy (selectedMovie s)) eqn:Ht; [|by apply elem_of_nil in Hu].
    apply truthy_not_nullish in Ht.
    rewrite !elem_of_app, list_elem_of_singleton in Hu.
    destruct Hu as [Hu|[Hu|[=]]].
    + unfold trailer_handlers in Hu.
      destruct (truthy (trailerUrl s)); [|by apply elem_of_nil in Hu].
      apply list_elem_of_singleton in Hu as [= ->].
      rewrite watch_url_is_Ok, <-renderTrailerSection_is_Ok.
      destruct (poster_url _); [|done]. by destruct (renderTrailerSection s).
    + clear Hb'. unfold provider_handlers in Hu.
      case_match; try by apply elem_of_nil in Hu.
      apply list_elem_of_fmap in Hu as (? & [= ->] & _).
      unfold provider_page_url. rewrite (get_Ok _ _ Ht).
      cbn [mbind result_bind]. by rewrite ToString_Ok.
Qed.

Lemma shaped_inv s :
  shaped s = true ->
  (exists ms, movies s = VArr ms /\ forallb item_ok ms = true) /\
  (exists ds, downloadLinks s = VArr ds /\ forallb provider_ok ds = true) /\
  printable (trailerUrl s) = true /\ selected_ok (selectedMovie s) = true.
Proof.
  unfold shaped, items_ok, providers_ok.
  intros [[[Hms Hds]%andb_prop Ht]%andb_prop Hsel]%andb_prop.
  destruct (movies s) as [| | | | |ms|]; try done.
  destruct (downloadLinks s) as [| | | | |ds|]; try done. eauto 10.
Qed.

(** A state whose cells have the expected shape is rendered: no
    render function throws. *)
Theorem render_shaped s : shaped s = true -> is_Ok (render s) = true.
Proof.
  intros ((ms & Hm & Hms) & (ds & Hd & Hds) & Ht & Hsel)%shaped_inv.
  rewrite render_is_Ok, list_region_is_Ok, modal_body_is_Ok, Hm, Hms, Ht.
  rewrite (renderDownloadOptions_array s ds) by done.
  rewrite !orb_true_r, !andb_true_r. exact Hsel.
Qed.

(** One item that cannot be rendered takes the screen down: when
    the list is shown and an item of [movies] is [null], or has no [id],
    the render throws and no element is returned. *)
Theorem render_bad_item s l item :
  loading s = false -> error s = EmptyString -> movies s = VArr l ->
  item ∈ l -> item_ok item = false ->
  is_Ok (render s) = false.
Proof.
  intros Hl He Hm Hi Hok.
  rewrite render_is_Ok, list_region_is_Ok, Hl, He, Hm. simpl.
  apply andb_false_intro1, not_true_is_false.
  intros Hall%forallb_Forall. rewrite Forall_forall in Hall.
  by rewrite (Hall _ Hi) in Hok.
Qed.

(** C37. The optional fields of an item: without [release_date] the
    year is the text "Unknown year"; without [poster_path] the address
    of the poster ends in the text "null" (the template literal prints
    the value as it is) and no placeholder is chosen by the source. *)
Theorem renderMovieItem_missing_fields item :
  nullish item = false -> opt_get item "poster_path" = VNull ->
  truthy (opt_get item "release_date") = false ->
  renderMovieItem item =
  Ok (TouchableOpacity "movieItem" (OnOpenMovieModal item)
        [Image "poster" "https://image.tmdb.org/t/p/w500null"
           (Some "./assets/icon.png");
         View "movieInfo"
           [Text "title" [Child (opt_get item "title")];
            Text "year" [text "Unknown year"]]]).
Proof.
  intros Hn Hp Hd. rewrite renderMovieItem_Ok by by rewrite ?Hp.
  unfold movie_item. by rewrite Hp, Hd.
Qed.

(** The placeholder "No trailer available" is rendered exactly when
    [trailerUrl] is falsy: [undefined] (no trailer in the answer, or a
    trailer without [key]), [null] (nothing fetched yet) or the empty
    string. *)
Theorem renderTrailerSection_placeholder s :
  renderTrailerSection s =
    Ok (Text "noTrailer" [text "No trailer available"]) <->
  truthy (trailerUrl s) = false.
Proof.
  unfold renderTrailerSection. destruct (truthy (trailerUrl s)); [|done].
  simpl. split; [|done]. by destruct (embed_url _).
Qed.

(** A provider list that is truthy and no array cannot be rendered:
    it has no [map] to call.  (The only exception is an object with a
    property [length] equal to 0, for which nothing is rendered.) *)
Theorem renderDownloadOptions_not_array s :
  nullish (downloadLinks s) = false ->
  (forall l, downloadLinks s <> VArr l) ->
  strict_eq_number (opt_get (downloadLinks s) "length") (num_of_nat 0)
    = false ->
  renderDownloadOptions s = Err NotCallable.
Proof.
  intros Hn Hl Hz. unfold renderDownloadOptions.
  rewrite (get_Ok _ _ Hn). cbn [mbind result_bind]. rewrite Hz.
  by rewrite array_map_not_array.
Qed.

End render_props.

(** ** The year of an item, on a device *)

(** C27. The year that the list shows for a movie whose [release_date] is
    a date of the catalogue, on a device [tz] minutes east of UTC: the
    year of the date, except for a movie released on the first of
    January, which a device west of Greenwich shows with the year
    before. *)
Theorem renderMovieItem_year tz item s y m d :
  zone_ok tz = true -> nullish item = false ->
  printable (opt_get item "poster_path") = true ->
  opt_get item "release_date" = VStr s ->
  parse_date_only s = Some (y, m, d) -> valid_date y m d = true ->
  @renderMovieItem Z _ (zone_dates tz) item =
  Ok (TouchableOpacity "movieItem" (OnOpenMovieModal item)
        [Image "poster"
           (poster_url_of (to_string (opt_get item "poster_path")))
           (Some "./assets/icon.png");
         View "movieInfo"
           [Text "title" [Child (opt_get item "title")];
            Text "year"
              [Child (VNum (if (tz <? 0) && (m =? 1) && (d =? 1)
                            then y - 1 else y)%Z)]]]).
Proof.
  intros Htz Hn Hpr Hr Hp Hv. rewrite renderMovieItem_Ok by done.
  unfold movie_item. rewrite Hr.
  destruct s as [|c s]; [done|]. simpl truthy. cbn [getFullYear zone_dates].
  by rewrite (full_year_eq tz _ y m d).
Qed.

(** * The theorems on sample states *)

Lemma render_handlers_witness :
  exists tree, render batman_open = Ok tree /\
    handlers tree =
    [OnChangeText; OnSearchMovies; OnFetchPopularMovies;
     OnOpenMovieModal batman; OnOpenMovieModal joker; OnRequestClose;
     OnOpenURL (Ok "https://www.youtube.com/watch?v=y");
     OnOpenURL (Ok "https://www.themoviedb.org/movie/1/watch"); OnClose].
Proof.
  destruct (render batman_open) as [tree|] eqn:Hr; [|by vm_compute in Hr].
  exists tree. split; [done|].
  by rewrite (render_handlers batman_open tree Hr).
Defined.

Lemma render_styles_defined_witness :
  Forall defined
    (style_refs (screen batman_open
       (FlatList (VArr [batman; joker]) (movie_cell <$> [batman; joker])
          (Text "empty" [text "No movies found"]))
       (modal_content batman_open "https://image.tmdb.org/t/p/w500null"
          (trailer_section batman_open)
          (View "downloadSection"
             [Text "sectionTitle" [text "Available On:"];
              Fragment [provider_button batman_open (provider 8 "Netflix")]])))).
Proof. apply (render_styles_defined batman_open). vm_compute. reflexivity. Defined.

Lemma render_links_ok_witness :
  is_Ok (Ok "https://www.themoviedb.org/movie/1/watch" : result exn string)
    = true.
Proof.
  destruct (render batman_open) as [tree|] eqn:Hr; [|by vm_compute in Hr].
  apply (render_links_ok batman_open tree _ Hr); [reflexivity|].
  vm_compute in Hr. injection Hr as <-. vm_compute.
  do 7 apply list_elem_of_further. apply list_elem_of_here.
Defined.

Lemma render_shaped_witness : is_Ok (render batman_open) = true.
Proof. apply render_shaped. reflexivity. Defined.

(** The catalogue answers a list with a [null] in it. *)
Lemma render_bad_item_witness :
  is_Ok (render (setMovies (VArr [batman; VNull]) batman_open)) = false.
Proof.
  apply (render_bad_item _ [batman; VNull] VNull); try reflexivity.
  apply list_elem_of_further, list_elem_of_here.
Defined.

(** The providers of the region are an object, not an array. *)
Lemma renderDownloadOptions_not_array_witness :
  renderDownloadOptions
    (setDownloadLinks (VObj [("flatrate", VArr [])]) batman_open)
  = Err NotCallable.
Proof.
  apply renderDownloadOptions_not_array; [reflexivity| |reflexivity].
  intros l. discriminate.
Defined.

Lemma renderMovieItem_missing_fields_witness :
  renderMovieItem untitled =
  Ok (TouchableOpacity "movieItem" (OnOpenMovieModal untitled)
        [Image "poster" "https://image.tmdb.org/t/p/w500null"
           (Some "./assets/icon.png");
         View "movieInfo"
           [Text "title" [Child (VStr "Untitled")];
            Text "year" [text "Unknown year"]]]).
Proof.
  apply (renderMovieItem_missing_fields untitled); reflexivity.
Defined.

Lemma renderMovieItem_year_witness :
  @renderMovieItem Z _ (zone_dates (-300)) new_year =
  Ok (TouchableOpacity "movieItem" (OnOpenMovieModal new_year)
        [Image "poster" "https://image.tmdb.org/t/p/w500null"
           (Some "./assets/icon.png");
         View "movieInfo"
           [Text "title" [Child (opt_get new_year "title")];
            Text "year" [Child (VNum 2018%Z)]]]).
Proof.
  apply (renderMovieItem_year (-300) new_year "2019-01-01" 2019 1 1);
    reflexivity.
Defined.
