(* ===== verification/Controller.v ===== *)
(** * Controller: the request handlers of [App]

    src/App.js, lines 18-78 and the inline handlers of lines 143, 167 and
    189.  Each handler is a program over [ViewState], written statement
    by statement as in the source:

    - [searchMovies] (lines 18-35) and [fetchPopularMovies] (37-53):
      the two list requests;
    - [fetchMovieDetails] (55-72): the detail request, with
      [find_trailer] for line 63 and [streaming_providers] for line 67;
    - [openMovieModal] (74-78);
    - [closeModal] (167, 189) and [onChangeText] (143).

    The theorems give, for each handler run alone ([run_alone]), the
    state it leaves for each way the request can end; [list_handler]
    gathers the four outcomes of a list request in one function of the
    answer, and the handlers are proved to compute it. *)

From S2P Require Import Prelude JsValue Async ViewState Url Samples.

Open Scope string_scope.
Open Scope list_scope.

Section controller.
Context {num : Type} `{!JsNumber num}.
Variable API_KEY : string.
Implicit Types (s : ViewState num) (v data movie : value num)
  (c : list log_entry) (net : string -> outcome (response num)).

(** Lines 18-35. *)
Definition searchMovies (query : string) : prog num (ViewState num) unit :=
  if negb (truthy (VStr query : value num)) then Ret tt else
  upd (setLoading true) ;;
  finally
    (try_catch
       (response ← fetch (search_url API_KEY query);
        data ← json response;
        results ← eval (get data "results");
        if truthy results then
          upd (setMovies results) ;;
          upd (setError EmptyString)
        else Ret tt)
       (fun err => upd (setError "Failed to fetch movies")))
    (upd (setLoading false)).

(** Lines 37-53. *)
Definition fetchPopularMovies : prog num (ViewState num) unit :=
  upd (setLoading true) ;;
  finally
    (try_catch
       (response ← fetch (popular_url API_KEY);
        data ← json response;
        results ← eval (get data "results");
        if truthy results then
          upd (setMovies results) ;;
          upd (setError EmptyString)
        else Ret tt)
       (fun err => upd (setError "Failed to fetch popular movies")))
    (upd (setLoading false)).

(** Line 63, the callback [vid => vid.type === 'Trailer']. *)
Definition is_trailer (vid : value num) : result exn bool :=
  type ← get vid "type";
  mret (strict_eq_string type "Trailer").

(** Line 63, [data.videos?.results?.find(...)]. *)
Definition find_trailer data : result exn (value num) :=
  videos ← get data "videos";
  if nullish videos then mret VUndefined else
  results ← get videos "results";
  if nullish results then mret VUndefined else
  array_find is_trailer results.

(** Line 67, [data['watch/providers']?.results?.US?.flatrate || []]. *)
Definition streaming_providers data : result exn (value num) :=
  providers ← get data "watch/providers";
  mret (or_default
          (opt_get (opt_get (opt_get providers "results") "US") "flatrate")
          (VArr [])).

(** Lines 55-72. *)
Definition fetchMovieDetails (movieId : value num)
  : prog num (ViewState num) unit :=
  try_catch
    (url ← eval (details_url API_KEY movieId);
     response ← fetch url;
     data ← json response;
     trailer ← eval (find_trailer data);
     upd (setTrailerUrl (opt_get trailer "key")) ;;
     links ← eval (streaming_providers data);
     upd (setDownloadLinks links))
    (fun err => console_error "Error fetching details:" err).

(** Lines 74-78. *)
Definition openMovieModal movie : prog num (ViewState num) unit :=
  upd (setSelectedMovie movie) ;;
  upd (setModalVisible true) ;;
  movieId ← eval (get movie "id");
  fetchMovieDetails movieId.

(** Lines 167 and 189, [() => setModalVisible(false)]. *)
Definition closeModal : prog num (ViewState num) unit :=
  upd (setModalVisible false).

(** Line 143, [onChangeText={setQuery}]. *)
Definition onChangeText (text : string) : prog num (ViewState num) unit :=
  upd (setQuery text).

(** ** What a list request does, as a function of the answer

    [list_result o] is what the body of the [try] makes of the answer
    [o] of [fetch]: the new list, an exception, or nothing. *)
Inductive list_verdict : Type :=
| NewList (results : value num)
| NoChange
| Caught (e : exn).

Definition list_result (o : outcome (response num)) : list_verdict :=
  match o with
  | Rejected e => Caught e
  | Resolved r =>
      match body r with
      | None => Caught BodyNotJson
      | Some data =>
          match get data "results" with
          | Err e => Caught e
          | Ok results => if truthy results then NewList results else NoChange
          end
      end
  end.

(** The answers on which the body of the [try] throws: the request was
    rejected, the body is not JSON, or the body is the JSON [null] (the
    access [data.results] then throws). *)
Inductive request_failed : outcome (response num) -> exn -> Prop :=
| failed_fetch e : request_failed (Rejected e) e
| failed_parse st : request_failed (Resolved (Response st None)) BodyNotJson
| failed_null st data :
    nullish data = true ->
    request_failed (Resolved (Response st (Some data))) NullAccess.

(** The state that a list request leaves. *)
Definition list_handler (msg : string) (o : outcome (response num)) s
  : ViewState num :=
  setLoading false
    (match list_result o with
     | NewList results => setError EmptyString (setMovies results (setLoading true s))
     | NoChange => setLoading true s
     | Caught _ => setError msg (setLoading true s)
     end).

(** The state that a detail request leaves, and the console line it
    writes. *)
Definition details_handler (o : outcome (response num)) s
  : ViewState num * option exn :=
  match o with
  | Rejected e => (s, Some e)
  | Resolved r =>
      match body r with
      | None => (s, Some BodyNotJson)
      | Some data =>
          match find_trailer data with
          | Err e => (s, Some e)
          | Ok trailer =>
              let s' := setTrailerUrl (opt_get trailer "key") s in
              match streaming_providers data with
              | Err e => (s', Some e)
              | Ok links => (setDownloadLinks links s', None)
              end
          end
      end
  end.

(** ** The segments of the handlers

    [list_request url msg] is the common body of the two list requests;
    [list_on_fetch] and [list_on_json] are what is left of it after each
    [await], and [details_on_fetch], [details_on_json] what is left of
    [fetchMovieDetails]. *)
Definition list_tail (msg : string) (p : prog num (ViewState num) unit)
  : prog num (ViewState num) unit :=
  finally (try_catch p (fun err => upd (setError msg)))
    (upd (setLoading false)).

Definition list_use_data data : prog num (ViewState num) unit :=
  results ← eval (get data "results");
  if truthy results then
    upd (setMovies results) ;;
    upd (setError EmptyString)
  else Ret tt.

Definition list_on_json (msg : string) (o : outcome (value num))
  : prog num (ViewState num) unit :=
  list_tail msg (settled o ≫= list_use_data).

Definition list_on_fetch (msg : string) (o : outcome (response num))
  : prog num (ViewState num) unit :=
  list_tail msg (settled o ≫= fun response => json response ≫= list_use_data).

Definition list_request (url msg : string) : prog num (ViewState num) unit :=
  upd (setLoading true) ;;
  list_tail msg (fetch url ≫= fun response => json response ≫= list_use_data).

Definition details_tail (p : prog num (ViewState num) unit)
  : prog num (ViewState num) unit :=
  try_catch p (fun err => console_error "Error fetching details:" err).

Definition details_use_data data : prog num (ViewState num) unit :=
  trailer ← eval (find_trailer data);
  upd (setTrailerUrl (opt_get trailer "key")) ;;
  links ← eval (streaming_providers data);
  upd (setDownloadLinks links).

Definition details_on_json (o : outcome (value num))
  : prog num (ViewState num) unit :=
  details_tail (settled o ≫= details_use_data).

Definition details_on_fetch (o : outcome (response num))
  : prog num (ViewState num) unit :=
  details_tail
    (settled o ≫= fun response => json response ≫= details_use_data).

(** [data['watch/providers']?.results?.US?.flatrate] for a [data] that
    is not nullish. *)
Definition us_flatrate data : value num :=
  opt_get (opt_get (opt_get (opt_get data "watch/providers") "results") "US")
    "flatrate".

(** [data.videos?.results] for a [data] that is not nullish. *)
Definition video_results data : value num :=
  opt_get (opt_get data "videos") "results".

(** The answers on which the body of the [try] of [fetchMovieDetails]
    throws: those on which a list request throws, and the bodies in which
    the search for the trailer throws. *)
Inductive details_failed : outcome (response num) -> exn -> Prop :=
| details_failed_request o e : request_failed o e -> details_failed o e
| details_failed_trailer st data e :
    find_trailer data = Err e ->
    details_failed (Resolved (Response st (Some data))) e.

(** The console after a detail request. *)
Definition details_console (e : option exn) c : list log_entry :=
  match e with
  | Some e => (c ++ [("Error fetching details:", e)])%list
  | None => c
  end.

End controller.

(** ** The handlers and their segments *)

Section controller_segments.
Context {num : Type} `{!JsNumber num}.
Variable API_KEY : string.
Implicit Types (s : ViewState num) (v data movie : value num)
  (c : list log_entry) (net : string -> outcome (response num)).

Lemma searchMovies_unfold query :
  searchMovies API_KEY query =
  if negb (truthy (VStr query : value num)) then Ret tt
  else list_request (search_url API_KEY query) "Failed to fetch movies".
Proof. reflexivity. Qed.

Lemma searchMovies_list_request q :
  q <> EmptyString ->
  searchMovies API_KEY q =
  list_request (search_url API_KEY q) "Failed to fetch movies".
Proof.
  intros Hq. rewrite searchMovies_unfold. simpl. by rewrite bool_decide_true.
Qed.

Lemma fetchPopularMovies_unfold :
  fetchPopularMovies API_KEY =
  list_request (popular_url API_KEY) "Failed to fetch popular movies".
Proof. reflexivity. Qed.

Lemma list_request_run url msg s c :
  run (list_request url msg) s c =
  (setLoading true s, c, OnFetch url (list_on_fetch msg)).
Proof. reflexivity. Qed.

Lemma list_on_fetch_run msg o s c :
  run (list_on_fetch msg o) s c =
  match o with
  | Resolved r => (s, c, OnJson r (list_on_json msg))
  | Rejected e => (setLoading false (setError msg s), c, Done tt)
  end.
Proof. by destruct o. Qed.

Lemma fetchMovieDetails_run movieId s c url :
  details_url API_KEY movieId = Ok url ->
  run (fetchMovieDetails API_KEY movieId) s c =
  (s, c, OnFetch url details_on_fetch).
Proof. intros Hu. unfold fetchMovieDetails. by rewrite Hu. Qed.

(** An [id] that has no text: the template literal throws in the [try],
    and no request is sent. *)
Lemma fetchMovieDetails_no_address movieId s c e :
  details_url API_KEY movieId = Err e ->
  run (fetchMovieDetails API_KEY movieId) s c =
  (s, details_console (Some e) c, Done tt).
Proof. intros Hu. unfold fetchMovieDetails. by rewrite Hu. Qed.

Lemma details_on_fetch_run o s c :
  run (details_on_fetch o) s c =
  match o with
  | Resolved r => (s, c, OnJson r details_on_json)
  | Rejected e => (s, details_console (Some e) c, Done tt)
  end.
Proof. by destruct o. Qed.

Lemma list_on_json_run msg o s c :
  run (list_on_json msg o) s c =
  (setLoading false
     match list_result (match o with
                        | Resolved data => Resolved (Response 200 (Some data))
                        | Rejected e => Rejected e
                        end) with
     | NewList results => setError EmptyString (setMovies results s)
     | NoChange => s
     | Caught _ => setError msg s
     end, c, Done tt).
Proof.
  unfold list_on_json, list_use_data, list_result.
  destruct o as [data|e]; simpl; [|reflexivity].
  destruct (get data "results") as [results|e]; simpl; [|reflexivity].
  destruct (truthy results); reflexivity.
Qed.

(** Reading the body of an answer and then its [results] is what
    [list_result] makes of the answer. *)
Lemma list_result_json_outcome (r : response num) :
  list_result
    (match json_outcome r with
     | Resolved data => Resolved (Response 200 (Some data))
     | Rejected e => Rejected e
     end) = list_result (Resolved r).
Proof. by destruct r as [st [data|]]. Qed.

Lemma list_request_alone net url msg s c :
  run_alone net (list_request url msg) s c = (list_handler msg (net url) s, c, Ok tt).
Proof.
  unfold list_handler, list_result, list_request, list_tail, list_use_data.
  simpl. destruct (net url) as [[st [data|]]|e]; simpl; try reflexivity.
  destruct (get data "results") as [results|e]; simpl; [|reflexivity].
  destruct (truthy results); reflexivity.
Qed.

(** The state that a search leaves. *)
Lemma searchMovies_state net q s c :
  q <> EmptyString ->
  (run_alone net (searchMovies API_KEY q) s c).1.1 =
  list_handler "Failed to fetch movies" (net (search_url API_KEY q)) s.
Proof.
  intros Hq. by rewrite searchMovies_list_request, list_request_alone.
Qed.

(** *** The three verdicts of a list request *)

Lemma list_result_NewList o results :
  list_result o = NewList results <->
  exists r data, o = Resolved r /\ body r = Some data /\
    get data "results" = Ok results /\ truthy results = true.
Proof.
  unfold list_result. split.
  - destruct o as [[st [data|]]|e]; simpl; try done.
    destruct (get data "results") as [x|] eqn:Hget; [|done].
    destruct (truthy x) eqn:Ht; intros [=]; subst. eauto 6.
  - intros (r & data & -> & -> & -> & ->). done.
Qed.

Lemma list_result_NoChange o :
  list_result o = NoChange <->
  exists r data results, o = Resolved r /\ body r = Some data /\
    get data "results" = Ok results /\ truthy results = false.
Proof.
  unfold list_result. split.
  - destruct o as [[st [data|]]|e]; simpl; try done.
    destruct (get data "results") as [x|] eqn:Hget; [|done].
    destruct (truthy x) eqn:Ht; intros [=]. eauto 7.
  - intros (r & data & results & -> & -> & -> & ->). done.
Qed.

Lemma list_result_Caught o e :
  list_result o = Caught e <-> request_failed o e.
Proof.
  unfold list_result. split.
  - destruct o as [[st [data|]]|e']; simpl; [| |intros [= ->]; constructor].
    + destruct (get data "results") as [x|e'] eqn:Hget.
      * by destruct (truthy x).
      * apply get_Err in Hget as [? ->]. intros [= <-]. by constructor.
    + intros [= <-]. constructor.
  - destruct 1 as [e|st|st data Hn]; simpl; try done. by destruct data.
Qed.

Lemma list_handler_frame msg o s :
  query (list_handler msg o s) = query s /\
  modal_cells (list_handler msg o s) = modal_cells s /\
  detail_cells (list_handler msg o s) = detail_cells s.
Proof. unfold list_handler. by destruct (list_result o). Qed.

Lemma list_handler_loading msg o s : loading (list_handler msg o s) = false.
Proof. done. Qed.

Lemma list_handler_cells msg o s :
  list_cells (list_handler msg o s) =
  match list_result o with
  | NewList results => (results, false, EmptyString)
  | NoChange => (movies s, false, error s)
  | Caught _ => (movies s, false, msg)
  end.
Proof. unfold list_handler. by destruct (list_result o). Qed.

(** C1. A search with a non-empty query, run alone, leaves the state
    [list_handler] computes from the answer of the request: the results
    replace [movies] and the error is cleared when the body has a truthy
    [results]; the error is set to "Failed to fetch movies" when the
    request or the parsing failed; [loading] is false in every case. *)
Theorem searchMovies_alone net query s c :
  query <> EmptyString ->
  run_alone net (searchMovies API_KEY query) s c =
  (list_handler "Failed to fetch movies" (net (search_url API_KEY query)) s,
   c, Ok tt).
Proof.
  intros Hq. rewrite searchMovies_list_request by done.
  apply list_request_alone.
Qed.

(** When the answer to a search is a JSON body whose [results] is
    truthy, [movies] becomes that value as it is (the order of the
    server), the error is cleared and [loading] is false. *)
Theorem searchMovies_success net q s c r data results :
  q <> EmptyString ->
  net (search_url API_KEY q) = Resolved r -> body r = Some data ->
  get data "results" = Ok results -> truthy results = true ->
  list_cells (run_alone net (searchMovies API_KEY q) s c).1.1 =
  (results, false, EmptyString).
Proof.
  intros Hq Hnet Hbody Hget Ht. rewrite searchMovies_state by done.
  rewrite list_handler_cells, (proj2 (list_result_NewList _ results)); eauto 6.
Qed.

(** C10. When the request of a search is rejected, or its body is not
    JSON, or its body is [null], [movies] is what it was, the error is
    "Failed to fetch movies" and [loading] is false. *)
Theorem searchMovies_failure net q s c e :
  q <> EmptyString ->
  request_failed (net (search_url API_KEY q)) e ->
  list_cells (run_alone net (searchMovies API_KEY q) s c).1.1 =
  (movies s, false, "Failed to fetch movies").
Proof.
  intros Hq Hfail. rewrite searchMovies_state by done.
  by rewrite list_handler_cells, (proj2 (list_result_Caught _ e)).
Qed.

(** When the body of the answer is JSON without a truthy [results]
    (which is what the catalogue sends with an HTTP error status), the
    search writes neither [movies] nor [error]: an error shown before
    the search is still shown after it, and no error is reported for
    this one.  The HTTP status is not consulted. *)
Theorem searchMovies_no_results net q s c r data results :
  q <> EmptyString ->
  net (search_url API_KEY q) = Resolved r -> body r = Some data ->
  get data "results" = Ok results -> truthy results = false ->
  list_cells (run_alone net (searchMovies API_KEY q) s c).1.1 =
  (movies s, false, error s).
Proof.
  intros Hq Hnet Hbody Hget Ht. rewrite searchMovies_state by done.
  rewrite list_handler_cells, (proj2 (list_result_NoChange _)); eauto 7.
Qed.

(** A search with the empty query issues no request and changes
    nothing: the handler completes in its first segment. *)
Theorem searchMovies_empty_query s c :
  run (searchMovies API_KEY EmptyString) s c = (s, c, Done tt).
Proof. reflexivity. Qed.

(** Whatever the answer, a search leaves [loading] false, does not
    touch the query, the modal or the details, and ends in one of three
    ways: the results replaced [movies] and the error is cleared; or
    [movies] is kept and the error is the fixed message; or [movies] and
    the error are both kept. *)
Theorem searchMovies_outcomes net q s c :
  q <> EmptyString ->
  let s' := (run_alone net (searchMovies API_KEY q) s c).1.1 in
  loading s' = false /\ query s' = query s /\
  modal_cells s' = modal_cells s /\ detail_cells s' = detail_cells s /\
  ((truthy (movies s') = true /\ error s' = EmptyString) \/
   (movies s' = movies s /\ error s' = "Failed to fetch movies") \/
   (movies s' = movies s /\ error s' = error s)).
Proof.
  intros Hq. cbv zeta. rewrite searchMovies_state by done.
  destruct (list_handler_frame "Failed to fetch movies"
    (net (search_url API_KEY q)) s) as (? & ? & ?).
  repeat split; try done.
  unfold list_handler.
  destruct (list_result _) as [results| |e] eqn:Hres; simpl; auto.
  apply list_result_NewList in Hres as (? & ? & _ & _ & _ & ?). auto.
Qed.

(** The popular list is a list request to the fixed address: run
    alone it leaves the state [list_handler] computes, with its own
    message. *)
Theorem fetchPopularMovies_alone net s c :
  run_alone net (fetchPopularMovies API_KEY) s c =
  (list_handler "Failed to fetch popular movies" (net (popular_url API_KEY)) s,
   c, Ok tt).
Proof. rewrite fetchPopularMovies_unfold. apply list_request_alone. Qed.

(** *** The detail request *)

Lemma is_trailer_Ok vid :
  nullish vid = false ->
  is_trailer vid = Ok (strict_eq_string (opt_get vid "type") "Trailer").
Proof. intros Hn. unfold is_trailer. by rewrite (get_Ok _ _ Hn). Qed.

Lemma is_trailer_Err vid : nullish vid = true -> is_trailer vid = Err NullAccess.
Proof. by destruct vid. Qed.

Lemma is_trailer_false vid :
  nullish vid = false -> opt_get vid "type" <> VStr "Trailer" ->
  is_trailer vid = Ok false.
Proof.
  intros Hn Ht. rewrite is_trailer_Ok by done. f_equal.
  apply not_true_is_false. by rewrite strict_eq_string_true.
Qed.

Lemma is_trailer_true vid :
  opt_get vid "type" = VStr "Trailer" -> is_trailer vid = Ok true.
Proof.
  intros Ht. rewrite is_trailer_Ok, Ht; [by rewrite (proj2 (strict_eq_string_true _ _))|].
  destruct vid; try done.
Qed.

(** The search for the trailer, once [data] is known not to be nullish. *)
Lemma find_trailer_unfold data :
  nullish data = false ->
  find_trailer data =
  if nullish (video_results data) then Ok VUndefined
  else array_find is_trailer (video_results data).
Proof.
  intros Hn. unfold find_trailer, video_results.
  rewrite (get_Ok _ _ Hn). simpl.
  destruct (nullish (opt_get data "videos")) eqn:Hv.
  - by rewrite (opt_get_nullish _ "results" Hv).
  - by rewrite (get_Ok _ _ Hv).
Qed.

Lemma find_trailer_nullish data :
  nullish data = true -> find_trailer data = Err NullAccess.
Proof. by destruct data. Qed.

Lemma streaming_providers_unfold data :
  nullish data = false ->
  streaming_providers data = Ok (or_default (us_flatrate data) (VArr [])).
Proof.
  intros Hn. unfold streaming_providers, us_flatrate.
  by rewrite (get_Ok _ _ Hn).
Qed.

Lemma find_trailer_Ok_not_nullish data trailer :
  find_trailer data = Ok trailer -> nullish data = false.
Proof. by destruct data. Qed.

(** C4. The trailer is the first element of [data.videos.results] whose
    [type] is "Trailer": elements before it that are of another type are
    skipped, and what follows it is not examined. *)
Theorem find_trailer_first data l1 x l2 :
  video_results data = VArr (l1 ++ x :: l2) ->
  Forall (fun y => nullish y = false /\ opt_get y "type" <> VStr "Trailer") l1 ->
  opt_get x "type" = VStr "Trailer" ->
  find_trailer data = Ok x.
Proof.
  intros Hres Hl1 Hx.
  assert (nullish data = false) as Hn by (by destruct data).
  rewrite find_trailer_unfold, Hres by done. simpl nullish. cbv iota.
  apply array_find_first; [|by apply is_trailer_true].
  eapply Forall_impl; [done|]. intros y [??]. by apply is_trailer_false.
Qed.

(** When [data.videos.results] is an array with no element of type
    "Trailer" (videos of other types may be present), or when it is
    absent, the search answers [undefined] and does not throw. *)
Theorem find_trailer_none data :
  nullish data = false ->
  (nullish (video_results data) = true \/
   exists l, video_results data = VArr l /\
     Forall (fun y => nullish y = false /\ opt_get y "type" <> VStr "Trailer") l) ->
  find_trailer data = Ok VUndefined.
Proof.
  intros Hn [Hv|(l & Hv & Hl)]; rewrite find_trailer_unfold, Hv by done;
    [done|].
  simpl nullish. cbv iota. apply array_find_none.
  eapply Forall_impl; [done|]. intros y [??]. by apply is_trailer_false.
Qed.


Lemma details_handler_failed o s e :
  details_failed o e -> details_handler o s = (s, Some e).
Proof.
  destruct 1 as [o e [e'|st|st data Hn]|st data e Hf]; simpl; try done.
  - by rewrite find_trailer_nullish.
  - by rewrite Hf.
Qed.

Lemma details_handler_ok st data trailer s :
  find_trailer data = Ok trailer ->
  details_handler (Resolved (Response st (Some data))) s =
  (setDownloadLinks (or_default (us_flatrate data) (VArr []))
     (setTrailerUrl (opt_get trailer "key") s), None).
Proof.
  intros Hf. simpl. rewrite Hf.
  by rewrite streaming_providers_unfold
    by (by eapply find_trailer_Ok_not_nullish).
Qed.

(** Every answer is a failure or carries a body in which the search for
    the trailer succeeds. *)
Lemma details_cases o :
  (exists e, details_failed o e) \/
  (exists st data trailer, o = Resolved (Response st (Some data)) /\
     find_trailer data = Ok trailer).
Proof.
  destruct o as [[st [data|]]|e].
  - destruct (find_trailer data) as [trailer|e] eqn:Hf.
    + right. eauto 6.
    + left. exists e. by apply details_failed_trailer.
  - left. exists BodyNotJson. do 2 constructor.
  - left. exists e. do 2 constructor.
Qed.

(** The detail request, run alone, leaves the state and the console
    that [details_handler] computes from the answer, and completes
    normally. *)
Lemma fetchMovieDetails_alone net movieId s c url :
  details_url API_KEY movieId = Ok url ->
  run_alone net (fetchMovieDetails API_KEY movieId) s c =
  ((details_handler (net url) s).1,
   details_console (details_handler (net url) s).2 c,
   Ok tt).
Proof.
  intros Hu. unfold fetchMovieDetails. rewrite Hu. simpl.
  destruct (net _) as [[st [data|]]|e]; simpl; try reflexivity.
  destruct (find_trailer data) as [trailer|e]; simpl; [|reflexivity].
  destruct (streaming_providers data) as [links|e]; reflexivity.
Qed.

(** C6. A detail request that fails, for whatever cause (rejection,
    body that is not JSON, body in which the search for the trailer
    throws), changes no cell of the state, the error cell included, and
    writes one line to the console. *)
Theorem fetchMovieDetails_failure net movieId s c url e :
  details_url API_KEY movieId = Ok url -> details_failed (net url) e ->
  run_alone net (fetchMovieDetails API_KEY movieId) s c =
  (s, (c ++ [("Error fetching details:", e)])%list, Ok tt).
Proof.
  intros Hu Hf.
  by rewrite (fetchMovieDetails_alone _ _ _ _ url),
    (details_handler_failed _ _ e).
Qed.

(** A detail request whose body holds a trailer sets [trailerUrl]
    to the [key] of the trailer and [downloadLinks] to the provider
    list, and touches nothing else. *)
Theorem fetchMovieDetails_success net movieId s c url st data trailer :
  details_url API_KEY movieId = Ok url ->
  net url = Resolved (Response st (Some data)) ->
  find_trailer data = Ok trailer ->
  run_alone net (fetchMovieDetails API_KEY movieId) s c =
  (setDownloadLinks (or_default (us_flatrate data) (VArr []))
     (setTrailerUrl (opt_get trailer "key") s), c, Ok tt).
Proof.
  intros Hu Hnet Hf.
  by rewrite (fetchMovieDetails_alone _ _ _ _ url), Hnet,
    (details_handler_ok _ _ trailer).
Qed.

(** A detail request for an [id] that has no text sends nothing: the
    template literal of the address throws in the [try], the exception
    is written to the console and the state is left as it is. *)
Theorem fetchMovieDetails_bad_id net movieId s c :
  printable movieId = false ->
  run_alone net (fetchMovieDetails API_KEY movieId) s c =
  (s, (c ++ [("Error fetching details:", NotPrimitive)])%list, Ok tt).
Proof.
  intros Hp. unfold fetchMovieDetails, details_url.
  by rewrite ToString_Err.
Qed.

Lemma details_on_json_run o s c :
  run (details_on_json o) s c =
  match o with
  | Resolved data =>
      ((details_handler (Resolved (Response 200 (Some data))) s).1,
       details_console
         (details_handler (Resolved (Response 200 (Some data))) s).2 c,
       Done tt)
  | Rejected e => (s, details_console (Some e) c, Done tt)
  end.
Proof.
  unfold details_on_json, details_use_data.
  destruct o as [data|e]; simpl; [|reflexivity].
  destruct (find_trailer data) as [trailer|e]; simpl; [|reflexivity].
  destruct (streaming_providers data) as [links|e]; reflexivity.
Qed.

(** *** Opening the modal *)

Lemma openMovieModal_unfold movie :
  nullish movie = false ->
  openMovieModal API_KEY movie =
  (upd (setSelectedMovie movie) ;; upd (setModalVisible true) ;;
   fetchMovieDetails API_KEY (opt_get movie "id")).
Proof. intros Hn. unfold openMovieModal. by rewrite (get_Ok _ _ Hn). Qed.

(** The first segment of [openMovieModal]. *)
Lemma openMovieModal_segment movie s c url :
  nullish movie = false ->
  details_url API_KEY (opt_get movie "id") = Ok url ->
  run (openMovieModal API_KEY movie) s c =
  (setModalVisible true (setSelectedMovie movie s), c,
   OnFetch url details_on_fetch).
Proof.
  intros Hn Hu. rewrite openMovieModal_unfold by done. cbn [run mbind].
  simpl. by rewrite (fetchMovieDetails_run _ _ _ url).
Qed.

(** On a movie whose [id] has no text the modal opens all the same; no
    request is sent, and the exception is written to the console. *)
Lemma openMovieModal_no_address movie s c e :
  nullish movie = false ->
  details_url API_KEY (opt_get movie "id") = Err e ->
  run (openMovieModal API_KEY movie) s c =
  (setModalVisible true (setSelectedMovie movie s),
   details_console (Some e) c, Done tt).
Proof.
  intros Hn Hu. rewrite openMovieModal_unfold by done. cbn [run mbind].
  simpl. by rewrite (fetchMovieDetails_no_address _ _ _ e).
Qed.

(** The state after the first segment of [openMovieModal], whether the
    request could be sent or not. *)
Lemma openMovieModal_state movie s c :
  nullish movie = false ->
  (run (openMovieModal API_KEY movie) s c).1.1 =
  setModalVisible true (setSelectedMovie movie s).
Proof.
  intros Hn. destruct (details_url API_KEY (opt_get movie "id")) eqn:Hu.
  - by rewrite (openMovieModal_segment _ _ _ _ Hn Hu).
  - by rewrite (openMovieModal_no_address _ _ _ _ Hn Hu).
Qed.

(** Opening the modal on a movie that is not nullish selects it
    and shows the modal in the segment of the press, before any answer;
    the request for the details of [movie.id] is then pending.  The
    cells [trailerUrl] and [downloadLinks] are not written in that
    segment: they still hold the details of the movie opened before. *)
Theorem openMovieModal_run movie s c url :
  nullish movie = false ->
  details_url API_KEY (opt_get movie "id") = Ok url ->
  let '(s', c', st) := run (openMovieModal API_KEY movie) s c in
  modal_cells s' = (movie, true) /\ detail_cells s' = detail_cells s /\
  list_cells s' = list_cells s /\ query s' = query s /\ c' = c /\
  st = OnFetch url details_on_fetch.
Proof. intros Hn Hu. by rewrite (openMovieModal_segment _ _ _ url). Qed.

(** Opening the modal on [null] or [undefined] shows the modal
    with nothing selected, and the handler ends with a TypeError that
    nothing catches. *)
Theorem openMovieModal_nullish movie s c :
  nullish movie = true ->
  run (openMovieModal API_KEY movie) s c =
  (setModalVisible true (setSelectedMovie movie s), c, Failed NullAccess).
Proof. by destruct movie. Qed.

Lemma openMovieModal_alone net movie s c :
  nullish movie = false ->
  run_alone net (openMovieModal API_KEY movie) s c =
  run_alone net (fetchMovieDetails API_KEY (opt_get movie "id"))
    (setModalVisible true (setSelectedMovie movie s)) c.
Proof.
  intros Hn. by rewrite openMovieModal_unfold.
Qed.

(** When the detail request of a newly opened movie fails, the
    modal shows that movie with the trailer and the providers of the
    movie opened before it. *)
Theorem openMovieModal_stale_details net movie s c url e :
  nullish movie = false ->
  details_url API_KEY (opt_get movie "id") = Ok url ->
  details_failed (net url) e ->
  let s' := (run_alone net (openMovieModal API_KEY movie) s c).1.1 in
  modal_cells s' = (movie, true) /\ detail_cells s' = detail_cells s.
Proof.
  intros Hn Hu Hf. cbv zeta.
  by rewrite openMovieModal_alone, (fetchMovieDetails_alone _ _ _ _ url),
    (details_handler_failed _ _ e).
Qed.

(** *** No handler rejects *)

Lemma list_request_never_throws url msg : never_throws (list_request url msg).
Proof.
  unfold list_request, list_tail.
  apply never_throws_bind; [apply never_throws_upd|]. intros _.
  apply never_throws_finally; [|apply never_throws_upd].
  apply never_throws_try_catch. intros _. apply never_throws_upd.
Qed.

Lemma fetchMovieDetails_never_throws movieId :
  never_throws (fetchMovieDetails API_KEY movieId).
Proof.
  apply never_throws_try_catch. intros e. repeat constructor.
Qed.

(** The promises of [searchMovies], [fetchPopularMovies] and
    [fetchMovieDetails] never reject, however the requests are
    answered; the promise of [openMovieModal] never rejects when the
    movie is not nullish. *)
Theorem handlers_never_throw q movieId movie :
  never_throws (searchMovies API_KEY q) /\
  never_throws (fetchPopularMovies API_KEY) /\
  never_throws (fetchMovieDetails API_KEY movieId) /\
  (nullish movie = false -> never_throws (openMovieModal API_KEY movie)).
Proof.
  split_and!.
  - rewrite searchMovies_unfold. case_match; [constructor|].
    apply list_request_never_throws.
  - apply list_request_never_throws.
  - apply fetchMovieDetails_never_throws.
  - intros Hn. rewrite openMovieModal_unfold by done.
    do 2 constructor. apply fetchMovieDetails_never_throws.
Qed.

End controller_segments.

(** * The theorems on sample answers *)

Lemma searchMovies_alone_witness :
  run_alone (fun _ => answer_ok (list_body [batman]))
    (searchMovies "k" "batman") initial [] =
  (list_handler "Failed to fetch movies" (answer_ok (list_body [batman]))
     initial, [], Ok tt).
Proof.
  apply (searchMovies_alone "k" (fun _ => answer_ok (list_body [batman]))
           "batman" initial []).
  discriminate.
Defined.

(** The scenario of the specification: the search for "batman" answers
    one movie. *)
Lemma searchMovies_success_witness :
  list_cells (run_alone (fun _ => answer_ok (list_body [batman]))
                (searchMovies "k" "batman") initial []).1.1 =
  (VArr [batman], false, EmptyString).
Proof.
  apply (searchMovies_success "k" _ "batman" initial []
           (Response 200 (Some (list_body [batman]))) (list_body [batman]));
    [discriminate|reflexivity..].
Defined.

Lemma searchMovies_failure_witness :
  list_cells (run_alone (fun _ => answer_offline)
                (searchMovies "k" "batman") (setMovies (VArr [joker]) initial)
                []).1.1 =
  (VArr [joker], false, "Failed to fetch movies").
Proof.
  apply (searchMovies_failure "k" (fun _ => answer_offline) "batman"
           (setMovies (VArr [joker]) initial) [] NetworkFailure);
    [discriminate|constructor].
Defined.

(** The key is refused (status 401): the error of the previous search
    stays on screen and none is set for this one. *)
Lemma searchMovies_no_results_witness :
  list_cells (run_alone (fun _ => answer_unauthorized)
                (searchMovies "k" "batman")
                (setError "Failed to fetch popular movies" initial) []).1.1 =
  (VArr [], false, "Failed to fetch popular movies").
Proof.
  apply (searchMovies_no_results "k" (fun _ => answer_unauthorized) "batman"
           (setError "Failed to fetch popular movies" initial) []
           (Response 401 (Some unauthorized_body)) unauthorized_body VUndefined);
    [discriminate|reflexivity..].
Defined.

Lemma searchMovies_outcomes_witness :
  let s' := (run_alone (fun _ => answer_not_json)
               (searchMovies "k" "batman") initial []).1.1 in
  loading s' = false /\ query s' = query (initial (num := Z)) /\
  modal_cells s' = modal_cells (initial (num := Z)) /\
  detail_cells s' = detail_cells (initial (num := Z)) /\
  ((truthy (movies s') = true /\ error s' = EmptyString) \/
   (movies s' = movies (initial (num := Z)) /\
    error s' = "Failed to fetch movies") \/
   (movies s' = movies (initial (num := Z)) /\
    error s' = error (initial (num := Z)))).
Proof. apply (searchMovies_outcomes "k" _ "batman" initial []). discriminate. Defined.

(** The scenario of the specification: a teaser, then the trailer. *)
Lemma find_trailer_first_witness :
  find_trailer batman_details = Ok (video "Trailer" "y").
Proof.
  apply (find_trailer_first batman_details [video "Teaser" "x"]
           (video "Trailer" "y") []); [reflexivity| |reflexivity].
  repeat constructor. discriminate.
Defined.

Lemma find_trailer_none_witness : find_trailer joker_details = Ok VUndefined.
Proof.
  apply find_trailer_none; [reflexivity|]. right.
  exists [video "Teaser" "t"]. split; [reflexivity|].
  repeat constructor. discriminate.
Defined.


Lemma fetchMovieDetails_failure_witness :
  run_alone (fun _ => answer_not_json)
    (fetchMovieDetails "k" (VNum 5%Z)) initial [] =
  (initial, [("Error fetching details:", BodyNotJson)], Ok tt).
Proof.
  apply (fetchMovieDetails_failure "k" _ (VNum 5%Z) initial []
           (details_url_of "k" "5") BodyNotJson); [reflexivity|].
  do 2 constructor.
Defined.

Lemma fetchMovieDetails_success_witness :
  run_alone (fun _ => answer_ok batman_details)
    (fetchMovieDetails "k" (VNum 1%Z)) initial [] =
  (setDownloadLinks (or_default (us_flatrate batman_details) (VArr []))
     (setTrailerUrl (opt_get (video "Trailer" "y") "key") initial), [], Ok tt).
Proof.
  apply (fetchMovieDetails_success "k" _ (VNum 1%Z) initial []
           (details_url_of "k" "1") 200 batman_details); reflexivity.
Defined.

Lemma openMovieModal_run_witness :
  let '(s', c', st) :=
    run (openMovieModal "k" joker) (setTrailerUrl (VStr "y") initial) [] in
  modal_cells s' = (joker, true) /\
  detail_cells s' = (VStr "y", VArr []) /\
  list_cells s' = (VArr [], false, EmptyString) /\ query s' = EmptyString /\
  c' = [] /\
  st = OnFetch (details_url_of "k" "5") details_on_fetch.
Proof.
  apply (openMovieModal_run "k" joker (setTrailerUrl (VStr "y") initial) []
           (details_url_of "k" "5")); reflexivity.
Defined.

Lemma openMovieModal_nullish_witness :
  run (openMovieModal (num := Z) "k" VNull) initial [] =
  (setModalVisible true (setSelectedMovie VNull initial), [],
   Failed NullAccess).
Proof. apply (openMovieModal_nullish "k" VNull). reflexivity. Defined.

(** Joker is opened after Batman and its details cannot be fetched: the
    modal shows Joker with the trailer of Batman. *)
Lemma openMovieModal_stale_details_witness :
  let s' := (run_alone (fun _ => answer_offline) (openMovieModal "k" joker)
               (setTrailerUrl (VStr "y") initial) []).1.1 in
  modal_cells s' = (joker, true) /\
  detail_cells s' = detail_cells (setTrailerUrl (VStr "y") (initial (num := Z))).
Proof.
  apply (openMovieModal_stale_details "k" (fun _ => answer_offline) joker
           (setTrailerUrl (VStr "y") initial) [] (details_url_of "k" "5")
           NetworkFailure);
    [reflexivity..|do 2 constructor].
Defined.

Lemma handlers_never_throw_witness :
  never_throws (searchMovies (num := Z) "k" "batman") /\
  never_throws (fetchPopularMovies (num := Z) "k") /\
  never_throws (fetchMovieDetails "k" (VNum 5%Z)) /\
  (nullish joker = false -> never_throws (openMovieModal "k" joker)).
Proof. apply (handlers_never_throw "k" "batman" (VNum 5%Z) joker). Defined.

(** The catalogue answers a movie whose [id] is an object with a
    property [toString]. *)
Lemma fetchMovieDetails_bad_id_witness :
  run_alone (fun _ => answer_ok batman_details)
    (fetchMovieDetails "k" (VObj [("toString", VNum 1%Z)])) initial [] =
  (initial, [("Error fetching details:", NotPrimitive)], Ok tt).
Proof.
  apply (fetchMovieDetails_bad_id "k" _ (VObj [("toString", VNum 1%Z)]));
    reflexivity.
Defined.
