(* ===== verification/Machine.v ===== *)
(** * Machine: the event loop of the application

    A [World] is what exists between two segments of JavaScript: the
    view state, the console, the handlers suspended on a promise
    ([pending], by identifier) and the rejections that nothing caught
    ([unhandled]).  An [event] is what starts a segment: a gesture of the
    user (lines 143-147, 81, 167, 189 of src/App.js) or the settlement of
    a promise.  [step] is the transition relation and [exec] the same as
    a function; [reachable] is the set of worlds of the application.

    A gesture is possible only on what is rendered: a movie can be
    pressed when the list is shown (lines 150-161) and the item could be
    rendered ([pressable]); the Close button exists when the modal shows
    a movie (lines 166-170 and 189).  The buttons and the text input of
    the main screen are always enabled in the model, also under the
    modal: every invariant below holds a fortiori for the application.

    Nothing orders the settlements: two requests started one after the
    other may be answered in either order, and a request outlives the
    modal that started it.  The runs at the end of the file exhibit the
    consequences. *)

From stdpp Require Import gmap.
From S2P Require Import Prelude JsValue Async ViewState Url Samples Render.
From S2P Require Import Controller.

Open Scope string_scope.
Open Scope list_scope.

(** A handler suspended on [fetch(url)] or on [r.json()]. *)
Inductive task (num : Type) : Type :=
| TFetch (url : string)
    (k : outcome (response num) -> prog num (ViewState num) unit)
| TJson (r : response num)
    (k : outcome (value num) -> prog num (ViewState num) unit).
Arguments TFetch {num} url k.
Arguments TJson {num} r k.

Record World (num : Type) : Type := mkWorld {
  view : ViewState num;
  console : list log_entry;
  pending : gmap nat (task num);
  next_id : nat;
  unhandled : list exn;
}.
Arguments mkWorld {num}.
Arguments view {num} w : rename.
Arguments console {num} w : rename.
Arguments pending {num} w : rename.
Arguments next_id {num} w : rename.
Arguments unhandled {num} w : rename.

Inductive event (num : Type) : Type :=
| ChangeText (text : string)     (* line 143 *)
| PressSearch                    (* line 146 *)
| PressPopular                   (* line 147 *)
| PressMovie (item : value num)  (* line 81 *)
| RequestClose                   (* line 167 *)
| PressClose                     (* line 189 *)
| FetchSettles (id : nat) (o : outcome (response num))
| JsonSettles (id : nat).
Arguments ChangeText {num} text.
Arguments PressSearch {num}.
Arguments PressPopular {num}.
Arguments PressMovie {num} item.
Arguments RequestClose {num}.
Arguments PressClose {num}.
Arguments FetchSettles {num} id o.
Arguments JsonSettles {num} id.

(** The two families of suspended handlers. *)
Inductive task_kind : Type :=
| ListTask (msg : string)
| DetailsTask.

Section machine.
Context {num : Type} `{!JsNumber num}.
Variable API_KEY : string.
Implicit Types (w : World num) (s : ViewState num) (e : event num)
  (t : task num) (item : value num) (id : nat).

Definition initial_world : World num :=
  mkWorld initial [] ∅ 0 [].

(** The end of a segment of the handler [id]: a suspended handler is
    recorded under [id]; an exception that reached the top is an
    unhandled rejection. *)
Definition suspend id (st : status num (ViewState num) unit)
    (m : gmap nat (task num)) : gmap nat (task num) :=
  match st with
  | OnFetch url k => <[id := TFetch url k]> m
  | OnJson r k => <[id := TJson r k]> m
  | Done _ | Failed _ => m
  end.

Definition note_rejection (st : status num (ViewState num) unit)
    (u : list exn) : list exn :=
  match st with
  | Failed e => u ++ [e]
  | _ => u
  end.

Definition is_suspended (st : status num (ViewState num) unit) : bool :=
  match st with
  | OnFetch _ _ | OnJson _ _ => true
  | Done _ | Failed _ => false
  end.

(** The call of a handler: its first segment runs at once; if it
    reaches an [await] the handler gets the next identifier. *)
Definition start (p : prog num (ViewState num) unit) w : World num :=
  let '(s, c, st) := run p (view w) (console w) in
  mkWorld s c (suspend (next_id w) st (pending w))
    (if is_suspended st then S (next_id w) else next_id w)
    (note_rejection st (unhandled w)).

(** The continuation of the handler [id] after its promise settled. *)
Definition resume id (p : prog num (ViewState num) unit) w : World num :=
  let '(s, c, st) := run p (view w) (console w) in
  mkWorld s c (suspend id st (delete id (pending w))) (next_id w)
    (note_rejection st (unhandled w)).

(** Lines 150-161: the list is rendered when nothing is loading and
    there is no error. *)
Definition list_shown s : bool :=
  negb (loading s) && negb (truthy (VStr (error s) : value num)).

(** Lines 155-158: an item of the list that is shown, on which
    [renderMovieItem] and [keyExtractor] do not throw
    ([Render.item_ok]). *)
Definition pressable item s : bool :=
  list_shown s && item_ok item &&
  match movies s with
  | VArr l => bool_decide (item ∈ l)
  | _ => false
  end.

(** Lines 166-170 and 189: the Close button is rendered in the visible
    modal when a movie is selected. *)
Definition close_shown s : bool :=
  modalVisible s && truthy (selectedMovie s).

Inductive step : World num -> event num -> World num -> Prop :=
| step_change_text w text :
    step w (ChangeText text) (start (onChangeText text) w)
| step_press_search w :
    step w PressSearch (start (searchMovies API_KEY (query (view w))) w)
| step_press_popular w :
    step w PressPopular (start (fetchPopularMovies API_KEY) w)
| step_press_movie w item :
    pressable item (view w) = true ->
    step w (PressMovie item) (start (openMovieModal API_KEY item) w)
| step_request_close w :
    modalVisible (view w) = true ->
    step w RequestClose (start closeModal w)
| step_press_close w :
    close_shown (view w) = true ->
    step w PressClose (start closeModal w)
| step_fetch_settles w id url k o :
    pending w !! id = Some (TFetch url k) ->
    step w (FetchSettles id o) (resume id (k o) w)
| step_json_settles w id r k :
    pending w !! id = Some (TJson r k) ->
    step w (JsonSettles id) (resume id (k (json_outcome r)) w).

(** [step] as a function: [None] when the event is not possible. *)
Definition exec w e : option (World num) :=
  match e with
  | ChangeText text => Some (start (onChangeText text) w)
  | PressSearch => Some (start (searchMovies API_KEY (query (view w))) w)
  | PressPopular => Some (start (fetchPopularMovies API_KEY) w)
  | PressMovie item =>
      if pressable item (view w)
      then Some (start (openMovieModal API_KEY item) w) else None
  | RequestClose =>
      if modalVisible (view w) then Some (start closeModal w) else None
  | PressClose =>
      if close_shown (view w) then Some (start closeModal w) else None
  | FetchSettles id o =>
      match pending w !! id with
      | Some (TFetch url k) => Some (resume id (k o) w)
      | _ => None
      end
  | JsonSettles id =>
      match pending w !! id with
      | Some (TJson r k) => Some (resume id (k (json_outcome r)) w)
      | _ => None
      end
  end.

(** A run: the events in order. *)
Fixpoint exec_all w (es : list (event num)) : option (World num) :=
  match es with
  | [] => Some w
  | e :: es' => w' ← exec w e; exec_all w' es'
  end.

Inductive reachable : World num -> Prop :=
| reachable_initial : reachable initial_world
| reachable_step w e w' : reachable w -> step w e w' -> reachable w'.

(** Which handler a suspended task belongs to. *)
Inductive task_of : task num -> task_kind -> Prop :=
| task_list_fetch url msg :
    task_of (TFetch url (list_on_fetch msg)) (ListTask msg)
| task_list_json r msg :
    task_of (TJson r (list_on_json msg)) (ListTask msg)
| task_details_fetch url :
    task_of (TFetch url details_on_fetch) DetailsTask
| task_details_json r :
    task_of (TJson r details_on_json) DetailsTask.

(** The messages of the two list requests. *)
Definition list_message (msg : string) : Prop :=
  msg = "Failed to fetch movies" \/ msg = "Failed to fetch popular movies".

(** What is known of the suspended handlers [m]: each is a segment of
    one of the handlers of the application. *)
Definition kind_ok (kd : task_kind) : Prop :=
  match kd with
  | ListTask msg => list_message msg
  | DetailsTask => True
  end.

Definition tasks_known (m : gmap nat (task num)) : Prop :=
  forall id t, m !! id = Some t -> exists kd, task_of t kd /\ kind_ok kd.

(** The identifiers in use are below the next one. *)
Definition ids_below (n : nat) (m : gmap nat (task num)) : Prop :=
  forall id, is_Some (m !! id) -> id < n.

(** A list request is in flight. *)
Definition list_pending (m : gmap nat (task num)) : Prop :=
  exists id t msg, m !! id = Some t /\ task_of t (ListTask msg).

(** What holds of the view in every world. *)
Record view_ok s : Prop := mkViewOk {
  (** a visible modal has a movie to show *)
  ok_modal : modalVisible s = true -> item_ok (selectedMovie s) = true;
  (** the selection is a movie that was rendered, or nothing *)
  ok_selected :
    selectedMovie s = VNull \/ item_ok (selectedMovie s) = true;
  (** the error is empty or one of the two messages *)
  ok_error : error s = EmptyString \/ list_message (error s);
  (** [movies] and [downloadLinks] are truthy *)
  ok_movies : truthy (movies s) = true;
  ok_links : truthy (downloadLinks s) = true;
}.

(** The invariant of the application. *)
Record inv w : Prop := mkInv {
  inv_tasks : tasks_known (pending w);
  inv_ids : ids_below (next_id w) (pending w);
  (** [loading] is on only while a list request is in flight *)
  inv_loading : loading (view w) = true -> list_pending (pending w);
  inv_view : view_ok (view w);
  (** no promise was rejected without a handler *)
  inv_unhandled : unhandled w = [];
  (** the console holds only the lines of failed detail requests *)
  inv_console : Forall (fun l => l.1 = "Error fetching details:") (console w);
}.

(** The world at the end of a run from the initial world (the initial
    world itself when the run is not possible). *)
Definition world_after (es : list (event num)) : World num :=
  default initial_world (exec_all initial_world es).

(** The promise that an event settles. *)
Definition settles e : option nat :=
  match e with
  | FetchSettles id _ | JsonSettles id => Some id
  | _ => None
  end.

(** The number of promises that a handler still awaits. *)
Definition awaits (ot : option (task num)) : nat :=
  match ot with
  | Some (TFetch _ _) => 2
  | Some (TJson _ _) => 1
  | None => 0
  end.

End machine.

(** * Properties *)

Section machine_props.
Context {num : Type} `{!JsNumber num}.
Variable API_KEY : string.
Implicit Types (w : World num) (s : ViewState num) (e : event num)
  (t : task num) (item : value num) (id : nat) (m : gmap nat (task num)).

(** ** The kinds of tasks *)

Lemma list_on_fetch_inj msg msg' :
  list_on_fetch (num := num) msg = list_on_fetch msg' -> msg = msg'.
Proof.
  intros H. apply (f_equal (fun k => k (Rejected NullAccess))) in H.
  injection H as H. by apply (f_equal (fun f => error (f initial))) in H.
Qed.

Lemma list_on_json_inj msg msg' :
  list_on_json (num := num) msg = list_on_json msg' -> msg = msg'.
Proof.
  intros H. apply (f_equal (fun k => k (Rejected NullAccess))) in H.
  injection H as H. by apply (f_equal (fun f => error (f initial))) in H.
Qed.

Lemma list_on_fetch_not_details msg :
  list_on_fetch (num := num) msg <> details_on_fetch.
Proof.
  intros H. by apply (f_equal (fun k => k (Rejected NullAccess))) in H.
Qed.

Lemma list_on_json_not_details msg :
  list_on_json (num := num) msg <> details_on_json.
Proof.
  intros H. by apply (f_equal (fun k => k (Rejected NullAccess))) in H.
Qed.

Lemma task_of_functional t kd kd' : task_of t kd -> task_of t kd' -> kd = kd'.
Proof.
  destruct 1; inversion 1; subst; try done.
  - f_equal. by apply list_on_fetch_inj.
  - by destruct (list_on_fetch_not_details msg).
  - f_equal. by apply list_on_json_inj.
  - by destruct (list_on_json_not_details msg).
  - by destruct (list_on_fetch_not_details msg).
  - by destruct (list_on_json_not_details msg).
Qed.

(** ** The table of suspended handlers *)

Lemma tasks_known_insert m id t kd :
  tasks_known m -> task_of t kd -> kind_ok kd -> tasks_known (<[id := t]> m).
Proof.
  intros Hm Ht Hk id' t' [[-> ->]|[_ Hl]]%lookup_insert_Some; eauto.
Qed.

Lemma tasks_known_delete m id : tasks_known m -> tasks_known (delete id m).
Proof. intros Hm id' t' [_ Hl]%lookup_delete_Some. eauto. Qed.

Lemma ids_below_insert n m id t :
  ids_below n m -> id < n -> ids_below n (<[id := t]> m).
Proof.
  intros Hm Hid id' [t' [[-> ->]|[_ Hl]]%lookup_insert_Some]; [done|].
  apply Hm. eauto.
Qed.

Lemma ids_below_delete n m id : ids_below n m -> ids_below n (delete id m).
Proof. intros Hm id' [t' [_ Hl]%lookup_delete_Some]. apply Hm. eauto. Qed.

Lemma ids_below_mono n n' m : ids_below n m -> n <= n' -> ids_below n' m.
Proof. intros Hm Hn id Hid. specialize (Hm id Hid). lia. Qed.

Lemma ids_below_fresh n m : ids_below n m -> m !! n = None.
Proof.
  intros Hm. destruct (m !! n) eqn:Hn; [|done].
  assert (n < n) by (apply Hm; eauto). lia.
Qed.

Lemma list_pending_insert m id t msg :
  task_of t (ListTask msg) -> list_pending (<[id := t]> m).
Proof. intros Ht. exists id, t, msg. by rewrite lookup_insert_eq. Qed.

Lemma list_pending_insert_fresh m id t :
  list_pending m -> m !! id = None -> list_pending (<[id := t]> m).
Proof.
  intros (id' & t' & msg & Hl & Ht) Hid. exists id', t', msg. split; [|done].
  rewrite lookup_insert_ne; [done|]. intros ->. congruence.
Qed.

Lemma list_pending_delete_details m id t :
  list_pending m -> m !! id = Some t -> task_of t DetailsTask ->
  list_pending (delete id m).
Proof.
  intros (id' & t' & msg & Hl & Ht') Hid Ht. exists id', t', msg.
  split; [|done]. rewrite lookup_delete_ne; [done|]. intros ->.
  assert (t' = t) as -> by congruence.
  by pose proof (task_of_functional _ _ _ Ht Ht').
Qed.

(** ** The view *)

Lemma view_ok_initial : view_ok (initial (num := num)).
Proof. constructor; simpl; auto. Qed.

Lemma view_ok_setQuery q s : view_ok s -> view_ok (setQuery q s).
Proof. by intros []. Qed.

Lemma view_ok_setLoading b s : view_ok s -> view_ok (setLoading b s).
Proof. by intros []. Qed.

Lemma view_ok_setError msg s :
  msg = EmptyString \/ list_message msg -> view_ok s -> view_ok (setError msg s).
Proof. by intros ? []. Qed.

Lemma view_ok_setMovies v s :
  truthy v = true -> view_ok s -> view_ok (setMovies v s).
Proof. by intros ? []. Qed.

Lemma view_ok_close s : view_ok s -> view_ok (setModalVisible false s).
Proof. intros []. by constructor. Qed.

Lemma view_ok_open item s :
  item_ok item = true -> view_ok s ->
  view_ok (setModalVisible true (setSelectedMovie item s)).
Proof. intros ? []. constructor; simpl; auto. Qed.

Lemma view_ok_list_json msg o s :
  list_message msg -> view_ok s ->
  view_ok (run (list_on_json msg o) s []).1.1.
Proof.
  intros Hmsg Hs. rewrite list_on_json_run. simpl.
  apply view_ok_setLoading.
  destruct (list_result _) as [results| |e] eqn:Hres; [|done|].
  - apply list_result_NewList in Hres as (? & ? & _ & _ & _ & ?).
    apply view_ok_setError; [by left|]. by apply view_ok_setMovies.
  - apply view_ok_setError; auto.
Qed.

Lemma view_ok_details o s : view_ok s -> view_ok (details_handler o s).1.
Proof.
  intros Hs. destruct (details_cases o) as [[e He]|(st & data & tr & -> & Hf)].
  - by rewrite (details_handler_failed _ _ e).
  - rewrite (details_handler_ok _ _ tr) by done. simpl.
    destruct Hs. constructor; simpl; auto. by apply or_default_truthy.
Qed.

(** ** The shapes of a transition *)

Lemma inv_initial : inv (initial_world (num := num)).
Proof.
  constructor; simpl; try done.
  - intros id [t Ht]. by rewrite lookup_empty in Ht.
  - apply view_ok_initial.
Qed.

Lemma list_pending_replace m id t0 t kd :
  list_pending m -> m !! id = Some t0 -> task_of t0 kd -> task_of t kd ->
  list_pending (<[id := t]> (delete id m)).
Proof.
  intros (id' & t' & msg & Hl & Ht') Hid Ht0 Ht.
  destruct (decide (id' = id)) as [->|Hne].
  - assert (t' = t0) as -> by congruence.
    rewrite (task_of_functional _ _ _ Ht0 Ht') in Ht.
    by eapply list_pending_insert.
  - exists id', t', msg. by rewrite lookup_insert_ne, lookup_delete_ne.
Qed.

(** The view changes; the table is kept. *)
Lemma inv_keep w s' n' :
  inv w -> view_ok s' -> (loading s' = true -> loading (view w) = true) ->
  next_id w <= n' ->
  inv (mkWorld s' (console w) (pending w) n' (unhandled w)).
Proof.
  intros [] Hs Hl Hn. constructor; simpl; auto.
  by eapply ids_below_mono.
Qed.

(** A handler is suspended under a fresh identifier. *)
Lemma inv_insert w s' t kd :
  inv w -> view_ok s' -> task_of t kd -> kind_ok kd ->
  (loading s' = true ->
   loading (view w) = true \/ exists msg, kd = ListTask msg) ->
  inv (mkWorld s' (console w) (<[next_id w := t]> (pending w))
         (S (next_id w)) (unhandled w)).
Proof.
  intros [] Hs Ht Hk Hl. constructor; simpl; auto.
  - by eapply tasks_known_insert.
  - apply ids_below_insert; [|lia]. eapply ids_below_mono; [done|lia].
  - intros [Hw|[msg ->]]%Hl.
    + apply list_pending_insert_fresh; auto. by apply ids_below_fresh.
    + by eapply list_pending_insert.
Qed.

(** A suspended handler moves to its next [await]. *)
Lemma inv_replace w id t0 t kd :
  inv w -> pending w !! id = Some t0 -> task_of t0 kd -> task_of t kd ->
  inv (mkWorld (view w) (console w) (<[id := t]> (delete id (pending w)))
         (next_id w) (unhandled w)).
Proof.
  intros [Htasks Hids Hload Hv Hunh Hcon] Hid Ht0 Ht.
  constructor; simpl; auto.
  - destruct (Htasks id t0 Hid) as (kd' & Ht0' & Hk).
    rewrite <-(task_of_functional _ _ _ Ht0 Ht0') in Hk.
    eapply tasks_known_insert; [|done..]. by apply tasks_known_delete.
  - apply ids_below_insert; [by apply ids_below_delete|].
    apply Hids. eauto.
  - intros Hl. by eapply list_pending_replace; eauto.
Qed.

(** A suspended handler completes. *)
Lemma inv_delete w id t s' c' :
  inv w -> pending w !! id = Some t -> view_ok s' ->
  Forall (fun l => l.1 = "Error fetching details:") c' ->
  (loading s' = true -> loading (view w) = true /\ task_of t DetailsTask) ->
  inv (mkWorld s' c' (delete id (pending w)) (next_id w) (unhandled w)).
Proof.
  intros [] Hid Hs Hc Hl. constructor; simpl; auto.
  - by apply tasks_known_delete.
  - by apply ids_below_delete.
  - intros [Hw Ht]%Hl. eapply list_pending_delete_details; eauto.
Qed.

Lemma pressable_item_ok item s :
  pressable item s = true -> item_ok item = true.
Proof. unfold pressable. by intros [[_ ?]%andb_prop _]%andb_prop. Qed.

(** The [id] of an item that is rendered has a text: the request for
    its details has an address. *)
Lemma item_ok_details_url item :
  item_ok item = true ->
  details_url API_KEY (opt_get item "id") =
  Ok (details_url_of API_KEY (to_string (opt_get item "id"))).
Proof.
  intros (_ & Hid & _)%item_ok_inv.
  by apply details_url_Ok, to_string_method_printable.
Qed.

(** The first segment of [openMovieModal] on an item of the list. *)
Lemma openMovieModal_pressed item s c :
  item_ok item = true ->
  run (openMovieModal API_KEY item) s c =
  (setModalVisible true (setSelectedMovie item s), c,
   OnFetch (details_url_of API_KEY (to_string (opt_get item "id")))
     details_on_fetch).
Proof.
  intros Hok. apply openMovieModal_segment;
    [by apply item_ok_not_nullish|by apply item_ok_details_url].
Qed.

(** ** Preservation *)

Lemma inv_start_list w url msg :
  inv w -> list_message msg -> inv (start (list_request url msg) w).
Proof.
  intros Hw Hmsg. pose proof (inv_view _ Hw) as Hv.
  eapply (inv_insert w (setLoading true (view w)) _ (ListTask msg)); eauto.
  - by apply view_ok_setLoading.
  - constructor.
Qed.

Lemma inv_step_user w e w' :
  inv w -> step API_KEY w e w' ->
  (forall id o, e <> FetchSettles id o) -> (forall id, e <> JsonSettles id) ->
  inv w'.
Proof.
  intros Hw Hstep Hf Hj. pose proof (inv_view _ Hw) as Hv.
  destruct Hstep as [w text|w|w|w item Hp|w Hm|w Hc| |].
  - apply (inv_keep w); simpl; auto. by apply view_ok_setQuery.
  - rewrite searchMovies_unfold. case_match.
    + by apply (inv_keep w).
    + apply inv_start_list; [done|by left].
  - apply inv_start_list; [done|by right].
  - apply pressable_item_ok in Hp.
    unfold start. rewrite openMovieModal_pressed by done.
    eapply (inv_insert w _ _ DetailsTask); eauto; [|constructor|done].
    by apply view_ok_open.
  - apply (inv_keep w); simpl; auto. by apply view_ok_close.
  - apply (inv_keep w); simpl; auto. by apply view_ok_close.
  - by destruct (Hf id o).
  - by destruct (Hj id).
Qed.

Lemma console_ok_snoc (c : list log_entry) (e : exn) :
  Forall (fun l => l.1 = "Error fetching details:") c ->
  Forall (fun l => l.1 = "Error fetching details:")
    (details_console (Some e) c).
Proof. intros Hc. apply Forall_app. split; [done|]. by repeat constructor. Qed.

Lemma console_ok_details (c : list log_entry) oe :
  Forall (fun l => l.1 = "Error fetching details:") c ->
  Forall (fun l => l.1 = "Error fetching details:") (details_console oe c).
Proof. destruct oe; [apply console_ok_snoc|done]. Qed.

Lemma details_handler_loading o s :
  loading (details_handler o s).1 = loading s.
Proof.
  destruct (details_cases o) as [[e He]|(st & data & tr & -> & Hf)].
  - by rewrite (details_handler_failed _ _ e).
  - by rewrite (details_handler_ok _ _ tr).
Qed.

Lemma inv_step_fetch w id url k o :
  inv w -> pending w !! id = Some (TFetch url k) -> inv (resume id (k o) w).
Proof.
  intros Hw Hid. destruct (inv_tasks _ Hw id _ Hid) as (kd & Ht & Hk).
  pose proof (inv_view _ Hw) as Hv. pose proof (inv_console _ Hw) as Hc.
  unfold resume. inversion Ht; subst.
  - rewrite list_on_fetch_run. destruct o as [r|e]; simpl.
    + eapply inv_replace; eauto. constructor.
    + eapply inv_delete; eauto; [|done].
      by apply view_ok_setLoading, view_ok_setError; [right|].
  - rewrite details_on_fetch_run. destruct o as [r|e]; simpl.
    + eapply inv_replace; eauto. constructor.
    + eapply inv_delete; eauto. by apply console_ok_snoc.
Qed.

Lemma inv_step_json w id r k :
  inv w -> pending w !! id = Some (TJson r k) ->
  inv (resume id (k (json_outcome r)) w).
Proof.
  intros Hw Hid. destruct (inv_tasks _ Hw id _ Hid) as (kd & Ht & Hk).
  pose proof (inv_view _ Hw) as Hv. pose proof (inv_console _ Hw) as Hc.
  unfold resume. inversion Ht; subst.
  - pose proof (view_ok_list_json msg (json_outcome r) _ Hk Hv) as Hv'.
    rewrite list_on_json_run in Hv' |- *. simpl in Hv' |- *.
    eapply inv_delete; eauto. done.
  - rewrite details_on_json_run.
    destruct (json_outcome r) as [data|e]; cbn -[details_handler].
    + eapply inv_delete; eauto using view_ok_details, console_ok_details.
      rewrite details_handler_loading. auto.
    + eapply inv_delete; eauto. by apply console_ok_snoc.
Qed.

Lemma inv_step w e w' : inv w -> step API_KEY w e w' -> inv w'.
Proof.
  intros Hw Hstep.
  destruct e; try (eapply inv_step_user; by eauto); inv Hstep.
  - by eapply inv_step_fetch.
  - by eapply inv_step_json.
Qed.

Lemma inv_reachable w : reachable API_KEY w -> inv w.
Proof. induction 1; [apply inv_initial|by eapply inv_step]. Qed.

(** ** [exec] and [step] *)

Lemma exec_Some_step w e w' : exec API_KEY w e = Some w' -> step API_KEY w e w'.
Proof.
  destruct e; simpl; repeat case_match; intros [=]; subst; econstructor; eauto.
Qed.

Lemma step_exec_Some w e w' : step API_KEY w e w' -> exec API_KEY w e = Some w'.
Proof. destruct 1; simpl; repeat case_match; simplify_eq; done. Qed.

(** [exec] computes [step]: an event leads from [w] to [w'] exactly
    when [exec] answers [w'], and the events that are not possible are
    those on which it answers nothing. *)
Theorem exec_step w e w' : exec API_KEY w e = Some w' <-> step API_KEY w e w'.
Proof. split; [apply exec_Some_step|apply step_exec_Some]. Qed.

Lemma exec_all_app w es1 es2 :
  exec_all API_KEY w (es1 ++ es2) =
  exec_all API_KEY w es1 ≫= fun w' => exec_all API_KEY w' es2.
Proof.
  revert w. induction es1 as [|e es1 IH]; intros w; simpl; [done|].
  destruct (exec API_KEY w e); simpl; auto.
Qed.

Lemma exec_all_reachable w es w' :
  reachable API_KEY w -> exec_all API_KEY w es = Some w' ->
  reachable API_KEY w'.
Proof.
  revert w. induction es as [|e es IH]; intros w Hw; simpl.
  - by intros [= <-].
  - destruct (exec API_KEY w e) as [w1|] eqn:He; simpl; [|done].
    apply IH. econstructor; [done|]. by apply exec_Some_step.
Qed.

(** The reachable worlds are the results of the runs from the
    initial world. *)
Theorem reachable_exec_all w :
  reachable API_KEY w <->
  exists es, exec_all API_KEY initial_world es = Some w.
Proof.
  split.
  - induction 1 as [|w e w' _ [es Hes] Hstep]; [by exists []|].
    exists (es ++ [e]). rewrite exec_all_app, Hes. simpl.
    by rewrite (step_exec_Some _ _ _ Hstep).
  - intros [es Hes]. eapply exec_all_reachable; [constructor|done].
Qed.

Lemma world_after_reachable es :
  is_Some (exec_all API_KEY initial_world es) ->
  reachable API_KEY (world_after API_KEY es).
Proof.
  intros [w Hw]. unfold world_after. rewrite Hw. simpl.
  eapply exec_all_reachable; [constructor|done].
Qed.

(** ** Invariants of the reachable worlds *)

(** C5. Whenever the spinner is shown ([loading] is true), a list
    request is in flight: [loading] cannot stay on for ever once the
    network has answered. *)
Theorem loading_only_while_pending w :
  reachable API_KEY w -> loading (view w) = true -> list_pending (pending w).
Proof. intros Hw. by apply inv_loading, inv_reachable. Qed.

(** C38. The converse does not hold: when two list requests overlap,
    the first to settle turns [loading] off while the other is still in
    flight, and its answer will replace the list later with no spinner
    shown. *)
Theorem loading_off_while_pending :
  exists w, reachable API_KEY w /\ loading (view w) = false /\
    list_pending (pending w).
Proof.
  eexists. split; [|split].
  - eapply (exec_all_reachable initial_world
      [PressPopular; PressPopular; FetchSettles 0 (Rejected NetworkFailure)]);
      [constructor|reflexivity].
  - reflexivity.
  - exists 1, (TFetch (popular_url API_KEY)
                 (list_on_fetch "Failed to fetch popular movies")),
      "Failed to fetch popular movies".
    split; [reflexivity|constructor].
Qed.

(** C2. A visible modal always has a movie to show: the selected
    movie is an item that was rendered ([Render.item_ok]), so it is not
    nullish, its [id] answers [toString()] and its poster path has a
    text. *)
Theorem modal_shows_movie w :
  reachable API_KEY w -> modalVisible (view w) = true ->
  item_ok (selectedMovie (view w)) = true.
Proof. intros Hw. by apply ok_modal, inv_view, inv_reachable. Qed.

(** C34. No promise of a handler is ever rejected without a handler:
    every failure of a request is caught, and [openMovieModal] is only
    called on items whose [id] can be read. *)
Theorem no_unhandled_rejection w : reachable API_KEY w -> unhandled w = [].
Proof. intros Hw. by apply inv_unhandled, inv_reachable. Qed.

(** The error shown is empty or one of the two fixed messages, and
    the console holds nothing but the lines of failed detail requests. *)
Theorem error_is_fixed_message w :
  reachable API_KEY w ->
  (error (view w) = EmptyString \/ list_message (error (view w))) /\
  Forall (fun l => l.1 = "Error fetching details:") (console w).
Proof.
  intros Hw%inv_reachable. split; [apply ok_error, inv_view|apply inv_console];
    done.
Qed.

(** [movies] and [downloadLinks] are always truthy: the handlers
    store a value only after testing it. *)
Theorem lists_are_truthy w :
  reachable API_KEY w ->
  truthy (movies (view w)) = true /\ truthy (downloadLinks (view w)) = true.
Proof.
  intros Hw%inv_reachable%inv_view. split; [apply ok_movies|apply ok_links];
    done.
Qed.

(** Truthy is all that is known: a body whose [results] is a
    string (or a number, or an object) is stored as it is, and the list
    is then rendered from a value that is no array. *)
Theorem movies_may_be_no_array (x : string) :
  x <> EmptyString ->
  exists w, reachable API_KEY w /\ movies (view w) = VStr x /\
    list_shown (view w) = true.
Proof.
  intros Hx. eexists. split; [|split].
  - eapply (exec_all_reachable initial_world
      [PressPopular;
       FetchSettles 0
         (Resolved (Response 200 (Some (VObj [("results", VStr x)]))));
       JsonSettles 0]); [constructor|reflexivity].
  - simpl. unfold list_result. simpl. by rewrite bool_decide_true.
  - simpl. unfold list_result. simpl. by rewrite bool_decide_true.
Qed.

(** Every suspended handler is a segment of one of the handlers of
    the application, under an identifier that was given out. *)
Theorem pending_tasks_known w id t :
  reachable API_KEY w -> pending w !! id = Some t ->
  (exists kd, task_of t kd /\ kind_ok kd) /\ id < next_id w.
Proof.
  intros Hw%inv_reachable Hid. split; [by eapply inv_tasks|].
  eapply inv_ids; eauto.
Qed.

(** ** Races *)

(** C33. The last list answer to settle wins: when the body of a
    pending list request arrives with a truthy [results], it replaces
    [movies] whatever was requested or shown since, and the query on
    screen is left as it is. *)
Theorem last_settled_wins w id r msg data results w' :
  pending w !! id = Some (TJson r (list_on_json msg)) ->
  body r = Some data -> get data "results" = Ok results ->
  truthy results = true ->
  step API_KEY w (JsonSettles id) w' ->
  list_cells (view w') = (results, false, EmptyString) /\
  query (view w') = query (view w).
Proof.
  intros Hid Hb Hg Ht Hstep.
  inversion Hstep as [| | | | | | |? ? r0 k Hk]; subst.
  rewrite Hid in Hk. injection Hk as <- <-.
  unfold resume. rewrite list_on_json_run. unfold json_outcome. rewrite Hb.
  simpl. unfold list_result. simpl. by rewrite Hg, Ht.
Qed.

(** C39. The answer of a detail request is written whatever the modal
    shows when it arrives: the trailer and the providers of the movie
    it was sent for replace the current ones, and neither the selected
    movie nor the visibility of the modal is consulted or changed. *)
Theorem details_written_whatever_is_shown w id r data trailer w' :
  pending w !! id = Some (TJson r details_on_json) ->
  body r = Some data -> find_trailer data = Ok trailer ->
  step API_KEY w (JsonSettles id) w' ->
  detail_cells (view w') =
    (opt_get trailer "key", or_default (us_flatrate data) (VArr [])) /\
  modal_cells (view w') = modal_cells (view w).
Proof.
  intros Hid Hb Hf Hstep.
  inversion Hstep as [| | | | | | |? ? r0 k Hk]; subst.
  rewrite Hid in Hk. injection Hk as <- <-.
  unfold resume. rewrite details_on_json_run. unfold json_outcome. rewrite Hb.
  by rewrite (details_handler_ok _ _ trailer).
Qed.

(** ** Progress *)

(** A suspended handler can always be resumed, and each
    settlement brings it closer to its end: a handler awaits at most
    two promises, the request and its body. *)
Theorem settlement_progress w id t :
  reachable API_KEY w -> pending w !! id = Some t ->
  (exists e, settles e = Some id /\ is_Some (exec API_KEY w e)) /\
  (forall e w', settles e = Some id -> step API_KEY w e w' ->
     awaits (pending w' !! id) < awaits (pending w !! id)).
Proof.
  intros Hw%inv_reachable Hid.
  destruct (inv_tasks _ Hw id t Hid) as (kd & Ht & _). split.
  - destruct t as [url k|r k].
    + exists (FetchSettles id (Rejected NetworkFailure)). simpl.
      by rewrite Hid.
    + exists (JsonSettles id). simpl. by rewrite Hid.
  - intros e w' He Hstep. rewrite Hid.
    destruct Hstep as [| | | | | |w id' url k o Hk|w id' r k Hk];
      simplify_eq/=; unfold resume; inversion Ht; subst.
    + rewrite list_on_fetch_run.
      destruct o; simpl; rewrite ?lookup_insert_eq, ?lookup_delete_eq; simpl; lia.
    + rewrite details_on_fetch_run.
      destruct o; simpl; rewrite ?lookup_insert_eq, ?lookup_delete_eq; simpl; lia.
    + rewrite list_on_json_run. simpl. rewrite lookup_delete_eq. simpl. lia.
    + rewrite details_on_json_run.
      destruct (json_outcome r); simpl; rewrite lookup_delete_eq; simpl; lia.
Qed.

End machine_props.

(** * The theorems on sample runs *)

(** [run_ok] proves that a closed run is possible, by evaluation. *)
Ltac run_ok := apply world_after_reachable; vm_compute; eexists; reflexivity.

Lemma loading_only_while_pending_witness :
  list_pending (pending (world_after "k" [PressPopular (num := Z)])).
Proof.
  apply (loading_only_while_pending "k"); [|vm_compute; reflexivity].
  run_ok.
Defined.

Lemma modal_shows_movie_witness :
  item_ok (selectedMovie (view (world_after "k"
    [PressPopular; FetchSettles 0 (answer_ok (list_body [batman; joker]));
     JsonSettles 0; PressMovie joker]))) = true.
Proof.
  apply (modal_shows_movie "k"); [|vm_compute; reflexivity].
  run_ok.
Defined.

Lemma no_unhandled_rejection_witness :
  unhandled (world_after "k"
    [PressPopular; FetchSettles 0 (answer_ok (list_body [batman]));
     JsonSettles 0; PressMovie batman; FetchSettles 1 answer_not_json;
     JsonSettles 1]) = [].
Proof.
  apply (no_unhandled_rejection "k").
  run_ok.
Defined.

Lemma error_is_fixed_message_witness :
  (error (view (world_after "k" [PressPopular; FetchSettles 0 answer_offline]))
     = EmptyString \/
   list_message
     (error (view (world_after "k"
        [PressPopular (num := Z); FetchSettles 0 answer_offline])))) /\
  Forall (fun l => l.1 = "Error fetching details:")
    (console (world_after "k"
       [PressPopular (num := Z); FetchSettles 0 answer_offline])).
Proof.
  apply (error_is_fixed_message "k").
  run_ok.
Defined.

Lemma lists_are_truthy_witness :
  truthy (movies (view (world_after "k"
    [PressPopular; FetchSettles 0 (answer_ok (list_body []));
     JsonSettles 0]))) = true /\
  truthy (downloadLinks (view (world_after "k"
    [PressPopular; FetchSettles 0 (answer_ok (list_body []));
     JsonSettles 0]))) = true.
Proof.
  apply (lists_are_truthy "k").
  run_ok.
Defined.

Lemma movies_may_be_no_array_witness :
  exists w : World Z, reachable "k" w /\ movies (view w) = VStr "oops" /\
    list_shown (view w) = true.
Proof. apply (movies_may_be_no_array "k" "oops"). discriminate. Defined.

Lemma pending_tasks_known_witness :
  (exists kd,
     task_of (TFetch (popular_url "k")
                (list_on_fetch (num := Z) "Failed to fetch popular movies")) kd /\
     kind_ok kd) /\
  0 < next_id (world_after "k" [PressPopular (num := Z)]).
Proof.
  apply (pending_tasks_known "k" (world_after "k" [PressPopular]) 0);
    [|vm_compute; reflexivity].
  run_ok.
Defined.

(** Two searches overlap and the answer to the first arrives last. *)
Lemma last_settled_wins_witness :
  list_cells (view (world_after "k"
    [ChangeText "batman"; PressSearch; ChangeText "joker"; PressSearch;
     FetchSettles 1 (answer_ok (list_body [joker])); JsonSettles 1;
     FetchSettles 0 (answer_ok (list_body [batman])); JsonSettles 0]))
    = (VArr [batman], false, EmptyString) /\
  query (view (world_after "k"
    [ChangeText "batman"; PressSearch; ChangeText "joker"; PressSearch;
     FetchSettles 1 (answer_ok (list_body [joker])); JsonSettles 1;
     FetchSettles 0 (answer_ok (list_body [batman])); JsonSettles 0]))
    = query (view (world_after "k"
    [ChangeText "batman"; PressSearch; ChangeText "joker"; PressSearch;
     FetchSettles 1 (answer_ok (list_body [joker])); JsonSettles 1;
     FetchSettles 0 (answer_ok (list_body [batman]))])).
Proof.
  eapply (last_settled_wins "k" _ 0 (Response 200 (Some (list_body [batman])))
    "Failed to fetch movies" (list_body [batman]) (VArr [batman]));
    [vm_compute; reflexivity..|].
  apply exec_Some_step. vm_compute. reflexivity.
Defined.

(** The details of Batman arrive while the modal shows Joker. *)
Lemma details_written_whatever_is_shown_witness :
  detail_cells (view (world_after "k"
    [PressPopular; FetchSettles 0 (answer_ok (list_body [batman; joker]));
     JsonSettles 0; PressMovie batman; PressClose; PressMovie joker;
     FetchSettles 1 (answer_ok batman_details); JsonSettles 1]))
    = (opt_get (video "Trailer" "y") "key",
       or_default (us_flatrate batman_details) (VArr [])) /\
  modal_cells (view (world_after "k"
    [PressPopular; FetchSettles 0 (answer_ok (list_body [batman; joker]));
     JsonSettles 0; PressMovie batman; PressClose; PressMovie joker;
     FetchSettles 1 (answer_ok batman_details); JsonSettles 1]))
    = modal_cells (view (world_after "k"
    [PressPopular; FetchSettles 0 (answer_ok (list_body [batman; joker]));
     JsonSettles 0; PressMovie batman; PressClose; PressMovie joker;
     FetchSettles 1 (answer_ok batman_details)])).
Proof.
  eapply (details_written_whatever_is_shown "k" _ 1
    (Response 200 (Some batman_details)) batman_details);
    [vm_compute; reflexivity..|].
  apply exec_Some_step. vm_compute. reflexivity.
Defined.

Lemma settlement_progress_witness :
  (exists e, settles e = Some 0 /\
     is_Some (exec "k" (world_after "k" [PressPopular (num := Z)]) e)) /\
  (forall e w', settles e = Some 0 ->
     step "k" (world_after "k" [PressPopular (num := Z)]) e w' ->
     awaits (pending w' !! 0) <
     awaits (pending (world_after "k" [PressPopular (num := Z)]) !! 0)).
Proof.
  eapply (settlement_progress "k"); [|vm_compute; reflexivity].
  run_ok.
Defined.
