(* ===== verification/Effects.v ===== *)
(** * Effects: what each event does to the world

    [Machine.step] runs programs: a gesture starts the program of its
    handler, a settlement resumes a continuation, and the world after
    the transition is whatever [Async.run] leaves.  This file gives
    the same transitions in closed form, one rule per event and per
    kind of handler, with the cells written and the entry of the table
    of pending handlers spelled out:

    - a press on Search, on Popular Movies or on an item of the list
      ([requested]) writes the cells of lines 20, 38 and 75-76 of
      src/App.js and suspends the handler on [fetch] under the next
      identifier;
    - the response of a request ([reading]) writes nothing and
      suspends the handler on [response.json()];
    - the end of a handler ([ended]), on a rejected request or when its
      body has been read, writes what [Controller.list_handler] or
      [Controller.details_handler] compute from the answer, and removes
      the handler from the table.

    An event is first resolved into an [act] ([resolves]): a gesture
    is its own act, a settlement is the act of the handler that it
    resumes, found in the table with its kind.  [guard] is what has to
    be on screen for the act and [perform] the world after it.
    [step_effect] states that [effect], which is the three together,
    and [Machine.step] are the same relation on the worlds of the
    invariant.  The files that reason about runs by cases on the event
    use [effect]. *)

From stdpp Require Import gmap.
From S2P Require Import Prelude JsValue Async ViewState Url Samples Render.
From S2P Require Import Controller Machine.

Open Scope string_scope.
Open Scope list_scope.

(** An event, resolved in a world: the gesture, or the handler that a
    settlement resumes with its kind and the answer it receives. *)
Inductive act (num : Type) : Type :=
| WriteQuery (text : string)                 (* line 143 *)
| StartSearch                                (* lines 18-24 *)
| StartPopular                               (* lines 37-42 *)
| OpenModal (item : value num)               (* lines 74-77 and 57 *)
| DismissModal                               (* line 167 *)
| CloseModal                                 (* line 189 *)
| Receive (id : nat) (kd : task_kind) (r : response num)
                                             (* lines 25, 43 and 60 *)
| Finish (id : nat) (kd : task_kind) (o : outcome (response num)).
                                   (* lines 26-33, 44-51 and 63-70 *)
Arguments WriteQuery {num} text.
Arguments StartSearch {num}.
Arguments StartPopular {num}.
Arguments OpenModal {num} item.
Arguments DismissModal {num}.
Arguments CloseModal {num}.
Arguments Receive {num} id kd r.
Arguments Finish {num} id kd o.

Section effects.
Context {num : Type} `{!JsNumber num}.
Variable API_KEY : string.
Implicit Types (w : World num) (s : ViewState num) (e : event num)
  (t : task num) (item : value num) (id : nat) (kd : task_kind)
  (r : response num) (c : list log_entry).

(** A segment that writes cells and suspends nothing. *)
Definition with_view s w : World num :=
  mkWorld s (console w) (pending w) (next_id w) (unhandled w).

(** A segment that writes cells and suspends its handler on
    [fetch(url)]. *)
Definition requested s (url : string)
    (k : outcome (response num) -> prog num (ViewState num) unit) w
  : World num :=
  mkWorld s (console w) (<[next_id w := TFetch url k]> (pending w))
    (S (next_id w)) (unhandled w).

(** The response [r] arrived: the handler [id] awaits its body. *)
Definition reading id r
    (k : outcome (value num) -> prog num (ViewState num) unit) w
  : World num :=
  mkWorld (view w) (console w) (<[id := TJson r k]> (delete id (pending w)))
    (next_id w) (unhandled w).

(** The handler [id] came to its end. *)
Definition completed id s c w : World num :=
  mkWorld s c (delete id (pending w)) (next_id w) (unhandled w).

(** What is left of a handler of the kind [kd] after [fetch]. *)
Definition on_json kd : outcome (value num) -> prog num (ViewState num) unit :=
  match kd with
  | ListTask msg => list_on_json msg
  | DetailsTask => details_on_json
  end.

(** The end of a handler of the kind [kd] whose request was answered
    by [o]: lines 26-33 and 44-51 for a list request, lines 63-70 for a
    detail request. *)
Definition ended kd (o : outcome (response num)) id w : World num :=
  match kd with
  | ListTask msg => completed id (list_handler msg o (view w)) (console w) w
  | DetailsTask =>
      completed id (details_handler o (view w)).1
        (details_console (details_handler o (view w)).2 (console w)) w
  end.

Inductive resolves w : event num -> act num -> Prop :=
| resolves_change_text text : resolves w (ChangeText text) (WriteQuery text)
| resolves_search : resolves w PressSearch StartSearch
| resolves_popular : resolves w PressPopular StartPopular
| resolves_open item : resolves w (PressMovie item) (OpenModal item)
| resolves_request_close : resolves w RequestClose DismissModal
| resolves_close : resolves w PressClose CloseModal
| resolves_response id url k kd r :
    pending w !! id = Some (TFetch url k) -> task_of (TFetch url k) kd ->
    resolves w (FetchSettles id (Resolved r)) (Receive id kd r)
| resolves_rejection id url k kd err :
    pending w !! id = Some (TFetch url k) -> task_of (TFetch url k) kd ->
    resolves w (FetchSettles id (Rejected err)) (Finish id kd (Rejected err))
| resolves_body id r k kd :
    pending w !! id = Some (TJson r k) -> task_of (TJson r k) kd ->
    resolves w (JsonSettles id) (Finish id kd (Resolved r)).

(** What has to be on screen for a gesture. *)
Definition guard (a : act num) w : bool :=
  match a with
  | OpenModal item => pressable item (view w)
  | DismissModal => modalVisible (view w)
  | CloseModal => close_shown (view w)
  | _ => true
  end.

(** The world after the segment. *)
Definition perform (a : act num) w : World num :=
  match a with
  | WriteQuery text => with_view (setQuery text (view w)) w
  | StartSearch =>
      if decide (query (view w) = EmptyString) then w
      else requested (setLoading true (view w))
             (search_url API_KEY (query (view w)))
             (list_on_fetch "Failed to fetch movies") w
  | StartPopular =>
      requested (setLoading true (view w)) (popular_url API_KEY)
        (list_on_fetch "Failed to fetch popular movies") w
  | OpenModal item =>
      requested (setModalVisible true (setSelectedMovie item (view w)))
        (details_url_of API_KEY (to_string (opt_get item "id")))
        details_on_fetch w
  | DismissModal | CloseModal =>
      with_view (setModalVisible false (view w)) w
  | Receive id kd r => reading id r (on_json kd) w
  | Finish id kd o => ended kd o id w
  end.

(** The request that an act starts. *)
Definition request_of (a : act num) w : option (task num) :=
  match a with
  | StartSearch =>
      if decide (query (view w) = EmptyString) then None
      else Some (TFetch (search_url API_KEY (query (view w)))
                   (list_on_fetch "Failed to fetch movies"))
  | StartPopular =>
      Some (TFetch (popular_url API_KEY)
              (list_on_fetch "Failed to fetch popular movies"))
  | OpenModal item =>
      Some (TFetch (details_url_of API_KEY (to_string (opt_get item "id")))
              details_on_fetch)
  | _ => None
  end.

Definition effect w e w' : Prop :=
  exists a, resolves w e a /\ guard a w = true /\ w' = perform a w.

End effects.

(** * Properties *)

Section effects_props.
Context {num : Type} `{!JsNumber num}.
Variable API_KEY : string.
Implicit Types (w : World num) (s : ViewState num) (e : event num)
  (t : task num) (item : value num) (id : nat) (kd : task_kind)
  (r : response num) (c : list log_entry).

Lemma with_view_same w : with_view (view w) w = w.
Proof. by destruct w. Qed.

(** ** The segments *)

Lemma start_list_request url msg w :
  start (list_request url msg) w =
  requested (setLoading true (view w)) url (list_on_fetch msg) w.
Proof. reflexivity. Qed.

Lemma start_searchMovies w :
  start (searchMovies API_KEY (query (view w))) w =
  if decide (query (view w) = EmptyString) then w
  else requested (setLoading true (view w))
         (search_url API_KEY (query (view w)))
         (list_on_fetch "Failed to fetch movies") w.
Proof.
  rewrite searchMovies_unfold. simpl.
  destruct (decide (query (view w) = EmptyString)) as [Hq|Hq].
  - rewrite bool_decide_false by (by intros []). simpl. by destruct w.
  - by rewrite bool_decide_true.
Qed.

Lemma start_openMovieModal item w :
  item_ok item = true ->
  start (openMovieModal API_KEY item) w =
  requested (setModalVisible true (setSelectedMovie item (view w)))
    (details_url_of API_KEY (to_string (opt_get item "id")))
    details_on_fetch w.
Proof. intros Hok. unfold start. by rewrite openMovieModal_pressed. Qed.

(** The body is read by [details_handler] as the response is. *)
Lemma details_handler_body r s :
  details_handler (Resolved r) s =
  match json_outcome r with
  | Resolved data => details_handler (Resolved (Response 200 (Some data))) s
  | Rejected err => (s, Some err)
  end.
Proof. by destruct r as [st [data|]]. Qed.

Lemma list_handler_body msg r s :
  list_handler msg (Resolved r) s =
  setLoading false
    match list_result (match json_outcome r with
                       | Resolved data => Resolved (Response 200 (Some data))
                       | Rejected err => Rejected err
                       end) with
    | NewList results => setError EmptyString (setMovies results s)
    | NoChange => s
    | Caught _ => setError msg s
    end.
Proof.
  rewrite list_result_json_outcome. unfold list_handler.
  by destruct (list_result (Resolved r)).
Qed.

(** The continuation of a handler after [fetch]. *)
Lemma resume_on_fetch id url k kd o w :
  task_of (TFetch url k) kd ->
  resume id (k o) w =
  match o with
  | Resolved r => reading id r (on_json kd) w
  | Rejected err => ended kd (Rejected err) id w
  end.
Proof.
  intros Ht. unfold resume. inversion Ht; subst.
  - rewrite list_on_fetch_run. by destruct o.
  - rewrite details_on_fetch_run. by destruct o.
Qed.

(** The continuation of a handler after [response.json()]. *)
Lemma resume_on_json id r k kd w :
  task_of (TJson r k) kd ->
  resume id (k (json_outcome r)) w = ended kd (Resolved r) id w.
Proof.
  intros Ht. unfold resume. inversion Ht; subst.
  - rewrite list_on_json_run. simpl. by rewrite list_handler_body.
  - rewrite details_on_json_run. unfold ended.
    rewrite details_handler_body. by destruct (json_outcome r).
Qed.

(** ** The two relations *)

Lemma resolves_functional w e a a' :
  resolves w e a -> resolves w e a' -> a = a'.
Proof.
  destruct 1; inversion 1; simplify_eq; try done;
    f_equal; by eapply task_of_functional.
Qed.

Lemma step_to_effect w e w' :
  tasks_known (pending w) -> step API_KEY w e w' -> effect API_KEY w e w'.
Proof.
  intros Hw Hstep.
  destruct Hstep as [w text|w|w|w item Hp|w Hm|w Hc|w id url k o Hid
                    |w id r k Hid].
  - by exists (WriteQuery text); split_and!; [constructor|..].
  - exists StartSearch; split_and!; [constructor|done|].
    apply start_searchMovies.
  - by exists StartPopular; split_and!; [constructor|..].
  - exists (OpenModal item); split_and!; [constructor|done|].
    apply start_openMovieModal. by eapply pressable_item_ok.
  - by exists DismissModal; split_and!; [constructor|..].
  - by exists CloseModal; split_and!; [constructor|..].
  - destruct (Hw id _ Hid) as (kd & Ht & _).
    rewrite (resume_on_fetch _ _ _ _ _ _ Ht). destruct o as [r|err].
    + by exists (Receive id kd r); split_and!; [econstructor|..].
    + by exists (Finish id kd (Rejected err)); split_and!; [econstructor|..].
  - destruct (Hw id _ Hid) as (kd & Ht & _).
    rewrite (resume_on_json _ _ _ _ _ Ht).
    by exists (Finish id kd (Resolved r)); split_and!; [econstructor|..].
Qed.

Lemma effect_to_step w e w' : effect API_KEY w e w' -> step API_KEY w e w'.
Proof.
  intros (a & Hres & Hg & ->). apply exec_step.
  destruct Hres as [text| | |item| | |id url k kd r Hid Ht
                   |id url k kd err Hid Ht|id r k kd Hid Ht]; simpl in *.
  - done.
  - by rewrite start_searchMovies.
  - done.
  - rewrite Hg, start_openMovieModal; [done|by eapply pressable_item_ok].
  - by rewrite Hg.
  - by rewrite Hg.
  - by rewrite Hid, (resume_on_fetch _ _ _ _ _ _ Ht).
  - by rewrite Hid, (resume_on_fetch _ _ _ _ _ _ Ht).
  - by rewrite Hid, (resume_on_json _ _ _ _ _ Ht).
Qed.

(** A request in flight after an act was in flight before, or is the
    request that the act started, under the next identifier. *)
Lemma perform_fetch a w id url k :
  pending (perform API_KEY a w) !! id = Some (TFetch url k) ->
  pending w !! id = Some (TFetch url k) \/
  (id = next_id w /\ request_of API_KEY a w = Some (TFetch url k)).
Proof.
  destruct a as [| | | | | |id' kd r|id' [] o]; simpl; try by left.
  - case_decide; [by left|]. simpl.
    intros [[<- <-]|[_ ?]]%lookup_insert_Some; [by right|by left].
  - intros [[<- <-]|[_ ?]]%lookup_insert_Some; [by right|by left].
  - intros [[<- <-]|[_ ?]]%lookup_insert_Some; [by right|by left].
  - intros [[_ [=]]|[_ [_ ?]%lookup_delete_Some]]%lookup_insert_Some.
    by left.
  - intros [_ ?]%lookup_delete_Some. by left.
  - intros [_ ?]%lookup_delete_Some. by left.
Qed.

Lemma step_iff_effect w e w' :
  inv w -> step API_KEY w e w' <-> effect API_KEY w e w'.
Proof.
  intros Hw. split; [apply step_to_effect, (inv_tasks _ Hw)|apply effect_to_step].
Qed.

(** ** Theorems *)

(** C14. The machine that runs the programs of the handlers and the
    transitions in closed form are the same relation on the worlds of
    the invariant: an event leads from a world to another by
    [Machine.step] exactly when it resolves to an act whose guard holds
    and whose effect is the other world. *)
Theorem step_effect w e w' :
  inv w -> step API_KEY w e w' <-> effect API_KEY w e w'.
Proof. apply step_iff_effect. Qed.

End effects_props.

(** * On a sample run *)

Lemma step_effect_witness :
  step "k" (world_after "k" [ChangeText "bat"]) PressSearch
    (world_after "k" [ChangeText "bat"; PressSearch]) <->
  effect "k" (world_after "k" [ChangeText "bat"]) PressSearch
    (world_after "k" [ChangeText "bat"; PressSearch]).
Proof.
  apply (step_effect "k" (world_after "k" [ChangeText "bat"])).
  apply inv_reachable with "k", world_after_reachable.
  by eexists; vm_compute.
Defined.
