(* ===== verification/Screen.v ===== *)
(** * Screen: the application as its screen drives it

    [Machine.step] says which gesture is possible in which state by
    conditions on the state cells.  Here the same is derived from the
    rendered tree: a gesture is possible when [Render.render] returns a
    tree and the handler of the gesture is attached to an element on
    screen; the program that runs is the one that the handler names
    ([handler_prog]).  [app_step] is that transition relation.

    The theorems relate the two: every transition of [app_step] is a
    transition of [Machine.step] ([app_step_step]), so the invariants of
    [Machine] hold of the application; the converse holds in every state
    that can be rendered ([step_app_step]).  The states that cannot be
    rendered are reachable ([bad_item_reachable],
    [bad_providers_reachable]): there the screen is gone and only the
    pending requests go on.

    The last part follows the details of a movie from the answer of the
    catalogue to the elements of the modal. *)

From stdpp Require Import gmap.
From S2P Require Import Prelude JsValue Async ViewState Url Styles Samples.
From S2P Require Import Render Controller Machine.

Open Scope string_scope.
Open Scope list_scope.

(** A run for the examples: the popular list is answered and Batman
    is opened; the request for its details is pending. *)
Definition batman_pressed : list (event Z) :=
  [PressPopular; FetchSettles 0 (answer_ok (list_body [batman; joker]));
   JsonSettles 0; PressMovie batman].

Section screen.
Context {num : Type} `{!JsNumber num} `{!JsDate num}.
Variable API_KEY : string.
Implicit Types (w : World num) (s : ViewState num) (e : event num)
  (h : handler num) (item : value num).

(** The handler that a gesture fires; a settlement is no gesture. *)
Definition gesture_handler e : option (handler num) :=
  match e with
  | ChangeText _ => Some OnChangeText
  | PressSearch => Some OnSearchMovies
  | PressPopular => Some OnFetchPopularMovies
  | PressMovie item => Some (OnOpenMovieModal item)
  | RequestClose => Some OnRequestClose
  | PressClose => Some OnClose
  | FetchSettles _ _ | JsonSettles _ => None
  end.

(** The text that a gesture carries. *)
Definition event_text e : string :=
  match e with
  | ChangeText text => text
  | _ => EmptyString
  end.

(** The program that a handler runs, in the state [s] of the render
    that created it, on the text [text] for the text input.  Opening a
    link changes nothing in the application. *)
Definition handler_prog h (text : string) s : prog num (ViewState num) unit :=
  match h with
  | OnChangeText => onChangeText text
  | OnSearchMovies => searchMovies API_KEY (query s)
  | OnFetchPopularMovies => fetchPopularMovies API_KEY
  | OnOpenMovieModal item => openMovieModal API_KEY item
  | OnRequestClose | OnClose => closeModal
  | OnOpenURL _ => Ret tt
  end.

(** The handlers that the screen offers in the state [s]: none when the
    render throws. *)
Definition offered s : list (handler num) :=
  match render s with
  | Ok tree => handlers tree
  | Err _ => []
  end.

Inductive app_step : World num -> event num -> World num -> Prop :=
| app_gesture w e h :
    gesture_handler e = Some h -> h ∈ offered (view w) ->
    app_step w e (start (handler_prog h (event_text e) (view w)) w)
| app_fetch_settles w id url k o :
    pending w !! id = Some (TFetch url k) ->
    app_step w (FetchSettles id o) (resume id (k o) w)
| app_json_settles w id r k :
    pending w !! id = Some (TJson r k) ->
    app_step w (JsonSettles id) (resume id (k (json_outcome r)) w).

Inductive app_reachable : World num -> Prop :=
| app_reachable_initial : app_reachable initial_world
| app_reachable_step w e w' :
    app_reachable w -> app_step w e w' -> app_reachable w'.

(** [app_step] as a function. *)
Definition app_exec w e : option (World num) :=
  match gesture_handler e with
  | Some h =>
      if bool_decide (h ∈ offered (view w))
      then Some (start (handler_prog h (event_text e) (view w)) w)
      else None
  | None => exec API_KEY w e
  end.

Fixpoint app_exec_all w (es : list (event num)) : option (World num) :=
  match es with
  | [] => Some w
  | e :: es' => w' ← app_exec w e; app_exec_all w' es'
  end.

(** The state after the answer [o] to the detail request. *)
Definition after_details (o : outcome (response num)) s : ViewState num :=
  (details_handler o s).1.

End screen.

(** * Properties *)

Section screen_props.
Context {num : Type} `{!JsNumber num} `{!JsDate num}.
Variable API_KEY : string.
Implicit Types (w : World num) (s : ViewState num) (e : event num)
  (h : handler num) (item : value num).

(** ** What the screen offers *)

Lemma offered_Ok s :
  is_Ok (render s) = true -> offered s = screen_handlers s.
Proof.
  unfold offered. destruct (render s) as [tree|] eqn:Hr; [intros _|done].
  apply render_inv in Hr as (list & body & Hl & Hb & ->).
  by apply screen_handlers_eq.
Qed.

Lemma offered_Err s : is_Ok (render s) = false -> offered s = [].
Proof. unfold offered. by destruct (render s). Qed.

Lemma offered_is_Ok s h : h ∈ offered s -> is_Ok (render s) = true.
Proof.
  destruct (is_Ok (render s)) eqn:Hr; [done|].
  rewrite (offered_Err _ Hr). by intros ?%elem_of_nil.
Qed.

Lemma open_movie_offered s item :
  OnOpenMovieModal item ∈ screen_handlers s <->
  list_shown s = true /\ exists l, movies s = VArr l /\ item ∈ l.
Proof.
  unfold screen_handlers, movie_handlers, modal_handlers, body_handlers,
    trailer_handlers, provider_handlers, list_shown.
  destruct (loading s), (truthy (VStr (error s))); simpl;
    repeat case_match; set_solver.
Qed.

Lemma request_close_offered s :
  OnRequestClose ∈ screen_handlers s <-> modalVisible s = true.
Proof.
  unfold screen_handlers, movie_handlers, modal_handlers, body_handlers,
    trailer_handlers, provider_handlers.
  repeat case_match; set_solver.
Qed.

Lemma close_offered s :
  OnClose ∈ screen_handlers s <-> close_shown s = true.
Proof.
  unfold screen_handlers, movie_handlers, modal_handlers, body_handlers,
    trailer_handlers, provider_handlers, close_shown.
  repeat case_match; set_solver.
Qed.

(** The items of a list that is on screen can be rendered. *)
Lemma shown_items_ok s l item :
  is_Ok (render s) = true -> list_shown s = true -> movies s = VArr l ->
  item ∈ l -> item_ok item = true.
Proof.
  unfold list_shown.
  intros Hr [Hl%negb_true_iff He%negb_true_iff]%andb_prop Hm Hi.
  rewrite render_is_Ok, list_region_is_Ok, Hl, He, Hm in Hr.
  apply andb_prop in Hr as [Hr%forallb_Forall _].
  rewrite Forall_forall in Hr. auto.
Qed.

(** ** The screen and the machine *)

(** A gesture on a handler that is on screen satisfies the condition of
    its rule of [Machine.step] and runs the same program. *)
Lemma gesture_step w e h :
  gesture_handler e = Some h -> h ∈ offered (view w) ->
  step API_KEY w e (start (handler_prog API_KEY h (event_text e) (view w)) w).
Proof.
  intros Hh Hin.
  pose proof (offered_is_Ok _ _ Hin) as Hr. rewrite offered_Ok in Hin by done.
  destruct e; simplify_eq/=; constructor.
  - apply open_movie_offered in Hin as (Hs & l & Hm & Hi).
    unfold pressable. rewrite Hs, Hm, bool_decide_true by done.
    by rewrite (shown_items_ok (view w) l item).
  - by apply request_close_offered.
  - by apply close_offered.
Qed.

(** A transition that the screen offers is a transition of the
    machine. *)
Lemma offered_step w e w' : app_step API_KEY w e w' -> step API_KEY w e w'.
Proof.
  destruct 1 as [w e h Hh Hin| |]; [by apply gesture_step|by econstructor..].
Qed.

(** C3. Every transition of the application as its screen drives it is a
    transition of the machine: a gesture on a handler that is on screen
    satisfies the condition of its rule of [Machine.step] and runs the
    same program.  The invariants of the machine therefore hold of the
    application. *)
Theorem app_step_step w e w' :
  app_step API_KEY w e w' -> step API_KEY w e w'.
Proof. apply offered_step. Qed.

(** In a state that can be rendered the conditions of [Machine.step]
    are those under which the handler is on screen. *)
Lemma rendered_step_app_step w e w' :
  is_Ok (render (view w)) = true ->
  step API_KEY w e w' -> app_step API_KEY w e w'.
Proof.
  intros Hr%offered_Ok.
  destruct 1 as [w text|w|w|w item Hp|w Hv|w Hc| |];
    [..|by econstructor|by econstructor].
  - apply (app_gesture _ w (ChangeText text) OnChangeText); [done|].
    rewrite Hr. set_solver.
  - apply (app_gesture _ w PressSearch OnSearchMovies); [done|].
    rewrite Hr. set_solver.
  - apply (app_gesture _ w PressPopular OnFetchPopularMovies); [done|].
    rewrite Hr. set_solver.
  - apply (app_gesture _ w (PressMovie item) (OnOpenMovieModal item)); [done|].
    rewrite Hr. apply open_movie_offered. unfold pressable in Hp.
    apply andb_prop in Hp as [[Hs _]%andb_prop Hm]. split; [done|].
    destruct (movies (view w)); try done. eexists; split; [done|].
    by apply bool_decide_eq_true in Hm.
  - apply (app_gesture _ w RequestClose OnRequestClose); [done|].
    rewrite Hr. by apply request_close_offered.
  - apply (app_gesture _ w PressClose OnClose); [done|].
    rewrite Hr. by apply close_offered.
Qed.

(** Conversely, in a state that can be rendered, every transition of
    the machine is a transition of the application: the conditions of
    [Machine.step] are exactly those under which the handler is on
    screen. *)
Theorem step_app_step w e w' :
  is_Ok (render (view w)) = true ->
  step API_KEY w e w' -> app_step API_KEY w e w'.
Proof. apply rendered_step_app_step. Qed.

Lemma app_reachable_reachable w :
  app_reachable API_KEY w -> reachable API_KEY w.
Proof.
  induction 1 as [|w e w' _ IH Hstep]; [constructor|].
  econstructor; [done|]. by apply offered_step.
Qed.

(** The invariants of the machine hold of the application: whatever
    the screen let the user do, [loading] is on only while a list
    request is pending, a visible modal has a movie that was rendered,
    and no promise was rejected without a handler. *)
Theorem app_invariants w :
  app_reachable API_KEY w ->
  (loading (view w) = true -> list_pending (pending w)) /\
  (modalVisible (view w) = true ->
   item_ok (selectedMovie (view w)) = true) /\
  unhandled w = [].
Proof.
  intros Hw%app_reachable_reachable%inv_reachable. split_and!.
  - by apply inv_loading.
  - by apply ok_modal, inv_view.
  - by apply inv_unhandled.
Qed.

Lemma app_exec_app_step w e w' :
  app_exec API_KEY w e = Some w' <-> app_step API_KEY w e w'.
Proof.
  unfold app_exec. split.
  - destruct (gesture_handler e) as [h|] eqn:Hh.
    + case_bool_decide; [|done]. intros [= <-]. by constructor.
    + intros Hstep%exec_Some_step. by destruct Hstep; try done; econstructor.
  - destruct 1 as [w e h -> Hin|w id url k o Hid|w id r k Hid]; simpl.
    + by rewrite bool_decide_true.
    + by rewrite Hid.
    + by rewrite Hid.
Qed.

Lemma app_exec_all_reachable w es w' :
  app_reachable API_KEY w -> app_exec_all API_KEY w es = Some w' ->
  app_reachable API_KEY w'.
Proof.
  revert w. induction es as [|e es IH]; intros w Hw; simpl.
  - by intros [= <-].
  - destruct (app_exec API_KEY w e) as [w1|] eqn:He; simpl; [|done].
    apply IH. econstructor; [done|]. by apply app_exec_app_step.
Qed.

(** When the render throws the screen offers nothing: the only
    transitions left are the settlements of the pending requests. *)
Theorem no_gesture_without_screen w e w' :
  is_Ok (render (view w)) = false -> app_step API_KEY w e w' ->
  gesture_handler e = None.
Proof.
  intros Hr. destruct 1 as [w e h _ Hin| |]; [|done..].
  rewrite offered_Err in Hin by done. by apply elem_of_nil in Hin.
Qed.

(** ** From the answer of the catalogue to the modal *)

Lemma after_details_ok st data trailer s :
  find_trailer data = Ok trailer ->
  after_details (Resolved (Response st (Some data))) s =
  setDownloadLinks (or_default (us_flatrate data) (VArr []))
    (setTrailerUrl (opt_get trailer "key") s).
Proof. intros Hf. unfold after_details. by rewrite (details_handler_ok _ _ trailer). Qed.

(** When the videos of the answer hold no trailer, the modal shows
    the placeholder "No trailer available", whatever trailer was shown
    before. *)
Theorem no_trailer_placeholder st data s :
  find_trailer data = Ok VUndefined ->
  renderTrailerSection (after_details (Resolved (Response st (Some data))) s)
  = Ok (Text "noTrailer" [text "No trailer available"]).
Proof.
  intros Hf. apply renderTrailerSection_placeholder.
  by rewrite (after_details_ok _ _ _ _ Hf).
Qed.

(** When the answer holds a trailer whose [key] is a text that is
    not empty, the modal embeds the video of that key and links to its
    page. *)
Theorem trailer_embedded st data trailer key s :
  find_trailer data = Ok trailer -> opt_get trailer "key" = VStr key ->
  key <> EmptyString ->
  renderTrailerSection (after_details (Resolved (Response st (Some data))) s)
  = Ok (View "trailerContainer"
          [WebView "trailerVideo" true
             ("https://www.youtube.com/embed/" +:+ key);
           Button "Watch Full Trailer on YouTube"
             (OnOpenURL (Ok ("https://www.youtube.com/watch?v=" +:+ key)))]).
Proof.
  intros Hf Hk Hne. rewrite (after_details_ok _ _ _ _ Hf).
  unfold renderTrailerSection. simpl. rewrite Hk. simpl.
  by rewrite bool_decide_true.
Qed.

(** When [flatrate] of the region US is an array of providers, the
    modal lists one button per provider, in the order of the answer,
    and nothing when the array is empty or the region is absent. *)
Theorem providers_rendered st data trailer l s :
  find_trailer data = Ok trailer ->
  or_default (us_flatrate data) (VArr []) = VArr l ->
  forallb provider_ok l = true ->
  let s' := after_details (Resolved (Response st (Some data))) s in
  renderDownloadOptions s' =
  Ok (match l with
      | [] => Child VNull
      | _ =>
          View "downloadSection"
            [Text "sectionTitle" [text "Available On:"];
             Fragment (provider_button s' <$> l)]
      end).
Proof.
  intros Hf Hl Hok. cbv zeta.
  apply renderDownloadOptions_array; [|done].
  by rewrite (after_details_ok _ _ _ _ Hf).
Qed.

(** ** States that cannot be rendered *)

(** C36. A list answered with a [null] among the movies is stored as it
    is; the next render throws on it, in [keyExtractor]. *)
Theorem bad_item_reachable :
  exists w, app_reachable API_KEY w /\ render (view w) = Err NullAccess.
Proof.
  eexists. split.
  - eapply (app_exec_all_reachable initial_world
      [PressPopular;
       FetchSettles 0
         (Resolved (Response 200 (Some (VObj [("results", VArr [VNull])]))));
       JsonSettles 0]); [constructor|reflexivity].
  - reflexivity.
Qed.

End screen_props.

(** * On sample answers *)

(** A detail answer whose [flatrate] is a text is stored as it is
    ([||] only replaces falsy values); the next render throws on it, in
    [renderDownloadOptions], and the whole screen is lost with it. *)
Theorem bad_providers_reachable :
  exists w : World Z, app_reachable "k" w /\
    modal_cells (view w) = (batman, true) /\
    downloadLinks (view w) = VStr "Netflix" /\
    render (view w) = Err NotCallable.
Proof.
  eexists. split.
  - eapply (app_exec_all_reachable "k" initial_world
      [PressPopular; FetchSettles 0 (answer_ok (list_body [batman]));
       JsonSettles 0; PressMovie batman;
       FetchSettles 1 (answer_ok text_providers); JsonSettles 1]);
      [constructor|vm_compute; reflexivity].
  - by vm_compute.
Qed.

Lemma app_step_step_witness :
  step "k" (world_after "k" [PressPopular (num := Z)]) PressPopular
    (start (fetchPopularMovies "k") (world_after "k" [PressPopular])).
Proof.
  apply app_step_step.
  apply (app_gesture "k" (world_after "k" [PressPopular]) PressPopular
           OnFetchPopularMovies); [reflexivity|compute_done].
Defined.

Lemma step_app_step_witness :
  app_step "k" (world_after "k" batman_pressed) PressClose
    (start closeModal (world_after "k" batman_pressed)).
Proof.
  apply step_app_step; [vm_compute; reflexivity|].
  apply exec_Some_step. vm_compute. reflexivity.
Defined.

Lemma app_invariants_witness :
  (loading (view (world_after "k" [PressPopular (num := Z)])) = true ->
   list_pending (pending (world_after "k" [PressPopular (num := Z)]))) /\
  (modalVisible (view (world_after "k" [PressPopular (num := Z)])) = true ->
   item_ok (selectedMovie (view (world_after "k" [PressPopular]))) = true) /\
  unhandled (world_after "k" [PressPopular (num := Z)]) = [].
Proof.
  apply (app_invariants "k").
  eapply (app_exec_all_reachable "k" initial_world [PressPopular]);
    [constructor|vm_compute; reflexivity].
Defined.

(** The list holds a [null]: the screen is gone, the request for the
    popular list that was pending can still settle. *)
Lemma no_gesture_without_screen_witness :
  gesture_handler
    (FetchSettles (num := Z) 1 (answer_ok (list_body [batman]))) = None.
Proof.
  eapply (no_gesture_without_screen "k"
    (world_after "k"
       [PressPopular; PressPopular;
        FetchSettles 0 (answer_ok (list_body [VNull])); JsonSettles 0]));
    [vm_compute; reflexivity|].
  apply app_exec_app_step. vm_compute. reflexivity.
Defined.

Lemma no_trailer_placeholder_witness :
  renderTrailerSection
    (after_details (answer_ok joker_details) batman_open)
  = Ok (Text "noTrailer" [text "No trailer available"]).
Proof. apply (no_trailer_placeholder 200 joker_details). reflexivity. Defined.

Lemma trailer_embedded_witness :
  renderTrailerSection (after_details (answer_ok batman_details) initial)
  = Ok (View "trailerContainer"
          [WebView "trailerVideo" true "https://www.youtube.com/embed/y";
           Button "Watch Full Trailer on YouTube"
             (OnOpenURL (Ok "https://www.youtube.com/watch?v=y"))]).
Proof.
  apply (trailer_embedded 200 batman_details (video "Trailer" "y") "y");
    [reflexivity..|discriminate].
Defined.

Lemma providers_rendered_witness :
  let s' := after_details (answer_ok batman_details) batman_open in
  renderDownloadOptions s' =
  Ok (View "downloadSection"
        [Text "sectionTitle" [text "Available On:"];
         Fragment (provider_button s' <$> [provider 8 "Netflix"])]).
Proof.
  apply (providers_rendered 200 batman_details (video "Trailer" "y")
           [provider 8 "Netflix"] batman_open); reflexivity.
Defined.
