(* ===== verification/Typed.v ===== *)
(** * Typed: the application on answers of the expected shape

    The handlers store what the catalogue answers without looking at
    its shape, and the render functions throw on some shapes
    ([Screen.bad_item_reachable], [Screen.bad_providers_reachable]).
    This file states the shape that is enough: an answer to a list
    request fits when its [results], if truthy, is an array of items
    with an [id] and a poster path that have a text; an answer to a
    detail request fits when its provider list is an array of objects
    whose logo path has a text, and so has the key of its trailer.
    Nothing is asked of an answer that fails, of the status, or of the
    other fields.

    [typed_step] is [Machine.step] with answers that fit the request
    they settle, whatever their order.  Its invariant is that the state
    is [Render.shaped]: the screen renders in every world, so the
    machine and the application coincide ([typed_app_step]).
    [answers_fit] and [bodies_fit] state of any predicate on answers
    that the answers delivered, and the bodies still to be read,
    satisfy it ([bodies_fit_step]); [Schema] uses them for the
    documented schema. *)

From stdpp Require Import gmap.
From S2P Require Import Prelude JsValue Async ViewState Url Styles Samples.
From S2P Require Import Render Controller Machine Screen.

Open Scope string_scope.
Open Scope list_scope.

Section typed.
Context {num : Type} `{!JsNumber num} `{!JsDate num}.
Variable API_KEY : string.
Implicit Types (w : World num) (s : ViewState num) (e : event num)
  (o : outcome (response num)) (t : task num) (kd : task_kind).

(** The answers to a list request that fit. *)
Definition list_answer_ok o : bool :=
  match list_result o with
  | NewList results => items_ok results
  | NoChange | Caught _ => true
  end.

(** The answers to a detail request that fit. *)
Definition details_answer_ok o : bool :=
  match o with
  | Resolved r =>
      match body r with
      | Some data =>
          match find_trailer data with
          | Ok trailer =>
              providers_ok (or_default (us_flatrate data) (VArr [])) &&
              printable (opt_get trailer "key")
          | Err _ => true
          end
      | None => true
      end
  | Rejected _ => true
  end.

Definition answer_fits kd o : bool :=
  match kd with
  | ListTask _ => list_answer_ok o
  | DetailsTask => details_answer_ok o
  end.

(** The lists of the state: the cells that hold arrays of the
    catalogue. *)
Definition lists s : value num * value num := (movies s, downloadLinks s).

(** The cells that the render functions read values of the catalogue
    from, and the shape they expect of them ([Render.shaped]). *)
Definition shape_cells s : value num * value num * value num * value num :=
  (movies s, downloadLinks s, trailerUrl s, selectedMovie s).

Definition cells_ok (c : value num * value num * value num * value num)
  : bool :=
  items_ok c.1.1.1 && providers_ok c.1.1.2 && printable c.1.2 &&
  selected_ok c.2.

(** The answer of [fetch] that an event delivers satisfies [P] for the
    request it settles; so does every body that is still to be read. *)
Definition answers_fit (P : task_kind -> outcome (response num) -> bool)
    w e : Prop :=
  forall id o t kd,
    e = FetchSettles id o -> pending w !! id = Some t -> task_of t kd ->
    P kd o = true.

Definition bodies_fit (P : task_kind -> outcome (response num) -> bool)
    w : Prop :=
  forall id r k kd,
    pending w !! id = Some (TJson r k) -> task_of (TJson r k) kd ->
    P kd (Resolved r) = true.

(** The worlds that the machine reaches on answers that satisfy [P]. *)
Inductive fit_reachable (P : task_kind -> outcome (response num) -> bool)
  : World num -> Prop :=
| fit_reachable_initial : fit_reachable P initial_world
| fit_reachable_step w e w' :
    fit_reachable P w -> step API_KEY w e w' -> answers_fit P w e ->
    fit_reachable P w'.

Inductive typed_step : World num -> event num -> World num -> Prop :=
| typed_gesture w e w' :
    settles e = None -> step API_KEY w e w' -> typed_step w e w'
| typed_fetch_settles w id o t kd w' :
    pending w !! id = Some t -> task_of t kd -> answer_fits kd o = true ->
    step API_KEY w (FetchSettles id o) w' ->
    typed_step w (FetchSettles id o) w'
| typed_json_settles w id w' :
    step API_KEY w (JsonSettles id) w' -> typed_step w (JsonSettles id) w'.

Inductive typed_reachable : World num -> Prop :=
| typed_reachable_initial : typed_reachable initial_world
| typed_reachable_step w e w' :
    typed_reachable w -> typed_step w e w' -> typed_reachable w'.

(** The invariant: the state has the shape that the render functions
    expect, and so has every body that is still to be read. *)
Record typed_inv w : Prop := mkTypedInv {
  typed_shaped : shaped (view w) = true;
  typed_bodies : bodies_fit answer_fits w;
}.

End typed.

(** * Properties *)

Section typed_props.
Context {num : Type} `{!JsNumber num} `{!JsDate num}.
Variable API_KEY : string.
Implicit Types (w : World num) (s : ViewState num) (e : event num)
  (o : outcome (response num)) (t : task num) (kd : task_kind)
  (id : nat).

(** ** What a transition does to the lists and to the bodies *)

Lemma shaped_cells_ok s : shaped s = cells_ok (shape_cells s).
Proof. reflexivity. Qed.

(** The cells that the render functions read are written by a press on
    an item of the list, which selects it, and by the bodies of the
    answers: [movies] by the body of a list answer with a truthy
    [results], [trailerUrl] and [downloadLinks] by the body of a detail
    answer in which the trailer could be searched. *)
Lemma step_cells w e w' :
  inv w -> step API_KEY w e w' ->
  shape_cells (view w') = shape_cells (view w) \/
  (exists item,
     e = PressMovie item /\ item_ok item = true /\
     shape_cells (view w') =
       (movies (view w), downloadLinks (view w), trailerUrl (view w), item)) \/
  (exists id r msg results,
     e = JsonSettles id /\
     pending w !! id = Some (TJson r (list_on_json msg)) /\
     list_result (Resolved r) = NewList results /\
     shape_cells (view w') =
       (results, downloadLinks (view w), trailerUrl (view w),
        selectedMovie (view w))) \/
  (exists id r data trailer,
     e = JsonSettles id /\
     pending w !! id = Some (TJson r details_on_json) /\
     body r = Some data /\ find_trailer data = Ok trailer /\
     shape_cells (view w') =
       (movies (view w), or_default (us_flatrate data) (VArr []),
        opt_get trailer "key", selectedMovie (view w))).
Proof.
  intros Hw Hstep.
  destruct Hstep as [w text|w|w|w item Hp|w Hm|w Hc|w id url k o Hid
                    |w id r k Hid]; try by left.
  - left. rewrite searchMovies_unfold. by case_match.
  - right; left. apply pressable_item_ok in Hp. exists item.
    unfold start. by rewrite openMovieModal_pressed.
  - left. destruct (inv_tasks _ Hw id _ Hid) as (kd & Ht & _).
    unfold resume. inversion Ht; subst.
    + rewrite list_on_fetch_run. by destruct o.
    + rewrite details_on_fetch_run. by destruct o.
  - destruct (inv_tasks _ Hw id _ Hid) as (kd & Ht & _).
    unfold resume. inversion Ht; subst.
    + rewrite list_on_json_run, list_result_json_outcome.
      destruct (list_result (Resolved r)) as [results| |err] eqn:Hres;
        [|by left..].
      right; right; left. by exists id, r, msg, results.
    + rewrite details_on_json_run. unfold json_outcome.
      destruct (body r) as [data|] eqn:Hb; [|by left].
      cbn -[details_handler].
      destruct (details_cases (Resolved (Response 200 (Some data))))
        as [[err He]|(st & data' & tr & [= <- <-] & Hf)].
      * left. by rewrite (details_handler_failed _ _ err).
      * right; right; right. exists id, r, data, tr.
        by rewrite (details_handler_ok _ _ tr).
Qed.

(** The lists are written by the bodies of the answers only. *)
Lemma step_lists w e w' :
  inv w -> step API_KEY w e w' ->
  lists (view w') = lists (view w) \/
  (exists id r results,
     e = JsonSettles id /\ list_result (Resolved r) = NewList results /\
     lists (view w') = (results, downloadLinks (view w))) \/
  (exists id data,
     e = JsonSettles id /\
     lists (view w') =
       (movies (view w), or_default (us_flatrate data) (VArr []))).
Proof.
  intros Hw Hstep. unfold lists.
  destruct (step_cells _ _ _ Hw Hstep)
    as [[= -> -> _ _]|[(item & _ & _ & [= -> -> _ _])
       |[(id & r & msg & results & -> & _ & Hres & [= -> -> _ _])
        |(id & r & data & tr & -> & _ & _ & _ & [= -> -> _ _])]]];
    eauto 10.
Qed.

(** A body that is still to be read was there before, or has just been
    answered to the request that awaited it. *)
Lemma step_bodies w e w' id r k :
  inv w -> step API_KEY w e w' -> pending w' !! id = Some (TJson r k) ->
  pending w !! id = Some (TJson r k) \/
  exists url k0 kd,
    e = FetchSettles id (Resolved r) /\
    pending w !! id = Some (TFetch url k0) /\
    task_of (TFetch url k0) kd /\ task_of (TJson r k) kd.
Proof.
  intros Hw Hstep.
  destruct Hstep as [w text|w|w|w item Hp|w Hm|w Hc|w id' url k' o Hid
                    |w id' r' k' Hid]; try by left.
  - rewrite searchMovies_unfold. case_match; [by left|].
    unfold start. rewrite list_request_run. simpl.
    intros [[_ [=]]|[_ ?]]%lookup_insert_Some. by left.
  - unfold start. rewrite fetchPopularMovies_unfold, list_request_run. simpl.
    intros [[_ [=]]|[_ ?]]%lookup_insert_Some. by left.
  - apply pressable_item_ok in Hp.
    unfold start. rewrite openMovieModal_pressed by done. simpl.
    intros [[_ [=]]|[_ ?]]%lookup_insert_Some. by left.
  - destruct (inv_tasks _ Hw id' _ Hid) as (kd & Ht & _).
    unfold resume. inversion Ht; subst.
    + rewrite list_on_fetch_run. destruct o as [r0|err]; simpl.
      * intros [[<- [= <- <-]]|[_ [_ ?]%lookup_delete_Some]]%lookup_insert_Some;
          [right|by left].
        exists url, (list_on_fetch msg), (ListTask msg).
        split_and!; [done..|constructor].
      * intros [_ ?]%lookup_delete_Some. by left.
    + rewrite details_on_fetch_run. destruct o as [r0|err]; simpl.
      * intros [[<- [= <- <-]]|[_ [_ ?]%lookup_delete_Some]]%lookup_insert_Some;
          [right|by left].
        exists url, details_on_fetch, DetailsTask.
        split_and!; [done..|constructor].
      * intros [_ ?]%lookup_delete_Some. by left.
  - destruct (inv_tasks _ Hw id' _ Hid) as (kd & Ht & _).
    unfold resume. inversion Ht; subst.
    + rewrite list_on_json_run. simpl.
      intros [_ ?]%lookup_delete_Some. by left.
    + rewrite details_on_json_run.
      destruct (json_outcome r'); simpl;
        intros [_ ?]%lookup_delete_Some; by left.
Qed.

(** The bodies still to be read satisfy [P] as long as the answers
    do. *)
Lemma bodies_fit_initial P : bodies_fit P (initial_world (num := num)).
Proof. intros id r k kd Hid. simpl in Hid. by rewrite lookup_empty in Hid. Qed.

Lemma bodies_fit_step P w e w' :
  inv w -> bodies_fit P w -> step API_KEY w e w' -> answers_fit P w e ->
  bodies_fit P w'.
Proof.
  intros Hw Hb Hstep Ha id r k kd Hid Hk.
  destruct (step_bodies _ _ _ _ _ _ Hw Hstep Hid)
    as [Hold|(url & k0 & kd' & -> & Hid0 & Hk0 & Hk')]; [by eapply Hb|].
  rewrite (task_of_functional _ _ _ Hk Hk'). by eapply Ha.
Qed.

Lemma fit_reachable_reachable P w :
  fit_reachable API_KEY P w -> reachable API_KEY w.
Proof. induction 1; [constructor|by econstructor]. Qed.

Lemma fit_reachable_bodies P w : fit_reachable API_KEY P w -> bodies_fit P w.
Proof.
  induction 1 as [|w e w' Hw IH Hstep Ha]; [apply bodies_fit_initial|].
  eapply bodies_fit_step; eauto.
  by apply (inv_reachable API_KEY), (fit_reachable_reachable P).
Qed.

Lemma fit_reachable_exec P w e w' :
  fit_reachable API_KEY P w -> exec API_KEY w e = Some w' ->
  answers_fit P w e -> fit_reachable API_KEY P w'.
Proof. intros Hw Hex%exec_Some_step Ha. by apply (fit_reachable_step _ _ w e). Qed.

(** What holds of the lists that the answers carry holds of the lists
    of the state: [movies] is the empty array of the start or the
    [results] of a list answer, [downloadLinks] the empty array or the
    provider list of a detail answer. *)
Lemma fit_reachable_lists P (Qm Qd : value num -> Prop) w :
  Qm (VArr []) -> Qd (VArr []) ->
  (forall msg r results,
     P (ListTask msg) (Resolved r) = true ->
     list_result (Resolved r) = NewList results -> Qm results) ->
  (forall r data trailer,
     P DetailsTask (Resolved r) = true -> body r = Some data ->
     find_trailer data = Ok trailer ->
     Qd (or_default (us_flatrate data) (VArr []))) ->
  fit_reachable API_KEY P w ->
  Qm (movies (view w)) /\ Qd (downloadLinks (view w)).
Proof.
  intros Hm0 Hd0 Hm Hd. induction 1 as [|w e w' Hw [IHm IHd] Hstep Ha]; [done|].
  pose proof (fit_reachable_bodies _ _ Hw) as Hb.
  apply fit_reachable_reachable, (inv_reachable API_KEY) in Hw.
  destruct (step_cells _ _ _ Hw Hstep)
    as [Hc|[(item & _ & _ & Hc)
       |[(id & r & msg & results & -> & Hid & Hres & Hc)
        |(id & r & data & tr & -> & Hid & Hbody & Hf & Hc)]]];
    injection Hc as -> -> _ _; split; try done.
  - eapply Hm; [|done]. by eapply Hb; [|constructor].
  - eapply Hd; [|done..]. by eapply Hb; [|constructor].
Qed.

(** ** Preservation *)

Lemma typed_step_step w e w' : typed_step API_KEY w e w' -> step API_KEY w e w'.
Proof. by destruct 1. Qed.

Lemma typed_inv_initial : typed_inv (initial_world (num := num)).
Proof. constructor; [done|apply bodies_fit_initial]. Qed.

(** A press on an item of the list and the body of an answer that fits
    leave a state that is shaped. *)
Lemma typed_inv_shaped w e w' :
  inv w -> typed_inv w -> step API_KEY w e w' -> shaped (view w') = true.
Proof.
  intros Hw [Hs Hb] Hstep. rewrite shaped_cells_ok in *.
  destruct (step_cells _ _ _ Hw Hstep)
    as [Hc|[(item & _ & Hok & Hc)
       |[(id & r & msg & results & -> & Hid & Hres & Hc)
        |(id & r & data & tr & -> & Hid & Hbody & Hf & Hc)]]];
    rewrite Hc; [done|..]; unfold cells_ok, shape_cells in *;
    cbn [fst snd] in *;
    apply andb_prop in Hs as [[[Hm Hd]%andb_prop Ht]%andb_prop Hsel];
    rewrite ?Hm, ?Hd, ?Ht, ?Hsel; cbn [andb].
  - apply item_ok_inv in Hok as (_ & _ & Hp).
    unfold selected_ok. by rewrite Hp, orb_true_r.
  - specialize (Hb id r _ (ListTask msg) Hid (task_list_json r msg)).
    unfold answer_fits, list_answer_ok in Hb. rewrite Hres in Hb.
    by rewrite Hb.
  - specialize (Hb id r _ DetailsTask Hid (task_details_json r)).
    unfold answer_fits, details_answer_ok in Hb.
    rewrite Hbody, Hf in Hb. by apply andb_prop in Hb as [-> ->].
Qed.

Lemma typed_step_answers w e w' :
  typed_step API_KEY w e w' -> answers_fit answer_fits w e.
Proof.
  destruct 1 as [w e w' He _|w id o t kd w' Hid Ht Hfit _|w id w' _];
    intros id' o' t' kd' Heq Hid' Ht'; simplify_eq/=.
  by rewrite (task_of_functional _ _ _ Ht' Ht).
Qed.

Lemma typed_inv_step w e w' :
  inv w -> typed_inv w -> typed_step API_KEY w e w' -> typed_inv w'.
Proof.
  intros Hw Ht Hstep. pose proof (typed_step_step _ _ _ Hstep) as Hst.
  constructor; [by eapply typed_inv_shaped|].
  eapply bodies_fit_step; eauto using typed_bodies, typed_step_answers.
Qed.

Lemma typed_reachable_reachable w :
  typed_reachable API_KEY w -> reachable API_KEY w.
Proof.
  induction 1 as [|w e w' _ IH Hstep]; [constructor|].
  econstructor; [done|]. by apply typed_step_step.
Qed.

Lemma typed_reachable_inv w : typed_reachable API_KEY w -> typed_inv w.
Proof.
  induction 1 as [|w e w' Hw IH Hstep]; [apply typed_inv_initial|].
  eapply typed_inv_step; [|done..].
  by apply (inv_reachable API_KEY), typed_reachable_reachable.
Qed.

Lemma answers_fit_impl (P Q : task_kind -> outcome (response num) -> bool)
    w e :
  (forall kd o, P kd o = true -> Q kd o = true) ->
  answers_fit P w e -> answers_fit Q w e.
Proof. intros HPQ Ha id o t kd He Hid Ht. by eapply HPQ, Ha. Qed.

Lemma fit_reachable_impl P Q w :
  (forall kd o, P kd o = true -> Q kd o = true) ->
  fit_reachable API_KEY P w -> fit_reachable API_KEY Q w.
Proof.
  intros HPQ. induction 1 as [|w e w' _ IH Hstep Ha]; [constructor|].
  econstructor; [done..|]. by eapply answers_fit_impl.
Qed.

Lemma answers_fit_gesture (P : task_kind -> outcome (response num) -> bool)
    w e :
  settles e = None -> answers_fit P w e.
Proof. by intros He id o t kd ->. Qed.

Lemma answers_fit_json (P : task_kind -> outcome (response num) -> bool)
    w id :
  answers_fit P w (JsonSettles id).
Proof. by intros id' o t kd. Qed.

Lemma answers_fit_fetch (P : task_kind -> outcome (response num) -> bool)
    w id o t kd :
  pending w !! id = Some t -> task_of t kd -> P kd o = true ->
  answers_fit P w (FetchSettles id o).
Proof.
  intros Hid Ht HP id' o' t' kd' [= <- <-] Hid' Ht'. simplify_eq.
  by rewrite (task_of_functional _ _ _ Ht' Ht).
Qed.

Lemma answers_fit_typed_step w e w' :
  inv w -> step API_KEY w e w' -> answers_fit answer_fits w e ->
  typed_step API_KEY w e w'.
Proof.
  intros Hw Hstep Ha. destruct (settles e) as [id|] eqn:He;
    [|by apply typed_gesture].
  inversion Hstep as [| | | | | |w0 id0 url k o Hid|]; subst; try done;
    [|by apply typed_json_settles].
  destruct (inv_tasks _ Hw _ _ Hid) as (kd & Ht & _).
  eapply typed_fetch_settles; eauto.
Qed.

(** On answers that fit, the machine and the application coincide. *)
Lemma typed_app_step w e w' :
  typed_reachable API_KEY w -> typed_step API_KEY w e w' ->
  app_step API_KEY w e w'.
Proof.
  intros Hw%typed_reachable_inv%typed_shaped%render_shaped Hstep.
  by apply rendered_step_app_step, typed_step_step.
Qed.

Lemma typed_reachable_app_reachable w :
  typed_reachable API_KEY w -> app_reachable API_KEY w.
Proof.
  induction 1 as [|w e w' Hw IH Hstep]; [constructor|].
  econstructor; [done|]. by apply typed_app_step.
Qed.

(** ** Theorems *)


(** The cells [movies] and [downloadLinks] are written by the bodies
    of the answers only: a transition leaves both as they are unless it
    reads the body of a list answer with a truthy [results], which
    becomes [movies], or the body of a detail answer, whose provider
    list becomes [downloadLinks]. *)
Theorem lists_written_by_answers w e w' :
  reachable API_KEY w -> step API_KEY w e w' ->
  lists (view w') = lists (view w) \/
  (exists id r results,
     e = JsonSettles id /\ list_result (Resolved r) = NewList results /\
     lists (view w') = (results, downloadLinks (view w))) \/
  (exists id data,
     e = JsonSettles id /\
     lists (view w') =
       (movies (view w), or_default (us_flatrate data) (VArr []))).
Proof. intros Hw%inv_reachable. by apply step_lists. Qed.

End typed_props.

(** * On sample answers *)


Lemma lists_written_by_answers_witness :
  lists (view (world_after "k" [PressPopular (num := Z)])) =
  lists (view (initial_world (num := Z))) \/
  (exists id r results,
     PressPopular (num := Z) = JsonSettles id /\
     list_result (Resolved r) = NewList results /\
     lists (view (world_after "k" [PressPopular (num := Z)])) =
       (results, downloadLinks (view (initial_world (num := Z))))) \/
  (exists id data,
     PressPopular (num := Z) = JsonSettles id /\
     lists (view (world_after "k" [PressPopular (num := Z)])) =
       (movies (view (initial_world (num := Z))),
        or_default (us_flatrate data) (VArr []))).
Proof.
  apply (lists_written_by_answers "k" initial_world PressPopular);
    [constructor|]. apply exec_Some_step. reflexivity.
Defined.
