(* ===== verification/Drain.v ===== *)
(** * Drain: the pending requests come to an end

    A handler suspended on [fetch] awaits two promises (the response,
    then its body), one suspended on [response.json()] awaits one.
    [work] counts the promises that the suspended handlers of a world
    still await.  Every settlement takes at least one from it, whichever
    handler it resumes and whatever the answer ([settle_decreases]): no
    handler of the source starts a request when it is resumed.  So the
    settlements after the last gesture are at most [work] many
    ([settle_run_bounded]), some settlement is possible as long as a
    handler is pending, and a world with nothing pending can be reached
    ([drains]); there the spinner is off.

    The source sets no timeout: that the network settles every promise
    is an assumption on the platform, not a property of the code. *)

From stdpp Require Import gmap.
From S2P Require Import Prelude JsValue Async ViewState Url Samples.
From S2P Require Import Controller Machine.

Open Scope string_scope.
Open Scope list_scope.

(** A run for the examples: two list requests and a detail request
    are pending at its end. *)
Definition three_pending : list (event Z) :=
  [PressPopular; FetchSettles 0 (answer_ok (list_body [batman]));
   JsonSettles 0; PressMovie batman; PressClose; PressPopular;
   ChangeText "joker"; PressSearch].

Section drain.
Context {num : Type} `{!JsNumber num}.
Variable API_KEY : string.
Implicit Types (w : World num) (e : event num) (t : task num) (id : nat)
  (m : gmap nat (task num)).

(** The promises that the suspended handlers still await. *)
Definition work m : nat := map_fold (fun _ t n => awaits (Some t) + n) 0 m.

(** A settlement that ends the handler [id] at once: the request is
    rejected, or the body is delivered. *)
Definition settle_event id t : event num :=
  match t with
  | TFetch _ _ => FetchSettles id (Rejected NetworkFailure)
  | TJson _ _ => JsonSettles id
  end.

(** A run of settlements. *)
Definition settlements (es : list (event num)) : Prop :=
  Forall (fun e => is_Some (settles e)) es.

End drain.

(** * Properties *)

Section drain_props.
Context {num : Type} `{!JsNumber num}.
Variable API_KEY : string.
Implicit Types (w : World num) (e : event num) (t : task num) (id : nat)
  (m : gmap nat (task num)).

(** ** The measure *)

Lemma work_empty : work (∅ : gmap nat (task num)) = 0.
Proof. apply map_fold_empty. Qed.

Lemma work_insert m id t :
  m !! id = None -> work (<[id := t]> m) = awaits (Some t) + work m.
Proof. intros Hid. unfold work. rewrite map_fold_insert_L; [done| |done]. intros. lia. Qed.

Lemma work_delete m id t :
  m !! id = Some t -> work m = awaits (Some t) + work (delete id m).
Proof. intros Hid. unfold work. erewrite map_fold_delete_L; [done| |done]. intros. lia. Qed.

Lemma awaits_pos t : 0 < awaits (Some t).
Proof. destruct t; simpl; lia. Qed.

Lemma work_0 m : work m = 0 <-> m = ∅.
Proof.
  split; [|intros ->; apply work_empty].
  intros Hw. destruct (decide (m = ∅)) as [|Hne]; [done|].
  apply map_choose in Hne as (id & t & Hid).
  rewrite (work_delete _ _ _ Hid) in Hw. pose proof (awaits_pos t). lia.
Qed.

Lemma work_bound m : work m <= 2 * size m.
Proof.
  induction m as [|id t m Hid IH] using map_ind.
  - by rewrite work_empty.
  - rewrite work_insert, map_size_insert_None by done.
    destruct t; simpl; lia.
Qed.

(** ** One settlement *)

(** A settlement ends the handler it resumes or moves it from its first
    [await] to its second; it suspends no other handler. *)
Lemma settle_pending w e w' id :
  inv w -> settles e = Some id -> step API_KEY w e w' ->
  exists t, pending w !! id = Some t /\
    (pending w' = delete id (pending w) \/
     exists r k, awaits (Some t) = 2 /\
       pending w' = <[id := TJson r k]> (delete id (pending w))).
Proof.
  intros Hw He Hstep.
  destruct Hstep as [| | | | | |w id' url k o Hid|w id' r k Hid];
    simplify_eq/=; eexists; (split; [done|]);
    destruct (inv_tasks _ Hw id _ Hid) as (kd & Ht & _);
    unfold resume; inversion Ht; subst.
  - rewrite list_on_fetch_run.
    destruct o; simpl; [right; by do 2 eexists|by left].
  - rewrite details_on_fetch_run.
    destruct o; simpl; [right; by do 2 eexists|by left].
  - rewrite list_on_json_run. by left.
  - rewrite details_on_json_run. destruct (json_outcome r); by left.
Qed.

Lemma settle_decreases_work w e w' id :
  inv w -> settles e = Some id -> step API_KEY w e w' ->
  work (pending w') < work (pending w).
Proof.
  intros Hw He Hstep.
  destruct (settle_pending _ _ _ _ Hw He Hstep)
    as (t & Hid & [->|(r & k & Ht & ->)]);
    rewrite (work_delete _ _ _ Hid).
  - pose proof (awaits_pos t). lia.
  - rewrite Ht, work_insert by apply lookup_delete_eq. simpl. lia.
Qed.

(** A pending handler can be ended at once. *)
Lemma can_settle w id t :
  inv w -> pending w !! id = Some t ->
  exists w', exec API_KEY w (settle_event id t) = Some w' /\
    pending w' = delete id (pending w).
Proof.
  intros Hw Hid. destruct (inv_tasks _ Hw id _ Hid) as (kd & Ht & _).
  destruct t as [url k|r k]; simpl; rewrite Hid; eexists; (split; [done|]);
    unfold resume; inversion Ht; subst.
  - by rewrite list_on_fetch_run.
  - by rewrite details_on_fetch_run.
  - by rewrite list_on_json_run.
  - rewrite details_on_json_run. by destruct (json_outcome r).
Qed.

Lemma nothing_pending_not_loading w :
  inv w -> pending w = ∅ -> loading (view w) = false.
Proof.
  intros Hw He. destruct (loading (view w)) eqn:Hl; [|done].
  destruct (inv_loading _ Hw Hl) as (id & t & msg & Hid & _).
  by rewrite He, lookup_empty in Hid.
Qed.

(** ** Theorems *)

(** Every settlement takes at least one promise from those that the
    suspended handlers await, whichever handler it resumes and whatever
    the answer: a resumed handler starts no request. *)
Theorem settle_decreases w e w' :
  reachable API_KEY w -> is_Some (settles e) -> step API_KEY w e w' ->
  work (pending w') < work (pending w) /\ work (pending w) <= 2 * size (pending w).
Proof.
  intros Hw%inv_reachable [id He] Hstep. split; [|apply work_bound].
  by eapply settle_decreases_work.
Qed.

(** After the last gesture the application takes at most as many
    transitions as promises are awaited: a run of settlements of length
    [n] leaves [n] promises fewer to await. *)
Theorem settle_run_bounded w es w' :
  reachable API_KEY w -> settlements es ->
  exec_all API_KEY w es = Some w' ->
  length es + work (pending w') <= work (pending w).
Proof.
  intros Hw Hes. revert w Hw.
  induction Hes as [|e es [id He] _ IH]; intros w Hw; simpl.
  - intros [= <-]. lia.
  - destruct (exec API_KEY w e) as [w1|] eqn:Hex; [|done]. simpl.
    apply exec_Some_step in Hex. intros Hrun.
    assert (reachable API_KEY w1) as Hw1 by (by econstructor).
    specialize (IH w1 Hw1 Hrun).
    pose proof (settle_decreases_work _ _ _ _ (inv_reachable _ _ Hw) He Hex).
    lia.
Qed.

(** C31. The application can always come to rest: from every reachable
    world, one settlement per pending handler leads to a world with
    nothing pending, and there the spinner is off. *)
Theorem drains w :
  reachable API_KEY w ->
  exists es w', settlements es /\ length es = size (pending w) /\
    exec_all API_KEY w es = Some w' /\
    pending w' = ∅ /\ loading (view w') = false.
Proof.
  remember (size (pending w)) as n eqn:Hn. revert w Hn.
  induction n as [|n IH]; intros w Hn Hw.
  - symmetry in Hn. apply map_size_empty_iff in Hn.
    exists [], w.
    split_and!; [by apply Forall_nil|done..|].
    by apply nothing_pending_not_loading; [apply (inv_reachable API_KEY)|].
  - destruct (map_choose (pending w)) as (id & t & Hid).
    { intros He. by rewrite He, map_size_empty in Hn. }
    destruct (can_settle w id t (inv_reachable _ _ Hw) Hid) as (w1 & Hex & Hp).
    destruct (IH w1) as (es & w' & Hes & Hlen & Hrun & Hp' & Hl).
    { rewrite Hp, map_size_delete, Hid, <-Hn. simpl. lia. }
    { econstructor; [done|]. by apply exec_Some_step. }
    exists (settle_event id t :: es), w'. split_and!; try done.
    + apply Forall_cons. split; [by destruct t|done].
    + simpl. by rewrite Hlen.
    + simpl. by rewrite Hex.
Qed.

End drain_props.

(** * On a sample run *)

Lemma settle_decreases_witness :
  work (pending (world_after "k"
    (three_pending ++ [FetchSettles 1 answer_offline]))) <
  work (pending (world_after "k" three_pending)) /\
  work (pending (world_after "k" three_pending)) <=
  2 * size (pending (world_after "k" three_pending)).
Proof.
  apply (settle_decreases "k" _ (FetchSettles 1 answer_offline)).
  - apply world_after_reachable. vm_compute. eexists. reflexivity.
  - by eexists.
  - apply exec_Some_step. vm_compute. reflexivity.
Defined.

Lemma settle_run_bounded_witness :
  length [FetchSettles (num := Z) 1 answer_offline; FetchSettles 3 answer_offline] +
  work (pending (world_after "k"
    (three_pending ++
       [FetchSettles 1 answer_offline; FetchSettles 3 answer_offline])))
  <= work (pending (world_after "k" three_pending)).
Proof.
  apply (settle_run_bounded "k").
  - apply world_after_reachable. vm_compute. eexists. reflexivity.
  - repeat constructor; by eexists.
  - vm_compute. reflexivity.
Defined.

Lemma drains_witness :
  exists es w', settlements es /\
    length es = size (pending (world_after "k" three_pending)) /\
    exec_all "k" (world_after "k" three_pending) es = Some w' /\
    pending w' = ∅ /\ loading (view w') = false.
Proof.
  apply (drains "k"). apply world_after_reachable.
  vm_compute. eexists. reflexivity.
Defined.
