(* ===== verification/Independence.v ===== *)
(** * Independence: the events whose order does not matter

    Nothing orders the settlements of the requests of src/App.js, and
    the user may touch the screen between any two of them.  This file
    says which orders matter.  Every act ([Effects.act]) has a
    [footprint]: the groups of cells that its segment reads or writes,
    the entry of its handler in the table, and the next identifier
    when it starts a request.

    - the text input writes [query]; Search reads it;
    - Search, Popular Movies and a press on an item read or write the
      cells of the list ([movies], [loading], [error]: lines 20, 38
      and 150-161) and take the next identifier;
    - opening and closing the modal write [selectedMovie] and
      [modalVisible];
    - the end of a list request writes the cells of the list (lines
      26-33 and 44-51); the end of a detail request writes
      [trailerUrl], [downloadLinks] and the console (lines 63-70),
      and reads nothing: not even which movie the modal shows;
    - a response that arrives writes no cell.

    Two acts with disjoint footprints are [independent], and two
    independent events lead to the same world in either order
    ([independent_commute]); so the races of the application are
    between acts that share a place: two ends of list requests
    ([Machine.last_settled_wins]), two ends of detail requests
    ([Machine.details_written_whatever_is_shown]), a press and the end
    of a list request ([Machine.loading_off_while_pending]).  That the
    end of a detail request is independent of a press on another item
    is the other face of the missing check of line 64. *)

From stdpp Require Import gmap.
From S2P Require Import Prelude JsValue Async ViewState Url Samples Render.
From S2P Require Import Controller Machine Effects Drain.

Open Scope string_scope.
Open Scope list_scope.

(** The groups of cells (lines 6-13), and the console. *)
Inductive cell : Type := Query | Lists | Modal | Details | Console.

(** What an act reads or writes: a group of cells, the next
    identifier, or the entry of a handler in the table. *)
Inductive place : Type :=
| Cell (c : cell)
| NextId
| Handler (id : nat).

Definition cell_index (c : cell) : nat :=
  match c with
  | Query => 0 | Lists => 1 | Modal => 2 | Details => 3 | Console => 4
  end.

Definition same_place (p q : place) : bool :=
  match p, q with
  | Cell c, Cell c' => Nat.eqb (cell_index c) (cell_index c')
  | NextId, NextId => true
  | Handler id, Handler id' => Nat.eqb id id'
  | _, _ => false
  end.

(** The failures of the detail request and of the popular request of
    [Drain.three_pending], one after the other. *)
Definition details_then_list : list (event Z) :=
  [FetchSettles 1 (Rejected NetworkFailure);
   FetchSettles 2 (Rejected NetworkFailure)].

Section independence.
Context {num : Type} `{!JsNumber num}.
Variable API_KEY : string.
Implicit Types (w : World num) (e : event num) (a : act num) (id : nat)
  (p : place).

Definition footprint a : list place :=
  match a with
  | WriteQuery _ => [Cell Query]
  | StartSearch => [Cell Query; Cell Lists; NextId]
  | StartPopular => [Cell Lists; NextId]
  | OpenModal _ => [Cell Lists; Cell Modal; NextId]
  | DismissModal | CloseModal => [Cell Modal]
  | Receive id _ _ => [Handler id]
  | Finish id (ListTask _) _ => [Handler id; Cell Lists]
  | Finish id DetailsTask _ => [Handler id; Cell Details; Cell Console]
  end.

Definition independent a1 a2 : bool :=
  forallb (fun p => forallb (fun q => negb (same_place p q)) (footprint a2))
    (footprint a1).

(** The handler that an act resumes. *)
Definition resumes a : option nat :=
  match a with
  | Receive id _ _ | Finish id _ _ => Some id
  | _ => None
  end.

(** The handler that an act resumes has been started. *)
Definition known w a : Prop :=
  forall id, resumes a = Some id -> id < next_id w.

(** Two events that are possible in [w], as far as the table goes,
    and independent. *)
Definition independent_events w e1 e2 : Prop :=
  exists a1 a2,
    resolves w e1 a1 /\ resolves w e2 a2 /\ independent a1 a2 = true.

End independence.

(** * Properties *)

(** The cases of two acts, with the conflicts gone. *)
Ltac by_acts a1 a2 Hind :=
  destruct a1 as [| | | | | |?id1 [] ?|?id1 [] ?o1],
           a2 as [| | | | | |?id2 [] ?|?id2 [] ?o2];
  try done; unfold independent in Hind; simpl in Hind; try done;
  try (match goal with
       | H : context [Nat.eqb ?i ?j] |- _ =>
           destruct (Nat.eqb_spec i j); simpl in H; [done|]
       end);
  try done; clear Hind.

(** The cases of the answer that a handler ends on. *)
Ltac handler_cases :=
  repeat match goal with
    | |- context [details_handler ?o _] =>
        destruct (details_cases o) as [[?err ?]|(?st & ?data & ?tr & -> & ?)];
        [rewrite !(details_handler_failed _ _ err) by done
        |rewrite !(details_handler_ok _ _ tr) by done]
    | |- context [list_handler _ ?o _] =>
        unfold list_handler; destruct (list_result o)
    end.

(** Two tables with the same entries. *)
Ltac map_eq :=
  apply map_eq; intros ?i;
  repeat match goal with
         | |- context [<[?j := _]> _ !! ?i] =>
             destruct (decide (i = j)); simplify_map_eq
         | |- context [delete ?j _ !! ?i] =>
             destruct (decide (i = j)); simplify_map_eq
         end; try done; try lia.

Section independence_props.
Context {num : Type} `{!JsNumber num}.
Variable API_KEY : string.
Implicit Types (w : World num) (e : event num) (a : act num) (id : nat)
  (p : place).

Lemma independent_sym a1 a2 : independent a1 a2 = independent a2 a1.
Proof.
  destruct a1 as [| | | | | |id1 [] ?|id1 [] ?], a2 as [| | | | | |id2 [] ?|id2 [] ?];
    try done; unfold independent; simpl; by rewrite (Nat.eqb_sym id1 id2).
Qed.

(** Independent acts write the same world in either order. *)
Lemma perform_commute w a1 a2 :
  known w a1 -> known w a2 -> independent a1 a2 = true ->
  perform API_KEY a2 (perform API_KEY a1 w) =
  perform API_KEY a1 (perform API_KEY a2 w).
Proof.
  intros H1 H2 Hind. by_acts a1 a2 Hind;
    try (specialize (H1 _ eq_refl)); try (specialize (H2 _ eq_refl));
    cbn [perform ended]; handler_cases; simpl; repeat case_decide; try done;
    unfold completed, with_view, requested, reading; simpl;
    f_equal; try done; map_eq.
Qed.

(** What has to be on screen for an act is left there by an
    independent one. *)
Lemma guard_perform w a1 a2 :
  independent a1 a2 = true ->
  guard a2 (perform API_KEY a1 w) = guard a2 w.
Proof.
  intros Hind. by_acts a1 a2 Hind; cbn [guard perform ended];
    handler_cases; simpl; repeat case_decide; done.
Qed.

Lemma resolves_known w e a : inv w -> resolves w e a -> known w a.
Proof.
  intros Hw Hres id Hid. apply (inv_ids _ Hw).
  destruct Hres; simplify_eq/=; eauto.
Qed.

(** The pending entry of a handler that an independent act leaves
    alone. *)
Lemma pending_perform w a1 id :
  id < next_id w ->
  (forall id1, resumes a1 = Some id1 -> id1 <> id) ->
  pending (perform API_KEY a1 w) !! id = pending w !! id.
Proof.
  intros Hid Hne. destruct a1 as [| | | | | |id1 kd r|id1 [] o]; simpl;
    repeat case_decide; simpl; try done;
    rewrite ?lookup_insert_ne, ?lookup_delete_ne; try done; try lia;
    by apply Hne.
Qed.

Lemma independent_resumes a1 a2 id1 id2 :
  independent a1 a2 = true -> resumes a1 = Some id1 ->
  resumes a2 = Some id2 -> id1 <> id2.
Proof.
  intros Hind H1 H2.
  destruct a1 as [| | | | | |? [] ?|? [] ?], a2 as [| | | | | |? [] ?|? [] ?];
    simplify_eq/=; unfold independent in Hind; simpl in Hind;
    by destruct (Nat.eqb_spec id1 id2).
Qed.

(** An event resolves to the same act after an independent one. *)
Lemma resolves_perform w e a1 a2 :
  known w a2 -> independent a1 a2 = true -> resolves w e a2 ->
  resolves (perform API_KEY a1 w) e a2.
Proof.
  intros Hk Hind Hres.
  assert (forall id, resumes a2 = Some id ->
            pending (perform API_KEY a1 w) !! id = pending w !! id) as Hp.
  { intros id Hid. apply pending_perform; [by apply Hk|].
    intros id1 Hid1. by eapply independent_resumes. }
  destruct Hres; econstructor; try done; by rewrite Hp.
Qed.

Lemma commute w e1 e2 a1 a2 w1 w12 :
  inv w -> resolves w e1 a1 -> resolves w e2 a2 ->
  independent a1 a2 = true ->
  step API_KEY w e1 w1 -> step API_KEY w1 e2 w12 ->
  exists w2, step API_KEY w e2 w2 /\ step API_KEY w2 e1 w12.
Proof.
  intros Hw Hr1 Hr2 Hind Hs1 Hs2.
  pose proof (inv_step _ _ _ _ Hw Hs1) as Hw1.
  pose proof (resolves_known _ _ _ Hw Hr1) as Hk1.
  pose proof (resolves_known _ _ _ Hw Hr2) as Hk2.
  apply (step_iff_effect _ _ _ _ Hw) in Hs1 as (a1' & Hr1' & Hg1 & ->).
  rewrite (resolves_functional _ _ _ _ Hr1' Hr1) in *. clear Hr1'.
  apply (step_iff_effect _ _ _ _ Hw1) in Hs2 as (a2' & Hr2' & Hg2 & ->).
  rewrite (resolves_functional _ _ _ _ Hr2'
             (resolves_perform _ _ _ _ Hk2 Hind Hr2)) in *. clear Hr2'.
  rewrite guard_perform in Hg2 by done.
  exists (perform API_KEY a2 w). split; apply effect_to_step.
  - by exists a2.
  - exists a1. rewrite independent_sym in Hind. split_and!.
    + by apply resolves_perform.
    + by rewrite guard_perform.
    + by apply perform_commute; [..|rewrite independent_sym].
Qed.

Lemma commute_exec w e1 e2 w' :
  inv w -> independent_events w e1 e2 ->
  exec_all API_KEY w [e1; e2] = Some w' ->
  exec_all API_KEY w [e2; e1] = Some w'.
Proof.
  intros Hw (a1 & a2 & Hr1 & Hr2 & Hind). simpl.
  destruct (exec API_KEY w e1) as [w1|] eqn:H1; [simpl|done].
  destruct (exec API_KEY w1 e2) as [w12|] eqn:H2; [simpl|done].
  intros [= <-]. apply exec_step in H1, H2.
  destruct (commute _ _ _ _ _ _ _ Hw Hr1 Hr2 Hind H1 H2)
    as (w2 & H2'%exec_step & H1'%exec_step).
  by rewrite H2'; simpl; rewrite H1'.
Qed.

(** ** Theorems *)

(** C15. Two independent events that are possible in a world can be taken
    in either order, and lead to the same world. *)
Theorem independent_commute w e1 e2 w1 w12 :
  reachable API_KEY w -> independent_events w e1 e2 ->
  step API_KEY w e1 w1 -> step API_KEY w1 e2 w12 ->
  exists w2, step API_KEY w e2 w2 /\ step API_KEY w2 e1 w12.
Proof.
  intros Hw%inv_reachable (a1 & a2 & Hr1 & Hr2 & Hind).
  by apply (commute w e1 e2 a1 a2).
Qed.

(** Anywhere in a run, two neighbours that are independent where they
    happen can be exchanged: the run ends in the same world. *)
Theorem independent_runs es1 e1 e2 es2 w1 w' :
  exec_all API_KEY initial_world es1 = Some w1 ->
  independent_events w1 e1 e2 ->
  exec_all API_KEY initial_world (es1 ++ e1 :: e2 :: es2) = Some w' ->
  exec_all API_KEY initial_world (es1 ++ e2 :: e1 :: es2) = Some w'.
Proof.
  intros Hes1 Hind.
  change (e1 :: e2 :: es2) with ([e1; e2] ++ es2).
  change (e2 :: e1 :: es2) with ([e2; e1] ++ es2).
  rewrite !exec_all_app, Hes1. cbn [mbind option_bind].
  rewrite !exec_all_app.
  destruct (exec_all API_KEY w1 [e1; e2]) as [w12|] eqn:H12; [|done].
  rewrite (commute_exec _ _ _ w12); [done| |done|done].
  apply (inv_reachable API_KEY),
    (exec_all_reachable API_KEY initial_world es1); [constructor|done].
Qed.

End independence_props.

(** * On a sample run *)

Lemma details_then_list_independent :
  independent_events (world_after "k" three_pending)
    (FetchSettles 1 (Rejected NetworkFailure))
    (FetchSettles 2 (Rejected NetworkFailure)).
Proof.
  exists (Finish 1 DetailsTask (Rejected NetworkFailure)),
    (Finish 2 (ListTask "Failed to fetch popular movies")
       (Rejected NetworkFailure)).
  split_and!; [..|done].
  - apply (resolves_rejection _ 1 (details_url_of "k" "1") details_on_fetch);
      [by vm_compute|constructor].
  - apply (resolves_rejection _ 2 (popular_url "k")
             (list_on_fetch "Failed to fetch popular movies"));
      [by vm_compute|constructor].
Qed.

Lemma independent_commute_witness :
  exists w2,
    step "k" (world_after "k" three_pending)
      (FetchSettles 2 (Rejected NetworkFailure)) w2 /\
    step "k" w2 (FetchSettles 1 (Rejected NetworkFailure))
      (world_after "k" (three_pending ++ details_then_list)).
Proof.
  apply (independent_commute "k" (world_after "k" three_pending) _ _
           (world_after "k"
              (three_pending ++ [FetchSettles 1 (Rejected NetworkFailure)]))).
  - apply world_after_reachable. by eexists; vm_compute.
  - apply details_then_list_independent.
  - apply exec_step. by vm_compute.
  - apply exec_step. by vm_compute.
Defined.

Lemma independent_runs_witness :
  exec_all "k" initial_world
    (three_pending ++ [FetchSettles 2 (Rejected NetworkFailure);
                       FetchSettles 1 (Rejected NetworkFailure)]) =
  Some (world_after "k" (three_pending ++ details_then_list)).
Proof.
  apply (independent_runs "k" three_pending _ _ []
           (world_after "k" three_pending)).
  - by vm_compute.
  - apply details_then_list_independent.
  - by vm_compute.
Defined.
