(* ===== verification/Budget.v ===== *)
(** * Budget: what a run of the application can use

    src/App.js bounds nothing itself: every press on Search, on Popular
    Movies and on an item of the list starts a request (the calls of
    [fetch] of lines 22, 40 and 57), and no request is cancelled.  What bounds a run is the
    shape of the handlers: a handler awaits [fetch] and then
    [response.json()], and a resumed handler starts no request.

    For a run of the machine of [Machine] from its start, counted by
    its events:

    - the identifiers given out are at most the presses that start a
      request ([starts_request]);
    - the handlers pending are at most the identifiers given out;
    - the network is heard at most twice per request: the settlements
      of the run and the promises still awaited are together at most
      twice the identifiers;
    - the console has at most one line per settlement.

    [run_budget] states the four bounds for a run between two worlds,
    [initial_run_budget] from the start. *)

From stdpp Require Import gmap.
From S2P Require Import Prelude JsValue Async ViewState Url Samples.
From S2P Require Import Controller Machine Drain.

Open Scope string_scope.
Open Scope list_scope.

Section budget.
Context {num : Type} `{!JsNumber num}.
Implicit Types (w : World num) (e : event num) (es : list (event num)).

(** The gestures whose handler calls [fetch]: [searchMovies] (lines
    18-35), [fetchPopularMovies] (lines 37-53) and [openMovieModal]
    (lines 74-78, through [fetchMovieDetails]). *)
Definition starts_request e : bool :=
  match e with
  | PressSearch | PressPopular | PressMovie _ => true
  | _ => false
  end.

Definition is_settlement e : bool :=
  match e with
  | FetchSettles _ _ | JsonSettles _ => true
  | _ => false
  end.

(** The events of a run on which [f] holds. *)
Definition tally (f : event num -> bool) es : nat :=
  length (List.filter f es).

Definition cost (f : event num -> bool) e : nat := if f e then 1 else 0.

(** The bounds of a run from [w] to [w'] through [es]. *)
Record within_budget w es w' : Prop := mkBudget {
  budget_ids : next_id w' <= next_id w + tally starts_request es;
  budget_ids_mono : next_id w <= next_id w';
  budget_network :
    tally is_settlement es + work (pending w') + 2 * next_id w <=
    work (pending w) + 2 * next_id w';
  budget_console :
    length (console w') <= length (console w) + tally is_settlement es;
}.

End budget.

(** * Properties *)

Section budget_props.
Context {num : Type} `{!JsNumber num}.
Variable API_KEY : string.
Implicit Types (w : World num) (e : event num) (es : list (event num))
  (m : gmap nat (task num)).

Lemma tally_nil (f : event num -> bool) : tally f [] = 0.
Proof. reflexivity. Qed.

Lemma tally_cons (f : event num -> bool) e es :
  tally f (e :: es) = cost f e + tally f es.
Proof. unfold tally, cost. simpl. by destruct (f e). Qed.

Lemma tally_le (f : event num -> bool) es : tally f es <= length es.
Proof.
  induction es as [|e es IH]; [done|].
  rewrite tally_cons. unfold cost. destruct (f e); simpl; lia.
Qed.

Lemma is_settlement_settles e :
  is_settlement e = true <-> is_Some (settles e).
Proof. destruct e; simpl; split; (done || eauto || by intros [? [=]]). Qed.

(** A table whose identifiers are below [n] has at most [n] entries. *)
Lemma ids_below_size n m : ids_below n m -> size m <= n.
Proof.
  intros Hm. rewrite <-size_dom, <-(size_set_seq (C := gset nat) 0 n).
  apply subseteq_size. intros id Hid%elem_of_dom.
  apply elem_of_set_seq. specialize (Hm id Hid). lia.
Qed.

(** ** One event *)

(** A gesture writes no line and settles nothing: it leaves the table,
    or it is a press that starts a request and suspends its handler on
    [fetch] under the next identifier. *)
Lemma gesture_cost w e w' :
  inv w -> is_settlement e = false -> step API_KEY w e w' ->
  console w' = console w /\
  ((next_id w' = next_id w /\ pending w' = pending w) \/
   (starts_request e = true /\ next_id w' = S (next_id w) /\
    exists url k, pending w' = <[next_id w := TFetch url k]> (pending w))).
Proof.
  intros Hw He Hstep.
  destruct Hstep as [w text|w|w|w item Hp|w Hm|w Hc| |]; try done;
    (split; [try done|]); try by left.
  - rewrite searchMovies_unfold. by case_match.
  - rewrite searchMovies_unfold. case_match; [by left|].
    right. split_and!; [done..|]. by do 2 eexists.
  - right. split_and!; [done..|]. by do 2 eexists.
  - apply pressable_item_ok in Hp.
    unfold start. by rewrite openMovieModal_pressed.
  - apply pressable_item_ok in Hp.
    unfold start. rewrite openMovieModal_pressed by done.
    right. split_and!; [done..|]. by do 2 eexists.
Qed.

(** A settlement gives out no identifier and writes at most one
    line. *)
Lemma settle_cost w e w' :
  inv w -> is_settlement e = true -> step API_KEY w e w' ->
  next_id w' = next_id w /\ length (console w') <= S (length (console w)).
Proof.
  intros Hw He Hstep.
  destruct Hstep as [| | | | | |w id url k o Hid|w id r k Hid]; try done;
    destruct (inv_tasks _ Hw id _ Hid) as (kd & Ht & _);
    unfold resume; inversion Ht; subst.
  - rewrite list_on_fetch_run. destruct o; simpl; lia.
  - rewrite details_on_fetch_run.
    destruct o; simpl; rewrite ?length_app; simpl; lia.
  - rewrite list_on_json_run. simpl. lia.
  - rewrite details_on_json_run. destruct (json_outcome r) as [data|err];
      cbn -[details_handler]; [|rewrite length_app; simpl; lia].
    split; [done|]. unfold details_console. case_match; [|lia].
    rewrite length_app. simpl. lia.
Qed.

Lemma within_budget_refl w : within_budget w [] w.
Proof. constructor; rewrite ?tally_nil; lia. Qed.

(** One event is within the budget. *)
Lemma step_budget w e w' :
  inv w -> step API_KEY w e w' -> within_budget w [e] w'.
Proof.
  intros Hw Hstep. destruct (is_settlement e) eqn:He.
  - destruct (settle_cost _ _ _ Hw He Hstep) as [Hn Hc].
    pose proof He as [id Hid]%is_settlement_settles.
    pose proof (settle_decreases_work API_KEY _ _ _ _ Hw Hid Hstep).
    constructor; rewrite ?tally_cons, ?tally_nil; unfold cost;
      rewrite ?He; lia.
  - destruct (gesture_cost _ _ _ Hw He Hstep)
      as [Hc [[Hn Hp]|(Hr & Hn & url & k & Hp)]];
      constructor; rewrite ?tally_cons, ?tally_nil; unfold cost;
      rewrite ?He, ?Hr, ?Hc, ?Hn, ?Hp; try lia.
    rewrite work_insert
      by apply (ids_below_fresh _ _ (inv_ids _ Hw)). simpl. lia.
Qed.

Lemma within_budget_cons w e w1 es w' :
  within_budget w [e] w1 -> within_budget w1 es w' ->
  within_budget w (e :: es) w'.
Proof.
  intros [H1 H2 H3 H4] [H1' H2' H3' H4'].
  rewrite !tally_cons, !tally_nil in *.
  constructor; rewrite ?tally_cons; lia.
Qed.

Lemma exec_all_budget w es w' :
  inv w -> exec_all API_KEY w es = Some w' -> within_budget w es w'.
Proof.
  revert w. induction es as [|e es IH]; intros w Hw; simpl.
  - intros [= <-]. apply within_budget_refl.
  - destruct (exec API_KEY w e) as [w1|] eqn:Hex; [|done]. simpl.
    apply exec_Some_step in Hex. intros Hrun.
    apply (within_budget_cons _ _ w1); [by apply step_budget|].
    apply IH; [|done]. by apply (inv_step API_KEY w e).
Qed.

(** ** Theorems *)

(** A run between two worlds is within its budget: identifiers by the
    presses that start a request, settlements by twice the identifiers
    given out and the promises awaited before, lines of the console by
    the settlements. *)
Theorem run_budget w es w' :
  reachable API_KEY w -> exec_all API_KEY w es = Some w' ->
  within_budget w es w' /\ size (pending w') <= next_id w'.
Proof.
  intros Hw Hrun.
  split; [apply exec_all_budget; [by apply (inv_reachable API_KEY)|done]|].
  apply ids_below_size, inv_ids, (inv_reachable API_KEY).
  by apply (exec_all_reachable API_KEY w es).
Qed.

(** C20. The bounds of a run from the start, in the length of the run: at
    most one identifier per press that starts a request, at most that
    many handlers pending, and at most two settlements per identifier,
    those that are still to come included. *)
Theorem initial_run_budget es w :
  exec_all API_KEY initial_world es = Some w ->
  next_id w <= tally starts_request es <= length es /\
  size (pending w) <= next_id w /\
  tally is_settlement es + work (pending w) <= 2 * next_id w /\
  length (console w) <= tally is_settlement es.
Proof.
  intros Hrun.
  destruct (exec_all_budget initial_world es w) as [H1 _ H3 H4];
    [apply inv_initial|done|].
  assert (size (pending w) <= next_id w) as Hs.
  { apply ids_below_size, inv_ids, (inv_reachable API_KEY).
    by apply (exec_all_reachable API_KEY initial_world es); [constructor|]. }
  pose proof (tally_le starts_request es).
  cbn [initial_world pending next_id console] in *.
  rewrite (work_empty (num := num)) in H3. simpl in *. split_and!; lia.
Qed.

End budget_props.

Lemma run_budget_witness :
  within_budget (world_after "k" (take 4 three_pending))
    (drop 4 three_pending) (world_after "k" three_pending) /\
  size (pending (world_after "k" three_pending)) <=
  next_id (world_after "k" three_pending).
Proof.
  apply (run_budget "k").
  - apply world_after_reachable. by eexists; vm_compute.
  - by vm_compute.
Defined.

Lemma initial_run_budget_witness :
  next_id (world_after "k" three_pending) <=
    tally starts_request three_pending <= length three_pending /\
  size (pending (world_after "k" three_pending)) <=
    next_id (world_after "k" three_pending) /\
  tally is_settlement three_pending +
    work (pending (world_after "k" three_pending)) <=
    2 * next_id (world_after "k" three_pending) /\
  length (console (world_after "k" three_pending)) <=
    tally is_settlement three_pending.
Proof. apply (initial_run_budget "k"). by vm_compute. Defined.
