(* ===== verification/Secret.v ===== *)
(** * Secret: where the key of the catalogue goes

    src/App.js, line 16, and section 6 of the specification: the
    source has one secret, [API_KEY].  It is interpolated into the
    three addresses that the handlers request (lines 23, 41 and 58) and
    nowhere else.

    - Every request in flight goes to one of the three endpoints of the
      catalogue, with the key as its parameter [api_key]
      ([requests_to_catalogue]): whatever the user types and whatever
      identifier the catalogue gave a movie, the text before the host
      is the same.
    - Nothing else depends on the key ([key_not_observable]): two runs
      of the machine on the same gestures and the same answers, with
      two different keys, show the same screens, write the same console
      and suspend the same handlers; their requests differ in the key
      only.  So the key reaches neither the screen, the console, the
      images of the catalogue, the video platform nor the pages that the
      links open.

    The second statement is about two runs: [key_sim] relates the worlds
    of the two, and [key_step] shows that one transition keeps them
    related.  That the answers are the same in both is the hypothesis:
    what the catalogue answers to a key is the catalogue's business. *)

From Stdlib Require Import String.
From stdpp Require Import gmap.
From S2P Require Import Prelude JsValue Async ViewState Url Styles Samples.
From S2P Require Import Render Controller Machine.

Open Scope string_scope.
Open Scope list_scope.

(** The endpoints of the catalogue that the source requests: lines 23,
    41 and 58. *)
Inductive endpoint : Type :=
| Search (query : string)
| Popular
| Details (id : string).

(** The text that every request starts with. *)
Definition catalogue : string := "https://api.themoviedb.org/3/".

Definition to_catalogue (url : string) : bool := String.prefix catalogue url.

(** A run for the examples: a search is answered, Batman is opened,
    and the popular list is requested. *)
Definition searched_and_opened : list (event Z) :=
  [ChangeText "bat"; PressSearch;
   FetchSettles 0 (answer_ok (list_body [batman])); JsonSettles 0;
   PressMovie batman; PressClose; PressPopular].

Section secret.
Context {num : Type} `{!JsNumber num}.
Implicit Types (w : World num) (e : event num) (t : task num)
  (st : status num (ViewState num) unit) (ep : endpoint).

Definition endpoint_url (API_KEY : string) ep : string :=
  match ep with
  | Search query => search_url API_KEY query
  | Popular => popular_url API_KEY
  | Details id => details_url_of API_KEY id
  end.

Variables key1 key2 : string.

(** Two segments stop at the same place, up to the key in the address
    of a request. *)
Inductive status_sim : relation (status num (ViewState num) unit) :=
| status_sim_same st : status_sim st st
| status_sim_request ep k :
    status_sim (OnFetch (endpoint_url key1 ep) k)
               (OnFetch (endpoint_url key2 ep) k).

Inductive task_sim : relation (task num) :=
| task_sim_same t : task_sim t t
| task_sim_request ep k :
    task_sim (TFetch (endpoint_url key1 ep) k)
             (TFetch (endpoint_url key2 ep) k).

(** Two programs that do the same up to their next [await], up to the
    key in the address that they request there. *)
Definition prog_sim (p1 p2 : prog num (ViewState num) unit) : Prop :=
  forall s c,
    (run p1 s c).1 = (run p2 s c).1 /\
    status_sim (run p1 s c).2 (run p2 s c).2.

(** The world of the run with [key1] and the world of the run with
    [key2]: equal up to the key in the addresses of the requests in
    flight. *)
Record key_sim w1 w2 : Prop := mkKeySim {
  sim_view : view w1 = view w2;
  sim_console : console w1 = console w2;
  sim_next_id : next_id w1 = next_id w2;
  sim_unhandled : unhandled w1 = unhandled w2;
  sim_pending : map_Forall2 (fun _ => task_sim) (pending w1) (pending w2);
}.

End secret.

(** * Properties *)

Section secret_props.
Context {num : Type} `{!JsNumber num}.
Implicit Types (w : World num) (e : event num) (t : task num)
  (st : status num (ViewState num) unit) (ep : endpoint)
  (s : ViewState num) (c : list log_entry)
  (p : prog num (ViewState num) unit) (item : value num).

(** ** The requests go to the catalogue *)

Lemma endpoint_to_catalogue API_KEY ep :
  to_catalogue (endpoint_url API_KEY ep) = true.
Proof. by destruct ep. Qed.

(** What a transition adds to the requests in flight is a request to
    an endpoint. *)
Lemma step_requests API_KEY w e w' id url k :
  inv w -> step API_KEY w e w' -> pending w' !! id = Some (TFetch url k) ->
  pending w !! id = Some (TFetch url k) \/
  exists ep, url = endpoint_url API_KEY ep.
Proof.
  intros Hw Hstep.
  destruct Hstep as [w text|w|w|w item Hp|w Hm|w Hc|w id' url' k' o Hid
                    |w id' r' k' Hid]; try by left.
  - rewrite searchMovies_unfold. case_match; [by left|].
    unfold start. rewrite list_request_run. simpl.
    intros [[_ [= <- _]]|[_ ?]]%lookup_insert_Some; [right|by left].
    by eexists (Search _).
  - unfold start. rewrite fetchPopularMovies_unfold, list_request_run. simpl.
    intros [[_ [= <- _]]|[_ ?]]%lookup_insert_Some; [right|by left].
    by exists Popular.
  - apply pressable_item_ok in Hp.
    unfold start. rewrite openMovieModal_pressed by done. simpl.
    intros [[_ [= <- _]]|[_ ?]]%lookup_insert_Some; [right|by left].
    by eexists (Details _).
  - destruct (inv_tasks _ Hw id' _ Hid) as (kd & Ht & _).
    unfold resume. inversion Ht; subst.
    + rewrite list_on_fetch_run. destruct o; simpl.
      * intros [[_ [=]]|[_ [_ ?]%lookup_delete_Some]]%lookup_insert_Some.
        by left.
      * intros [_ ?]%lookup_delete_Some. by left.
    + rewrite details_on_fetch_run. destruct o; simpl.
      * intros [[_ [=]]|[_ [_ ?]%lookup_delete_Some]]%lookup_insert_Some.
        by left.
      * intros [_ ?]%lookup_delete_Some. by left.
  - destruct (inv_tasks _ Hw id' _ Hid) as (kd & Ht & _).
    unfold resume. inversion Ht; subst.
    + rewrite list_on_json_run. simpl.
      intros [_ ?]%lookup_delete_Some. by left.
    + rewrite details_on_json_run.
      destruct (json_outcome r'); simpl;
        intros [_ ?]%lookup_delete_Some; by left.
Qed.

Lemma reachable_requests API_KEY w id url k :
  reachable API_KEY w -> pending w !! id = Some (TFetch url k) ->
  exists ep, url = endpoint_url API_KEY ep.
Proof.
  intros Hw. revert id url k.
  induction Hw as [|w e w' Hw IH Hstep]; intros id url k Hid.
  { simpl in Hid. by rewrite lookup_empty in Hid. }
  destruct (step_requests _ _ _ _ _ _ _ (inv_reachable _ _ Hw) Hstep Hid);
    eauto.
Qed.

(** ** Two runs with two keys *)

Section two_keys.
Variables key1 key2 : string.

Lemma prog_sim_refl p : prog_sim key1 key2 p p.
Proof. intros s c. split; [done|constructor]. Qed.

Lemma prog_sim_list_request ep msg :
  prog_sim key1 key2 (list_request (endpoint_url key1 ep) msg)
           (list_request (endpoint_url key2 ep) msg).
Proof. intros s c. rewrite !list_request_run. split; [done|constructor]. Qed.

Lemma prog_sim_searchMovies query :
  prog_sim key1 key2 (searchMovies key1 query) (searchMovies key2 query).
Proof.
  rewrite !searchMovies_unfold. case_match; [apply prog_sim_refl|].
  apply (prog_sim_list_request (Search query)).
Qed.

Lemma prog_sim_openMovieModal item :
  item_ok item = true ->
  prog_sim key1 key2 (openMovieModal key1 item) (openMovieModal key2 item).
Proof.
  intros Hok s c. rewrite !openMovieModal_pressed by done.
  split; [done|]. apply (status_sim_request key1 key2 (Details _)).
Qed.

Lemma key_sim_initial :
  key_sim key1 key2 (initial_world (num := num)) initial_world.
Proof. constructor; try done. apply map_Forall2_empty. Qed.

(** The table after a segment that stopped at related places. *)
Lemma suspend_sim id st1 st2 (m1 m2 : gmap nat (task num)) :
  status_sim key1 key2 st1 st2 ->
  map_Forall2 (fun _ => task_sim key1 key2) m1 m2 ->
  map_Forall2 (fun _ => task_sim key1 key2)
    (suspend id st1 m1) (suspend id st2 m2) /\
  is_suspended st1 = is_suspended st2 /\
  forall u, note_rejection st1 u = note_rejection st2 u.
Proof.
  intros [st|ep k] Hm; [destruct st|]; simpl; split_and!; try done;
    apply map_Forall2_insert_2; try done; constructor.
Qed.

(** A gesture starts related handlers in related worlds. *)
Lemma start_sim p1 p2 w1 w2 :
  key_sim key1 key2 w1 w2 -> prog_sim key1 key2 p1 p2 ->
  key_sim key1 key2 (start p1 w1) (start p2 w2).
Proof.
  intros [Hv Hc Hn Hu Hp] Hsim. unfold start. rewrite Hv, Hc, Hn, Hu.
  destruct (Hsim (view w2) (console w2)) as [Hsc Hst].
  destruct (run p1 _ _) as [[s1 c1] st1], (run p2 _ _) as [[s2 c2] st2].
  simpl in Hsc, Hst. injection Hsc as -> ->.
  destruct (suspend_sim (next_id w2) _ _ _ _ Hst Hp) as (Hp' & Hs & Hr).
  constructor; simpl; rewrite ?Hs, ?Hr; done.
Qed.

(** A settlement resumes the same continuation in both. *)
Lemma resume_sim id p w1 w2 :
  key_sim key1 key2 w1 w2 ->
  key_sim key1 key2 (resume id p w1) (resume id p w2).
Proof.
  intros [Hv Hc Hn Hu Hp]. unfold resume. rewrite Hv, Hc, Hu.
  destruct (run p _ _) as [[s c] st].
  destruct (suspend_sim id st st _ _ (status_sim_same _ _ st)
              (map_Forall2_delete _ _ _ id Hp)) as (Hp' & _ & _).
  by constructor.
Qed.

(** The task that a settlement resumes is the same in both worlds, up
    to the address. *)
Lemma key_sim_lookup w1 w2 id t1 :
  key_sim key1 key2 w1 w2 -> pending w1 !! id = Some t1 ->
  exists t2, pending w2 !! id = Some t2 /\ task_sim key1 key2 t1 t2.
Proof.
  intros Hs Hid. pose proof (sim_pending _ _ _ _ Hs id) as H.
  rewrite Hid in H. inversion H; subst. eauto.
Qed.

(** One transition keeps the two runs related. *)
Lemma key_exec w1 w2 e w1' :
  key_sim key1 key2 w1 w2 -> exec key1 w1 e = Some w1' ->
  exists w2', exec key2 w2 e = Some w2' /\ key_sim key1 key2 w1' w2'.
Proof.
  intros Hs. pose proof (sim_view _ _ _ _ Hs) as Hv.
  destruct e as [text| | |item| | |id o|id]; simpl; rewrite <-?Hv.
  - intros [= <-]. eauto using start_sim, prog_sim_refl.
  - intros [= <-]. eauto using start_sim, prog_sim_searchMovies.
  - intros [= <-]. eexists; split; [done|].
    apply start_sim; [done|]. apply (prog_sim_list_request Popular).
  - destruct (pressable item (view w1)) eqn:Hp; intros [= <-].
    eexists; split; [done|]. apply start_sim; [done|].
    apply prog_sim_openMovieModal. by eapply pressable_item_ok.
  - case_match; intros [= <-]. eauto using start_sim, prog_sim_refl.
  - case_match; intros [= <-]. eauto using start_sim, prog_sim_refl.
  - destruct (pending w1 !! id) as [[url k|]|] eqn:Hid; intros [= <-].
    destruct (key_sim_lookup _ _ _ _ Hs Hid) as (t2 & -> & Ht).
    inversion Ht; subst; eauto using resume_sim.
  - destruct (pending w1 !! id) as [[|r k]|] eqn:Hid; intros [= <-].
    destruct (key_sim_lookup _ _ _ _ Hs Hid) as (t2 & -> & Ht).
    inversion Ht; subst; eauto using resume_sim.
Qed.

Lemma key_exec_all w1 w2 es w1' :
  key_sim key1 key2 w1 w2 -> exec_all key1 w1 es = Some w1' ->
  exists w2', exec_all key2 w2 es = Some w2' /\ key_sim key1 key2 w1' w2'.
Proof.
  revert w1 w2. induction es as [|e es IH]; intros w1 w2 Hs; simpl.
  - intros [= <-]. eauto.
  - destruct (exec key1 w1 e) as [w1''|] eqn:He; [|done]. simpl.
    destruct (key_exec _ _ _ _ Hs He) as (w2'' & -> & Hs'). simpl.
    by apply IH.
Qed.

End two_keys.

(** ** Theorems *)

(** C24. Every request in flight goes to one of the three endpoints of the
    catalogue: whatever was typed and whatever identifier a movie has,
    the address starts with the host and the path of the catalogue. *)
Theorem requests_to_catalogue API_KEY w id url k :
  reachable API_KEY w -> pending w !! id = Some (TFetch url k) ->
  to_catalogue url = true /\ exists ep, url = endpoint_url API_KEY ep.
Proof.
  intros Hw Hid. destruct (reachable_requests _ _ _ _ _ Hw Hid) as [ep ->].
  split; [apply endpoint_to_catalogue|by exists ep].
Qed.

(** C23. Nothing but the requests depends on the key: the run of the same
    gestures and answers with another key is possible, and ends in a
    world with the same state, the same screen, the same console, and
    the same handlers suspended on requests that differ in the key
    only. *)
Theorem key_not_observable key1 key2 es w1 :
  exec_all key1 initial_world es = Some w1 ->
  exists w2, exec_all key2 initial_world es = Some w2 /\
    view w2 = view w1 /\ console w2 = console w1 /\
    map_Forall2 (fun _ => task_sim key1 key2) (pending w1) (pending w2).
Proof.
  intros Hrun.
  destruct (key_exec_all key1 key2 _ _ _ _ (key_sim_initial _ _) Hrun)
    as (w2 & Hrun2 & [Hv Hc _ _ Hp]).
  by exists w2.
Qed.

End secret_props.

(** * On a sample run *)

Lemma requests_to_catalogue_witness :
  to_catalogue
    "https://api.themoviedb.org/3/movie/1?api_key=k&append_to_response=videos,watch/providers"
    = true /\
  exists ep,
    "https://api.themoviedb.org/3/movie/1?api_key=k&append_to_response=videos,watch/providers"
    = endpoint_url "k" ep.
Proof.
  apply (requests_to_catalogue "k" (world_after "k" searched_and_opened) 1
           _ details_on_fetch).
  - apply world_after_reachable. by eexists; vm_compute.
  - by vm_compute.
Defined.

Lemma key_not_observable_witness :
  exists w2, exec_all "another" initial_world searched_and_opened = Some w2 /\
    view w2 = view (world_after "k" searched_and_opened) /\
    console w2 = console (world_after "k" searched_and_opened) /\
    map_Forall2 (fun _ => task_sim "k" "another")
      (pending (world_after "k" searched_and_opened)) (pending w2).
Proof. apply (key_not_observable "k" "another"). by vm_compute. Defined.
