(* ===== verification/Spec.v ===== *)
(** * Spec: the controller of the design document, and the code against it

    The design document (sections 3 and 4.1) describes the controller
    as a typed client: a state with a sequence of movies, an optional
    error, an optional selection, an optional trailer key and a sequence
    of providers, and the operations [search], [listPopular],
    [openDetail] and [closeDetail], each request settling later with a
    success or a failure.  This file holds that description
    ([SpecState], [spec_exec]), written from the document and not from
    the code, and relates the code to it.

    - [abstract] reads a [ViewState] of the code as a state of the
      document, when its cells hold data of the document's types;
      [decode] reads an answer of the catalogue as a success or a
      failure of the document.
    - [refines] relates a world of [Machine] to a world of the document:
      same state, same requests in flight.
    - [spec_simulation]: every transition of the code, on an answer that
      [decode] can read, is a transition of the document or leaves its
      world as it is (the answer of [fetch] that still has a body to
      read), provided [openDetail] is read as keeping the trailer and
      the providers of the movie opened before.  The document says it
      clears them: [spec_exec] takes the reading as a parameter, and
      [openDetail_keeps_details] and [stale_details_shown] show that the
      code implements the one and not the other. *)

From stdpp Require Import gmap.
From S2P Require Import Prelude JsValue Async ViewState Url Samples.
From S2P Require Import Render Controller Machine.

Open Scope string_scope.
Open Scope list_scope.

(** ** The state of the document (section 3, ViewState) *)

Record SpecState (num : Type) : Type := mkSpecState {
  sp_query : string;
  sp_movies : list (value num);
  sp_loading : bool;
  sp_error : option string;
  sp_selectedMovie : option (value num);
  sp_modalOpen : bool;
  sp_trailerKey : option string;
  sp_providers : list (value num);
}.
Arguments mkSpecState {num}.
Arguments sp_query {num} st : rename.
Arguments sp_movies {num} st : rename.
Arguments sp_loading {num} st : rename.
Arguments sp_error {num} st : rename.
Arguments sp_selectedMovie {num} st : rename.
Arguments sp_modalOpen {num} st : rename.
Arguments sp_trailerKey {num} st : rename.
Arguments sp_providers {num} st : rename.

(** What a request settles with: the sequence of a list answer, the
    trailer key and the providers of a detail answer, or a failure
    (transport or parse, section 7). *)
Inductive answer (num : Type) : Type :=
| ListAnswer (results : list (value num))
| DetailAnswer (trailerKey : option string) (providers : list (value num))
| Failure.
Arguments ListAnswer {num} results.
Arguments DetailAnswer {num} trailerKey providers.
Arguments Failure {num}.

(** The state and the requests in flight, by identifier; a request is
    known by its kind ([Machine.task_kind]: a list request with the
    message of its failure, or a detail request). *)
Record SpecWorld (num : Type) : Type := mkSpecWorld {
  sp_state : SpecState num;
  sp_pending : gmap nat task_kind;
  sp_next : nat;
}.
Arguments mkSpecWorld {num}.
Arguments sp_state {num} a : rename.
Arguments sp_pending {num} a : rename.
Arguments sp_next {num} a : rename.

(** The operations of section 4.1, the edit of the query, and the
    settlement of a request. *)
Inductive spec_event (num : Type) : Type :=
| DoSetQuery (text : string)
| DoSearch
| DoListPopular
| DoOpenDetail (movie : value num)
| DoCloseDetail
| DoSettle (id : nat) (ans : answer num).
Arguments DoSetQuery {num} text.
Arguments DoSearch {num}.
Arguments DoListPopular {num}.
Arguments DoOpenDetail {num} movie.
Arguments DoCloseDetail {num}.
Arguments DoSettle {num} id ans.

Section spec.
Context {num : Type} `{!JsNumber num}.
Implicit Types (st : SpecState num) (a : SpecWorld num) (ans : answer num)
  (kd : task_kind) (s : ViewState num) (w : World num) (e : event num)
  (v movie : value num) (o : outcome (response num)).

(** Section 3, Lifecycle: all fields empty or false. *)
Definition spec_initial : SpecWorld num :=
  mkSpecWorld (mkSpecState EmptyString [] false None None false None []) ∅ 0.

Definition set_query (text : string) st : SpecState num :=
  mkSpecState text (sp_movies st) (sp_loading st) (sp_error st)
    (sp_selectedMovie st) (sp_modalOpen st) (sp_trailerKey st)
    (sp_providers st).

(** [search] and [listPopular], first effect: [loading = true]. *)
Definition begin_list st : SpecState num :=
  mkSpecState (sp_query st) (sp_movies st) true (sp_error st)
    (sp_selectedMovie st) (sp_modalOpen st) (sp_trailerKey st)
    (sp_providers st).

(** [search] and [listPopular], when the request settles: on success
    [movies] is replaced and [error] cleared; on a failure [error] is
    the fixed message and [movies] is as before; [loading] is cleared
    on every path. *)
Definition settle_list (msg : string) ans st : SpecState num :=
  match ans with
  | ListAnswer results =>
      mkSpecState (sp_query st) results false None
        (sp_selectedMovie st) (sp_modalOpen st) (sp_trailerKey st)
        (sp_providers st)
  | DetailAnswer _ _ | Failure =>
      mkSpecState (sp_query st) (sp_movies st) false (Some msg)
        (sp_selectedMovie st) (sp_modalOpen st) (sp_trailerKey st)
        (sp_providers st)
  end.

(** [openDetail], the synchronous part.  The document clears
    [trailerKey] and [providers] ([clears = true]). *)
Definition open_detail (clears : bool) movie st : SpecState num :=
  mkSpecState (sp_query st) (sp_movies st) (sp_loading st) (sp_error st)
    (Some movie) true
    (if clears then None else sp_trailerKey st)
    (if clears then [] else sp_providers st).

(** [openDetail], when the request settles: a failure changes
    nothing. *)
Definition settle_detail ans st : SpecState num :=
  match ans with
  | DetailAnswer key providers =>
      mkSpecState (sp_query st) (sp_movies st) (sp_loading st) (sp_error st)
        (sp_selectedMovie st) (sp_modalOpen st) key providers
  | ListAnswer _ | Failure => st
  end.

(** [closeDetail]: the selection and the details stay. *)
Definition close_detail st : SpecState num :=
  mkSpecState (sp_query st) (sp_movies st) (sp_loading st) (sp_error st)
    (sp_selectedMovie st) false (sp_trailerKey st) (sp_providers st).

Definition settle kd ans st : SpecState num :=
  match kd with
  | ListTask msg => settle_list msg ans st
  | DetailsTask => settle_detail ans st
  end.

(** A request is issued under the next identifier. *)
Definition issue kd st a : SpecWorld num :=
  mkSpecWorld st (<[sp_next a := kd]> (sp_pending a)) (S (sp_next a)).

Definition with_state st a : SpecWorld num :=
  mkSpecWorld st (sp_pending a) (sp_next a).

(** The transitions of the document; [None] when the operation is not
    possible: [openDetail] asks for a movie of [movies], and a request
    settles once. *)
Definition spec_exec (clears : bool) a (ev : spec_event num)
  : option (SpecWorld num) :=
  match ev with
  | DoSetQuery text => Some (with_state (set_query text (sp_state a)) a)
  | DoSearch =>
      if decide (sp_query (sp_state a) = EmptyString) then Some a
      else Some (issue (ListTask "Failed to fetch movies")
                   (begin_list (sp_state a)) a)
  | DoListPopular =>
      Some (issue (ListTask "Failed to fetch popular movies")
              (begin_list (sp_state a)) a)
  | DoOpenDetail movie =>
      if decide (movie ∈ sp_movies (sp_state a))
      then Some (issue DetailsTask (open_detail clears movie (sp_state a)) a)
      else None
  | DoCloseDetail => Some (with_state (close_detail (sp_state a)) a)
  | DoSettle id ans =>
      kd ← sp_pending a !! id;
      Some (mkSpecWorld (settle kd ans (sp_state a))
              (delete id (sp_pending a)) (sp_next a))
  end.

Inductive spec_reachable (clears : bool) : SpecWorld num -> Prop :=
| spec_reachable_initial : spec_reachable clears spec_initial
| spec_reachable_step a ev a' :
    spec_reachable clears a -> spec_exec clears a ev = Some a' ->
    spec_reachable clears a'.

(** ** Reading the code as the document *)

(** A trailer key of the document: a text, unset when the cell is
    [null], [undefined] or the empty text.  Another value is no key of
    the document. *)
Definition abstract_key v : option (option string) :=
  match v with
  | VUndefined | VNull => Some None
  | VStr k => Some (if decide (k = EmptyString) then None else Some k)
  | _ => None
  end.

Definition abstract_error (msg : string) : option string :=
  if decide (msg = EmptyString) then None else Some msg.

Definition abstract_selected v : option (value num) :=
  if nullish v then None else Some v.

(** The state of the document that a state of the code stands for:
    [None] when [movies] or [downloadLinks] is no array or [trailerUrl]
    no key. *)
Definition abstract s : option (SpecState num) :=
  match movies s, downloadLinks s, abstract_key (trailerUrl s) with
  | VArr l, VArr ps, Some key =>
      Some (mkSpecState (query s) l (loading s) (abstract_error (error s))
              (abstract_selected (selectedMovie s)) (modalVisible s) key ps)
  | _, _, _ => None
  end.

(** The answer of the document that an answer of the catalogue stands
    for: [None] when the answer has another shape than section 6
    gives it. *)
Definition decode_list o : option (answer num) :=
  match list_result o with
  | NewList (VArr l) => Some (ListAnswer l)
  | NewList _ | NoChange => None
  | Caught _ => Some Failure
  end.

Definition decode_details o : option (answer num) :=
  match o with
  | Rejected _ => Some Failure
  | Resolved r =>
      match body r with
      | None => Some Failure
      | Some data =>
          match find_trailer data with
          | Err _ => Some Failure
          | Ok trailer =>
              match abstract_key (opt_get trailer "key"),
                    or_default (us_flatrate data) (VArr []) with
              | Some key, VArr ps => Some (DetailAnswer key ps)
              | _, _ => None
              end
          end
      end
  end.

Definition decode kd o : option (answer num) :=
  match kd with
  | ListTask _ => decode_list o
  | DetailsTask => decode_details o
  end.

(** The answers that the document covers: the answer of [fetch] to a
    request in flight can be read. *)
Definition conforming a e : bool :=
  match e with
  | FetchSettles id o =>
      match sp_pending a !! id with
      | Some kd => bool_decide (is_Some (decode kd o))
      | None => true
      end
  | _ => true
  end.

(** The transition of the document that a transition of the code
    stands for: none for an answer of [fetch] whose body is still to be
    read. *)
Definition spec_event_of w a e : option (spec_event num) :=
  match e with
  | ChangeText text => Some (DoSetQuery text)
  | PressSearch => Some DoSearch
  | PressPopular => Some DoListPopular
  | PressMovie item => Some (DoOpenDetail item)
  | RequestClose | PressClose => Some DoCloseDetail
  | FetchSettles id (Rejected _) => Some (DoSettle id Failure)
  | FetchSettles id (Resolved _) => None
  | JsonSettles id =>
      match pending w !! id, sp_pending a !! id with
      | Some (TJson r _), Some kd => DoSettle id <$> decode kd (Resolved r)
      | _, _ => None
      end
  end.

Definition spec_follow (clears : bool) a (oev : option (spec_event num))
  : option (SpecWorld num) :=
  match oev with
  | Some ev => spec_exec clears a ev
  | None => Some a
  end.

(** The code and the document side by side on a run of the code:
    [None] when an event is not possible in the code, is an answer that
    the document does not cover, or is not possible in the document. *)
Fixpoint lockstep (API_KEY : string) (clears : bool) w a
    (es : list (event num)) : option (World num * SpecWorld num) :=
  match es with
  | [] => Some (w, a)
  | e :: es' =>
      if conforming a e then
        w' ← exec API_KEY w e;
        a' ← spec_follow clears a (spec_event_of w a e);
        lockstep API_KEY clears w' a' es'
      else None
  end.

(** A world of the code refines a world of the document: its state
    stands for the state of the document, the same requests are in
    flight, and the bodies still to be read can be read. *)
Record refines w a : Prop := mkRefines {
  refines_state : abstract (view w) = Some (sp_state a);
  refines_pending id :
    option_Forall2 task_of (pending w !! id) (sp_pending a !! id);
  refines_next : next_id w = sp_next a;
  refines_bodies id r k kd :
    pending w !! id = Some (TJson r k) -> sp_pending a !! id = Some kd ->
    is_Some (decode kd (Resolved r));
}.

(** The transitions of the code that the document covers: an answer of
    [fetch] can be read as an answer to the request it settles. *)
Definition covers w e : Prop :=
  forall id o t kd,
    e = FetchSettles id o -> pending w !! id = Some t -> task_of t kd ->
    is_Some (decode kd o).

Inductive covered_reachable (API_KEY : string) : World num -> Prop :=
| covered_initial : covered_reachable API_KEY initial_world
| covered_step w e w' :
    covered_reachable API_KEY w -> step API_KEY w e w' -> covers w e ->
    covered_reachable API_KEY w'.

End spec.

(** A run of the samples: the list, the details of [batman] (with a
    trailer and a provider), the modal closed, and [joker] opened. *)
(** The state of the document that [batman_open] stands for. *)
Definition batman_open_spec : SpecState Z :=
  mkSpecState "bat" [batman; joker] false None (Some batman) true
    (Some "y") [provider 8 "Netflix"].

Definition joker_after_batman : list (event Z) :=
  [PressPopular; FetchSettles 0 (answer_ok (list_body [batman; joker]));
   JsonSettles 0; PressMovie batman; FetchSettles 1 (answer_ok batman_details);
   JsonSettles 1; PressClose; PressMovie joker].

(** * Properties *)

Section spec_props.
Context {num : Type} `{!JsNumber num}.
Variable API_KEY : string.
Implicit Types (st : SpecState num) (a : SpecWorld num) (ans : answer num)
  (kd : task_kind) (s : ViewState num) (w : World num) (e : event num)
  (v movie : value num) (o : outcome (response num)) (t : task num)
  (id : nat) (c : list log_entry) (u : list exn).

(** ** What [abstract] makes of the setters *)

Lemma abstract_inv s st :
  abstract s = Some st ->
  exists l ps key,
    movies s = VArr l /\ downloadLinks s = VArr ps /\
    abstract_key (trailerUrl s) = Some key /\
    st = mkSpecState (query s) l (loading s) (abstract_error (error s))
           (abstract_selected (selectedMovie s)) (modalVisible s) key ps.
Proof.
  unfold abstract. intros H. repeat case_match; simplify_eq. eauto 10.
Qed.

(** [abstract_setter] proves that a state built from setters stands for
    a state built from the operations of the document. *)
Ltac abstract_setter :=
  intros; repeat match goal with
  | H : abstract _ = Some _ |- _ =>
      apply abstract_inv in H as (? & ? & ? & ? & ? & ? & ->)
  end;
  unfold abstract; simpl;
  repeat match goal with
  | H : movies _ = _ |- _ => rewrite H
  | H : downloadLinks _ = _ |- _ => rewrite H
  | H : abstract_key _ = _ |- _ => rewrite H
  end; simpl; try done.

Lemma abstract_setQuery text s st :
  abstract s = Some st -> abstract (setQuery text s) = Some (set_query text st).
Proof. abstract_setter. Qed.

Lemma abstract_begin_list s st :
  abstract s = Some st -> abstract (setLoading true s) = Some (begin_list st).
Proof. abstract_setter. Qed.

Lemma abstract_list_failure msg s st :
  msg <> EmptyString -> abstract s = Some st ->
  abstract (setLoading false (setError msg s)) =
  Some (settle_list msg Failure st).
Proof.
  abstract_setter. unfold abstract_error. by rewrite decide_False.
Qed.

Lemma abstract_list_success msg l s st :
  abstract s = Some st ->
  abstract (setLoading false (setError EmptyString (setMovies (VArr l) s))) =
  Some (settle_list msg (ListAnswer l) st).
Proof. abstract_setter. Qed.

Lemma abstract_open movie s st :
  nullish movie = false -> abstract s = Some st ->
  abstract (setModalVisible true (setSelectedMovie movie s)) =
  Some (open_detail false movie st).
Proof.
  abstract_setter. unfold abstract_selected.
  by match goal with H : nullish _ = false |- _ => rewrite H end.
Qed.

Lemma abstract_close s st :
  abstract s = Some st ->
  abstract (setModalVisible false s) = Some (close_detail st).
Proof. abstract_setter. Qed.

Lemma abstract_details v key ps s st :
  abstract_key v = Some key -> abstract s = Some st ->
  abstract (setDownloadLinks (VArr ps) (setTrailerUrl v s)) =
  Some (settle_detail (DetailAnswer key ps) st).
Proof. abstract_setter. Qed.

(** ** The shapes of a transition, in the code and in the document *)

Lemma refines_kind w a id t :
  refines w a -> pending w !! id = Some t ->
  exists kd, sp_pending a !! id = Some kd /\ task_of t kd.
Proof.
  intros Hr Hid. pose proof (refines_pending _ _ Hr id) as H.
  rewrite Hid in H. inversion H; subst. eauto.
Qed.

(** The state changes, the requests stay. *)
Lemma refines_keep w a s' st' c u :
  refines w a -> abstract s' = Some st' ->
  refines (mkWorld s' c (pending w) (next_id w) u) (with_state st' a).
Proof. intros [Hs Hp Hn Hb] Hs'. by constructor. Qed.

(** A request is issued. *)
Lemma refines_issue w a s' st' c u url k kd :
  refines w a -> abstract s' = Some st' -> task_of (TFetch url k) kd ->
  refines (mkWorld s' c (<[next_id w := TFetch url k]> (pending w))
             (S (next_id w)) u)
          (issue kd st' a).
Proof.
  intros [Hs Hp Hn Hb] Hs' Hk.
  constructor; simpl; [done| |by rewrite Hn|].
  - intros id. rewrite <-Hn. destruct (decide (id = next_id w)) as [->|Hne].
    + rewrite !lookup_insert_eq. by constructor.
    + by rewrite !lookup_insert_ne.
  - intros id r k' kd'. rewrite <-Hn.
    destruct (decide (id = next_id w)) as [->|Hne].
    + by rewrite lookup_insert_eq.
    + rewrite !lookup_insert_ne by done. apply Hb.
Qed.

(** The answer of [fetch] arrived: its body is still to be read. *)
Lemma refines_body w a id r k kd c u :
  refines w a -> sp_pending a !! id = Some kd -> task_of (TJson r k) kd ->
  is_Some (decode kd (Resolved r)) ->
  refines (mkWorld (view w) c (<[id := TJson r k]> (delete id (pending w)))
             (next_id w) u) a.
Proof.
  intros [Hs Hp Hn Hb] Hid Hk Hd. constructor; simpl; [done| |done|].
  - intros id'. destruct (decide (id' = id)) as [->|Hne].
    + rewrite lookup_insert_eq, Hid. by constructor.
    + rewrite lookup_insert_ne, lookup_delete_ne by done. apply Hp.
  - intros id' r' k' kd'. destruct (decide (id' = id)) as [->|Hne].
    + rewrite lookup_insert_eq. intros [= <- <-] Hid'. by simplify_eq.
    + rewrite lookup_insert_ne, lookup_delete_ne by done. apply Hb.
Qed.

(** A request settled. *)
Lemma refines_settle w a id s' st' c u :
  refines w a -> abstract s' = Some st' ->
  refines (mkWorld s' c (delete id (pending w)) (next_id w) u)
          (mkSpecWorld st' (delete id (sp_pending a)) (sp_next a)).
Proof.
  intros [Hs Hp Hn Hb] Hs'. constructor; simpl; [done| |done|].
  - intros id'. destruct (decide (id' = id)) as [->|Hne].
    + rewrite !lookup_delete_eq. constructor.
    + rewrite !lookup_delete_ne by done. apply Hp.
  - intros id' r k kd. destruct (decide (id' = id)) as [->|Hne].
    + by rewrite lookup_delete_eq.
    + rewrite !lookup_delete_ne by done. apply Hb.
Qed.

Lemma refines_initial : refines (initial_world (num := num)) spec_initial.
Proof.
  constructor; simpl; [done| |done|].
  - intros id. rewrite !lookup_empty. constructor.
  - intros id r k kd. by rewrite lookup_empty.
Qed.

(** ** The simulation, by kind of transition *)

Lemma abstract_query s st : abstract s = Some st -> sp_query st = query s.
Proof. by intros (l & ps & key & _ & _ & _ & ->)%abstract_inv. Qed.

Lemma pressable_spec item s st :
  abstract s = Some st -> pressable item s = true ->
  item ∈ sp_movies st /\ item_ok item = true.
Proof.
  intros (l & ps & key & Hm & _ & _ & ->)%abstract_inv Hp.
  split; [|by eapply pressable_item_ok].
  unfold pressable in Hp. rewrite Hm in Hp.
  by apply andb_prop in Hp as [_ ?%bool_decide_eq_true].
Qed.

Lemma list_message_nonempty msg : list_message msg -> msg <> EmptyString.
Proof. by intros [-> | ->]. Qed.

Lemma sim_gesture w a e w' :
  refines w a -> step API_KEY w e w' -> settles e = None ->
  exists a',
    spec_follow false a (spec_event_of w a e) = Some a' /\ refines w' a'.
Proof.
  intros Hr Hstep He. pose proof (refines_state _ _ Hr) as Hs.
  destruct Hstep as [w text|w|w|w item Hp|w Hm|w Hc|w id url k o Hid
                    |w id r k Hid]; try done; simpl.
  - eexists; split; [done|]. by apply refines_keep, abstract_setQuery.
  - rewrite searchMovies_unfold, (abstract_query _ _ Hs).
    destruct (query (view w)) as [|ch q] eqn:Hq; simpl.
    + eexists; split; [done|]. destruct Hr. by constructor.
    + eexists; split; [done|]. unfold start. rewrite list_request_run.
      apply refines_issue; [done|by apply abstract_begin_list|constructor].
  - eexists; split; [done|].
    unfold start. rewrite fetchPopularMovies_unfold, list_request_run.
    apply refines_issue; [done|by apply abstract_begin_list|constructor].
  - destruct (pressable_spec _ _ _ Hs Hp) as [Hin Hok].
    rewrite decide_True by done. eexists; split; [done|].
    unfold start. rewrite openMovieModal_pressed by done.
    apply refines_issue; [done| |constructor].
    by apply abstract_open; [apply item_ok_not_nullish|].
  - eexists; split; [done|]. by apply refines_keep, abstract_close.
  - eexists; split; [done|]. by apply refines_keep, abstract_close.
Qed.

Lemma sim_fetch w a id url k o :
  inv w -> refines w a -> pending w !! id = Some (TFetch url k) ->
  conforming a (FetchSettles id o) = true ->
  exists a',
    spec_follow false a (spec_event_of w a (FetchSettles id o)) = Some a' /\
    refines (resume id (k o) w) a'.
Proof.
  intros Hw Hr Hid Hc. pose proof (refines_state _ _ Hr) as Hs.
  destruct (refines_kind _ _ _ _ Hr Hid) as (kd & Hkd & Ht).
  destruct (inv_tasks _ Hw id _ Hid) as (kd' & Ht' & Hok).
  rewrite <-(task_of_functional _ _ _ Ht Ht') in Hok.
  simpl in Hc. rewrite Hkd in Hc. apply bool_decide_eq_true in Hc.
  unfold resume. inversion Ht; subst.
  - rewrite list_on_fetch_run. destruct o as [r|err]; simpl.
    + eexists; split; [done|].
      eapply refines_body; [done..|constructor|done].
    + rewrite Hkd. eexists; split; [done|].
      apply refines_settle; [done|].
      by apply abstract_list_failure; [apply list_message_nonempty|].
  - rewrite details_on_fetch_run. destruct o as [r|err]; simpl.
    + eexists; split; [done|].
      eapply refines_body; [done..|constructor|done].
    + rewrite Hkd. eexists; split; [done|]. by apply refines_settle.
Qed.

Lemma sim_json_list w a id r msg ans :
  inv w -> refines w a ->
  pending w !! id = Some (TJson r (list_on_json msg)) ->
  decode_list (Resolved r) = Some ans ->
  abstract (run (list_on_json msg (json_outcome r)) (view w) (console w)).1.1 =
  Some (settle_list msg ans (sp_state a)).
Proof.
  intros Hw Hr Hid Hans. pose proof (refines_state _ _ Hr) as Hs.
  destruct (inv_tasks _ Hw id _ Hid) as (kd' & Ht' & Hok).
  rewrite (task_of_functional _ _ _ Ht' (task_list_json r msg)) in Hok.
  rewrite list_on_json_run, list_result_json_outcome. unfold decode_list in Hans.
  destruct (list_result (Resolved r)) as [[]| |]; simplify_eq/=.
  - by apply (abstract_list_success msg).
  - by apply abstract_list_failure; [apply list_message_nonempty|].
Qed.

Lemma sim_json_details w a r ans :
  refines w a -> decode_details (Resolved r) = Some ans ->
  abstract (run (details_on_json (json_outcome r)) (view w) (console w)).1.1 =
  Some (settle_detail ans (sp_state a)).
Proof.
  intros Hr Hans. pose proof (refines_state _ _ Hr) as Hs.
  rewrite details_on_json_run. unfold json_outcome.
  unfold decode_details in Hans.
  destruct (body r) as [data|]; [|by simplify_eq/=].
  destruct (find_trailer data) as [trailer|err] eqn:Hf.
  - rewrite (details_handler_ok _ _ trailer) by done.
    destruct (abstract_key _) as [key|] eqn:Hk; [|done].
    destruct (or_default _ _) as [| | | | |ps|]; simplify_eq/=.
    by apply abstract_details.
  - rewrite (details_handler_failed _ _ err)
      by by apply details_failed_trailer.
    by simplify_eq/=.
Qed.

Lemma sim_json w a id r k :
  inv w -> refines w a -> pending w !! id = Some (TJson r k) ->
  exists a',
    spec_follow false a (spec_event_of w a (JsonSettles id)) = Some a' /\
    refines (resume id (k (json_outcome r)) w) a'.
Proof.
  intros Hw Hr Hid.
  destruct (refines_kind _ _ _ _ Hr Hid) as (kd & Hkd & Ht).
  destruct (refines_bodies _ _ Hr id r k kd Hid Hkd) as [ans Hans].
  simpl. rewrite Hid, Hkd, Hans. simpl. rewrite Hkd. simpl.
  eexists; split; [done|]. unfold resume.
  destruct (run (k (json_outcome r)) (view w) (console w))
    as [[s' c'] st'] eqn:Hrun.
  assert (abstract s' = Some (settle kd ans (sp_state a)) /\ st' = Done tt)
    as [Hs' ->].
  { inversion Ht; subst; simpl in Hans.
    - pose proof (sim_json_list _ _ _ _ _ _ Hw Hr Hid Hans) as H.
      rewrite Hrun in H. split; [done|].
      rewrite list_on_json_run in Hrun. by simplify_eq.
    - pose proof (sim_json_details _ _ _ _ Hr Hans) as H.
      rewrite Hrun in H. split; [done|].
      rewrite details_on_json_run in Hrun.
      unfold json_outcome in Hrun. by destruct (body r); simplify_eq. }
  by apply refines_settle.
Qed.

Lemma sim_step w a e w' :
  inv w -> refines w a -> step API_KEY w e w' -> conforming a e = true ->
  exists a',
    spec_follow false a (spec_event_of w a e) = Some a' /\ refines w' a'.
Proof.
  intros Hw Hr Hstep Hc.
  destruct (settles e) as [id|] eqn:He; [|by eapply sim_gesture].
  inversion Hstep; subst; try done.
  - by eapply sim_fetch.
  - by eapply sim_json.
Qed.

Lemma covers_conforming w a e :
  refines w a -> covers w e -> conforming a e = true.
Proof.
  intros Hr Hc. destruct e as [| | | | | |id o|]; try done. simpl.
  destruct (sp_pending a !! id) as [kd|] eqn:Hkd; [|done].
  apply bool_decide_eq_true.
  pose proof (refines_pending _ _ Hr id) as H. rewrite Hkd in H.
  inversion H; subst. by eapply Hc.
Qed.

Lemma spec_follow_reachable clears a oev a' :
  spec_reachable clears a -> spec_follow clears a oev = Some a' ->
  spec_reachable clears a'.
Proof.
  destruct oev as [ev|]; simpl; [|by intros ? [= <-]].
  intros Ha Hev. by econstructor.
Qed.

Lemma covers_gesture w e : settles e = None -> covers w e.
Proof. intros He id o t kd ->. done. Qed.

Lemma covers_json w id : covers w (JsonSettles id).
Proof. by intros id' o t kd. Qed.

Lemma covers_fetch w id o t kd :
  pending w !! id = Some t -> task_of t kd -> is_Some (decode kd o) ->
  covers w (FetchSettles id o).
Proof.
  intros Hid Ht Hd id' o' t' kd' [= <- <-] Hid' Ht'. simplify_eq.
  by rewrite (task_of_functional _ _ _ Ht' Ht).
Qed.

Lemma covered_reachable_reachable w :
  covered_reachable API_KEY w -> reachable API_KEY w.
Proof. induction 1; [constructor|by econstructor]. Qed.

(** The worlds that the code reaches on answers that the document
    covers refine worlds of the document. *)
Lemma covered_reachable_refines w :
  covered_reachable API_KEY w ->
  exists a, spec_reachable false a /\ refines w a.
Proof.
  induction 1 as [|w e w' Hw (a & Ha & Hr) Hstep Hc].
  { exists spec_initial. split; [constructor|apply refines_initial]. }
  apply covered_reachable_reachable, inv_reachable in Hw.
  destruct (sim_step w a e w' Hw Hr Hstep) as (a' & Hf & Hr');
    [by eapply covers_conforming|].
  exists a'. split; [by eapply spec_follow_reachable|done].
Qed.

(** ** Theorems *)

(** One transition of the code, on an answer that the document
    covers, is the transition of the document that [spec_event_of]
    names, with [openDetail] keeping the details: the document can
    follow, and the worlds stay related. *)
Theorem spec_simulation w a e w' :
  reachable API_KEY w -> refines w a -> step API_KEY w e w' ->
  conforming a e = true ->
  exists a',
    spec_follow false a (spec_event_of w a e) = Some a' /\ refines w' a'.
Proof. intros Hw%inv_reachable. by apply sim_step. Qed.

(** C21. Every world that the code reaches on answers that the document
    covers refines a world that the document reaches, with
    [openDetail] keeping the details: what holds of every world of the
    document and is preserved by [refines] holds of the code. *)
Theorem spec_refinement w :
  covered_reachable API_KEY w ->
  exists a, spec_reachable false a /\ refines w a.
Proof. apply covered_reachable_refines. Qed.

(** C22. [openMovieModal] implements [openDetail] as keeping the trailer key
    and the providers, which is the [openDetail] of the document only
    when there are none: the details of the movie opened before stay in
    the state, and on the screen, until the new answer arrives. *)
Theorem openDetail_keeps_details movie s c st :
  abstract s = Some st -> nullish movie = false ->
  abstract (run (openMovieModal API_KEY movie) s c).1.1 =
    Some (open_detail false movie st) /\
  (open_detail false movie st = open_detail true movie st <->
   sp_trailerKey st = None /\ sp_providers st = []).
Proof.
  intros Hs Hn. rewrite openMovieModal_state by done.
  split; [by apply abstract_open|]. unfold open_detail; simpl.
  split; [by intros [= -> ->]|by intros [-> ->]].
Qed.

End spec_props.

(** * On the samples *)

(** On the run [joker_after_batman] the code and the document, side by
    side, end in different states: the code shows the trailer of
    [batman] under [joker]; the document shows none. *)
Theorem stale_details_shown :
  exists w a a',
    lockstep "k" false initial_world spec_initial joker_after_batman
      = Some (w, a) /\
    lockstep "k" true initial_world spec_initial joker_after_batman
      = Some (w, a') /\
    abstract (view w) = Some (sp_state a) /\
    sp_selectedMovie (sp_state a) = Some joker /\
    sp_trailerKey (sp_state a) = Some "y" /\
    sp_trailerKey (sp_state a') = None.
Proof.
  destruct (lockstep "k" false initial_world spec_initial joker_after_batman)
    as [[w a]|] eqn:H1; [|by vm_compute in H1].
  destruct (lockstep "k" true initial_world spec_initial joker_after_batman)
    as [[w' a']|] eqn:H2; [|by vm_compute in H2].
  exists w, a, a'. vm_compute in H1, H2. simplify_eq. by vm_compute.
Qed.

Lemma spec_simulation_witness :
  exists a',
    spec_follow false spec_initial
      (spec_event_of initial_world spec_initial (PressPopular (num := Z)))
      = Some a' /\
    refines (start (fetchPopularMovies "k") initial_world) a'.
Proof.
  apply (spec_simulation "k" initial_world spec_initial PressPopular);
    [constructor|apply refines_initial|constructor|reflexivity].
Defined.

Lemma spec_refinement_witness :
  exists a,
    spec_reachable false a /\
    refines (world_after "k"
      [PressPopular; FetchSettles 0 (answer_ok (list_body [batman; joker]))])
      a.
Proof.
  apply (spec_refinement "k").
  eapply (covered_step "k" (world_after "k" [PressPopular])
            (FetchSettles 0 (answer_ok (list_body [batman; joker])))).
  - eapply (covered_step "k" initial_world PressPopular);
      [constructor|constructor|by apply covers_gesture].
  - apply exec_Some_step. vm_compute. reflexivity.
  - eapply (covers_fetch _ 0 _
              (TFetch (popular_url "k")
                 (list_on_fetch "Failed to fetch popular movies"))
              (ListTask "Failed to fetch popular movies"));
      [vm_compute; reflexivity|constructor|by eexists].
Defined.

Lemma openDetail_keeps_details_witness :
  abstract (run (openMovieModal "k" joker) batman_open []).1.1 =
    Some (open_detail false joker batman_open_spec) /\
  (open_detail false joker batman_open_spec =
   open_detail true joker batman_open_spec <->
   sp_trailerKey batman_open_spec = None /\
   sp_providers batman_open_spec = []).
Proof.
  apply (openDetail_keeps_details "k" joker batman_open [] batman_open_spec);
    reflexivity.
Defined.
