(* ===== verification/Schema.v ===== *)
(** * Schema: the application on the answers that the catalogue documents

    Sections 3 and 6 of the specification give the shape of what the
    catalogue answers: a list answer is [{ results: MovieSummary[] }], a
    detail answer has the fields of a summary, [videos.results] with
    the videos and [watch/providers.results] with a provider list per
    region.  src/App.js checks none of it (lines 25-28, 43-46 and
    60-67 store what they read).

    This file states the schema as predicates on JSON values and
    composes the developments on it: an answer of the schema fits the
    render functions ([Typed.answer_fits]) and can be read as an answer
    of the specified controller ([Spec.decode]).  So, as long as the
    catalogue keeps to the schema, in whatever order and with whatever
    failures,

    - the state is a state of the data model of section 3
      ([schema_state_typed]);
    - every screen renders, the machine of [Machine] and the
      application of [Screen] have the same transitions, and every
      world refines a world of the specified controller
      ([schema_end_to_end]);
    - the search for the trailer never throws and the console stays
      silent on an answer that was read ([schema_details_silent]). *)

From stdpp Require Import gmap.
From S2P Require Import Prelude JsValue Async ViewState Url Styles Samples.
From S2P Require Import Render Controller Machine Screen Typed Spec.

Open Scope string_scope.
Open Scope list_scope.

(** A detail answer as section 6 gives it: the fields of the summary,
    the videos and the providers of a region. *)
Definition batman_full_details : value Z :=
  VObj [("id", VNum 1%Z); ("title", VStr "Batman");
        ("poster_path", VStr "/batman.jpg");
        ("release_date", VStr "1989-06-23");
        ("vote_average", VNum 7%Z); ("overview", VStr "An overview.");
        ("videos", VObj [("results",
           VArr [video "Teaser" "x"; video "Trailer" "y"])]);
        ("watch/providers", VObj [("results",
           VObj [us_region [provider 8 "Netflix"]])])].

(** The popular list, a press on Batman, and its details. *)
Definition batman_documented : list (event Z) :=
  [PressPopular; FetchSettles 0 (answer_ok (list_body [batman; joker]));
   JsonSettles 0; PressMovie batman;
   FetchSettles 1 (answer_ok batman_full_details); JsonSettles 1].

Section schema.
Context {num : Type} `{!JsNumber num} `{!JsDate num}.
Variable API_KEY : string.
Implicit Types (w : World num) (s : ViewState num) (e : event num)
  (o : outcome (response num)) (kd : task_kind) (v data : value num).

Definition is_number v : bool :=
  match v with VNum _ => true | _ => false end.

Definition is_text v : bool :=
  match v with VStr _ => true | _ => false end.

Definition is_record v : bool :=
  match v with VObj _ => true | _ => false end.

(** A field that may be absent or [null]. *)
Definition optional (p : value num -> bool) v : bool := nullish v || p v.

Definition array_of (p : value num -> bool) v : bool :=
  match v with
  | VArr l => forallb p l
  | _ => false
  end.

(** Section 3, MovieSummary. *)
Definition MovieSummary v : bool :=
  is_record v && is_number (opt_get v "id") &&
  is_text (opt_get v "title") &&
  optional is_text (opt_get v "poster_path") &&
  optional is_text (opt_get v "release_date") &&
  is_number (opt_get v "vote_average") && is_text (opt_get v "overview").

(** Section 6, Video: its type and the key of the video platform. *)
Definition Video v : bool :=
  is_record v && is_text (opt_get v "type") && is_text (opt_get v "key").

(** Section 3, the providers of a MovieDetail. *)
Definition Provider v : bool :=
  is_record v && is_number (opt_get v "provider_id") &&
  is_text (opt_get v "provider_name") && is_text (opt_get v "logo_path").

(** Section 6, [{ flatrate: Provider[] }], which a region may omit. *)
Definition Region v : bool :=
  is_record v && optional (array_of Provider) (opt_get v "flatrate").

(** Section 6, the body of a list answer. *)
Definition ListResponse data : bool :=
  is_record data && array_of MovieSummary (opt_get data "results").

(** Section 6, the body of a detail answer. *)
Definition DetailResponse data : bool :=
  MovieSummary data && array_of Video (video_results data) &&
  is_record (opt_get (opt_get data "watch/providers") "results") &&
  optional Region
    (opt_get (opt_get (opt_get data "watch/providers") "results") "US").

(** The answers of the schema to a request: a failure of the transport
    or of the parser, or a body of the shape documented for the
    request. *)
Definition schema_answer kd o : bool :=
  match o with
  | Rejected _ => true
  | Resolved r =>
      match body r, kd with
      | None, _ => true
      | Some data, ListTask _ => ListResponse data
      | Some data, DetailsTask => DetailResponse data
      end
  end.

(** Section 3, ViewState, for the cells that hold values of the
    catalogue. *)
Definition state_cells (c : value num * value num * value num * value num)
  : bool :=
  array_of MovieSummary c.1.1.1 && array_of Provider c.1.1.2 &&
  optional is_text c.1.2 && optional MovieSummary c.2.

Definition state_schema s : bool := state_cells (shape_cells s).

(** The transitions on answers of the schema. *)
Definition schema_step w e w' : Prop :=
  step API_KEY w e w' /\ answers_fit schema_answer w e.

Definition schema_reachable : World num -> Prop :=
  fit_reachable API_KEY schema_answer.

Record schema_inv w : Prop := mkSchemaInv {
  schema_state : state_schema (view w) = true;
  schema_bodies : bodies_fit schema_answer w;
}.

End schema.

(** * Properties *)

Ltac split_andb :=
  repeat match goal with
         | H : _ && _ = true |- _ => apply andb_prop in H as [? ?]
         end.

Section schema_props.
Context {num : Type} `{!JsNumber num} `{!JsDate num}.
Variable API_KEY : string.
Implicit Types (w : World num) (s : ViewState num) (e : event num)
  (o : outcome (response num)) (kd : task_kind) (v data : value num)
  (p q : value num -> bool).

(** ** The schema and the shapes that the code needs *)

Lemma array_of_inv p v :
  array_of p v = true -> exists l, v = VArr l /\ forallb p l = true.
Proof. destruct v; try done. eauto. Qed.

Lemma array_of_impl p q v :
  (forall x, p x = true -> q x = true) ->
  array_of p v = true -> array_of q v = true.
Proof.
  intros Hpq (l & -> & Hl)%array_of_inv. simpl.
  apply forallb_forall. intros x Hx. apply Hpq.
  by apply (proj1 (forallb_forall p l) Hl).
Qed.

Lemma array_of_elem_of p l x :
  array_of p (VArr l) = true -> x ∈ l -> p x = true.
Proof.
  simpl. intros Hl Hx%list_elem_of_In.
  by apply (proj1 (forallb_forall p l) Hl).
Qed.

Lemma optional_text_printable v : optional is_text v = true -> printable v = true.
Proof. by destruct v. Qed.

Lemma optional_text_key v :
  optional is_text v = true -> is_Some (abstract_key v).
Proof. destruct v; try done; simpl; eauto. Qed.

Lemma MovieSummary_item_ok v : MovieSummary v = true -> item_ok v = true.
Proof.
  unfold MovieSummary, item_ok. intros Hv. split_andb.
  destruct v as [| | | | | |fs]; try done.
  destruct (opt_get (VObj fs) "id"); try done.
  by rewrite (optional_text_printable (opt_get (VObj fs) "poster_path")).
Qed.

Lemma Provider_provider_ok v : Provider v = true -> provider_ok v = true.
Proof.
  unfold Provider, provider_ok. intros Hv. split_andb.
  destruct v; try done. by destruct (opt_get _ "logo_path").
Qed.

(** A list answer of the schema gives [movies] an array of summaries,
    or it is a failure. *)
Lemma schema_list_result msg o :
  schema_answer (ListTask msg) o = true ->
  (exists l, list_result o = NewList (VArr l) /\
     forallb MovieSummary l = true) \/
  (exists err, list_result o = Caught err).
Proof.
  destruct o as [[st [data|]]|err]; simpl; [|by eauto..].
  unfold ListResponse. intros Hd. split_andb.
  destruct data as [| | | | | |fs]; try done. unfold opt_get in *. simpl in *.
  destruct (lookup_field "results" fs) as [| | | | |l|]; try done.
  left. by exists l.
Qed.

(** In a detail answer of the schema the search for the trailer does
    not throw: it finds a video or nothing. *)
Lemma schema_trailer data :
  DetailResponse data = true ->
  exists trailer, find_trailer data = Ok trailer /\
    (trailer = VUndefined \/ Video trailer = true).
Proof.
  unfold DetailResponse. intros Hd. split_andb.
  match goal with
  | H : array_of Video _ = true |- _ =>
      pose proof H as (l & Hl & Hvs)%array_of_inv
  end.
  rewrite find_trailer_unfold, Hl by by destruct data. simpl.
  destruct (find_first is_trailer l) as [[x|]|err] eqn:Hf; simpl.
  - exists x. split; [done|]. right.
    apply find_first_elem_of, list_elem_of_In in Hf.
    by apply (proj1 (forallb_forall Video l) Hvs).
  - exists VUndefined. eauto.
  - apply find_first_Err in Hf as (l1 & y & l2 & -> & Hy & _).
    rewrite forallb_app in Hvs. simpl in Hvs. split_andb.
    by destruct y.
Qed.

Lemma schema_trailer_key trailer :
  trailer = VUndefined \/ Video trailer = true ->
  optional is_text (opt_get trailer "key") = true.
Proof.
  intros [->|Hv]; [done|]. unfold Video in Hv. split_andb.
  by destruct (opt_get trailer "key").
Qed.

Lemma optional_array_default p v :
  optional (array_of p) v = true ->
  array_of p (or_default v (VArr [])) = true.
Proof. by destruct v. Qed.

(** The providers of a detail answer of the schema are an array of
    providers, empty when the region or its list is left out. *)
Lemma schema_providers data :
  DetailResponse data = true ->
  array_of Provider (or_default (us_flatrate data) (VArr [])) = true.
Proof.
  unfold DetailResponse, us_flatrate. intros Hd. split_andb.
  apply optional_array_default.
  match goal with
  | H : optional Region ?us = true |- _ => by destruct us
  end.
Qed.

Lemma summaries_items_ok v :
  array_of MovieSummary v = true -> items_ok v = true.
Proof. apply (array_of_impl _ item_ok), MovieSummary_item_ok. Qed.

Lemma providers_providers_ok v :
  array_of Provider v = true -> providers_ok v = true.
Proof. apply (array_of_impl _ provider_ok), Provider_provider_ok. Qed.

(** An answer of the schema has the shape that the render functions
    expect. *)
Lemma schema_fits kd o : schema_answer kd o = true -> answer_fits kd o = true.
Proof.
  destruct kd as [msg|]; simpl.
  - intros [(l & Hl & Hok)|[err He]]%schema_list_result;
      unfold list_answer_ok; [rewrite Hl|by rewrite He].
    by apply (summaries_items_ok (VArr l)).
  - destruct o as [[st [data|]]|err]; simpl; try done. intros Hd.
    destruct (schema_trailer _ Hd) as (trailer & -> & Ht).
    rewrite (providers_providers_ok _ (schema_providers _ Hd)).
    by apply optional_text_printable, schema_trailer_key.
Qed.

(** An answer of the schema is an answer of the specified
    controller. *)
Lemma schema_decodes kd o : schema_answer kd o = true -> is_Some (decode kd o).
Proof.
  destruct kd as [msg|]; simpl.
  - intros [(l & Hl & _)|[err He]]%schema_list_result;
      unfold decode_list; [by rewrite Hl|by rewrite He].
  - destruct o as [[st [data|]]|err]; simpl; try done. intros Hd.
    destruct (schema_trailer _ Hd) as (trailer & -> & Ht).
    destruct (optional_text_key _ (schema_trailer_key _ Ht)) as [key ->].
    by destruct (array_of_inv _ _ (schema_providers _ Hd)) as (ps & -> & _).
Qed.

(** ** The transitions on answers of the schema *)

Lemma schema_step_typed w e w' :
  inv w -> schema_step API_KEY w e w' -> typed_step API_KEY w e w'.
Proof.
  intros Hw [Hstep Ha]. apply answers_fit_typed_step; [done..|].
  by apply (answers_fit_impl schema_answer answer_fits _ _ schema_fits).
Qed.

Lemma schema_covers w e : answers_fit schema_answer w e -> covers w e.
Proof. intros Ha id o t kd He Hid Ht. by eapply schema_decodes, Ha. Qed.

Lemma state_schema_initial : state_schema (initial (num := num)) = true.
Proof. reflexivity. Qed.

(** The cells keep the types of section 3: a press selects a summary of
    the list, and the bodies that are read are of the schema. *)
Lemma schema_state_step w e w' :
  inv w -> schema_inv w -> step API_KEY w e w' ->
  state_schema (view w') = true.
Proof.
  intros Hw [Hs Hb] Hstep. pose proof Hs as Hs'. unfold state_schema in *.
  destruct (step_cells _ _ _ _ Hw Hstep)
    as [Hc|[(item & -> & _ & Hc)
       |[(id & r & msg & results & -> & Hid & Hres & Hc)
        |(id & r & data & tr & -> & Hid & Hbody & Hf & Hc)]]];
    rewrite Hc; [done|..]; unfold state_cells, shape_cells in *;
    cbn [fst snd] in *; split_andb; repeat (apply andb_true_intro; split);
    try done.
  - inversion Hstep as [| | |w0 item0 Hp| | | |]; subst.
    apply andb_prop in Hp as [_ Hin].
    destruct (movies (view w)) as [| | | | |l|]; try done.
    apply bool_decide_eq_true in Hin. unfold optional.
    by rewrite (array_of_elem_of MovieSummary l item), orb_true_r.
  - specialize (Hb id r _ (ListTask msg) Hid (task_list_json r msg)).
    apply schema_list_result in Hb as [(l & Hl & Hok)|[err He]];
      [|congruence].
    rewrite Hres in Hl. by injection Hl as ->.
  - specialize (Hb id r _ DetailsTask Hid (task_details_json r)).
    simpl in Hb. rewrite Hbody in Hb. by apply schema_providers.
  - specialize (Hb id r _ DetailsTask Hid (task_details_json r)).
    simpl in Hb. rewrite Hbody in Hb.
    destruct (schema_trailer _ Hb) as (trailer & Hf' & Ht).
    rewrite Hf in Hf'. injection Hf' as ->. by apply schema_trailer_key.
Qed.

Lemma schema_inv_initial : schema_inv (initial_world (num := num)).
Proof. constructor; [done|apply bodies_fit_initial]. Qed.

Lemma schema_inv_step w e w' :
  inv w -> schema_inv w -> schema_step API_KEY w e w' -> schema_inv w'.
Proof.
  intros Hw Hi [Hstep Ha]. constructor; [by eapply schema_state_step|].
  eapply bodies_fit_step; eauto using schema_bodies.
Qed.

Lemma schema_reachable_typed w :
  schema_reachable API_KEY w -> typed_reachable API_KEY w.
Proof.
  induction 1 as [|w e w' _ IH Hstep Ha]; [constructor|].
  econstructor; [done|]. apply schema_step_typed; [|done].
  by apply (inv_reachable API_KEY), typed_reachable_reachable.
Qed.

Lemma schema_reachable_covered w :
  schema_reachable API_KEY w -> covered_reachable API_KEY w.
Proof.
  induction 1 as [|w e w' _ IH Hstep Ha]; [constructor|].
  econstructor; [done..|]. by apply schema_covers.
Qed.

Lemma schema_reachable_inv w : schema_reachable API_KEY w -> schema_inv w.
Proof.
  induction 1 as [|w e w' Hw IH Hstep Ha]; [apply schema_inv_initial|].
  eapply schema_inv_step; [|done..].
  by apply (inv_reachable API_KEY), (fit_reachable_reachable _ schema_answer).
Qed.

(** ** Theorems *)

(** While the catalogue keeps to its schema, the state is a state of
    the data model of section 3: [movies] is an array of summaries,
    [downloadLinks] an array of providers, [trailerUrl] a text when it
    is set, and the selected movie a summary. *)
Theorem schema_state_typed w :
  schema_reachable API_KEY w -> state_schema (view w) = true.
Proof. by intros Hw%schema_reachable_inv%schema_state. Qed.

(** C19. While the catalogue keeps to its schema, in whatever order its
    answers arrive and whichever requests fail, every screen renders,
    the transitions of the machine are those that the screen offers,
    and the world refines a world of the specified controller (with
    [openDetail] keeping the details). *)
Theorem schema_end_to_end w :
  schema_reachable API_KEY w ->
  is_Ok (render (view w)) = true /\
  app_reachable API_KEY w /\
  (forall e w', step API_KEY w e w' <-> app_step API_KEY w e w') /\
  exists a, spec_reachable false a /\ refines w a.
Proof.
  intros Hw. pose proof (schema_reachable_typed _ Hw) as Ht.
  assert (is_Ok (render (view w)) = true) as Hr
    by by apply render_shaped, typed_shaped, (typed_reachable_inv API_KEY).
  split_and!; [done|by apply typed_reachable_app_reachable| |].
  - intros e w'. split; [by apply rendered_step_app_step|apply offered_step].
  - by apply (covered_reachable_refines API_KEY), schema_reachable_covered.
Qed.

(** A detail answer of the schema is read without an exception: the
    trailer is a video of the answer or there is none, the providers
    are an array, and no line is written to the console. *)
Theorem schema_details_silent st data s :
  DetailResponse data = true ->
  exists trailer ps,
    details_handler (Resolved (Response st (Some data))) s =
      (setDownloadLinks (VArr ps) (setTrailerUrl (opt_get trailer "key") s),
       None) /\
    find_trailer data = Ok trailer /\
    optional is_text (opt_get trailer "key") = true /\
    forallb Provider ps = true.
Proof.
  intros Hd. destruct (schema_trailer _ Hd) as (trailer & Hf & Ht).
  destruct (array_of_inv _ _ (schema_providers _ Hd)) as (ps & Hps & Hok).
  exists trailer, ps. rewrite (details_handler_ok _ _ trailer), Hps by done.
  split_and!; [done..| |done]. by apply schema_trailer_key.
Qed.

End schema_props.

(** * On sample answers *)

(** The run [batman_documented] is a run on answers that satisfy [P]
    when its two answers do. *)
Lemma batman_documented_fit (P : task_kind -> outcome (response Z) -> bool) :
  P (ListTask "Failed to fetch popular movies")
    (answer_ok (list_body [batman; joker])) = true ->
  P DetailsTask (answer_ok batman_full_details) = true ->
  fit_reachable "k" P (world_after "k" batman_documented).
Proof.
  intros Hlist Hdetails.
  apply (fit_reachable_exec "k" _ (world_after "k" (take 5 batman_documented))
           (JsonSettles 1)); [|by vm_compute|apply answers_fit_json].
  apply (fit_reachable_exec "k" _ (world_after "k" (take 4 batman_documented))
           (FetchSettles 1 (answer_ok batman_full_details)));
    [|by vm_compute|].
  2: { eapply (answers_fit_fetch _ _ 1 _ _ DetailsTask);
         [by vm_compute|constructor|done]. }
  apply (fit_reachable_exec "k" _ (world_after "k" (take 3 batman_documented))
           (PressMovie batman));
    [|by vm_compute|by apply answers_fit_gesture].
  apply (fit_reachable_exec "k" _ (world_after "k" (take 2 batman_documented))
           (JsonSettles 0)); [|by vm_compute|apply answers_fit_json].
  apply (fit_reachable_exec "k" _ (world_after "k" (take 1 batman_documented))
           (FetchSettles 0 (answer_ok (list_body [batman; joker]))));
    [|by vm_compute|].
  2: { eapply (answers_fit_fetch _ _ 0 _ _
                 (ListTask "Failed to fetch popular movies"));
         [by vm_compute|constructor|done]. }
  apply (fit_reachable_exec "k" _ initial_world PressPopular);
    [constructor|by vm_compute|by apply answers_fit_gesture].
Qed.

Lemma batman_documented_reachable :
  schema_reachable "k" (world_after "k" batman_documented).
Proof. by apply batman_documented_fit. Qed.

Lemma schema_state_typed_witness :
  state_schema (view (world_after "k" batman_documented)) = true.
Proof. apply (schema_state_typed "k"), batman_documented_reachable. Defined.

Lemma schema_end_to_end_witness :
  is_Ok (render (view (world_after "k" batman_documented))) = true /\
  app_reachable "k" (world_after "k" batman_documented) /\
  (forall e w', step "k" (world_after "k" batman_documented) e w' <->
                app_step "k" (world_after "k" batman_documented) e w') /\
  exists a, spec_reachable false a /\
    refines (world_after "k" batman_documented) a.
Proof. apply (schema_end_to_end "k"), batman_documented_reachable. Defined.

Lemma schema_details_silent_witness :
  exists trailer ps,
    details_handler (Resolved (Response 200 (Some batman_full_details)))
      batman_open =
      (setDownloadLinks (VArr ps)
         (setTrailerUrl (opt_get trailer "key") batman_open), None) /\
    find_trailer batman_full_details = Ok trailer /\
    optional is_text (opt_get trailer "key") = true /\
    forallb Provider ps = true.
Proof. by apply schema_details_silent. Defined.
