(* ===== verification/Keys.v ===== *)
(** * Keys: the keys of the cells of the list and of the provider buttons

    src/App.js, line 158: the list takes the key of a cell from
    [keyExtractor], [item.id.toString()]; line 122: the button of a
    provider has the key [service.provider_id].  React tells the
    children of one parent apart by the text of their keys, and asks
    that siblings have distinct keys: with two equal keys it warns and
    may repeat or drop a child.

    The source never compares two identifiers.  The keys of the
    siblings are distinct when the identifiers that the catalogue
    sends are numbers and distinct, which is what section 3 of the
    specification says of [id] ("unique, primary key for list
    rendering"); [keys_distinct] states it of every world that the
    machine reaches on such answers.  Nothing else makes them distinct:
    an answer that repeats a movie gives two cells one key
    ([repeated_movie_same_key]), and so do the number 1 and the text
    "1" ([number_and_text_same_key]).

    The texts of two numbers are taken to differ when the numbers do
    ([Inj (=) (=) num_to_string], which holds of the integers and of
    the numbers of JavaScript other than [-0]). *)

From stdpp Require Import gmap pretty.
From S2P Require Import Prelude JsValue Async ViewState Url Styles Samples.
From S2P Require Import Render Controller Machine Screen Typed Spec Schema.

Open Scope string_scope.
Open Scope list_scope.

(** The catalogue lists Batman twice. *)
Definition batman_twice : list (event Z) :=
  [PressPopular; FetchSettles 0 (answer_ok (list_body [batman; batman]));
   JsonSettles 0].

(** The texts of two integers differ when the integers do. *)
#[export] Instance Z_to_string_inj :
  Inj (=) (=) (num_to_string (num := Z)) := pretty_Z_inj.

Section keys.
Context {num : Type} `{!JsNumber num} `{!JsDate num}.
Variable API_KEY : string.
Implicit Types (w : World num) (s : ViewState num) (v data : value num)
  (o : outcome (response num)) (kd : task_kind) (c : element num)
  (l : list (value num)).

(** The keys of siblings as React compares them: the texts of the
    values passed as [key]. *)
Definition key_texts (cs : list (element num)) : list string :=
  to_string <$> sibling_keys cs.

(** Line 158: the keys of the cells of the list. *)
Definition list_keys s : result exn (list string) :=
  cells ← list_cells_of (movies s);
  Ok (key_texts cells).

(** Line 122: the keys of the buttons of the providers. *)
Definition provider_keys s : result exn (list string) :=
  buttons ← array_map (service_button s) (downloadLinks s);
  Ok (key_texts buttons).

(** The values of the field [k] of the elements of an array. *)
Definition field_values (k : string) l : list (value num) :=
  (fun x => opt_get x k) <$> l.

Definition unique_by (k : string) v : bool :=
  match v with
  | VArr l => bool_decide (NoDup (field_values k l))
  | _ => true
  end.

(** Section 3: the [id] of a summary is unique in its list, and so is
    the identifier of a provider. *)
Definition unique_answer kd o : bool :=
  match o with
  | Rejected _ => true
  | Resolved r =>
      match body r, kd with
      | None, _ => true
      | Some data, ListTask _ => unique_by "id" (opt_get data "results")
      | Some data, DetailsTask =>
          unique_by "provider_id" (or_default (us_flatrate data) (VArr []))
      end
  end.

(** The answers of the schema whose identifiers are unique. *)
Definition keyed_answer kd o : bool :=
  schema_answer kd o && unique_answer kd o.

(** An array of records whose field [k] holds distinct numbers. *)
Definition keyed_by (k : string) (p : value num -> bool) v : Prop :=
  array_of p v = true /\ unique_by k v = true.

End keys.

(** * Properties *)

Section keys_props.
Context {num : Type} `{!JsNumber num} `{!JsDate num}.
Context `{!Inj (=) (=) (num_to_string (num := num))}.
Variable API_KEY : string.
Implicit Types (w : World num) (s : ViewState num) (v data : value num)
  (o : outcome (response num)) (kd : task_kind) (c : element num)
  (l : list (value num)).

Lemma key_texts_keyed (g : value num -> element num)
    (k : value num -> value num) l :
  (forall x, exists c, g x = Keyed (k x) c) ->
  key_texts (g <$> l) = (fun x => to_string (k x)) <$> l.
Proof.
  intros Hg. unfold key_texts, sibling_keys.
  induction l as [|x l IH]; [done|]. destruct (Hg x) as [c Hx].
  rewrite !fmap_cons, Hx. cbn [omap list_omap]. by rewrite fmap_cons, IH.
Qed.

(** The keys of the cells are the texts of the [id]s, in the order of
    the list. *)
Lemma list_keys_Ok s l :
  movies s = VArr l -> forallb item_ok l = true ->
  list_keys s = Ok (to_string <$> field_values "id" l).
Proof.
  intros Hm Hl. unfold list_keys, field_values.
  rewrite Hm, list_cells_of_Ok, <-list_fmap_compose by done.
  simpl. f_equal.
  apply (key_texts_keyed _ (fun item => VStr (to_string (opt_get item "id")))).
  intros item. by eexists.
Qed.

(** The keys of the buttons are the texts of the [provider_id]s. *)
Lemma provider_keys_Ok s l :
  downloadLinks s = VArr l -> forallb provider_ok l = true ->
  provider_keys s = Ok (to_string <$> field_values "provider_id" l).
Proof.
  intros Hd Hl%forallb_Forall. unfold provider_keys, field_values.
  rewrite Hd, <-list_fmap_compose. simpl.
  rewrite (map_result_fmap _ (provider_button s)).
  - simpl. f_equal.
    apply (key_texts_keyed _ (fun service => opt_get service "provider_id")).
    intros service. by eexists.
  - eapply Forall_impl; [done|]. apply service_button_Ok.
Qed.

(** The texts of distinct numbers are distinct. *)
Lemma to_string_numbers_NoDup (vs : list (value num)) :
  Forall (fun v => is_number v = true) vs -> NoDup vs ->
  NoDup (to_string <$> vs).
Proof.
  intros Hn. apply NoDup_fmap_2_strong. intros x y Hx Hy.
  rewrite Forall_forall in Hn.
  pose proof (Hn x Hx) as Hnx. pose proof (Hn y Hy) as Hny.
  destruct x, y; try done. simpl. by intros ->%(inj num_to_string).
Qed.

Lemma field_values_numbers (k : string) (p : value num -> bool) l :
  (forall x, p x = true -> is_number (opt_get x k) = true) ->
  forallb p l = true ->
  Forall (fun v => is_number v = true) (field_values k l).
Proof.
  intros Hp Hl%forallb_Forall. apply Forall_fmap.
  eapply Forall_impl; [done|]. apply Hp.
Qed.

Lemma MovieSummary_id x : MovieSummary x = true -> is_number (opt_get x "id") = true.
Proof. unfold MovieSummary. intros Hx. by split_andb. Qed.

Lemma Provider_id x :
  Provider x = true -> is_number (opt_get x "provider_id") = true.
Proof. unfold Provider. intros Hx. by split_andb. Qed.

(** Summaries with distinct [id]s give cells with distinct keys. *)
Lemma keyed_list_keys s :
  keyed_by "id" MovieSummary (movies s) ->
  exists ks, list_keys s = Ok ks /\ NoDup ks.
Proof.
  intros [(l & Hm & Hl)%array_of_inv Hu]. rewrite Hm in Hu.
  apply bool_decide_eq_true in Hu. eexists. split.
  - apply list_keys_Ok; [done|].
    by apply (summaries_items_ok (VArr l)).
  - apply to_string_numbers_NoDup; [|done].
    by apply (field_values_numbers _ MovieSummary), Hl; [apply MovieSummary_id].
Qed.

Lemma keyed_provider_keys s :
  keyed_by "provider_id" Provider (downloadLinks s) ->
  exists ks, provider_keys s = Ok ks /\ NoDup ks.
Proof.
  intros [(l & Hd & Hl)%array_of_inv Hu]. rewrite Hd in Hu.
  apply bool_decide_eq_true in Hu. eexists. split.
  - apply provider_keys_Ok; [done|].
    by apply (providers_providers_ok (VArr l)).
  - apply to_string_numbers_NoDup; [|done].
    by apply (field_values_numbers _ Provider), Hl; [apply Provider_id].
Qed.

(** The lists of a world reached on keyed answers are keyed. *)
Lemma keyed_lists w :
  fit_reachable API_KEY keyed_answer w ->
  keyed_by "id" MovieSummary (movies (view w)) /\
  keyed_by "provider_id" Provider (downloadLinks (view w)).
Proof.
  apply fit_reachable_lists; [done..| |].
  - intros msg r results [Hs Hu]%andb_prop Hres. simpl in Hs, Hu.
    unfold list_result in Hres.
    destruct (body r) as [data|]; [|done]. unfold ListResponse in Hs.
    split_andb. destruct data; try done. simpl in Hres.
    case_match; by simplify_eq.
  - intros r data trailer [Hs Hu]%andb_prop Hb Hf. simpl in Hs, Hu.
    rewrite Hb in Hs, Hu. split; [by apply schema_providers|done].
Qed.

(** ** Theorems *)

(** C30. While the catalogue keeps to its schema and sends each identifier
    once per list, the cells of the list have distinct keys, and so
    have the buttons of the providers, in every world. *)
Theorem keys_distinct w :
  fit_reachable API_KEY keyed_answer w ->
  (exists ks, list_keys (view w) = Ok ks /\ NoDup ks) /\
  (exists ks, provider_keys (view w) = Ok ks /\ NoDup ks).
Proof.
  intros [Hm Hd]%keyed_lists.
  split; [by apply keyed_list_keys|by apply keyed_provider_keys].
Qed.

End keys_props.

(** * On sample answers *)

Lemma batman_documented_keyed :
  fit_reachable "k" keyed_answer (world_after "k" batman_documented).
Proof. by apply batman_documented_fit. Qed.

Lemma keys_distinct_witness :
  (exists ks, list_keys (view (world_after "k" batman_documented)) = Ok ks /\
     NoDup ks) /\
  (exists ks, provider_keys (view (world_after "k" batman_documented)) = Ok ks /\
     NoDup ks).
Proof. apply (keys_distinct "k"), batman_documented_keyed. Defined.

(** An answer that lists a movie twice is an answer of the schema as
    section 6 gives it, and the two cells of the movie have one key. *)
Theorem repeated_movie_same_key :
  schema_answer (ListTask "Failed to fetch popular movies")
    (answer_ok (list_body [batman; batman])) = true /\
  exec_all "k" initial_world batman_twice <> None /\
  list_keys (view (world_after "k" batman_twice)) = Ok ["1"; "1"].
Proof. by vm_compute. Qed.

(** The key is the text of the [id]: an item whose [id] is the number 1
    and one whose [id] is the text "1" are told apart by the source
    ([===] would) and not by their keys. *)
Theorem number_and_text_same_key :
  VNum 1%Z <> VStr "1" /\
  keyExtractor (VObj [("id", VNum 1%Z)]) =
  keyExtractor (VObj [("id", VStr "1")]).
Proof. by vm_compute. Qed.
