(* ===== verification/Catalogue.v ===== *)
(** * Catalogue: the remote catalogue, as the specification documents it

    src/App.js knows the catalogue by three addresses (lines 23, 41
    and 58) and by what it reads of the answers (lines 25-28, 43-46
    and 60-67).  Section 6 of the specification gives the other side:
    the three endpoints, the parameters [api_key], [query] and
    [append_to_response], and the shape of the answers.  This file
    models that side, from the specification:

    - [route] reads an address as the catalogue does: the path below
      the root names the endpoint, the query string carries the key
      and the parameters ([Url.query_params]);
    - a [Catalogue] holds the keys that are accepted, the movies and
      their details; [catalogue_ok] is what sections 3 and 6 promise
      of it (summaries and providers of the documented shape, with
      unique identifiers; details for every movie listed);
    - [serve] is the answer to an address: the error of a refused key,
      the list of a search or the popular list, the details of a movie;
    - [shelf] is a catalogue made from a table of movies, and
      [table_ok] a check that decides its promises by computation.

    The interface between the application and the catalogue is the
    address.  [route_endpoint_url] is the round trip: the catalogue
    reads back the endpoint and the key of an address that the
    application built from plain texts.  For any text that the user
    types, [query_read_prefix] gives what the catalogue reads: the text
    up to its first [&] or [#].  [Served] closes the system with
    [serve] in place of the answers. *)

From Stdlib Require Import String Ascii.
From stdpp Require Import gmap.
From S2P Require Import Prelude JsValue Async ViewState Url Styles Samples.
From S2P Require Import Render Controller Machine Effects Screen Typed.
From S2P Require Import Secret Spec Schema Keys.

Open Scope string_scope.
Open Scope list_scope.

(** ** Reading an address *)

(** [strip_prefix p s]: what follows [p] in [s]. *)
Fixpoint strip_prefix (p s : string) : option string :=
  match p, s with
  | EmptyString, _ => Some s
  | String a p', String b s' =>
      if decide (a = b) then strip_prefix p' s' else None
  | String _ _, EmptyString => None
  end.

(** The path of an address below the root of the catalogue: what
    stands between the root and [?]. *)
Definition url_path (url : string) : option string :=
  strip_prefix catalogue (before_char "?" (before_char "#" url)).

(** The endpoint that an address names. *)
Definition route (url : string) : option endpoint :=
  path ← url_path url;
  if decide (path = "search/movie")
  then Some (Search (default EmptyString (query_param "query" url)))
  else if decide (path = "movie/popular") then Some Popular
  else Details <$> strip_prefix "movie/" path.

(** The key that an address carries. *)
Definition url_key (url : string) : string :=
  default EmptyString (query_param "api_key" url).

(** The address asks for the videos and the providers with the
    details. *)
Definition appended (url : string) : bool :=
  bool_decide
    (query_param "append_to_response" url = Some "videos,watch/providers").

(** The texts that can stand for an identifier in the path of the
    detail request. *)
Definition id_text (s : string) : bool :=
  plain_key s && negb (has_char "/" s) && negb (bool_decide (s = "popular")).

(** The endpoints whose address is read back as it was built. *)
Definition plain_endpoint (ep : endpoint) : bool :=
  match ep with
  | Search q => plain q
  | Popular => true
  | Details id => id_text id
  end.

(** ** The catalogue *)

(** What the catalogue holds: the keys that it accepts, the movies
    that it lists, what it answers to a search and as the popular
    list, and the details that it has of a movie, by the text of the
    identifier. *)
Record Catalogue (num : Type) : Type := mkCatalogue {
  accepts : string -> bool;
  lists : value num -> bool;
  search_results : string -> list (value num);
  popular_results : list (value num);
  details_of : string -> option (value num);
}.
Arguments mkCatalogue {num}.
Arguments accepts {num} C key : rename.
Arguments lists {num} C movie : rename.
Arguments search_results {num} C query : rename.
Arguments popular_results {num} C : rename.
Arguments details_of {num} C id : rename.

Section catalogue.
Context {num : Type} `{!JsNumber num}.
Implicit Types (C : Catalogue num) (v d m : value num) (url key : string)
  (l : list (value num)) (ep : endpoint).

(** The body of an error. *)
Definition error_body (msg : string) : value num :=
  VObj [("success", VBool false); ("status_message", VStr msg)].

(** [{ results: [...] }] *)
Definition results_body l : value num := VObj [("results", VArr l)].

(** The details without what [append_to_response] adds. *)
Definition without_appended d : value num :=
  match d with
  | VObj fs =>
      VObj (filter (fun kv => kv.1 <> "videos" /\ kv.1 <> "watch/providers") fs)
  | _ => d
  end.

(** The answers of the catalogue to a key that it refuses and to an
    address that names nothing. *)
Definition refusal : response num :=
  Response 401
    (Some (error_body "Invalid API key: You must be granted a valid key.")).

Definition not_found : response num :=
  Response 404
    (Some (error_body "The resource you requested could not be found.")).

(** The answer of the catalogue to a request for [url]. *)
Definition serve C url : response num :=
  match route url with
  | None => not_found
  | Some ep =>
      if negb (accepts C (url_key url)) then refusal
      else
        match ep with
        | Search q => Response 200 (Some (results_body (search_results C q)))
        | Popular => Response 200 (Some (results_body (popular_results C)))
        | Details id =>
            match details_of C id with
            | Some d =>
                Response 200
                  (Some (if appended url then d else without_appended d))
            | None => not_found
            end
        end
  end.

(** The text of the identifier of a movie. *)
Definition id_of m : string := to_string (opt_get m "id").

(** What sections 3 and 6 promise of the catalogue. *)
Record catalogue_ok C : Prop := mkCatalogueOk {
  search_keyed q : keyed_by "id" MovieSummary (VArr (search_results C q));
  popular_keyed : keyed_by "id" MovieSummary (VArr (popular_results C));
  search_listed q : forallb (lists C) (search_results C q) = true;
  popular_listed : forallb (lists C) (popular_results C) = true;
  listed_id m : lists C m = true -> id_text (id_of m) = true;
  listed_details m : lists C m = true -> is_Some (details_of C (id_of m));
  details_keyed id d :
    details_of C id = Some d ->
    DetailResponse d = true /\
    unique_by "provider_id" (or_default (us_flatrate d) (VArr [])) = true;
  details_id id d : details_of C id = Some d -> id_of d = id;
}.

(** The movies of a list answer are movies that the catalogue
    lists. *)
Definition listed_answer C (kd : task_kind) (o : outcome (response num))
  : bool :=
  match kd, o with
  | ListTask _, Resolved r =>
      match body r with
      | Some data =>
          match opt_get data "results" with
          | VArr l => forallb (lists C) l
          | _ => true
          end
      | None => true
      end
  | _, _ => true
  end.

(** The answers of a catalogue that keeps its promises. *)
Definition served_answer C kd o : bool :=
  keyed_answer kd o && listed_answer C kd o.

(** *** A catalogue from a table *)

(** The title of [m] holds the text [q]. *)
Definition title_holds (q : string) m : bool :=
  match String.index 0 q (to_string (opt_get m "title")) with
  | Some _ => true
  | None => false
  end.

(** The catalogue of a table of movies, each with its details: a
    search answers the movies whose title holds the text, in the order
    of the table. *)
Definition shelf (keys : list string) (table : list (value num * value num))
  : Catalogue num := {|
  accepts key := bool_decide (key ∈ keys);
  lists m := bool_decide (m ∈ table.*1);
  search_results q := List.filter (title_holds q) table.*1;
  popular_results := table.*1;
  details_of id :=
    snd <$> List.find (fun e => bool_decide (id_of e.1 = id)) table;
|}.

(** The check of a table. *)
Definition row_ok (e : value num * value num) : bool :=
  id_text (id_of e.1) && bool_decide (id_of e.2 = id_of e.1) &&
  DetailResponse e.2 &&
  unique_by "provider_id" (or_default (us_flatrate e.2) (VArr [])).

Definition table_ok (table : list (value num * value num)) : bool :=
  array_of MovieSummary (VArr table.*1) && unique_by "id" (VArr table.*1) &&
  forallb row_ok table.

End catalogue.

(** The catalogue of the examples: Batman and Joker, for the key
    "k". *)
Definition joker_full_details : value Z :=
  VObj [("id", VNum 5%Z); ("title", VStr "Joker");
        ("poster_path", VNull); ("release_date", VStr "2019-10-02");
        ("vote_average", VNum 7%Z); ("overview", VStr "An overview.");
        ("videos", VObj [("results", VArr [video "Teaser" "t"])]);
        ("watch/providers", VObj [("results", VObj [("FR", VObj [])])])].

Definition two_movies : Catalogue Z :=
  shelf ["k"] [(batman, batman_full_details); (joker, joker_full_details)].

(** * Properties *)

(** ** Reading an address *)

Lemma strip_prefix_app p s : strip_prefix p (p +:+ s) = Some s.
Proof.
  induction p as [|a p IH]; [by destruct s|].
  rewrite string_app_cons. simpl. by rewrite decide_True.
Qed.

Section addresses.
Variable key : string.
Hypothesis Hkey : plain_key key = true.

Lemma key_chars :
  has_char "&" key = false /\ has_char "#" key = false /\
  has_char "=" key = false /\ has_char "?" key = false.
Proof. by apply plain_key_inv. Qed.

(** An address below the root whose query starts with the key: its
    path and its parameters. *)
Lemma read_address path rest :
  has_char "?" path = false -> has_char "#" path = false ->
  let url := catalogue +:+ path +:+ "?api_key=" +:+ key +:+ rest in
  url_path url = Some path /\
  query_params url =
  parse_param <$>
    split_all "&" (("api_key" +:+ String "=" key) +:+ before_char "#" rest).
Proof.
  destruct key_chars as (Hk1 & Hk2 & Hk3 & Hk4). intros Hp1 Hp2 url.
  assert (before_char "#" url =
          (catalogue +:+ path) +:+
          String "?" (("api_key" +:+ String "=" key) +:+ before_char "#" rest))
    as Hurl.
  { unfold url.
    change (catalogue +:+ path +:+ "?api_key=" +:+ key +:+ rest) with
      (catalogue +:+ (path +:+ ("?api_key=" +:+ (key +:+ rest)))).
    rewrite !before_char_app by solve_has_char.
    by rewrite !string_app_assoc. }
  unfold url_path, query_params. fold url. rewrite Hurl. split.
  - rewrite before_char_stop by solve_has_char. apply strip_prefix_app.
  - by rewrite split_at_app by solve_has_char.
Qed.

Lemma read_key path rest :
  has_char "?" path = false -> has_char "#" path = false ->
  rest = EmptyString \/ (exists rest', rest = String "&" rest') ->
  url_key (catalogue +:+ path +:+ "?api_key=" +:+ key +:+ rest) = key.
Proof.
  destruct key_chars as (Hk1 & Hk2 & Hk3 & Hk4). intros Hp1 Hp2 Hrest.
  unfold url_key, query_param.
  rewrite (proj2 (read_address path rest Hp1 Hp2)).
  destruct Hrest as [->|[rest' ->]].
  - change (before_char "#" EmptyString) with EmptyString.
    rewrite string_app_empty_r, split_all_none by solve_has_char.
    by rewrite list_fmap_singleton, parse_param_app.
  - rewrite before_char_cons by done.
    rewrite split_all_app by solve_has_char.
    by rewrite fmap_cons, parse_param_app.
Qed.

(** A parameter that follows the key. *)
Lemma read_param path n rest :
  has_char "?" path = false -> has_char "#" path = false ->
  n <> "api_key" ->
  query_param n
    (catalogue +:+ path +:+ "?api_key=" +:+ key +:+ String "&" rest) =
  p ← list_find (fun p => p.1 = n)
        (parse_param <$> split_all "&" (before_char "#" rest));
  Some p.2.2.
Proof.
  destruct key_chars as (Hk1 & Hk2 & Hk3 & Hk4). intros Hp1 Hp2 Hn.
  unfold query_param.
  rewrite (proj2 (read_address path (String "&" rest) Hp1 Hp2)).
  rewrite before_char_cons by done.
  rewrite split_all_app by solve_has_char.
  rewrite fmap_cons, parse_param_app by done.
  simpl. rewrite decide_False by done. simpl.
  by destruct (list_find _ _) as [[? []]|].
Qed.

Lemma search_url_address q :
  search_url key q =
  catalogue +:+ "search/movie" +:+ "?api_key=" +:+ key +:+
  String "&" ("query" +:+ String "=" q).
Proof. reflexivity. Qed.

Lemma popular_url_address :
  popular_url key =
  catalogue +:+ "movie/popular" +:+ "?api_key=" +:+ key +:+ EmptyString.
Proof. by rewrite string_app_empty_r. Qed.

Lemma details_url_address id :
  details_url_of key id =
  catalogue +:+ ("movie/" +:+ id) +:+ "?api_key=" +:+ key +:+
  String "&" "append_to_response=videos,watch/providers".
Proof. unfold details_url_of. simpl. by rewrite !string_app_assoc. Qed.

(** The catalogue reads the text of a search up to its first [&] or
    [#]. *)
Lemma query_read q :
  query_param "query" (search_url key q) =
  Some (before_char "&" (before_char "#" q)).
Proof.
  rewrite search_url_address, read_param by done.
  change ("query" +:+ String "=" q) with ("query=" +:+ q).
  rewrite before_char_app by done.
  destruct (split_all_before "&" ("query=" +:+ before_char "#" q)) as [ps ->].
  rewrite before_char_app by done.
  change ("query=" +:+ ?x) with ("query" +:+ String "=" x).
  rewrite fmap_cons, parse_param_app by done. by simpl.
Qed.

Lemma route_search q :
  route (search_url key q) =
  Some (Search (before_char "&" (before_char "#" q))).
Proof.
  unfold route. rewrite query_read. rewrite search_url_address.
  by rewrite (proj1 (read_address "search/movie" _ eq_refl eq_refl)).
Qed.

Lemma route_popular : route (popular_url key) = Some Popular.
Proof.
  unfold route. rewrite popular_url_address.
  by rewrite (proj1 (read_address "movie/popular" _ eq_refl eq_refl)).
Qed.

Lemma id_text_inv id :
  id_text id = true ->
  has_char "?" id = false /\ has_char "#" id = false /\
  has_char "/" id = false /\ id <> "popular".
Proof.
  unfold id_text.
  intros [[(_ & ? & _ & ?)%plain_key_inv ?%negb_true_iff]%andb_prop
          ?%negb_true_iff%bool_decide_eq_false]%andb_prop. done.
Qed.

Lemma route_details id :
  id_text id = true -> route (details_url_of key id) = Some (Details id).
Proof.
  intros (H1 & H2 & H3 & H4)%id_text_inv. unfold route.
  rewrite details_url_address.
  rewrite (proj1 (read_address ("movie/" +:+ id) _ ltac:(solve_has_char)
                    ltac:(solve_has_char))). cbn [mbind option_bind].
  rewrite !decide_False; [|simpl; by intros [= ?]..].
  by rewrite (strip_prefix_app "movie/").
Qed.

Lemma appended_details id :
  id_text id = true -> appended (details_url_of key id) = true.
Proof.
  intros (H1 & H2 & H3 & H4)%id_text_inv. unfold appended.
  rewrite details_url_address, read_param by (done || solve_has_char).
  by apply bool_decide_eq_true.
Qed.

Lemma url_key_endpoint ep :
  match ep with Details id => id_text id = true | _ => True end ->
  url_key (endpoint_url key ep) = key.
Proof.
  destruct ep as [q| |id]; simpl.
  - intros _. rewrite search_url_address. apply read_key; eauto.
  - intros _. rewrite popular_url_address. apply read_key; eauto.
  - intros (H1 & H2 & H3 & H4)%id_text_inv. rewrite details_url_address.
    apply read_key; eauto; solve_has_char.
Qed.

(** The catalogue reads back the endpoint of an address built from
    plain texts. *)
Lemma route_endpoint ep :
  plain_endpoint ep = true -> route (endpoint_url key ep) = Some ep.
Proof.
  destruct ep as [q| |id]; simpl.
  - intros [Hq1%negb_true_iff Hq2%negb_true_iff]%andb_prop.
    by rewrite route_search, (before_char_none "#"), (before_char_none "&").
  - intros _. apply route_popular.
  - apply route_details.
Qed.

End addresses.

Section catalogue_props.
Context {num : Type} `{!JsNumber num}.
Implicit Types (C : Catalogue num) (v d m : value num) (url key : string)
  (l : list (value num)) (ep : endpoint)
  (table : list (value num * value num)).

(** ** The catalogue of a table *)

Lemma row_ok_inv (e : value num * value num) :
  row_ok e = true ->
  id_text (id_of e.1) = true /\ id_of e.2 = id_of e.1 /\
  DetailResponse e.2 = true /\
  unique_by "provider_id" (or_default (us_flatrate e.2) (VArr [])) = true.
Proof.
  unfold row_ok.
  by intros [[[? ?%bool_decide_eq_true]%andb_prop ?]%andb_prop ?]%andb_prop.
Qed.

Lemma table_row table m :
  forallb row_ok table = true -> m ∈ table.*1 ->
  exists e, e ∈ table /\ e.1 = m /\ row_ok e = true.
Proof.
  rewrite forallb_forall. intros Ht (e & -> & He)%list_elem_of_fmap.
  exists e. split_and!; [done..|]. by apply Ht, list_elem_of_In.
Qed.

Lemma table_find table id e :
  forallb row_ok table = true ->
  List.find (fun e => bool_decide (id_of e.1 = id)) table = Some e ->
  id_of e.1 = id /\ row_ok e = true.
Proof.
  rewrite forallb_forall.
  intros Ht [Hin Hid%bool_decide_eq_true]%find_some. auto.
Qed.

Lemma shelf_ok keys table :
  table_ok table = true -> catalogue_ok (shelf keys table).
Proof.
  unfold table_ok. intros [[Ha Hu]%andb_prop Hrows]%andb_prop.
  assert (forallb (lists (shelf keys table)) table.*1 = true) as Hl.
  { apply forallb_forall. intros m Hm%list_elem_of_In.
    by apply bool_decide_eq_true. }
  constructor; simpl.
  - intros q. split; simpl.
    + by apply forallb_filter.
    + apply bool_decide_eq_true, NoDup_fmap_filter.
      by apply bool_decide_eq_true in Hu.
  - by split.
  - intros q. by apply forallb_filter.
  - done.
  - intros m Hm%bool_decide_eq_true.
    destruct (table_row _ _ Hrows Hm) as (e & _ & <- & He).
    by apply row_ok_inv in He as (? & _).
  - intros m Hm%bool_decide_eq_true.
    destruct (table_row _ _ Hrows Hm) as (e & He & <- & _).
    destruct (List.find _ table) as [e'|] eqn:Hf; [by eexists|].
    apply list_elem_of_In in He.
    pose proof (find_none _ _ Hf _ He) as Hn. simpl in Hn.
    by rewrite bool_decide_true in Hn.
  - intros id d. destruct (List.find _ table) as [e|] eqn:Hf; [|done].
    intros [= <-]. destruct (table_find _ _ _ Hrows Hf) as [_ He].
    by apply row_ok_inv in He as (_ & _ & ? & ?).
  - intros id d. destruct (List.find _ table) as [e|] eqn:Hf; [|done].
    intros [= <-]. destruct (table_find _ _ _ Hrows Hf) as [<- He].
    by apply row_ok_inv in He as (_ & ? & _).
Qed.

(** ** The answers *)

Section answers.
Variables (C : Catalogue num) (key : string).
Hypothesis Hkey : plain_key key = true.

Lemma serve_search q :
  serve C (search_url key q) =
  if accepts C key
  then Response 200
         (Some (results_body
                  (search_results C (before_char "&" (before_char "#" q)))))
  else refusal.
Proof.
  pose proof (url_key_endpoint key Hkey (Search q) I) as Hk. simpl in Hk.
  unfold serve. rewrite route_search, Hk by done.
  by destruct (accepts C key).
Qed.

Lemma serve_popular :
  serve C (popular_url key) =
  if accepts C key
  then Response 200 (Some (results_body (popular_results C)))
  else refusal.
Proof.
  pose proof (url_key_endpoint key Hkey Popular I) as Hk. simpl in Hk.
  unfold serve. rewrite route_popular, Hk by done.
  by destruct (accepts C key).
Qed.

Lemma serve_details id :
  id_text id = true ->
  serve C (details_url_of key id) =
  if accepts C key
  then match details_of C id with
       | Some d => Response 200 (Some d)
       | None => not_found
       end
  else refusal.
Proof.
  intros Hid.
  pose proof (url_key_endpoint key Hkey (Details id) Hid) as Hk. simpl in Hk.
  unfold serve. rewrite route_details, Hk, appended_details by done.
  by destruct (accepts C key).
Qed.

(** The answers of a catalogue that keeps its promises, to a key that
    it accepts. *)
Hypothesis HC : catalogue_ok C.
Hypothesis Haccepts : accepts C key = true.

Lemma results_body_results l : opt_get (results_body l) "results" = VArr l.
Proof. reflexivity. Qed.

Lemma results_body_fits msg l :
  keyed_by "id" MovieSummary (VArr l) -> forallb (lists C) l = true ->
  served_answer C (ListTask msg) (Resolved (Response 200 (Some (results_body l))))
  = true.
Proof.
  intros [Hl Hu] Hlisted.
  unfold served_answer, keyed_answer, schema_answer, unique_answer,
    listed_answer, ListResponse.
  cbn [body]. by rewrite results_body_results, Hl, Hu, Hlisted.
Qed.

Lemma serve_search_fits msg q :
  served_answer C (ListTask msg) (Resolved (serve C (search_url key q))) = true.
Proof.
  rewrite serve_search, Haccepts.
  apply results_body_fits; [apply (search_keyed _ HC)|apply (search_listed _ HC)].
Qed.

Lemma serve_popular_fits msg :
  served_answer C (ListTask msg) (Resolved (serve C (popular_url key))) = true.
Proof.
  rewrite serve_popular, Haccepts.
  apply results_body_fits; [apply (popular_keyed _ HC)|apply (popular_listed _ HC)].
Qed.

Lemma serve_details_fits m :
  lists C m = true ->
  served_answer C DetailsTask
    (Resolved (serve C (details_url_of key (id_of m)))) = true.
Proof.
  intros Hm. rewrite serve_details, Haccepts by by apply (listed_id _ HC).
  destruct (listed_details _ HC m Hm) as [d Hd]. rewrite Hd.
  destruct (details_keyed _ HC _ _ Hd) as [Hs Hu].
  unfold served_answer, keyed_answer. simpl. by rewrite Hs, Hu.
Qed.

End answers.

End catalogue_props.

(** * Theorems *)

(** C25. The catalogue reads back what the application wrote: for a key
    and an endpoint of plain texts, the address of the endpoint names
    the endpoint, carries the key, and, for the details, asks for the
    videos and the providers. *)
Theorem route_endpoint_url key ep :
  plain_key key = true -> plain_endpoint ep = true ->
  route (endpoint_url key ep) = Some ep /\
  url_key (endpoint_url key ep) = key /\
  (forall id, ep = Details id -> appended (endpoint_url key ep) = true).
Proof.
  intros Hkey Hep. split_and!.
  - by apply route_endpoint.
  - apply url_key_endpoint; [done|]. by destruct ep.
  - intros id ->. by apply appended_details.
Qed.

(** C40. Whatever is typed, the catalogue searches for the text up to its
    first [&] or [#]: the rest is read as other parameters, or not at
    all. *)
Theorem query_read_prefix key q :
  plain_key key = true ->
  route (search_url key q) =
    Some (Search (before_char "&" (before_char "#" q))) /\
  url_key (search_url key q) = key.
Proof.
  intros Hkey. split; [by apply route_search|].
  by apply (url_key_endpoint key Hkey (Search q)).
Qed.

(** A table that passes the check is a catalogue that keeps the
    promises of the specification. *)
Theorem table_catalogue {num} `{!JsNumber num} keys
    (table : list (value num * value num)) :
  table_ok table = true -> catalogue_ok (shelf keys table).
Proof. apply shelf_ok. Qed.

Lemma route_endpoint_url_witness :
  route (endpoint_url "k" (Details "5")) = Some (Details "5") /\
  url_key (endpoint_url "k" (Details "5")) = "k" /\
  (forall id, Details "5" = Details id ->
     appended (endpoint_url "k" (Details "5")) = true).
Proof. apply (route_endpoint_url "k" (Details "5")); reflexivity. Defined.

Lemma query_read_prefix_witness :
  route (search_url "k" "bat&page=2") = Some (Search "bat") /\
  url_key (search_url "k" "bat&page=2") = "k".
Proof. apply (query_read_prefix "k" "bat&page=2"). reflexivity. Defined.

Lemma table_catalogue_witness : catalogue_ok two_movies.
Proof. apply (table_catalogue ["k"]). by vm_compute. Defined.
