(* ===== verification/Scenarios.v ===== *)
(** * Scenarios: the application on complete runs

    Each run is a list of events from the initial world: what the user
    does and how the network answers, in order.  The theorems state the
    world at the end of the run; they are proved by evaluating
    [Machine.exec_all].  The first three are the sequential scenarios of
    the specification; the others are runs in which two requests
    overlap, or a request outlives the modal that started it. *)

From stdpp Require Import gmap.
From S2P Require Import Prelude JsValue Async ViewState Url Samples.
From S2P Require Import Controller Machine.

Open Scope string_scope.
Open Scope list_scope.

(** The user types "batman" and searches; the catalogue answers one
    movie. *)
Definition search_batman : list (event Z) :=
  [ChangeText "batman"; PressSearch;
   FetchSettles 0 (answer_ok (list_body [batman])); JsonSettles 0].

(** The popular list is requested while offline, after a list was
    loaded. *)
Definition popular_offline : list (event Z) :=
  search_batman ++ [PressPopular; FetchSettles 1 answer_offline].

(** The popular list is loaded and Batman is opened; its details hold a
    teaser and a trailer. *)
Definition open_batman : list (event Z) :=
  [PressPopular; FetchSettles 0 (answer_ok (list_body [batman; joker]));
   JsonSettles 0; PressMovie batman;
   FetchSettles 1 (answer_ok batman_details); JsonSettles 1].

(** Two searches overlap: "joker" is requested while "batman" is in
    flight, and the answer for "batman" arrives last. *)
Definition overlapping_searches : list (event Z) :=
  [ChangeText "batman"; PressSearch; ChangeText "joker"; PressSearch;
   FetchSettles 1 (answer_ok (list_body [joker])); JsonSettles 1;
   FetchSettles 0 (answer_ok (list_body [batman])); JsonSettles 0].

(** Batman is opened and closed, Joker is opened; the details of Joker
    arrive first, those of Batman last. *)
Definition overlapping_details : list (event Z) :=
  [PressPopular; FetchSettles 0 (answer_ok (list_body [batman; joker]));
   JsonSettles 0; PressMovie batman; PressClose; PressMovie joker;
   FetchSettles 2 (answer_ok joker_details); JsonSettles 2;
   FetchSettles 1 (answer_ok batman_details); JsonSettles 1].

(** Batman is opened and closed before its details arrive. *)
Definition closed_before_details : list (event Z) :=
  [PressPopular; FetchSettles 0 (answer_ok (list_body [batman]));
   JsonSettles 0; PressMovie batman; PressClose;
   FetchSettles 1 (answer_ok batman_details); JsonSettles 1].

(** The key is refused: every list request is answered 401 with the
    body of the catalogue. *)
Definition refused_key : list (event Z) :=
  [ChangeText "batman"; PressSearch; FetchSettles 0 answer_unauthorized;
   JsonSettles 0].

(** Scenario: after the search for "batman" is answered, the list
    is the movie answered, no error is shown, nothing is loading and no
    request is left. *)
Theorem scenario_search_batman :
  view (world_after "k" search_batman) =
    mkViewState "batman" (VArr [batman]) false EmptyString VNull false VNull
      (VArr []) /\
  pending (world_after "k" search_batman) = ∅.
Proof. by vm_compute. Qed.

(** Scenario: when the request for the popular list is rejected,
    the fixed message is shown, the list loaded before is kept and
    nothing is loading. *)
Theorem scenario_popular_offline :
  list_cells (view (world_after "k" popular_offline)) =
    (VArr [batman], false, "Failed to fetch popular movies") /\
  pending (world_after "k" popular_offline) = ∅.
Proof. by vm_compute. Qed.

(** Scenario: the details of Batman hold a teaser "x" and a
    trailer "y": the modal shows Batman with the trailer "y" and the
    providers of the region US. *)
Theorem scenario_open_batman :
  modal_cells (view (world_after "k" open_batman)) = (batman, true) /\
  detail_cells (view (world_after "k" open_batman)) =
    (VStr "y", VArr [provider 8 "Netflix"]).
Proof. by vm_compute. Qed.

(** Scenario: two searches overlap and the second is answered
    first: at the end the query on screen is "joker" and the list is the
    answer for "batman". *)
Theorem scenario_overlapping_searches :
  query (view (world_after "k" overlapping_searches)) = "joker" /\
  list_cells (view (world_after "k" overlapping_searches)) =
    (VArr [batman], false, EmptyString) /\
  pending (world_after "k" overlapping_searches) = ∅.
Proof. by vm_compute. Qed.

(** Scenario: two detail requests overlap: at the end the modal
    shows Joker with the trailer and the providers of Batman. *)
Theorem scenario_overlapping_details :
  modal_cells (view (world_after "k" overlapping_details)) = (joker, true) /\
  detail_cells (view (world_after "k" overlapping_details)) =
    (VStr "y", VArr [provider 8 "Netflix"]) /\
  pending (world_after "k" overlapping_details) = ∅.
Proof. by vm_compute. Qed.

(** Scenario: the details arrive after the modal was closed: they
    are written all the same. *)
Theorem scenario_closed_before_details :
  modal_cells (view (world_after "k" closed_before_details)) =
    (batman, false) /\
  detail_cells (view (world_after "k" closed_before_details)) =
    (VStr "y", VArr [provider 8 "Netflix"]).
Proof. by vm_compute. Qed.

(** Scenario: the key is refused with the status 401: no error is
    shown, the list is empty and nothing is loading, as if the search
    had found no movie. *)
Theorem scenario_refused_key :
  list_cells (view (world_after "k" refused_key)) =
    (VArr [], false, EmptyString) /\
  unhandled (world_after "k" refused_key) = [].
Proof. by vm_compute. Qed.
