(* ===== verification/Focus.v ===== *)
(** * Focus: the modal covers the screen

    src/App.js, lines 163-168: the modal is opaque
    ([transparent={false}]) and [visible={modalVisible}].  React Native
    presents a visible modal above the view that declares it, so while
    [modalVisible] is true a touch reaches the content of the modal
    only: the text input, the two buttons and the items of the list are
    rendered (lines 139-161) but covered.

    [Machine.step] and [Screen.app_step] let every handler of the tree
    fire, covered or not: they allow more runs than the device does,
    and their invariants hold of the device a fortiori
    ([focused_reachable_app_reachable]).  What is shown to be reachable
    there has to be reachable with the cover as well: [focused_step]
    is [Screen.app_step] restricted to the touches that the cover lets
    through, and the runs of the examples are checked to be runs of it
    ([runs_focused]).

    With the cover, no request starts while the modal is visible and
    the movie that it shows stays ([modal_starts_nothing]): a detail
    request is started by the press that opens the modal and by nothing
    else until it is closed. *)

From stdpp Require Import gmap.
From S2P Require Import Prelude JsValue Async ViewState Url Styles Samples.
From S2P Require Import Render Controller Machine Screen Links Typed Drain.
From S2P Require Import Budget.
From S2P Require Import Secret Spec Schema Keys Scenarios.

Open Scope string_scope.
Open Scope list_scope.

(** The runs of the examples. *)
Definition example_runs : list (list (event Z)) :=
  [search_batman; popular_offline; open_batman; overlapping_searches;
   overlapping_details; closed_before_details; refused_key;
   batman_pressed; three_pending; joker_after_batman; batman_documented;
   searched_and_opened; batman_twice].

(** Joker is pressed under the modal of Batman. *)
Definition pressed_under_modal : list (event Z) :=
  batman_pressed ++ [PressMovie joker].

Section focus.
Context {num : Type} `{!JsNumber num} `{!JsDate num}.
Variable API_KEY : string.
Implicit Types (w : World num) (e : event num) (es : list (event num)).

(** The gestures on the elements of lines 139-161, which a visible
    modal covers. *)
Definition on_main e : bool :=
  match e with
  | ChangeText _ | PressSearch | PressPopular | PressMovie _ => true
  | RequestClose | PressClose | FetchSettles _ _ | JsonSettles _ => false
  end.

(** The events that the cover lets through. *)
Definition focused w e : bool :=
  negb (modalVisible (view w) && on_main e).

Definition focused_step w e w' : Prop :=
  focused w e = true /\ app_step API_KEY w e w'.

Inductive focused_reachable : World num -> Prop :=
| focused_reachable_initial : focused_reachable initial_world
| focused_reachable_step w e w' :
    focused_reachable w -> focused_step w e w' -> focused_reachable w'.

Definition focused_exec w e : option (World num) :=
  if focused w e then app_exec API_KEY w e else None.

Fixpoint focused_exec_all w es : option (World num) :=
  match es with
  | [] => Some w
  | e :: es' => w' ← focused_exec w e; focused_exec_all w' es'
  end.

(** The presses on a link of the modal are let through. *)
Definition focused_device_exec (d : Device num) (ev : device_event num)
  : option (Device num) :=
  match ev with
  | AppEvent e => w' ← focused_exec (world d) e; Some (with_world w' d)
  | PressLink _ _ => device_exec API_KEY d ev
  end.

Fixpoint focused_device_exec_all (d : Device num)
    (evs : list (device_event num)) : option (Device num) :=
  match evs with
  | [] => Some d
  | ev :: evs' =>
      d' ← focused_device_exec d ev; focused_device_exec_all d' evs'
  end.

End focus.

(** * Properties *)

Section focus_props.
Context {num : Type} `{!JsNumber num} `{!JsDate num}.
Variable API_KEY : string.
Implicit Types (w : World num) (e : event num) (es : list (event num)).

Lemma focused_exec_step w e w' :
  focused_exec API_KEY w e = Some w' <-> focused_step API_KEY w e w'.
Proof.
  unfold focused_exec, focused_step. rewrite <-app_exec_app_step.
  destruct (focused w e); naive_solver.
Qed.

Lemma focused_exec_app_exec w e w' :
  focused_exec API_KEY w e = Some w' -> app_exec API_KEY w e = Some w'.
Proof. unfold focused_exec. by case_match. Qed.

Lemma focused_exec_all_app_exec_all w es w' :
  focused_exec_all API_KEY w es = Some w' ->
  app_exec_all API_KEY w es = Some w'.
Proof.
  revert w. induction es as [|e es IH]; intros w; simpl; [done|].
  destruct (focused_exec API_KEY w e) as [w1|] eqn:He; [|done]. simpl.
  rewrite (focused_exec_app_exec _ _ _ He). apply IH.
Qed.

Lemma focused_reachable_app_reachable w :
  focused_reachable API_KEY w -> app_reachable API_KEY w.
Proof.
  induction 1 as [|w e w' _ IH [_ Hstep]]; [constructor|by econstructor].
Qed.

Lemma focused_exec_all_reachable w es w' :
  focused_reachable API_KEY w -> focused_exec_all API_KEY w es = Some w' ->
  focused_reachable API_KEY w'.
Proof.
  revert w. induction es as [|e es IH]; intros w Hw; simpl.
  - by intros [= <-].
  - destruct (focused_exec API_KEY w e) as [w1|] eqn:He; [|done]. simpl.
    apply IH. econstructor; [done|]. by apply focused_exec_step.
Qed.

Lemma starts_request_on_main e : starts_request e = true -> on_main e = true.
Proof. by destruct e. Qed.

(** ** Theorems *)

(** The selected movie changes by a press on an item only. *)
Lemma step_selected w e w' :
  inv w -> step API_KEY w e w' ->
  selectedMovie (view w') = selectedMovie (view w) \/ on_main e = true.
Proof.
  intros Hw Hstep.
  destruct (step_cells _ _ _ _ Hw Hstep)
    as [Hc|[(item & -> & _)
       |[(id & r & msg & results & _ & _ & _ & Hc)
        |(id & r & data & tr & _ & _ & _ & _ & Hc)]]];
    [left|by right|left..]; by injection Hc.
Qed.

(** C32. With the cover, no request starts while the modal is visible, and
    the movie that it shows stays: an event that the cover lets through
    gives out no identifier, leaves the selected movie, and leaves the
    handlers that were pending or settles one of them. *)
Theorem modal_starts_nothing w e w' :
  focused_reachable API_KEY w -> focused_step API_KEY w e w' ->
  modalVisible (view w) = true ->
  next_id w' = next_id w /\
  selectedMovie (view w') = selectedMovie (view w) /\
  (is_settlement e = false -> pending w' = pending w).
Proof.
  intros Hw%focused_reachable_app_reachable%app_reachable_reachable
    [Hf Hstep%offered_step] Hm. apply (inv_reachable API_KEY) in Hw.
  unfold focused in Hf. rewrite Hm in Hf.
  assert (on_main e = false) as Hmain by by destruct (on_main e).
  split_and!.
  - destruct (is_settlement e) eqn:He.
    + by destruct (settle_cost API_KEY _ _ _ Hw He Hstep) as [-> _].
    + destruct (gesture_cost API_KEY _ _ _ Hw He Hstep)
        as [_ [[-> _]|(Hr%starts_request_on_main & _)]]; congruence.
  - destruct (step_selected _ _ _ Hw Hstep); congruence.
  - intros He. destruct (gesture_cost API_KEY _ _ _ Hw He Hstep)
      as [_ [[_ ->]|(Hr%starts_request_on_main & _)]]; congruence.
Qed.

End focus_props.

(** * The runs of the examples *)

(** Every run of the examples is a run of the device with the cover:
    what the scenarios and the counterexamples reach, the device
    reaches. *)
Theorem runs_focused :
  Forall (fun es => is_Some (focused_exec_all "k" initial_world es) /\
                    focused_exec_all "k" initial_world es =
                    exec_all "k" initial_world es) example_runs.
Proof.
  repeat (constructor; [split; [by eexists; vm_compute|by vm_compute]|]).
  constructor.
Qed.

(** So is the run in which the trailer of Batman is opened from the
    modal of Joker. *)
Theorem links_focused :
  focused_device_exec_all "k" initial_device joker_trailer_pressed =
  device_exec_all "k" initial_device joker_trailer_pressed /\
  is_Some (device_exec_all "k" initial_device joker_trailer_pressed).
Proof. split; [by vm_compute|by eexists; vm_compute]. Qed.

(** The machine is more permissive than the device: it lets an item of
    the list be pressed under the modal. *)
Theorem machine_ignores_cover :
  is_Some (exec_all "k" initial_world pressed_under_modal) /\
  focused_exec_all "k" initial_world pressed_under_modal = None.
Proof. split; [by eexists; vm_compute|by vm_compute]. Qed.

Lemma modal_starts_nothing_witness :
  next_id (start closeModal (world_after "k" batman_pressed)) =
    next_id (world_after "k" batman_pressed) /\
  selectedMovie (view (start closeModal (world_after "k" batman_pressed))) =
    selectedMovie (view (world_after "k" batman_pressed)) /\
  (is_settlement (PressClose (num := Z)) = false ->
   pending (start closeModal (world_after "k" batman_pressed)) =
   pending (world_after "k" batman_pressed)).
Proof.
  apply (modal_starts_nothing "k" _ PressClose).
  - apply (focused_exec_all_reachable "k" initial_world batman_pressed);
      [constructor|by vm_compute].
  - apply focused_exec_step. by vm_compute.
  - by vm_compute.
Defined.
