(* ===== verification/Correct.v ===== *)
(** * Correct: the application on the documented catalogue

    The statement that the other files add up to.  The device is the
    application with the modal covering the screen ([Focus]) and the
    links of the modal ([Links]); the catalogue keeps to the schema of
    the specification and sends each identifier once ([Schema],
    [Keys]); requests fail and answers arrive in any order.  Then, in
    every state that the device reaches ([documented_correct]):

    - the screen renders, and the keys of its lists are distinct;
    - the state is typed as section 3 of the specification types it,
      and the world refines a world of the specified controller;
    - [loading] is on only while a list request is in flight, and a
      visible modal shows a movie of the catalogue;
    - no handler threw, no promise of a handler was rejected without a
      handler, and no link failed to build its address;
    - every request in flight goes to the catalogue, and every page
      opened is a page of the video platform or of the catalogue's site.

    What stays wrong on the documented catalogue is not in this list:
    the details of the movie opened before under the title of the new
    one ([Links.stale_trailer_link], [Spec.stale_details_shown]), the
    races of overlapping requests ([Machine.last_settled_wins],
    [Machine.details_written_whatever_is_shown]) and the year of a
    first of January ([Render.renderMovieItem_year]). *)

From stdpp Require Import gmap.
From S2P Require Import Prelude JsValue Async ViewState Url Styles Samples.
From S2P Require Import Render Controller Machine Screen Links Typed Secret.
From S2P Require Import Spec Schema Keys Focus.

Open Scope string_scope.
Open Scope list_scope.

(** The popular list, Batman and its details, and a press on the link
    to its trailer. *)
Definition batman_trailer_watched : list (device_event Z) :=
  (AppEvent <$> batman_documented) ++
  [PressLink (Ok "https://www.youtube.com/watch?v=y") (Resolved tt)].

Section correct.
Context {num : Type} `{!JsNumber num} `{!JsDate num}.
Variable API_KEY : string.
Implicit Types (d : Device num) (w : World num) (e : event num)
  (ev : device_event num).

(** The events of the device on the documented catalogue: a touch
    that the cover lets through, an answer of the schema with unique
    identifiers, or a press on a link. *)
Definition documented_event d ev : Prop :=
  match ev with
  | AppEvent e =>
      focused (world d) e = true /\ answers_fit keyed_answer (world d) e
  | PressLink _ _ => True
  end.

Inductive documented : Device num -> Prop :=
| documented_initial : documented initial_device
| documented_step d ev d' :
    documented d -> device_step API_KEY d ev d' -> documented_event d ev ->
    documented d'.

Record correct d : Prop := mkCorrect {
  correct_renders : is_Ok (render (view (world d))) = true;
  correct_keys :
    (exists ks, list_keys (view (world d)) = Ok ks /\ NoDup ks) /\
    (exists ks, provider_keys (view (world d)) = Ok ks /\ NoDup ks);
  correct_state : state_schema (view (world d)) = true;
  correct_spec : exists a, spec_reachable false a /\ refines (world d) a;
  correct_loading :
    loading (view (world d)) = true -> list_pending (pending (world d));
  correct_modal :
    modalVisible (view (world d)) = true ->
    MovieSummary (selectedMovie (view (world d))) = true;
  correct_handlers : unhandled (world d) = [] /\ uncaught d = [];
  correct_requests id url k :
    pending (world d) !! id = Some (TFetch url k) -> to_catalogue url = true;
  correct_links : Forall (fun a => link_address a = true) (opened d);
}.

End correct.

(** * Properties *)

Section correct_props.
Context {num : Type} `{!JsNumber num} `{!JsDate num}.
Context `{!Inj (=) (=) (num_to_string (num := num))}.
Variable API_KEY : string.
Implicit Types (d : Device num) (w : World num) (e : event num)
  (ev : device_event num).

Lemma documented_device d : documented API_KEY d -> device_reachable API_KEY d.
Proof. induction 1; [constructor|by econstructor]. Qed.

Lemma documented_keyed d :
  documented API_KEY d -> fit_reachable API_KEY keyed_answer (world d).
Proof.
  induction 1 as [|d ev d' _ IH Hstep Hev]; [constructor|].
  destruct Hstep as [d e w' Hstep|d url o _]; [|by destruct url].
  destruct Hev as [_ Ha]. econstructor; [done| |done].
  by apply offered_step.
Qed.

Lemma documented_focused d :
  documented API_KEY d -> focused_reachable API_KEY (world d).
Proof.
  induction 1 as [|d ev d' _ IH Hstep Hev]; [constructor|].
  destruct Hstep as [d e w' Hstep|d url o _]; [|by destruct url].
  destruct Hev as [Hf _]. by econstructor.
Qed.

Lemma keyed_schema w :
  fit_reachable API_KEY keyed_answer w -> schema_reachable API_KEY w.
Proof.
  apply fit_reachable_impl. by intros kd o [? _]%andb_prop.
Qed.

(** A movie of the schema is in the visible modal. *)
Lemma schema_modal w :
  schema_reachable API_KEY w -> modalVisible (view w) = true ->
  MovieSummary (selectedMovie (view w)) = true.
Proof.
  intros Hw Hm. pose proof (schema_state _ (schema_reachable_inv _ _ Hw)) as Hs.
  apply (fit_reachable_reachable _ schema_answer), (inv_reachable API_KEY) in Hw.
  apply (ok_modal _ (inv_view _ Hw)), item_ok_not_nullish in Hm.
  unfold state_schema, state_cells, shape_cells, optional in Hs.
  cbn [fst snd] in Hs. split_andb. by rewrite Hm in *.
Qed.

Lemma documented_exec d ev d' :
  documented API_KEY d -> device_exec API_KEY d ev = Some d' ->
  documented_event d ev -> documented API_KEY d'.
Proof. intros Hd Hex%device_exec_step Hev. by econstructor. Qed.

(** Every state of the device on the documented catalogue is correct. *)
Lemma documented_is_correct d : documented API_KEY d -> correct d.
Proof.
  intros Hd. pose proof (documented_keyed _ Hd) as Hk.
  pose proof (keyed_schema _ Hk) as Hs.
  pose proof (fit_reachable_reachable _ _ _ Hk) as Hr.
  pose proof (inv_reachable _ _ Hr) as Hi.
  destruct (keyed_lists _ _ Hk) as [Hm Hl].
  constructor.
  - by apply render_shaped, typed_shaped, (typed_reachable_inv API_KEY),
      schema_reachable_typed.
  - split; [by apply keyed_list_keys|by apply keyed_provider_keys].
  - by apply (schema_state _ (schema_reachable_inv _ _ Hs)).
  - by apply (covered_reachable_refines API_KEY), schema_reachable_covered.
  - by apply inv_loading.
  - by apply (schema_modal _ Hs).
  - split; [by apply inv_unhandled|].
    by apply (device_uncaught API_KEY), documented_device.
  - intros id url k Hid.
    destruct (reachable_requests _ _ _ _ _ Hr Hid) as [ep ->].
    apply endpoint_to_catalogue.
  - by apply (device_opened API_KEY), documented_device.
Qed.

(** ** The theorem *)

(** C18. On the documented catalogue the device is correct in every state it
    reaches: the screen renders with distinct keys, the state is typed
    and refines the specified controller, the invariants of [loading]
    and of the modal hold, nothing threw, every request goes to the
    catalogue and every link to the video platform or the catalogue's
    site. *)
Theorem documented_correct d : documented API_KEY d -> correct d.
Proof. apply documented_is_correct. Qed.

End correct_props.

(** * On a sample run *)

Lemma batman_trailer_documented :
  documented "k" (device_after "k" batman_trailer_watched).
Proof.
  apply (documented_exec "k" (device_after "k" (take 6 batman_trailer_watched))
           (PressLink (Ok "https://www.youtube.com/watch?v=y") (Resolved tt)));
    [|by vm_compute|done].
  apply (documented_exec "k" (device_after "k" (take 5 batman_trailer_watched))
           (AppEvent (JsonSettles 1)));
    [|by vm_compute|split; [by vm_compute|apply answers_fit_json]].
  apply (documented_exec "k" (device_after "k" (take 4 batman_trailer_watched))
           (AppEvent (FetchSettles 1 (answer_ok batman_full_details))));
    [|by vm_compute|split; [by vm_compute|]].
  2: { eapply (answers_fit_fetch _ _ 1 _ _ DetailsTask);
         [by vm_compute|constructor|by vm_compute]. }
  apply (documented_exec "k" (device_after "k" (take 3 batman_trailer_watched))
           (AppEvent (PressMovie batman)));
    [|by vm_compute|split; [by vm_compute|by apply answers_fit_gesture]].
  apply (documented_exec "k" (device_after "k" (take 2 batman_trailer_watched))
           (AppEvent (JsonSettles 0)));
    [|by vm_compute|split; [by vm_compute|apply answers_fit_json]].
  apply (documented_exec "k" (device_after "k" (take 1 batman_trailer_watched))
           (AppEvent (FetchSettles 0 (answer_ok (list_body [batman; joker])))));
    [|by vm_compute|split; [by vm_compute|]].
  2: { eapply (answers_fit_fetch _ _ 0 _ _
                 (ListTask "Failed to fetch popular movies"));
         [by vm_compute|constructor|by vm_compute]. }
  apply (documented_exec "k" initial_device (AppEvent PressPopular));
    [constructor|by vm_compute|].
  split; [by vm_compute|by apply answers_fit_gesture].
Qed.

Lemma documented_correct_witness :
  correct (device_after "k" batman_trailer_watched).
Proof. apply (documented_correct "k"), batman_trailer_documented. Defined.
