(* ===== verification/Served.v ===== *)
(** * Served: the application and the catalogue together

    [Machine], [Screen] and [Correct] take the answers of the network
    as they come: any answer, then any answer of the documented
    schema.  This file closes the system.  The device is the
    application with its screen, the cover of the modal and the links
    ([Focus], [Links]); the other side is a catalogue ([Catalogue]);
    between the two, a request in flight is answered by the catalogue
    ([Answer]: the answer is [serve] of the address that [fetch] was
    given, src/App.js lines 22, 40 and 57), or lost ([Loss]: [fetch]
    rejects), and an answer that arrived is read ([Body],
    [response.json()], lines 25, 43 and 60).  [served_exec] is one
    event of the closed system and [served] the devices that it
    reaches.

    With a catalogue that keeps the promises of the specification and
    a key that it accepts:

    - the requests in flight are searches, popular lists, and details
      of movies that the catalogue listed ([requests_ok]), so every
      answer is of the schema and the device is the device of
      [Correct] ([served_correct]);
    - a search shows what the catalogue found for the text that it
      read ([search_served]), a press on a movie shows the trailer and
      the providers of that movie ([open_served]) when its answer is
      the next to arrive; when the answer of a movie opened before
      arrives after it, the modal shows the details of the other movie
      ([late_details_served]): the race of [Machine] needs no wrong
      answer.

    With a key that the catalogue refuses nothing is ever shown, not
    even an error ([refused_key_silent]): lines 26 and 44 find no
    [results] in the refusal and leave the state as it is. *)

From Stdlib Require Import String Ascii.
From stdpp Require Import gmap.
From S2P Require Import Prelude JsValue Async ViewState Url Styles Samples.
From S2P Require Import Render Controller Machine Effects Screen Links Typed.
From S2P Require Import Drain Secret Spec Schema Keys Catalogue Focus Correct.

Open Scope string_scope.
Open Scope list_scope.

(** What happens to the device: a touch on the screen, a press on a
    link, and what the network makes of a request in flight. *)
Inductive client_event (num : Type) : Type :=
| Touch (e : event num)
| Link (url : result exn string) (o : outcome unit)
| Answer (id : nat)
| Loss (id : nat)
| Body (id : nat).
Arguments Touch {num} e.
Arguments Link {num} url o.
Arguments Answer {num} id.
Arguments Loss {num} id.
Arguments Body {num} id.

Section served.
Context {num : Type} `{!JsNumber num} `{!JsDate num}.
Variable API_KEY : string.
Variable C : Catalogue num.
Implicit Types (d : Device num) (w : World num) (e : event num)
  (ce : client_event num) (t : task num) (id : nat) (m : value num).

(** The event of the device that an event of the closed system is:
    the answer to a request is the answer of the catalogue to its
    address. *)
Definition device_event_of d ce : option (device_event num) :=
  match ce with
  | Touch e =>
      match settles e with
      | None => Some (AppEvent e)
      | Some _ => None
      end
  | Link url o => Some (PressLink url o)
  | Answer id =>
      match pending (world d) !! id with
      | Some (TFetch url _) =>
          Some (AppEvent (FetchSettles id (Resolved (serve C url))))
      | _ => None
      end
  | Loss id => Some (AppEvent (FetchSettles id (Rejected NetworkFailure)))
  | Body id => Some (AppEvent (JsonSettles id))
  end.

Definition served_exec d ce : option (Device num) :=
  ev ← device_event_of d ce; focused_device_exec API_KEY d ev.

Fixpoint served_exec_all d (ces : list (client_event num))
  : option (Device num) :=
  match ces with
  | [] => Some d
  | ce :: ces' => d' ← served_exec d ce; served_exec_all d' ces'
  end.

(** The devices of the closed system. *)
Inductive served : Device num -> Prop :=
| served_initial : served initial_device
| served_step d ce d' : served d -> served_exec d ce = Some d' -> served d'.

(** The requests of the application to the catalogue: a search, the
    popular list, or the details of a movie that the catalogue
    listed. *)
Definition request_ok t : Prop :=
  match t with
  | TFetch url k =>
      (exists msg q, k = list_on_fetch msg /\ url = search_url API_KEY q) \/
      (exists msg, k = list_on_fetch msg /\ url = popular_url API_KEY) \/
      (exists m, lists C m = true /\ k = details_on_fetch /\
                 url = details_url_of API_KEY (id_of m))
  | TJson _ _ => True
  end.

Definition requests_ok w : Prop :=
  forall id t, pending w !! id = Some t -> request_ok t.

(** A request is lost on the way. *)
Definition is_loss ce : bool :=
  match ce with
  | Loss _ => true
  | _ => false
  end.

(** The handlers that a refused key leaves in flight: list requests,
    and the bodies of refusals. *)
Definition silent_task t : Prop :=
  match t with
  | TFetch url k =>
      (exists msg, k = list_on_fetch msg) /\
      (url = popular_url API_KEY \/ exists q, url = search_url API_KEY q)
  | TJson r k => (exists msg, k = list_on_json msg) /\ r = refusal
  end.

(** The worlds of a device whose key is refused. *)
Record silent w : Prop := mkSilent {
  silent_movies : movies (view w) = VArr [];
  silent_modal : modal_cells (view w) = (VNull, false);
  silent_details : detail_cells (view w) = (VNull, VArr []);
  silent_console : console w = [];
  silent_tasks : forall id t, pending w !! id = Some t -> silent_task t;
}.

(** What holds of the closed system: its answers are answers of the
    catalogue, its requests are requests to it, and the device is a
    device on the documented catalogue. *)
Record served_inv d : Prop := mkServedInv {
  served_fit : fit_reachable API_KEY (served_answer C) (world d);
  served_requests : requests_ok (world d);
  served_documented : documented API_KEY d;
}.

(** The device after a run of the closed system from the start. *)
Definition served_after (ces : list (client_event num)) : Device num :=
  default initial_device (served_exec_all initial_device ces).

End served.

(** A search for "Bat", answered and read; then Batman is opened, and
    its details are answered and read. *)
Definition bat_searched : list (client_event Z) :=
  [Touch (ChangeText "Bat"); Touch PressSearch; Answer 0; Body 0].

Definition batman_opened : list (client_event Z) :=
  bat_searched ++ [Touch (PressMovie batman); Answer 1; Body 1].

(** Batman is opened and closed, then Joker is opened; the details of
    Joker arrive first, those of Batman after them. *)
Definition late_details : list (client_event Z) :=
  [Touch PressPopular; Answer 0; Body 0;
   Touch (PressMovie batman); Touch PressClose;
   Touch (PressMovie joker); Answer 2; Body 2; Answer 1; Body 1].

(** * Properties *)

Section served_props.
Context {num : Type} `{!JsNumber num} `{!JsDate num}.
Context `{!Inj (=) (=) (num_to_string (num := num))}.
Variable API_KEY : string.
Variable C : Catalogue num.
Hypothesis Hkey : plain_key API_KEY = true.
Hypothesis HC : catalogue_ok C.
Hypothesis Haccepts : accepts C API_KEY = true.
Implicit Types (d : Device num) (w : World num) (e : event num)
  (ce : client_event num) (t : task num) (id : nat) (m : value num)
  (kd : task_kind).

Lemma served_answer_keyed kd o :
  served_answer C kd o = true -> keyed_answer kd o = true.
Proof. by intros [? _]%andb_prop. Qed.

Lemma served_answer_rejected kd err :
  served_answer C kd (Rejected err) = true.
Proof. by destruct kd. Qed.

(** The answer of the catalogue to a request of the application is an
    answer of the kind that the handler expects. *)
Lemma request_fits url k kd :
  request_ok API_KEY C (TFetch url k) -> task_of (TFetch url k) kd ->
  served_answer C kd (Resolved (serve C url)) = true.
Proof.
  intros [(msg & q & -> & ->)|[(msg & -> & ->)|(m & Hm & -> & ->)]] Ht;
    inversion Ht; subst.
  - by apply serve_search_fits.
  - by destruct (list_on_fetch_not_details msg).
  - by apply serve_popular_fits.
  - by destruct (list_on_fetch_not_details msg).
  - match goal with H : list_on_fetch _ = _ |- _ =>
      by destruct (list_on_fetch_not_details _ H) end.
  - by apply serve_details_fits.
Qed.

(** The movies on screen are movies that the catalogue lists. *)
Lemma movies_listed w l :
  fit_reachable API_KEY (served_answer C) w -> movies (view w) = VArr l ->
  forallb (lists C) l = true.
Proof.
  intros Hw. revert l.
  apply (fit_reachable_lists API_KEY (served_answer C)
           (fun v => forall l, v = VArr l -> forallb (lists C) l = true)
           (fun _ => True)) in Hw as [Hm _]; [done|by intros l [= <-]|done| |done].
  intros msg r results [_ Hl]%andb_prop Hres l ->. simpl in Hl.
  unfold list_result in Hres. destruct (body r) as [data|]; [|done].
  unfold opt_get in Hl. destruct (get data "results") as [v|]; [|done].
  case_match; by simplify_eq.
Qed.

(** A press on an item is a press on a movie of the list. *)
Lemma pressable_listed w item :
  fit_reachable API_KEY (served_answer C) w ->
  pressable item (view w) = true -> lists C item = true.
Proof.
  intros Hw [_ Hin]%andb_prop.
  destruct (movies (view w)) as [| | | | |l|] eqn:Hm; try done.
  apply bool_decide_eq_true, list_elem_of_In in Hin.
  by apply (proj1 (forallb_forall _ _) (movies_listed _ _ Hw Hm)).
Qed.

Lemma requests_ok_initial : requests_ok API_KEY C (initial_world (num := num)).
Proof. intros id t Hid. simpl in Hid. by rewrite lookup_empty in Hid. Qed.

Lemma requests_ok_step w e w' :
  fit_reachable API_KEY (served_answer C) w -> requests_ok API_KEY C w ->
  step API_KEY w e w' -> requests_ok API_KEY C w'.
Proof.
  intros Hw Hrq Hstep.
  pose proof (inv_reachable _ _ (fit_reachable_reachable _ _ _ Hw)) as Hi.
  apply (step_iff_effect _ _ _ _ Hi) in Hstep as (a & Hres & Hg & ->).
  intros id [url k|r k] Hid; [|done].
  apply perform_fetch in Hid as [Hold|[-> Hreq]]; [by eapply Hrq|].
  destruct a; simplify_eq/=.
  - case_decide; simplify_eq. left. eauto.
  - right; left. eauto.
  - right; right. exists item. split_and!; [|done..].
    by eapply pressable_listed.
Qed.

(** What an event of the closed system is for the device. *)
Lemma served_exec_inv d ce d' :
  served_exec API_KEY C d ce = Some d' ->
  (exists e w', device_event_of C d ce = Some (AppEvent e) /\
     focused (world d) e = true /\ app_step API_KEY (world d) e w' /\
     d' = with_world w' d) \/
  (exists url o, ce = Link url o /\
     device_step API_KEY d (PressLink url o) d' /\ world d' = world d).
Proof.
  unfold served_exec.
  destruct (device_event_of C d ce) as [[e|url o]|] eqn:Hev; [| |done]; simpl.
  - destruct (focused_exec API_KEY (world d) e) as [w'|] eqn:Hex; [|done].
    intros [= <-]. apply focused_exec_step in Hex as [Hf Hstep].
    left. by exists e, w'.
  - intros Hex. right. exists url, o.
    assert (ce = Link url o) as -> by (destruct ce; simplify_eq/=; by repeat case_match).
    split_and!; [done|by apply device_exec_step|].
    case_bool_decide; simplify_eq. by destruct url.
Qed.

(** The answers of the closed system are answers of the catalogue. *)
Lemma answers_served d ce e :
  requests_ok API_KEY C (world d) ->
  device_event_of C d ce = Some (AppEvent e) ->
  answers_fit (served_answer C) (world d) e.
Proof.
  intros Hrq Hev id o t kd -> Hid Ht. destruct ce; simplify_eq/=.
  - by destruct e.
  - destruct (pending (world d) !! id0) as [[url k|]|] eqn:Hid0; simplify_eq.
    apply (request_fits url k); [by apply (Hrq id)|done].
  - apply served_answer_rejected.
Qed.

Lemma served_inv_initial : served_inv API_KEY C initial_device.
Proof. split; [constructor|apply requests_ok_initial|constructor]. Qed.

Lemma served_inv_step d ce d' :
  served_inv API_KEY C d -> served_exec API_KEY C d ce = Some d' ->
  served_inv API_KEY C d'.
Proof.
  intros [Hfit Hrq Hdoc]
    [(e & w' & Hev & Hf & Hstep & ->)|(url & o & -> & Hstep & Hw)]%served_exec_inv.
  - pose proof (answers_served _ _ _ Hrq Hev) as Ha. split; simpl.
    + econstructor; [done|by apply offered_step|done].
    + eapply requests_ok_step; [done..|by apply offered_step].
    + apply (documented_step _ d (AppEvent e)); [done|by constructor|].
      split; [done|].
      eapply answers_fit_impl; [|done]. apply served_answer_keyed.
  - split; rewrite ?Hw; [done..|].
    by apply (documented_step _ d (PressLink url o)).
Qed.

Lemma served_served_inv d : served API_KEY C d -> served_inv API_KEY C d.
Proof.
  induction 1; [apply served_inv_initial|by eapply served_inv_step].
Qed.

(** A transition of the machine from a served device is an event of
    the closed system, when the cover lets it through. *)
Lemma served_exec_app d ce e w' :
  served API_KEY C d -> device_event_of C d ce = Some (AppEvent e) ->
  focused (world d) e = true -> step API_KEY (world d) e w' ->
  served_exec API_KEY C d ce = Some (with_world w' d).
Proof.
  intros Hd Hev Hf Hstep. unfold served_exec. rewrite Hev. simpl.
  assert (focused_exec API_KEY (world d) e = Some w') as ->; [|done].
  apply focused_exec_step. split; [done|].
  apply rendered_step_app_step; [|done].
  apply (correct_renders _ (documented_is_correct API_KEY d
           (served_documented _ _ _ (served_served_inv _ Hd)))).
Qed.

(** A request and its answer: the press, the answer of the catalogue
    and the reading of its body. *)
Lemma round_trip d e a url k kd :
  served API_KEY C d -> modalVisible (view (world d)) = false ->
  settles e = None -> resolves (world d) e a -> guard a (world d) = true ->
  request_of API_KEY a (world d) = Some (TFetch url k) ->
  task_of (TFetch url k) kd ->
  served_exec_all API_KEY C d
    [Touch e; Answer (next_id (world d)); Body (next_id (world d))] =
  Some (with_world
          (ended kd (Resolved (serve C url)) (next_id (world d))
             (reading (next_id (world d)) (serve C url) (on_json kd)
                (perform API_KEY a (world d)))) d).
Proof.
  intros Hd Hm He Hres Hg Hreq Ht. set (n := next_id (world d)).
  set (w1 := perform API_KEY a (world d)).
  assert (pending w1 !! n = Some (TFetch url k)) as Hn.
  { unfold w1, n. destruct a; simplify_eq/=; try case_decide; simplify_eq/=;
      by rewrite lookup_insert_eq. }
  assert (served_exec API_KEY C d (Touch e) = Some (with_world w1 d)) as H1.
  { apply (served_exec_app d (Touch e) e); [done|by simpl; rewrite He| |].
    - unfold focused. by rewrite Hm.
    - apply effect_to_step. by exists a. }
  pose proof (served_step _ _ _ _ _ Hd H1) as Hd1.
  set (w2 := reading n (serve C url) (on_json kd) w1).
  assert (served_exec API_KEY C (with_world w1 d) (Answer n) =
          Some (with_world w2 (with_world w1 d))) as H2.
  { apply (served_exec_app _ (Answer n) (FetchSettles n (Resolved (serve C url))));
      [done|by simpl; rewrite Hn|by unfold focused; rewrite andb_false_r|].
    apply effect_to_step. exists (Receive n kd (serve C url)).
    split_and!; [by apply (resolves_response _ n url k)|done..]. }
  pose proof (served_step _ _ _ _ _ Hd1 H2) as Hd2.
  assert (served_exec API_KEY C (with_world w2 (with_world w1 d)) (Body n) =
          Some (with_world (ended kd (Resolved (serve C url)) n w2)
                  (with_world w2 (with_world w1 d)))) as H3.
  { apply (served_exec_app _ (Body n) (JsonSettles n));
      [done|done|by unfold focused; rewrite andb_false_r|].
    apply effect_to_step. exists (Finish n kd (Resolved (serve C url))).
    split_and!; [|done..].
    apply (resolves_body _ n (serve C url) (on_json kd)).
    - simpl. by rewrite lookup_insert_eq.
    - inversion Ht; constructor. }
  simpl. rewrite H1. simpl. rewrite H2. simpl. by rewrite H3.
Qed.

Lemma served_exec_all_served d ces d' :
  served API_KEY C d -> served_exec_all API_KEY C d ces = Some d' ->
  served API_KEY C d'.
Proof.
  revert d. induction ces as [|ce ces IH]; intros d Hd; simpl.
  - by intros [= <-].
  - destruct (served_exec API_KEY C d ce) as [d1|] eqn:Hex; [simpl|done].
    apply IH. by econstructor.
Qed.

Lemma served_after_served ces :
  is_Some (served_exec_all API_KEY C initial_device ces) ->
  served API_KEY C (served_after API_KEY C ces).
Proof.
  intros [d Hd]. unfold served_after. rewrite Hd. simpl.
  eapply served_exec_all_served; [constructor|done].
Qed.

(** ** Theorems *)

(** C11. The device that talks to a catalogue that keeps its promises, with
    a key that it accepts, is the device on the documented catalogue:
    it is correct in every state. *)
Theorem served_correct d : served API_KEY C d -> correct d.
Proof.
  intros Hd%served_served_inv. apply (documented_is_correct API_KEY).
  apply (served_documented _ _ _ Hd).
Qed.

(** C13. Search, end to end: the text on screen is sent, the catalogue
    searches for what it reads of it, and when the answer is read the
    list shows what the catalogue found, in its order, without error
    and without spinner. *)
Theorem search_served d :
  served API_KEY C d -> modalVisible (view (world d)) = false ->
  query (view (world d)) <> EmptyString ->
  exists d',
    served_exec_all API_KEY C d
      [Touch PressSearch; Answer (next_id (world d));
       Body (next_id (world d))] = Some d' /\
    list_cells (view (world d')) =
      (VArr (search_results C
               (before_char "&" (before_char "#" (query (view (world d)))))),
       false, EmptyString).
Proof.
  intros Hd Hm Hq. eexists. split.
  - apply (round_trip d PressSearch StartSearch
             (search_url API_KEY (query (view (world d))))
             (list_on_fetch "Failed to fetch movies")
             (ListTask "Failed to fetch movies")); try done.
    + constructor.
    + simpl. by rewrite decide_False.
    + constructor.
  - simpl. by rewrite serve_search, Haccepts.
Qed.

(** C12. A press on a movie of the list, end to end: the modal opens on
    the movie, the catalogue is asked for the details of that movie,
    and when they are read the modal shows its first trailer and its
    providers; nothing is written to the console. *)
Theorem open_served d m :
  served API_KEY C d -> modalVisible (view (world d)) = false ->
  pressable m (view (world d)) = true ->
  exists d' data trailer,
    details_of C (id_of m) = Some data /\ id_of data = id_of m /\
    find_trailer data = Ok trailer /\
    served_exec_all API_KEY C d
      [Touch (PressMovie m); Answer (next_id (world d));
       Body (next_id (world d))] = Some d' /\
    modal_cells (view (world d')) = (m, true) /\
    detail_cells (view (world d')) =
      (opt_get trailer "key", or_default (us_flatrate data) (VArr [])) /\
    console (world d') = console (world d).
Proof.
  intros Hd Hm Hp.
  pose proof (pressable_listed _ _ (served_fit _ _ _ (served_served_inv _ Hd)) Hp)
    as Hl.
  destruct (listed_details _ HC m Hl) as [data Hdata].
  destruct (details_keyed _ HC _ _ Hdata) as [Hs _].
  destruct (schema_trailer _ Hs) as (trailer & Hf & _).
  assert (serve C (details_url_of API_KEY (id_of m)) = Response 200 (Some data))
    as Hserve.
  { by rewrite (serve_details C API_KEY Hkey _ (listed_id _ HC m Hl)), Haccepts,
      Hdata. }
  eexists _, data, trailer. split_and!; [done|by eapply details_id|done| |..].
  - apply (round_trip d (PressMovie m) (OpenModal m)
             (details_url_of API_KEY (id_of m)) details_on_fetch DetailsTask);
      try done; constructor.
  - cbn [world with_world view ended completed]. rewrite Hserve.
    by rewrite (details_handler_ok _ _ trailer).
  - cbn [world with_world view ended completed]. rewrite Hserve.
    by rewrite (details_handler_ok _ _ trailer).
  - cbn [world with_world console ended completed]. rewrite Hserve.
    by rewrite (details_handler_ok _ _ trailer).
Qed.

End served_props.

(** * A key that the catalogue refuses *)

Section refused.
Context {num : Type} `{!JsNumber num} `{!JsDate num}.
Variable API_KEY : string.
Variable C : Catalogue num.
Hypothesis Hkey : plain_key API_KEY = true.
Hypothesis Hrefused : accepts C API_KEY = false.
Implicit Types (d : Device num) (w : World num) (e : event num)
  (ce : client_event num) (t : task num) (id : nat) (a : act num).

Lemma list_handler_refusal msg (s : ViewState num) :
  list_handler msg (Resolved refusal) s = setLoading false (setLoading true s).
Proof. reflexivity. Qed.

Lemma list_task_kind url msg kd :
  task_of (TFetch url (list_on_fetch msg)) kd -> kd = ListTask msg.
Proof.
  intros Ht. apply (task_of_functional _ _ _ Ht). constructor.
Qed.

Lemma list_body_kind r msg kd :
  task_of (TJson r (list_on_json msg)) kd -> kd = ListTask msg.
Proof.
  intros Ht. apply (task_of_functional _ _ _ Ht). constructor.
Qed.

Lemma silent_initial : silent API_KEY (initial_world (num := num)).
Proof.
  by constructor.
Qed.

Lemma silent_tasks_insert id t (m : gmap nat (task num)) :
  (forall id t, m !! id = Some t -> silent_task API_KEY t) ->
  silent_task API_KEY t ->
  forall id' t', <[id := t]> m !! id' = Some t' -> silent_task API_KEY t'.
Proof.
  intros Hm Ht id' t' [[_ <-]|[_ ?]]%lookup_insert_Some; eauto.
Qed.

Lemma silent_tasks_delete id (m : gmap nat (task num)) :
  (forall id t, m !! id = Some t -> silent_task API_KEY t) ->
  forall id' t', delete id m !! id' = Some t' -> silent_task API_KEY t'.
Proof. intros Hm id' t' [_ ?]%lookup_delete_Some. eauto. Qed.

(** The acts of the device on a refused key keep the screen empty. *)
Lemma silent_perform w e a :
  silent API_KEY w -> resolves w e a -> guard a w = true ->
  (forall id kd r, a = Receive id kd r -> r = refusal) ->
  silent API_KEY (perform API_KEY a w) /\
  ((forall id kd err, a <> Finish id kd (Rejected err)) ->
   error (view (perform API_KEY a w)) = error (view w)).
Proof.
  intros [Hmv Hmd Hdt Hcs Hts] Hres Hg Hr.
  destruct Hres as [text| | |item| | |id url k kd r Hid Ht
                   |id url k kd err Hid Ht|id r k kd Hid Ht]; simpl in Hg.
  - by split; [constructor|].
  - simpl. case_decide; [by split; [constructor|]|].
    split; [|done]. constructor; try done. simpl.
    apply silent_tasks_insert; [done..|]. split; eauto.
  - split; [|done]. constructor; try done. simpl.
    apply silent_tasks_insert; [done..|]. split; eauto.
  - unfold pressable in Hg. rewrite Hmv in Hg.
    by rewrite andb_false_r in Hg.
  - injection Hmd as _ Hv. congruence.
  - unfold close_shown in Hg. injection Hmd as _ Hv. by rewrite Hv in Hg.
  - rewrite (Hr id kd r eq_refl). split; [|done].
    destruct (Hts _ _ Hid) as [[msg ->] _].
    rewrite (list_task_kind _ _ _ Ht).
    constructor; try done. simpl.
    apply silent_tasks_insert; [by apply silent_tasks_delete|].
    split; eauto.
  - destruct (Hts _ _ Hid) as [[msg ->] _].
    rewrite (list_task_kind _ _ _ Ht). split.
    + constructor; try done. simpl. by apply silent_tasks_delete.
    + intros Hne. by destruct (Hne id (ListTask msg) err).
  - destruct (Hts _ _ Hid) as [[msg ->] ->].
    rewrite (list_body_kind _ _ _ Ht). cbn [perform ended].
    rewrite list_handler_refusal. split; [|done].
    constructor; try done. simpl. by apply silent_tasks_delete.
Qed.

(** The answer of the catalogue to a request of a silent device is a
    refusal. *)
Lemma silent_answer w id url k :
  silent API_KEY w -> pending w !! id = Some (TFetch url k) ->
  serve C url = refusal.
Proof.
  intros Hw Hid. destruct (silent_tasks _ _ Hw _ _ Hid) as [_ [->|[q ->]]].
  - by rewrite serve_popular, Hrefused.
  - by rewrite serve_search, Hrefused.
Qed.

Lemma served_device_reachable d :
  served API_KEY C d -> device_reachable API_KEY d.
Proof.
  induction 1 as [|d ce d' _ IH Hex]; [constructor|].
  apply served_exec_inv in Hex
    as [(e & w' & _ & _ & Hstep & ->)|(url & o & _ & Hstep & _)];
    econstructor; [done|by constructor|done..].
Qed.

Lemma silent_step d ce d' :
  served API_KEY C d -> silent API_KEY (world d) ->
  served_exec API_KEY C d ce = Some d' ->
  silent API_KEY (world d') /\
  (is_loss ce = false ->
   error (view (world d')) = error (view (world d))).
Proof.
  intros Hd Hs
    [(e & w' & Hev & _ & Hstep%offered_step & ->)|(url & o & _ & _ & ->)]%served_exec_inv;
    [|done].
  apply (step_iff_effect _ _ _ _ (device_inv _ _ (served_device_reachable _ Hd)))
    in Hstep as (a & Hres & Hg & ->).
  destruct (silent_perform _ _ _ Hs Hres Hg) as [Hs' He].
  - intros id kd r ->. inversion Hres; subst.
    destruct ce as [e'| |id'| |]; simplify_eq/=; [by destruct e'|].
    destruct (pending (world d) !! id') as [[url' k'|]|] eqn:Hid';
      simplify_eq.
    by eapply silent_answer.
  - split; [done|]. intros Hl. apply He. intros id kd err ->.
    inversion Hres; subst.
    destruct ce as [e'| |id'| |]; simplify_eq/=; [by destruct e'|].
    by destruct (pending (world d) !! id') as [[]|].
Qed.

Lemma silent_run d ces d' :
  served API_KEY C d -> silent API_KEY (world d) ->
  served_exec_all API_KEY C d ces = Some d' ->
  silent API_KEY (world d') /\
  (forallb (fun ce => negb (is_loss ce)) ces = true ->
   error (view (world d')) = error (view (world d))).
Proof.
  revert d. induction ces as [|ce ces IH]; intros d Hd Hs; simpl.
  - by intros [= <-].
  - destruct (served_exec API_KEY C d ce) as [d1|] eqn:Hex; [simpl|done].
    destruct (silent_step _ _ _ Hd Hs Hex) as [Hs1 He1]. intros Hrun.
    destruct (IH d1 (served_step _ _ _ _ _ Hd Hex) Hs1 Hrun) as [Hs' He'].
    split; [done|]. intros [Hl%negb_true_iff Hces]%andb_prop.
    by rewrite He', He1.
Qed.

(** C16. With a key that the catalogue refuses the list stays empty and the
    modal closed, whatever is typed and pressed; and as long as no
    request is lost on the way, no error is shown: the refusal of the
    catalogue is an answer like another, in which [results] is
    missing. *)
Theorem refused_key_silent ces d :
  served_exec_all API_KEY C initial_device ces = Some d ->
  movies (view (world d)) = VArr [] /\
  modalVisible (view (world d)) = false /\
  console (world d) = [] /\
  (forallb (fun ce => negb (is_loss ce)) ces = true ->
   error (view (world d)) = EmptyString).
Proof.
  intros Hrun.
  destruct (silent_run initial_device ces d) as [[Hmv Hmd _ Hcs _] He];
    [constructor|apply silent_initial|done|].
  split_and!; [done|by injection Hmd|done|done].
Qed.

End refused.

(** * On the catalogue of the examples *)

Lemma two_movies_ok : catalogue_ok two_movies.
Proof. apply (shelf_ok ["k"]). by vm_compute. Qed.

Lemma served_correct_witness :
  correct (served_after "k" two_movies batman_opened).
Proof.
  apply (served_correct "k" two_movies);
    [reflexivity|apply two_movies_ok|reflexivity|].
  apply served_after_served. by eexists; vm_compute.
Defined.

Lemma search_served_witness :
  exists d',
    served_exec_all "k" two_movies
      (served_after "k" two_movies [Touch (ChangeText "Bat")])
      [Touch PressSearch; Answer 0; Body 0] = Some d' /\
    list_cells (view (world d')) = (VArr [batman], false, EmptyString).
Proof.
  apply (search_served "k" two_movies eq_refl two_movies_ok eq_refl
           (served_after "k" two_movies [Touch (ChangeText "Bat")]));
    [|by vm_compute..].
  apply served_after_served. by eexists; vm_compute.
Defined.

Lemma open_served_witness :
  exists d' data trailer,
    details_of two_movies (id_of batman) = Some data /\
    id_of data = id_of batman /\ find_trailer data = Ok trailer /\
    served_exec_all "k" two_movies (served_after "k" two_movies bat_searched)
      [Touch (PressMovie batman); Answer 1; Body 1] = Some d' /\
    modal_cells (view (world d')) = (batman, true) /\
    detail_cells (view (world d')) =
      (opt_get trailer "key", or_default (us_flatrate data) (VArr [])) /\
    console (world d') = console (world (served_after "k" two_movies bat_searched)).
Proof.
  apply (open_served "k" two_movies eq_refl two_movies_ok eq_refl
           (served_after "k" two_movies bat_searched) batman);
    [|by vm_compute..].
  apply served_after_served. by eexists; vm_compute.
Defined.

Lemma refused_key_silent_witness :
  movies (view (world (served_after "wrong" two_movies bat_searched))) =
    VArr [] /\
  modalVisible (view (world (served_after "wrong" two_movies bat_searched))) =
    false /\
  console (world (served_after "wrong" two_movies bat_searched)) = [] /\
  (forallb (fun ce => negb (is_loss ce)) bat_searched = true ->
   error (view (world (served_after "wrong" two_movies bat_searched))) =
   EmptyString).
Proof.
  apply (refused_key_silent "wrong" two_movies eq_refl eq_refl bat_searched).
  by vm_compute.
Defined.

(** [open_served] is about a request that is answered before another
    movie is opened.  On the same catalogue, with every answer right,
    the modal of Joker ends with the trailer and the provider of
    Batman when the answers arrive in the other order. *)
Example late_details_served :
  exists d,
    served_exec_all "k" two_movies initial_device late_details = Some d /\
    modal_cells (view (world d)) = (joker, true) /\
    detail_cells (view (world d)) = (VStr "y", VArr [provider 8 "Netflix"]) /\
    find_trailer joker_full_details = Ok VUndefined.
Proof. eexists. by vm_compute. Qed.
